(* ===== verification/_CoqProject ===== *)
-Q . S2P
Prelude.v
GoStrings.v
Lru.v
Template.v
Session.v
Reputation.v
Sections.v
GoRegexp.v
Tls.v
GoPath.v
Signature.v
Engine.v
SessionEval.v
Burst.v
Matching.v
FileTree.v
Loader.v
Git.v
GoCrypto.v
Http.v
StatusWriter.v
Sid.v
Challenge.v
RespCache.v
CachePool.v
Float64.v
Duration.v
Solver.v
Protect.v
Netip.v
OrigDst.v
Config.v
Watch.v
Store.v
Forward.v
View.v
Proxy.v
ProxyFacts.v
ProxySpec.v
Visit.v
ProxyExamples.v
Zstd.v
Concurrent.v
ConcurrentExamples.v
FileSys.v
Bootstrap.v
Logging.v
Firewall.v
Main.v
System.v
SystemExamples.v
Live.v
LiveExamples.v
Process.v
ProcessExamples.v
