(* ===== verification/Prelude.v ===== *)
(** * smoker: a model of the reverse-proxy WAF

    smoker terminates TLS in front of a web server, decides about each request
    and forwards what it lets through.  This development models the Go program
    under [src/] and proves what it promises.

    ** The program and its parts

    [cmd/smoker/main.go] starts the parts: it provisions the host on the first
    run ([internal/bootstrap]), loads the configuration ([internal/config]),
    opens the logs ([internal/logging]) and the reputation database
    ([internal/reputation]), loads the templates ([internal/detect]), installs
    the kernel redirect ([internal/firewall]) and the certificates
    ([internal/tlsterm]), and hands everything to the request pipeline
    ([internal/proxy]).  For a request the pipeline asks, in this order: the
    static access lists (config), the session cookie (proxy/sid.go), the state
    of the address (reputation) and whether it must solve a challenge
    (challenge), the detection engine over the compiled templates (detect),
    whose behavioural rules consult the session tracker (session), the budgets
    of the proactive layer (protect), the response cache (cache), and then the
    backend.  Watchers replace templates and lists while requests are served.

    ** Files, from the bottom up

    The language, its library, and the libraries it uses:
    - [Prelude]: panics as values ([go]), 64-bit integers with their
      wrap-around, [time], automation, lemmas on lists and maps.
    - [GoStrings], [GoPath], [GoRegexp], [GoCrypto], [Float64], [Netip], [Http],
      [FileTree], [FileSys]: what smoker uses of [strings], [strconv], [path],
      [regexp], [crypto], [float64], [net/netip], [net/http],
      [filepath.WalkDir] and [os], executable where the behaviour is an
      algorithm, a class with laws where it is data or a large engine
      ([Unicode], [Regexp]).
    - [Lru]: [hashicorp/golang-lru] as a class with its laws, and an instance.

    One file per component ([src/internal/...] in brackets):
    - [Template], [Signature], [Engine], [Matching] [detect/template.go,
      signature.go, engine.go]: templates, their compilation to matchers, the
      choice of the decision, and what the compiled matchers recognise.
    - [Loader], [Git], [Watch] [detect/loader.go, watch.go, config/config.go]:
      loading a template tree, mirroring a repository, and the goroutines that
      reload when files change, as step relations over timed messages.
    - [Duration] [detect/duration.go, config/config.go]: durations in YAML.
    - [Config] [config/config.go]: the configuration, its validation, the access
      lists, the manager that reloads it.
    - [Reputation], [Session] [reputation/reputation.go, session/tracker.go]:
      the per-address state machine with its database, and the sessions;
      [SessionEval] shows that the tracker keeps the engine's interface;
      [Sections] cuts the methods of the reputation manager into their atomic
      sections and runs those of many goroutines in any order; [Burst] does so
      with the inspections and recordings of the requests of one session.
    - [Challenge] [challenge/challenge.go], [Sid] [proxy/sid.go]: tokens, proof
      of work, the challenge pages, signed session ids; [Solver]: the script
      that solves a challenge in the browser.
    - [Protect] [protect/protect.go], [RespCache] [cache/cache.go and its use in
      proxy.go], [CachePool] (its lookups and the bodies that are teed into it,
      among goroutines), [StatusWriter] [proxy/statuswriter.go], [OrigDst]
      [proxy/origdst_linux.go], [Tls] [tlsterm/certloader.go], [Firewall]
      [firewall], [Logging] [logging], [Bootstrap] [bootstrap, paths].
    - [View], [Forward], [Proxy] [proxy/proxy.go]: the client's address and the
      bounded view of a request; the outgoing request, the treatment of the
      response and its copy; the handlers from [ServeHTTP] on.  [Zstd]
      [proxy/compression.go]: the goroutine that compresses a body.
      [Concurrent], [ConcurrentExamples]: the pipeline on a reputation manager
      that other goroutines use at the same time.  [Visit]: a request of the
      pipeline as a run of [Burst].
    - [Main] [cmd/smoker/main.go]: the secret, the life cycle of the redirect,
      the syncs, hot reload, the order of the start-up, signals.
    - [System] [main.go, proxy.New]: the parts put together, and their life:
      requests with reloads between them, stops and restarts on the database;
      [SystemExamples] lives two such lives.  [Live], [LiveExamples]
      [config.go, main.go]: the goroutines that reload the configuration, and
      the requests after an edit.
    - [Process], [ProcessExamples] [main.go, http3.go]: the process around it:
      the command line, the certificates, listeners and redirect, signals,
      shutdown and death.

    Interfaces: the proxy is written against [Store] ([reputation.Store] and
    [session.Tracker], classes with laws that [Reputation] and [Session]
    discharge; [StoreBans] is the part of it about bans, which a store with
    interference keeps too), the engine against [SessionEvaluator], the watchers against
    [Debouncer], the firewall against [NftConn] and [NftKernel].
    The state of a Go object is a record with its fields; a method is a function
    that takes the record and returns the new one; a call that can fail returns
    a sum.  A request is handled in the state and panic monad [Forward.M]; the
    calls of package [os] are in the monad [FileSys.Sys], whose calls may fail
    at any point.  A reading of the clock is an argument.

    ** What the theorems show

    - The pipeline ([ProxySpec], over the Hoare logic of [ProxyFacts], with a
      shop as a worked example in [ProxyExamples]): at most one request reaches
      the backend and it names the client truthfully; verdicts, lists, bans and
      challenges are enforced; a crash of the inspection fails as configured.
    - The engine and the rules ([Engine], [Signature], [Matching]): the strongest rule
      decides; a compiled signature means what the template says; spellings of a
      path do not evade it.
    - The state machines ([Reputation], [Session], [Protect], [RespCache]):
      escalation by sliding window, bans until their term and across a restart,
      the tracker's invariant, budgets within bounds, whole bodies only.
    - What an attacker cannot forge ([Challenge], [Sid], [View]), and that an
      honest client is not kept out: the script of the challenge page ends, with
      the least solution, and its form is accepted ([Solver]).
    - What goroutines do to each other ([Sections], [Concurrent]): a ban holds
      whatever others do to other addresses, and the database catches up with
      the memory; on one address, two calls that overlap can lose a ban in the
      database, and a verification can lift one.  A rate rule is exact up to the
      requests under way at the same time ([Burst], [Visit]), so a burst evades
      it; lookups in the cache find whole, unexpired bodies ([CachePool]); an
      edit of the blocklist refuses its clients without a restart, if a load
      takes no longer than the debounce time, and may be lost if it takes longer
      ([Live]).
    - A compressed response is the whole body or is aborted ([Zstd]).
    - The operation ([Config], [Watch], [Main], [Git], [Tls], [Firewall],
      [Bootstrap], [Logging]): the configuration in force is always
      well-formed, changes on disk are loaded exactly once they settle, the
      redirect is active when it says so (of IPv4; IPv6 passes by smoker), and
      provisioning overwrites no file that it sees (one whose [Stat] fails is
      overwritten).
    - The whole ([System], [Process]): a ban outlives the process and every
      reload; every request is served under a well-formed configuration; what a
      reload reaches and what it does not; in which state the process ends.
    Where the program does not do what its documents say, a theorem says what it
    does do.

    ** Bounds and fuel

    Every recursion over a string or list with fuel takes the length of its
    input, plus one where an empty match is possible: [runes_fuel] (one byte at
    least for a rune), [find_all] of [Tls], [dir_chain] of [FileSys], [segments] of
    [Duration] (a lemma, [segments_fuel], shows that more changes nothing).  The
    loop of an IPv6 address runs over at most 8 groups, the cube roots of
    [GoCrypto] over 40 bits, the message schedule of SHA-256 over 48 words, and
    [mask_loop] of [Challenge] over the 8 bits of a byte, in at most 9 turns,
    as [lz_bits] of [Solver].  A method of the reputation manager has at most
    four sections ([alone_methods]).  The search of the challenge script has no
    bound in the source; [solve_finds_least] says which fuel is enough.

    ** Not modelled

    - Of the HTTP servers, what they do between their start and the call of the
      handler; the attributes of log lines and the message of a first run: output
      without a decision.
    - The transport [proxy.New] configures: it fills in a structure of
      [net/http].  What the transport does within one [RoundTrip], retries of a
      request whose body it can get again ([r_GetBody]) included, is its own.
    - The kernel but for smoker's chain: what other programs' tables do to a
      packet before or after it, and the packets of a connection after its
      first, which the kernel treats like that one ([NftKernel]).
    - Protocol upgrades: what is said on a hijacked connection.
    - The YAML decoder, the JSON of the logs and of the database, [git], the
      zstd encoder, autocert, quic-go, fsnotify: packages outside the
      repository.  They are parameters, with laws where the code relies on them.
    - Symbolic links and hard links in the file system, and the modes of
      directories.
    - Of concurrency: whole requests are served one after the other, but for
      what they do to the reputation manager ([Sections], [Concurrent]), to the
      tracker ([Burst]) and to the cache ([CachePool]), and but for the reloads
      of the configuration ([Live], where a load reads the disk at one instant);
      a budget is assessed wholly under its lock.  Data
      races in the sense of the Go memory model are not modelled:
      [Reputation.Lookup] reads the fields of an entry after it has released the
      lock, and the entry that [RegisterViolation] stores shares its slice of
      violations with the one in memory.  Theorems that depend on those values
      are about calls on different addresses, or about entries that are
      replaced as a whole. *)

From stdpp Require Export base tactics list strings gmap.
From Stdlib Require Export ZArith Lia Sorting.Sorted.

#[global] Open Scope Z_scope.

(** ** Panics

    A Go function that may hit a run-time panic (an out-of-range slice, say)
    returns [go A].  [AbortHandler] is [http.ErrAbortHandler]. *)
Inductive panic : Set :=
| RuntimePanic
| AbortHandler.

Inductive go (A : Type) : Type :=
| Ret (a : A)
| Panic (p : panic).
Arguments Ret {A} a.
Arguments Panic {A} p.

#[export] Instance go_ret : MRet go := @Ret.
#[export] Instance go_bind : MBind go := fun A B f m =>
  match m with Ret a => f a | Panic p => Panic p end.
#[export] Instance go_fmap : FMap go := fun A B f m =>
  match m with Ret a => Ret (f a) | Panic p => Panic p end.

#[export] Instance panic_eq_dec : EqDecision panic.
Proof. solve_decision. Defined.
#[export] Instance go_eq_dec {A} `{EqDecision A} : EqDecision (go A).
Proof. solve_decision. Defined.

(** ** Machine integers and time

    [int], [int64] and [time.Duration] are 64-bit two's complement integers;
    [int64_wrap] is the wrap-around of an arithmetic operation on them.
    A [time.Time] is the number of nanoseconds since Go's zero time
    (January 1, year 1, UTC), so [IsZero] is [t =? 0]. *)
Definition max_int64 : Z := 2 ^ 63 - 1.
Definition min_int64 : Z := - 2 ^ 63.

Definition int64_wrap (z : Z) : Z := (z + 2 ^ 63) `mod` 2 ^ 64 - 2 ^ 63.

Definition is_int64 (z : Z) : Prop := min_int64 <= z <= max_int64.

Abbreviation time := Z (only parsing).
Abbreviation duration := Z (only parsing).

Definition Second : duration := 1000000000.
Definition Minute : duration := 60 * Second.
Definition Hour : duration := 60 * Minute.

Module Time.

(** [Time.Sub] saturates at the range of [Duration]. *)
Definition Sub (t u : time) : duration :=
  Z.max min_int64 (Z.min max_int64 (t - u)).

Definition Add (t : time) (d : duration) : time := t + d.

Definition After (t u : time) : bool := u <? t.

Definition IsZero (t : time) : bool := t =? 0.

(** Seconds from year 1 to 1970. *)
Definition unixToInternal : Z := 62135596800.

Definition Unix (t : time) : Z := t / Second - unixToInternal.

End Time.

Lemma int64_wrap_id z : is_int64 z -> int64_wrap z = z.
Proof.
  unfold is_int64, min_int64, max_int64, int64_wrap. intros.
  rewrite Z.mod_small; lia.
Qed.

Lemma int64_wrap_range z : is_int64 (int64_wrap z).
Proof.
  unfold is_int64, min_int64, max_int64, int64_wrap.
  pose proof (Z.mod_pos_bound (z + 2 ^ 63) (2 ^ 64) ltac:(lia)). lia.
Qed.

Lemma int64_opp d : 0 <= d <= max_int64 -> int64_wrap (- d) = - d.
Proof.
  intros. apply int64_wrap_id. unfold is_int64, min_int64, max_int64 in *. lia.
Qed.

Lemma Sub_small t u : is_int64 (t - u) -> Time.Sub t u = t - u.
Proof. unfold is_int64, Time.Sub. lia. Qed.

(** The comparison [now.Sub(t) > ttl] of the code, without saturation: a
    [ttl] is itself a [Duration], so saturating at its maximum is harmless. *)
Lemma Sub_gt t u d : is_int64 d -> d < Time.Sub t u <-> d < t - u /\ d < max_int64.
Proof. unfold is_int64, Time.Sub, min_int64, max_int64. lia. Qed.

(** ** Maps

    The order in which a [range] loop meets the entries of a map is
    unspecified: a parameter, of which only the law is known. *)
Class MapIter := map_iter : gmap string string -> list (string * string).

Class MapIterLaws `{MapIter} : Prop := map_iter_perm h : map_iter h ≡ₚ map_to_list h.

(** ** Tactics and hints *)

Create HintDb smoker discriminated.
Create Rewrite HintDb smoker_rw.

#[export] Hint Resolve int64_wrap_range : smoker.
#[export] Hint Rewrite int64_opp Sub_small using (unfold is_int64, min_int64, max_int64 in *; lia) : smoker_rw.

(** Reflect the boolean tests of the code into propositions. *)
Ltac bool_to_prop :=
  repeat match goal with
  | H : (_ && _)%bool = true |- _ => apply andb_true_iff in H; destruct H
  | H : (_ || _)%bool = false |- _ => apply orb_false_iff in H; destruct H
  | H : negb _ = true |- _ => apply negb_true_iff in H
  | H : negb _ = false |- _ => apply negb_false_iff in H
  | H : (_ <? _) = true |- _ => apply Z.ltb_lt in H
  | H : (_ <? _) = false |- _ => apply Z.ltb_ge in H
  | H : (_ <=? _) = true |- _ => apply Z.leb_le in H
  | H : (_ <=? _) = false |- _ => apply Z.leb_gt in H
  | H : (_ =? _) = true |- _ => apply Z.eqb_eq in H
  | H : (_ =? _) = false |- _ => apply Z.eqb_neq in H
  | H : String.eqb _ _ = true |- _ => apply String.eqb_eq in H
  | H : String.eqb _ _ = false |- _ => apply String.eqb_neq in H
  | H : Time.After _ _ = true |- _ => unfold Time.After in H
  | H : Time.After _ _ = false |- _ => unfold Time.After in H
  end.

(** Case analysis on the condition of the first [if] or [match] of the goal. *)
Ltac case_cond :=
  match goal with
  | |- context [if ?b then _ else _] => destruct b eqn:?
  | |- context [match ?m with _ => _ end] => destruct m eqn:?
  end.

(** ** Lists *)

Section Lists.
Context {A : Type}.
Implicit Types l : list A.

(** The last [n] elements: Go's [l[len(l)-n:]] when [n <= len(l)]. *)
Definition last_n (n : nat) l : list A := drop (length l - n) l.

Lemma last_n_length n l : length (last_n n l) = Nat.min n (length l).
Proof. unfold last_n. rewrite length_drop. lia. Qed.

Lemma last_last_n n l : (0 < n)%nat -> last (last_n n l) = last l.
Proof.
  intros. rewrite !last_lookup, last_n_length. unfold last_n. rewrite lookup_drop.
  destruct (decide (length l = 0%nat)) as [E|E].
  - apply length_zero_iff_nil in E as ->. by rewrite lookup_nil.
  - f_equal. lia.
Qed.

Lemma Forall_drop_keep (P : A -> Prop) n l : Forall P l -> Forall P (drop n l).
Proof. apply Forall_drop. Qed.

Lemma StronglySorted_drop (R : A -> A -> Prop) n l :
  StronglySorted R l -> StronglySorted R (drop n l).
Proof.
  revert n; induction l as [|x l IH]; intros [|n] H; simpl; auto.
  apply IH. by inversion H.
Qed.

Lemma StronglySorted_snoc (R : A -> A -> Prop) l x :
  StronglySorted R l -> Forall (fun y => R y x) l -> StronglySorted R (l ++ [x]).
Proof.
  induction 1 as [|y l Hs IH Hy]; simpl; intros HF.
  - repeat constructor.
  - inversion HF; subst. constructor; [by apply IH|].
    apply Forall_app. split; [done|]. by constructor.
Qed.

Lemma filter_length_le (P : A -> Prop) `{!forall x, Decision (P x)} l :
  (length (filter P l) <= length l)%nat.
Proof. apply length_filter. Qed.

End Lists.

#[export] Hint Resolve Forall_drop_keep StronglySorted_drop StronglySorted_snoc : smoker.

Lemma Forall2_elem_of_l {A B} (P : A -> B -> Prop) l k x :
  Forall2 P l k -> x ∈ l -> exists y, y ∈ k /\ P x y.
Proof.
  induction 1 as [|x' y' l k Hp _ IH]; [by intros ?%elem_of_nil|].
  intros [->|Hx]%elem_of_cons; [exists y'|]; [by split; [left|]|].
  destruct (IH Hx) as (y & Hy & ?). exists y. by split; [right|].
Qed.

Lemma Forall2_elem_of_r {A B} (P : A -> B -> Prop) l k y :
  Forall2 P l k -> y ∈ k -> exists x, x ∈ l /\ P x y.
Proof.
  induction 1 as [|x' y' l k Hp _ IH]; [by intros ?%elem_of_nil|].
  intros [->|Hy]%elem_of_cons; [exists x'|]; [by split; [left|]|].
  destruct (IH Hy) as (x & Hx & ?). exists x. by split; [right|].
Qed.
