(* ===== verification/GoStrings.v ===== *)
(** * Go strings

    The functions of Go's [strings] and [strconv] packages that smoker uses, on
    byte strings.  [len], slices and searches work on bytes, as in Go.  The
    case-mapping and white-space functions take Go's ASCII fast path; on a
    string with a byte above 127 they consult the Unicode tables, which are the
    class [Unicode] (Go's tables are data, not code). *)

From Stdlib Require Export Ascii.
From Stdlib Require Import DecimalString DecimalN DecimalZ.
From S2P Require Export Prelude.

Abbreviation byte := ascii (only parsing).

Declare Scope go_scope.
Delimit Scope go_scope with go.
#[global] Open Scope go_scope.
Infix "=?s" := String.eqb (at level 70, no associativity) : go_scope.
Infix "=?c" := Ascii.eqb (at level 70, no associativity) : go_scope.

(** [len(s)] *)
Definition len (s : string) : Z := Z.of_nat (String.length s).

Fixpoint str_take (n : nat) (s : string) : string :=
  match n, s with
  | S n, String c s => String c (str_take n s)
  | _, _ => ""
  end.

Fixpoint str_drop (n : nat) (s : string) : string :=
  match n, s with
  | S n, String _ s => str_drop n s
  | _, _ => s
  end.

(** [s[i:j]]; out of range it panics. *)
Definition slice (s : string) (i j : Z) : go string :=
  if (0 <=? i) && (i <=? j) && (j <=? len s)
  then Ret (str_take (Z.to_nat (j - i)) (str_drop (Z.to_nat i) s))
  else Panic RuntimePanic.

(** [s[0]] and [s[len(s)-1]], when there is one. *)
Definition first_byte (s : string) : option byte := String.get 0 s.
Definition last_byte (s : string) : option byte := String.get (String.length s - 1) s.

Definition HasPrefix (s p : string) : bool := String.prefix p s.

Definition HasSuffix (s p : string) : bool :=
  (String.length p <=? String.length s)%nat
  && (str_drop (String.length s - String.length p) s =?s p).

Fixpoint Contains (s sub : string) : bool :=
  String.prefix sub s ||
  match s with
  | EmptyString => false
  | String _ s' => Contains s' sub
  end.

(** [strings.Index]; Go's -1 is [None]. *)
Fixpoint Index (s sub : string) : option nat :=
  if String.prefix sub s then Some 0%nat else
  match s with
  | EmptyString => None
  | String _ s' => S <$> Index s' sub
  end.

Fixpoint IndexByte (s : string) (c : byte) : option nat :=
  match s with
  | EmptyString => None
  | String x s' => if x =?c c then Some 0%nat else S <$> IndexByte s' c
  end.

Fixpoint LastIndexByte (s : string) (c : byte) : option nat :=
  match s with
  | EmptyString => None
  | String x s' =>
      match LastIndexByte s' c with
      | Some i => Some (S i)
      | None => if x =?c c then Some 0%nat else None
      end
  end.

(** [strings.IndexAny] for a set of ASCII bytes. *)
Fixpoint IndexAny (s : string) (p : byte -> bool) : option nat :=
  match s with
  | EmptyString => None
  | String x s' => if p x then Some 0%nat else S <$> IndexAny s' p
  end.

Fixpoint str_forallb (p : byte -> bool) (s : string) : bool :=
  match s with
  | EmptyString => true
  | String x s' => p x && str_forallb p s'
  end.

Definition str_existsb (p : byte -> bool) (s : string) : bool :=
  negb (str_forallb (fun c => negb (p c)) s).

Fixpoint str_map (f : byte -> byte) (s : string) : string :=
  match s with
  | EmptyString => ""
  | String x s' => String (f x) (str_map f s')
  end.

(** [strings.Split(s, sep)] for a one-byte separator. *)
Fixpoint Split (s : string) (sep : byte) : list string :=
  match s with
  | EmptyString => [""]
  | String x s' =>
      if x =?c sep then "" :: Split s' sep
      else match Split s' sep with
           | [] => [String x ""]
           | w :: ws => String x w :: ws
           end
  end.

(** [strings.Cut(s, sep)] for a one-byte separator: before, after, found. *)
Definition Cut (s : string) (sep : byte) : string * string * bool :=
  match IndexByte s sep with
  | Some i => (str_take i s, str_drop (S i) s, true)
  | None => (s, "", false)
  end.

(** [strings.SplitN(s, sep, n)], [n >= 1], for a one-byte separator. *)
Fixpoint SplitN (s : string) (sep : byte) (n : nat) : list string :=
  match n with
  | O => []
  | 1%nat => [s]
  | S n' =>
      match Cut s sep with
      | (a, b, true) => a :: SplitN b sep n'
      | (_, _, false) => [s]
      end
  end.

Fixpoint Join (l : list string) (sep : string) : string :=
  match l with
  | [] => ""
  | [x] => x
  | x :: l' => x +:+ sep +:+ Join l' sep
  end.

(** ** ASCII and Unicode case mapping *)

Definition byte_N (c : byte) : N := N_of_ascii c.
Definition is_ascii (c : byte) : bool := (byte_N c <? 128)%N.
Definition isASCII (s : string) : bool := str_forallb is_ascii s.

Definition is_upper (c : byte) : bool := ((65 <=? byte_N c) && (byte_N c <=? 90))%N.
Definition is_lower (c : byte) : bool := ((97 <=? byte_N c) && (byte_N c <=? 122))%N.
Definition byte_lower (c : byte) : byte :=
  if is_upper c then ascii_of_N (byte_N c + 32) else c.
Definition byte_upper (c : byte) : byte :=
  if is_lower c then ascii_of_N (byte_N c - 32) else c.

(** [' '], [\t], [\n], [\v], [\f], [\r] *)
Definition is_space (c : byte) : bool :=
  ((byte_N c =? 32) || ((9 <=? byte_N c) && (byte_N c <=? 13)))%N.

(** The Unicode tables of package [unicode], as [strings.Map(unicode.ToLower)],
    [strings.Map(unicode.ToUpper)], [strings.EqualFold], [strings.TrimSpace]
    and [strings.Fields] apply them to a string that is not all ASCII. *)
Class Unicode := {
  unicode_lower : string -> string;
  unicode_upper : string -> string;
  unicode_equal_fold : string -> string -> bool;
  unicode_trim_space : string -> string;
  unicode_fields : string -> list string;
}.

(** Drop the leading bytes that satisfy [p]. *)
Fixpoint trim_left (p : byte -> bool) (s : string) : string :=
  match s with
  | EmptyString => ""
  | String x s' => if p x then trim_left p s' else s
  end.

(** Drop the trailing bytes that satisfy [p]. *)
Fixpoint trim_right (p : byte -> bool) (s : string) : string :=
  match s with
  | EmptyString => ""
  | String x s' =>
      match trim_right p s' with
      | EmptyString => if p x then "" else String x ""
      | t => String x t
      end
  end.

(** The maximal runs of bytes that do not satisfy [p]. *)
Fixpoint fields_aux (p : byte -> bool) (s : string) (cur : string) : list string :=
  match s with
  | EmptyString => if cur =?s "" then [] else [cur]
  | String x s' =>
      if p x
      then (if cur =?s "" then [] else [cur]) ++ fields_aux p s' ""
      else fields_aux p s' (cur +:+ String x "")
  end.

Section Unicode.
Context `{Unicode}.

Definition ToLower (s : string) : string :=
  if isASCII s then str_map byte_lower s else unicode_lower s.

Definition ToUpper (s : string) : string :=
  if isASCII s then str_map byte_upper s else unicode_upper s.

Definition EqualFold (s t : string) : bool :=
  if isASCII s && isASCII t
  then str_map byte_lower s =?s str_map byte_lower t
  else unicode_equal_fold s t.

Definition TrimSpace (s : string) : string :=
  if isASCII s then trim_right is_space (trim_left is_space s) else unicode_trim_space s.

Definition Fields (s : string) : list string :=
  if isASCII s then fields_aux is_space s "" else unicode_fields s.

End Unicode.

(** Tables that leave every non-ASCII byte alone, for the concrete examples. *)
Definition ascii_only : Unicode := {|
  unicode_lower := str_map byte_lower;
  unicode_upper := str_map byte_upper;
  unicode_equal_fold s t := str_map byte_lower s =?s str_map byte_lower t;
  unicode_trim_space s := trim_right is_space (trim_left is_space s);
  unicode_fields s := fields_aux is_space s "";
|}.

(** ** strconv *)

(** [strconv.Itoa] and [strconv.FormatInt(_, 10)] *)
Definition Itoa (z : Z) : string := NilZero.string_of_int (Z.to_int z).

(** [strconv.ParseInt(s, 10, 64)] and [strconv.Atoi(s)] (a 64-bit [int]):
    an optional sign, at least one decimal digit, in range. *)
Definition ParseInt (s : string) : option Z :=
  let '(neg, digits) :=
    match s with
    | String "-" r => (true, r)
    | String "+" r => (false, r)
    | _ => (false, s)
    end in
  n ← Z.of_N ∘ N.of_uint <$> NilZero.uint_of_string digits;
  if (neg : bool)
  then if n <=? 2 ^ 63 then Some (- n) else None
  else if n <? 2 ^ 63 then Some n else None.

Definition Atoi (s : string) : option Z := ParseInt s.

(** ** Lemmas: append, take, drop *)

Lemma str_app_cons c s t : (String c s) +:+ t = String c (s +:+ t).
Proof. reflexivity. Qed.

Lemma str_app_nil_l s : "" +:+ s = s.
Proof. reflexivity. Qed.

Lemma str_app_nil_r s : s +:+ "" = s.
Proof. induction s as [|c s IH]; [done|]. by rewrite str_app_cons, IH. Qed.

Lemma str_app_assoc s t u : (s +:+ t) +:+ u = s +:+ (t +:+ u).
Proof. induction s as [|c s IH]; [done|]. by rewrite !str_app_cons, IH. Qed.

Lemma str_length_app s t : String.length (s +:+ t) = (String.length s + String.length t)%nat.
Proof. induction s as [|c s IH]; [done|]. rewrite str_app_cons. simpl. by rewrite IH. Qed.

Lemma str_app_inj_l s t u : s +:+ t = s +:+ u -> t = u.
Proof.
  induction s as [|c s IH]; [done|]. rewrite !str_app_cons.
  intros [= E]. by apply IH.
Qed.

Lemma str_take_drop n s : str_take n s +:+ str_drop n s = s.
Proof.
  revert s; induction n as [|n IH]; intros [|c s]; simpl; try done.
  by rewrite str_app_cons, IH.
Qed.

Lemma str_drop_0 s : str_drop 0 s = s.
Proof. by destruct s. Qed.

Lemma str_take_app s t : str_take (String.length s) (s +:+ t) = s.
Proof. induction s as [|c s IH]; [by destruct t|]. rewrite str_app_cons. simpl. by rewrite IH. Qed.

Lemma str_drop_app s t : str_drop (String.length s) (s +:+ t) = t.
Proof. induction s as [|c s IH]; [by destruct t|]. rewrite str_app_cons. done. Qed.

Lemma str_take_full n s : (String.length s <= n)%nat -> str_take n s = s.
Proof.
  revert s; induction n as [|n IH]; intros [|c s]; simpl; intros; try done; [lia|].
  f_equal. apply IH. lia.
Qed.

Lemma str_take_length n s : String.length (str_take n s) = Nat.min n (String.length s).
Proof. revert s; induction n as [|n IH]; intros [|c s]; simpl; auto. Qed.

Lemma str_drop_length n s : String.length (str_drop n s) = (String.length s - n)%nat.
Proof. revert s; induction n as [|n IH]; intros [|c s]; simpl; auto. Qed.

Lemma str_length_0 s : String.length s = 0%nat -> s = "".
Proof. by destruct s. Qed.

Lemma len_app s t : len (s +:+ t) = len s + len t.
Proof. unfold len. rewrite str_length_app. lia. Qed.

Lemma len_nonneg s : 0 <= len s.
Proof. unfold len. lia. Qed.

(** A string is empty or ends in a byte. *)
Lemma str_snoc s : s = "" \/ exists t c, s = t +:+ String c "".
Proof.
  induction s as [|c s [->|(t & d & ->)]]; [by left| |]; right.
  - by exists "", c.
  - by exists (String c t), d.
Qed.

Lemma last_byte_snoc t c : last_byte (t +:+ String c "") = Some c.
Proof.
  unfold last_byte. rewrite str_length_app. simpl.
  replace (String.length t + 1 - 1)%nat with (String.length t) by lia.
  induction t as [|d t IH]; [done|]. rewrite str_app_cons. done.
Qed.

(** ** Lemmas: prefixes, suffixes, substrings *)

Lemma prefix_spec p s : String.prefix p s = true <-> exists t, s = p +:+ t.
Proof.
  revert s; induction p as [|c p IH]; intros s.
  - split; [exists s|destruct s]; done.
  - destruct s as [|d s]; simpl.
    + split; [done|]. by intros [t [=]].
    + destruct (ascii_dec c d) as [->|Hne].
      * rewrite IH. split; intros [t E]; exists t.
        -- by rewrite E.
        -- rewrite str_app_cons in E. by injection E.
      * split; [done|]. intros [t E]. rewrite str_app_cons in E. by injection E as ->.
Qed.

Lemma HasPrefix_spec s p : HasPrefix s p = true <-> exists t, s = p +:+ t.
Proof. apply prefix_spec. Qed.

Lemma HasSuffix_spec s p : HasSuffix s p = true <-> exists t, s = t +:+ p.
Proof.
  unfold HasSuffix. rewrite andb_true_iff, Nat.leb_le, String.eqb_eq. split.
  - intros [Hle E]. exists (str_take (String.length s - String.length p) s).
    rewrite <- E at 2. by rewrite str_take_drop.
  - intros [t ->]. rewrite str_length_app. split; [lia|].
    replace (String.length t + String.length p - String.length p)%nat
      with (String.length t) by lia.
    apply str_drop_app.
Qed.

Lemma Contains_spec s sub : Contains s sub = true <-> exists a b, s = a +:+ sub +:+ b.
Proof.
  induction s as [|c s IH]; cbn [Contains]; rewrite orb_true_iff, prefix_spec.
  - split.
    + intros [[t E]|[=]]. by exists "", t.
    + intros (a & b & E). left. destruct a; [by exists b|done].
  - rewrite IH. split.
    + intros [[t E]|(a & b & E)]; [by exists "", t|]. exists (String c a), b. by rewrite E.
    + intros (a & b & E). destruct a as [|d a]; [left; by exists b|].
      rewrite str_app_cons in E. injection E as -> E. right. by exists a, b.
Qed.

(** ** Lemmas: byte searches and splitting *)

Lemma str_forallb_app p s t : str_forallb p (s +:+ t) = str_forallb p s && str_forallb p t.
Proof.
  induction s as [|c s IH]; [done|]. rewrite str_app_cons. cbn [str_forallb].
  by rewrite IH, andb_assoc.
Qed.

Lemma IndexByte_app s c t :
  str_forallb (fun x => negb (x =?c c)) s = true ->
  IndexByte (s +:+ String c t) c = Some (String.length s).
Proof.
  induction s as [|x s IH]; [intros _; simpl; by rewrite Ascii.eqb_refl|].
  cbn [str_forallb]. rewrite andb_true_iff, str_app_cons. intros [Hx Hs]. cbn [IndexByte].
  apply negb_true_iff in Hx. rewrite Hx, IH by done. done.
Qed.

Lemma IndexByte_none s c :
  IndexByte s c = None <-> str_forallb (fun x => negb (x =?c c)) s = true.
Proof.
  induction s as [|x s IH]; [done|]. simpl. rewrite andb_true_iff, <- IH.
  destruct (x =?c c); simpl; [naive_solver|].
  destruct (IndexByte s c); simpl; naive_solver.
Qed.

Lemma IndexByte_Some s c i :
  IndexByte s c = Some i ->
  s = str_take i s +:+ String c (str_drop (S i) s) /\
  str_forallb (fun x => negb (x =?c c)) (str_take i s) = true.
Proof.
  revert i; induction s as [|x s IH]; intros i; [done|]. cbn [IndexByte].
  destruct (x =?c c) eqn:E.
  - intros [= <-]. apply Ascii.eqb_eq in E as ->. by destruct s.
  - destruct (IndexByte s c) as [j|] eqn:Ej; [|done]. intros [= <-].
    destruct (IH j eq_refl) as [Hs Hn]. cbn [str_take str_drop str_forallb].
    rewrite str_app_cons, E, Hn. split; [|done]. by f_equal.
Qed.

Lemma Cut_app s c t :
  str_forallb (fun x => negb (x =?c c)) s = true ->
  Cut (s +:+ String c t) c = (s, t, true).
Proof.
  intros Hs. unfold Cut. rewrite IndexByte_app, str_take_app by done.
  f_equal. f_equal. replace (s +:+ String c t) with ((s +:+ String c "") +:+ t).
  - replace (S (String.length s)) with (String.length (s +:+ String c "")).
    + apply str_drop_app.
    + rewrite str_length_app. simpl. lia.
  - by rewrite str_app_assoc.
Qed.

Lemma LastIndexByte_app s c t :
  str_forallb (fun x => negb (x =?c c)) t = true ->
  LastIndexByte (s +:+ String c t) c = Some (String.length s).
Proof.
  intros Ht.
  assert (Hn : LastIndexByte t c = None).
  { clear -Ht. induction t as [|x t IH]; [done|]. simpl in *.
    apply andb_true_iff in Ht as [Hx Ht]. rewrite (IH Ht).
    apply negb_true_iff in Hx. by rewrite Hx. }
  induction s as [|x s IH].
  - change ("" +:+ String c t) with (String c t). simpl. by rewrite Hn, Ascii.eqb_refl.
  - rewrite str_app_cons. cbn [LastIndexByte]. by rewrite IH.
Qed.

Lemma LastIndexByte_Some s c i :
  LastIndexByte s c = Some i ->
  s = str_take i s +:+ String c (str_drop (S i) s) /\
  str_forallb (fun x => negb (x =?c c)) (str_drop (S i) s) = true.
Proof.
  revert i; induction s as [|x s IH]; intros i; [done|]. cbn [LastIndexByte].
  destruct (LastIndexByte s c) as [j|] eqn:Ej.
  - intros [= <-]. destruct (IH j eq_refl) as [Hs Hn].
    cbn [str_take str_drop]. rewrite str_app_cons. split; [by f_equal|done].
  - destruct (x =?c c) eqn:E; [|done]. intros [= <-]. apply Ascii.eqb_eq in E as ->.
    split; [by destruct s|]. clear IH. cbn [str_drop].
    replace (str_drop 0 s) with s by (by destruct s).
    induction s as [|y s IHs]; [done|]. cbn [LastIndexByte] in Ej.
    destruct (LastIndexByte s c); [done|]. cbn [str_forallb].
    destruct (y =?c c); [done|]. by apply IHs.
Qed.

(** ** Lemmas: case mapping *)

Lemma byte_lower_idem c : byte_lower (byte_lower c) = byte_lower c.
Proof. by destruct c as [[][][][][][][][]]. Qed.

Lemma byte_lower_ascii c : is_ascii c = true -> is_ascii (byte_lower c) = true.
Proof. by destruct c as [[][][][][][][][]]. Qed.

Lemma str_map_length f s : String.length (str_map f s) = String.length s.
Proof. induction s as [|c s IH]; simpl; auto. Qed.

Lemma str_map_app f s t : str_map f (s +:+ t) = str_map f s +:+ str_map f t.
Proof. induction s as [|c s IH]; [done|]. rewrite str_app_cons. simpl. by rewrite IH. Qed.

(** ** Lemmas: decimal numbers *)

(** The bytes [Itoa] and [ParseInt] deal in. *)
Definition is_digit (c : byte) : bool := ((48 <=? byte_N c) && (byte_N c <=? 57))%N.

Lemma string_of_uint_digits d : str_forallb is_digit (NilEmpty.string_of_uint d) = true.
Proof. induction d; simpl; auto. Qed.

Lemma NilZero_digits d : str_forallb is_digit (NilZero.string_of_uint d) = true.
Proof. destruct d; try apply string_of_uint_digits. reflexivity. Qed.

Lemma uint_of_string_digits s d :
  NilEmpty.uint_of_string s = Some d -> str_forallb is_digit s = true.
Proof. intros H. apply NilEmpty.sus in H as <-. apply string_of_uint_digits. Qed.

Lemma Itoa_nonneg z : 0 <= z -> Itoa z = NilZero.string_of_uint (N.to_uint (Z.to_N z)).
Proof. intros. unfold Itoa. by destruct z. Qed.

Lemma Itoa_nonneg_digits z : 0 <= z -> str_forallb is_digit (Itoa z) = true.
Proof. intros. rewrite Itoa_nonneg by done. apply NilZero_digits. Qed.

Lemma ParseInt_digits_cons c r :
  is_digit c = true ->
  ParseInt (String c r) =
  (n ← Z.of_N ∘ N.of_uint <$> NilZero.uint_of_string (String c r);
   if n <? 2 ^ 63 then Some n else None).
Proof. destruct c as [[][][][][][][][]]; try discriminate; done. Qed.

Lemma NilZero_string_nonempty d : exists c r, NilZero.string_of_uint d = String c r.
Proof. destruct d; simpl; eauto. Qed.

Lemma to_uint_nonnil n : N.to_uint n <> Decimal.Nil.
Proof. intros E. pose proof (DecimalN.Unsigned.of_to n) as H. rewrite E in H. simpl in H. subst. done. Qed.

(** [strconv.ParseInt(strconv.FormatInt(z, 10), 10, 64)] is [z]. *)
Lemma ParseInt_Itoa z : 0 <= z <= max_int64 -> ParseInt (Itoa z) = Some z.
Proof.
  intros Hz. rewrite Itoa_nonneg by lia.
  pose proof (NilZero_digits (N.to_uint (Z.to_N z))) as Hd.
  destruct (NilZero_string_nonempty (N.to_uint (Z.to_N z))) as (c & r & E).
  rewrite E in *. simpl in Hd. apply andb_true_iff in Hd as [Hc _].
  rewrite ParseInt_digits_cons, <- E by done.
  rewrite NilZero.usu by apply to_uint_nonnil. simpl.
  rewrite DecimalN.Unsigned.of_to, Z2N.id by lia.
  unfold max_int64 in Hz. destruct (z <? 2 ^ 63) eqn:Hlt; [done|]. lia.
Qed.

(** What [ParseInt] accepts contains only digits after an optional sign. *)
Lemma ParseInt_chars s z :
  ParseInt s = Some z ->
  str_forallb (fun c => is_digit c || (c =?c "-") || (c =?c "+")) s = true.
Proof.
  assert (Hw : forall s, str_forallb is_digit s = true ->
    str_forallb (fun c => is_digit c || (c =?c "-") || (c =?c "+")) s = true).
  { intros t. induction t as [|c t IH]; [done|]. cbn [str_forallb].
    intros H. apply andb_true_iff in H as [-> Ht]. by rewrite IH. }
  assert (Hd : forall t d, NilZero.uint_of_string t = Some d -> str_forallb is_digit t = true).
  { intros [|c t] d; [done|]. apply uint_of_string_digits. }
  unfold ParseInt. intros H. destruct s as [|c s]; [done|].
  destruct (decide (c = "-"%char)) as [->|Hm].
  { simpl in *. destruct (NilZero.uint_of_string s) eqn:E; [|done]. by apply Hw, (Hd _ _ E). }
  destruct (decide (c = "+"%char)) as [->|Hp].
  { simpl in *. destruct (NilZero.uint_of_string s) eqn:E; [|done]. by apply Hw, (Hd _ _ E). }
  apply Hw. destruct (NilZero.uint_of_string (String c s)) eqn:E; [by apply (Hd _ _ E)|].
  exfalso. destruct c as [[][][][][][][][]]; try (by rewrite E in H); done.
Qed.

#[export] Hint Rewrite str_app_nil_l str_app_nil_r str_app_assoc str_length_app : smoker_rw.
#[export] Hint Resolve len_nonneg : smoker.

(** ** Examples *)

Example ParseInt_plus : ParseInt "+12" = Some 12. Proof. reflexivity. Qed.
Example ParseInt_minus : ParseInt "-12" = Some (-12). Proof. reflexivity. Qed.
Example ParseInt_empty : ParseInt "" = None. Proof. reflexivity. Qed.
Example ParseInt_junk : ParseInt "1x" = None. Proof. reflexivity. Qed.
Example ParseInt_range : ParseInt "9223372036854775808" = None. Proof. reflexivity. Qed.
Example Itoa_neg : Itoa (-40) = "-40". Proof. reflexivity. Qed.
Example SplitN_ex : SplitN "a.b.c.d" "." 3 = ["a"; "b"; "c.d"]. Proof. reflexivity. Qed.
Example Split_ex : Split "a,,b" "," = ["a"; ""; "b"]. Proof. reflexivity. Qed.
Example Fields_ex : Fields (H := ascii_only) "  GET /x HTTP/1.1 " = ["GET"; "/x"; "HTTP/1.1"].
Proof. reflexivity. Qed.
