(* ===== verification/Lru.v ===== *)
(** * The LRU cache interface

    smoker keeps sessions, client buckets and cached responses in
    [github.com/hashicorp/golang-lru/v2] caches.  The library is not part of
    the repository, so it is a class of operations with the laws its
    documentation promises; [ListLru] at the end is a concrete instance, used
    by the examples. *)

From S2P Require Export GoStrings.

(** ** Association lists, most recent entry first *)

Section Assoc.
Context {V : Type}.
Implicit Types (k j : string) (v w : V) (l : list (string * V)).

Fixpoint assoc k l : option V :=
  match l with
  | [] => None
  | (j, v) :: l' => if j =?s k then Some v else assoc k l'
  end.

Definition remove_key k l : list (string * V) := filter (fun p => p.1 <> k) l.

(** Move the entry of [k], if there is one, to the front. *)
Definition touch k l : list (string * V) :=
  match assoc k l with
  | Some v => (k, v) :: remove_key k l
  | None => l
  end.

Lemma assoc_cons k j v l : assoc k ((j, v) :: l) = if decide (j = k) then Some v else assoc k l.
Proof.
  simpl. destruct (String.eqb_spec j k), (decide (j = k)); done.
Qed.

Lemma assoc_remove_eq k l : assoc k (remove_key k l) = None.
Proof.
  induction l as [|[j v] l IH]; [done|]. unfold remove_key.
  rewrite filter_cons. simpl. case_decide; [|done]. rewrite assoc_cons.
  by rewrite decide_False.
Qed.

Lemma assoc_remove_ne k j l : j <> k -> assoc j (remove_key k l) = assoc j l.
Proof.
  intros Hne. induction l as [|[i v] l IH]; [done|]. unfold remove_key.
  rewrite filter_cons. simpl. case_decide as Hi; simpl.
  - case_cond; [done|apply IH].
  - subst i. destruct (String.eqb_spec k j); [congruence|apply IH].
Qed.

Lemma assoc_touch k j l : assoc j (touch k l) = assoc j l.
Proof.
  unfold touch. destruct (assoc k l) as [v|] eqn:E; [|done]. rewrite assoc_cons.
  case_decide; subst; [done|]. by apply assoc_remove_ne.
Qed.

Lemma assoc_take n k l w : assoc k (take n l) = Some w -> assoc k l = Some w.
Proof.
  revert l; induction n as [|n IH]; intros [|[j v] l]; simpl; try done.
  case_cond; [done|apply IH].
Qed.

Lemma assoc_elem_of k l v : assoc k l = Some v -> (k, v) ∈ l.
Proof.
  induction l as [|[j w] l IH]; [done|]. rewrite assoc_cons. case_decide; subst.
  - intros [= ->]. left.
  - intros. right. by apply IH.
Qed.

Lemma assoc_Forall (P : V -> Prop) k l v :
  Forall (fun p => P p.2) l -> assoc k l = Some v -> P v.
Proof. intros HF H%assoc_elem_of. by apply (proj1 (Forall_forall _ _) HF _) in H. Qed.

Lemma remove_key_length k l : (length (remove_key k l) <= length l)%nat.
Proof. apply length_filter. Qed.

Lemma remove_key_length_lt k l v :
  assoc k l = Some v -> (length (remove_key k l) < length l)%nat.
Proof. intros H%assoc_elem_of. apply (length_filter_lt _ _ _ H). by intros []. Qed.

Lemma touch_length k l : (length (touch k l) <= length l)%nat.
Proof.
  unfold touch. destruct (assoc k l) eqn:E; [|done]. simpl.
  apply remove_key_length_lt in E. lia.
Qed.

Lemma remove_key_Forall (P : string * V -> Prop) k l :
  Forall P l -> Forall P (remove_key k l).
Proof.
  rewrite !Forall_forall. intros HF p Hp. apply HF.
  by apply list_elem_of_filter in Hp as [_ ?].
Qed.

Lemma touch_Forall (P : string * V -> Prop) k l : Forall P l -> Forall P (touch k l).
Proof.
  intros HF. unfold touch. destruct (assoc k l) eqn:E; [|done]. constructor.
  - apply assoc_elem_of in E. by apply (proj1 (Forall_forall _ _) HF).
  - by apply remove_key_Forall.
Qed.

End Assoc.

(** ** The interface *)

(** The calls smoker makes ([New], [Get], [Add], [Remove], [Len], [Purge]) and
    two observations: [lru_items] is [Keys]/[Values], most recently used
    first, [lru_cap] the size given to [New].  [lru_new] is [None] when [New]
    returns an error. *)
Class LRU (V : Type) := {
  lru_t : Type;
  lru_new : Z -> option lru_t;
  lru_get : string -> lru_t -> option V * lru_t;
  lru_add : string -> V -> lru_t -> lru_t;
  lru_remove : string -> lru_t -> lru_t;
  lru_purge : lru_t -> lru_t;
  lru_len : lru_t -> Z;
  lru_items : lru_t -> list (string * V);
  lru_cap : lru_t -> nat;
}.
Arguments lru_t V {_}.

(** [Get] marks the entry as most recently used; [Add] inserts or updates it
    as the most recently used and evicts the oldest entries over the size. *)
Class LRULaws (V : Type) `{LRU V} : Prop := {
  lru_new_ok n : 0 < n -> exists c, lru_new n = Some c /\ lru_items c = [] /\ lru_cap c = Z.to_nat n;
  lru_new_err n : n <= 0 -> lru_new n = None;
  lru_get_val k c : (lru_get k c).1 = assoc k (lru_items c);
  lru_get_items k c : lru_items (lru_get k c).2 = touch k (lru_items c);
  lru_get_cap k c : lru_cap (lru_get k c).2 = lru_cap c;
  lru_add_items k v c :
    lru_items (lru_add k v c) = take (lru_cap c) ((k, v) :: remove_key k (lru_items c));
  lru_add_cap k v c : lru_cap (lru_add k v c) = lru_cap c;
  lru_remove_items k c : lru_items (lru_remove k c) = remove_key k (lru_items c);
  lru_remove_cap k c : lru_cap (lru_remove k c) = lru_cap c;
  lru_purge_items c : lru_items (lru_purge c) = [];
  lru_purge_cap c : lru_cap (lru_purge c) = lru_cap c;
  lru_len_items c : lru_len c = Z.of_nat (length (lru_items c));
}.

(** ** What the clients use *)

Section Laws.
Context `{LRULaws V}.
Implicit Types (k j : string) (v w : V) (c : lru_t V).

(** The value of a key, without touching the recency order. *)
Definition lru_peek k c : option V := assoc k (lru_items c).

Lemma lru_get_eq k c : lru_get k c = (lru_peek k c, (lru_get k c).2).
Proof. unfold lru_peek. rewrite <- lru_get_val. by destruct (lru_get k c). Qed.

Lemma peek_get k j c : lru_peek j (lru_get k c).2 = lru_peek j c.
Proof. unfold lru_peek. by rewrite lru_get_items, assoc_touch. Qed.

Lemma peek_add_eq k v c : (0 < lru_cap c)%nat -> lru_peek k (lru_add k v c) = Some v.
Proof.
  intros. unfold lru_peek. rewrite lru_add_items.
  destruct (lru_cap c); [lia|]. simpl. by rewrite String.eqb_refl.
Qed.

Lemma peek_add_ne k j v w c :
  j <> k -> lru_peek j (lru_add k v c) = Some w -> lru_peek j c = Some w.
Proof.
  intros Hne. unfold lru_peek. rewrite lru_add_items. intros E%assoc_take.
  rewrite assoc_cons in E. case_decide; [done|]. by rewrite assoc_remove_ne in E.
Qed.

(** Replacing the value of a present key evicts nothing. *)
Lemma peek_add_present k j v w c :
  (length (lru_items c) <= lru_cap c)%nat -> lru_peek k c = Some w -> j <> k ->
  lru_peek j (lru_add k v c) = lru_peek j c.
Proof.
  intros Hlen Hk Hne. unfold lru_peek in *. rewrite lru_add_items.
  rewrite take_ge.
  - rewrite assoc_cons. case_decide; [done|]. by apply assoc_remove_ne.
  - simpl. apply remove_key_length_lt in Hk. lia.
Qed.

Lemma peek_remove_eq k c : lru_peek k (lru_remove k c) = None.
Proof. unfold lru_peek. by rewrite lru_remove_items, assoc_remove_eq. Qed.

Lemma peek_remove_ne k j c : j <> k -> lru_peek j (lru_remove k c) = lru_peek j c.
Proof. intros. unfold lru_peek. by rewrite lru_remove_items, assoc_remove_ne. Qed.

Lemma items_add_Forall (P : string * V -> Prop) k v c :
  P (k, v) -> Forall P (lru_items c) -> Forall P (lru_items (lru_add k v c)).
Proof.
  intros. rewrite lru_add_items. apply Forall_take. constructor; [done|].
  by apply remove_key_Forall.
Qed.

Lemma items_get_Forall (P : string * V -> Prop) k c :
  Forall P (lru_items c) -> Forall P (lru_items (lru_get k c).2).
Proof. rewrite lru_get_items. apply touch_Forall. Qed.

Lemma items_remove_Forall (P : string * V -> Prop) k c :
  Forall P (lru_items c) -> Forall P (lru_items (lru_remove k c)).
Proof. rewrite lru_remove_items. apply remove_key_Forall. Qed.

Lemma items_add_length k v c : (length (lru_items (lru_add k v c)) <= lru_cap c)%nat.
Proof. rewrite lru_add_items, length_take. lia. Qed.

Lemma items_get_length k c :
  (length (lru_items (lru_get k c).2) <= length (lru_items c))%nat.
Proof. rewrite lru_get_items. apply touch_length. Qed.

Lemma items_remove_length k c :
  (length (lru_items (lru_remove k c)) <= length (lru_items c))%nat.
Proof. rewrite lru_remove_items. apply remove_key_length. Qed.

End Laws.

#[export] Hint Resolve items_add_Forall items_get_Forall items_remove_Forall : smoker.
#[export] Hint Rewrite @peek_get @peek_remove_eq @lru_get_cap @lru_add_cap @lru_remove_cap
  using (typeclasses eauto) : smoker_rw.

(** ** A concrete cache *)

Module ListLru.
Section ListLru.
Context {V : Type}.

Record t := Lru { cap : nat; items : list (string * V) }.

Definition new (n : Z) : option t :=
  if 0 <? n then Some (Lru (Z.to_nat n) []) else None.

#[global] Instance list_lru : LRU V := {|
  lru_t := t;
  lru_new := new;
  lru_get k c := (assoc k (items c), Lru (cap c) (touch k (items c)));
  lru_add k v c := Lru (cap c) (take (cap c) ((k, v) :: remove_key k (items c)));
  lru_remove k c := Lru (cap c) (remove_key k (items c));
  lru_purge c := Lru (cap c) [];
  lru_len c := Z.of_nat (length (items c));
  lru_items := items;
  lru_cap := cap;
|}.

#[global] Instance list_lru_laws : LRULaws V.
Proof.
  split; try done.
  - intros n Hn. exists (Lru (Z.to_nat n) []). simpl. unfold new. by apply Z.ltb_lt in Hn as ->.
  - intros n Hn. simpl. unfold new. by apply Z.ltb_ge in Hn as ->.
Qed.

End ListLru.
Arguments t : clear implicits.
Arguments list_lru : clear implicits.
Arguments list_lru_laws : clear implicits.
End ListLru.
