(* ===== verification/Template.v ===== *)
(** * Nuclei templates ([internal/detect/template.go])

    The template as parsed from YAML, smoker's enforcement extensions and their
    defaults, the promotion of extensions nested under an [http] entry, and
    [Strings], the scalar-or-list field type.  The YAML decoder itself is
    [gopkg.in/yaml.v3], a parameter of [ParseTemplate]. *)

From S2P Require Export GoStrings.

(** ** Data *)

Abbreviation Severity := string (only parsing).
Definition SevInfo : Severity := "info".
Definition SevLow : Severity := "low".
Definition SevMedium : Severity := "medium".
Definition SevHigh : Severity := "high".
Definition SevCritical : Severity := "critical".

(** A Go [type Action string]: any string can occur in a template. *)
Abbreviation Action := string (only parsing).
Definition ActionBlock : Action := "block".
Definition ActionChallenge : Action := "challenge".
Definition ActionLogOnly : Action := "log-only".
Definition ActionRateLimit : Action := "rate-limit".
Definition ActionBan : Action := "ban".

(** [SessionCheck] *)
Record SessionCheck := {
  chk_Type : string;
  chk_Negate : bool;
  chk_Value : Z;
  chk_Window : duration;
  chk_Match : string;
}.

(** [SessionMatchers] *)
Record SessionMatchers := {
  sm_Condition : string;
  sm_Checks : list SessionCheck;
}.

(** [Matcher] *)
Record Matcher := {
  m_Type : string;
  m_Part : string;
  m_Words : list string;
  m_Regex : list string;
  m_Condition : string;
  m_Negative : bool;
  m_CaseInsensitive : bool;
}.

(** [HTTP]; the fields [body] and [headers], which no code reads, are left out. *)
Record HTTP := {
  http_Method : string;
  http_Path : list string;
  http_Raw : list string;
  http_MatchersCondition : string;
  http_Matchers : list Matcher;
  http_SessionMatchers : option SessionMatchers;
  http_Action : Action;
  http_ActionResponseCode : Z;
}.

(** [Info]; only the fields that reach incidents. *)
Record Info := {
  info_Severity : Severity;
  info_Tags : list string;
  info_CVEID : list string;
}.

(** [Template]; [None] is a nil [*SessionMatchers]. *)
Record Template := {
  t_ID : string;
  t_Info : Info;
  t_HTTP : list HTTP;
  t_SessionMatchers : option SessionMatchers;
  t_Action : Action;
  t_ActionResponseCode : Z;
  t_SourcePath : string;
}.

#[export] Instance SessionCheck_eq_dec : EqDecision SessionCheck.
Proof. solve_decision. Defined.
#[export] Instance SessionMatchers_eq_dec : EqDecision SessionMatchers.
Proof. solve_decision. Defined.

(** ** Defaults *)

Definition EffectiveAction (t : Template) : Action :=
  if negb (t_Action t =?s "") then t_Action t
  else match t_SessionMatchers t with
       | Some _ => ActionLogOnly
       | None => ActionBlock
       end.

Definition ResponseCode (t : Template) : Z :=
  if negb (t_ActionResponseCode t =? 0) then t_ActionResponseCode t else 403.

(** ** Parsing *)

(** One turn of the promotion loop of [ParseTemplate]. *)
Definition promote (t : Template) (h : HTTP) : Template := {|
  t_ID := t_ID t; t_Info := t_Info t; t_HTTP := t_HTTP t; t_SourcePath := t_SourcePath t;
  t_SessionMatchers :=
    match t_SessionMatchers t with
    | None => http_SessionMatchers h
    | Some sm => Some sm
    end;
  t_Action :=
    if (t_Action t =?s "") && negb (http_Action h =?s "") then http_Action h else t_Action t;
  t_ActionResponseCode :=
    if (t_ActionResponseCode t =? 0) && negb (http_ActionResponseCode h =? 0)
    then http_ActionResponseCode h else t_ActionResponseCode t;
|}.

Definition promoteAll (t : Template) : Template := fold_left promote (t_HTTP t) t.

Inductive parse_error :=
| UnmarshalError (err : string)
| MissingID.

Section Parse.
(** [yaml.Unmarshal] into a [Template]: an error or the decoded value. *)
Context (yaml_Unmarshal : string -> string + Template).

Definition ParseTemplate (data : string) : parse_error + Template :=
  match yaml_Unmarshal data with
  | inl err => inl (UnmarshalError err)
  | inr t => if t_ID t =?s "" then inl MissingID else inr (promoteAll t)
  end.
End Parse.

(** ** UTF-8 *)

Definition byte_in (lo hi : N) (c : byte) : bool := ((lo <=? byte_N c) && (byte_N c <=? hi))%N.

(** The width of the UTF-8 sequence that starts [s], or [None] when Go decodes
    the first byte as the replacement character ([utf8.DecodeRune]). *)
Definition rune_width (s : string) : option nat :=
  let cont := byte_in 128 191 in
  match s with
  | EmptyString => None
  | String c r =>
      let two (p : byte -> bool) := match r with String x _ => p x | _ => false end in
      let three (p : byte -> bool) :=
        match r with String x (String y _) => p x && cont y | _ => false end in
      let four (p : byte -> bool) :=
        match r with String x (String y (String z _)) => p x && cont y && cont z | _ => false end in
      if is_ascii c then Some 1%nat
      else if byte_in 194 223 c && two cont then Some 2%nat
      else if byte_in 224 224 c && three (byte_in 160 191) then Some 3%nat
      else if (byte_in 225 236 c || byte_in 238 239 c) && three cont then Some 3%nat
      else if byte_in 237 237 c && three (byte_in 128 159) then Some 3%nat
      else if byte_in 240 240 c && four (byte_in 144 191) then Some 4%nat
      else if byte_in 241 243 c && four cont then Some 4%nat
      else if byte_in 244 244 c && four (byte_in 128 143) then Some 4%nat
      else None
  end.

(** U+FFFD in UTF-8. *)
Definition replacement_char : string :=
  String (ascii_of_N 239) (String (ascii_of_N 191) (String (ascii_of_N 189) "")).

(** [for _, r := range s]: [string(r)] for each rune; [fuel >= len(s)] is enough. *)
Fixpoint runes_fuel (fuel : nat) (s : string) : list string :=
  match fuel, s with
  | S fuel, String _ r =>
      match rune_width s with
      | Some n => str_take n s :: runes_fuel fuel (str_drop n s)
      | None => replacement_char :: runes_fuel fuel r
      end
  | _, _ => []
  end.

Definition runes (s : string) : list string := runes_fuel (String.length s) s.

(** ** Strings: a scalar or a list *)

Definition is_blank (c : byte) : bool := (c =?c " ") || (byte_N c =? 9)%N.

Definition trimSpace (s : string) : string := trim_right is_blank (trim_left is_blank s).

(** The loop of [splitCSV]: [out] and [cur] are the loop's variables. *)
Fixpoint splitCSV_loop (rs : list string) (out : list string) (cur : string) : list string :=
  match rs with
  | [] => out ++ [trimSpace cur]
  | r :: rs =>
      if r =?s "," then splitCSV_loop rs (out ++ [trimSpace cur]) ""
      else splitCSV_loop rs out (cur +:+ r)
  end.

Definition splitCSV (s : string) : list string :=
  if s =?s "" then [] else splitCSV_loop (runes s) [] "".

(** [Strings.UnmarshalYAML], on the node kinds it distinguishes. *)
Inductive yaml_node :=
| ScalarNode (s : string)
| SequenceNode (l : list string)
| OtherNode (kind : Z).

Definition Strings_UnmarshalYAML (node : yaml_node) : option (list string) :=
  match node with
  | ScalarNode single => Some (splitCSV single)
  | SequenceNode l => Some l
  | OtherNode _ => None
  end.

(** ** Properties *)

(** The first nested value that is set, in the order of the [http] entries. *)
Definition first_action (hs : list HTTP) : Action :=
  default "" (head (filter (fun a => a <> "") (http_Action <$> hs))).

Definition first_session (hs : list HTTP) : option SessionMatchers :=
  head (omap http_SessionMatchers hs).

Lemma promote_fold_HTTP hs t :
  t_ID (fold_left promote hs t) = t_ID t /\
  t_Action (fold_left promote hs t) =
    (if decide (t_Action t = "") then first_action hs else t_Action t) /\
  t_SessionMatchers (fold_left promote hs t) =
    match t_SessionMatchers t with Some sm => Some sm | None => first_session hs end.
Proof.
  revert t; induction hs as [|h hs IH]; intros t.
  { cbn. split_and!; [done|by case_decide|by destruct (t_SessionMatchers t)]. }
  cbn [fold_left]. destruct (IH (promote t h)) as (-> & -> & ->).
  split_and!; [done| |].
  - unfold promote, first_action; cbn [t_Action]. rewrite fmap_cons, filter_cons.
    destruct (String.eqb_spec (t_Action t) ""), (String.eqb_spec (http_Action h) "");
      simpl; repeat case_decide; try done; congruence.
  - cbn. destruct (t_SessionMatchers t); [done|].
    unfold first_session. cbn. by destruct (http_SessionMatchers h).
Qed.


Lemma runes_fuel_ascii n s :
  (String.length s <= n)%nat -> isASCII s = true ->
  runes_fuel n s = (fun c => String c "") <$> String.list_ascii_of_string s.
Proof.
  revert s; induction n as [|n IH]; intros [|c s] Hn Ha; try done; [simpl in *; lia|].
  unfold isASCII in Ha. cbn [str_forallb] in Ha. apply andb_true_iff in Ha as [Hc Ha].
  cbn [runes_fuel]. unfold rune_width. rewrite Hc. cbn. f_equal.
  replace (str_drop 0 s) with s by (by destruct s).
  apply IH; [simpl in *; lia|done].
Qed.

Lemma splitCSV_loop_split s out cur :
  splitCSV_loop ((fun c => String c "") <$> String.list_ascii_of_string s) out cur =
  out ++ match Split s "," with
         | [] => []
         | w :: ws => trimSpace (cur +:+ w) :: (trimSpace <$> ws)
         end.
Proof.
  revert out cur; induction s as [|c s IH]; intros out cur.
  - cbn. by rewrite str_app_nil_r.
  - cbn [String.list_ascii_of_string]. rewrite fmap_cons. cbn [splitCSV_loop Split].
    change (String c "" =?s ",") with ((c =?c ",") && true)%bool.
    rewrite andb_true_r. destruct (c =?c ","); rewrite IH.
    + rewrite str_app_nil_r, <- app_assoc. cbn. f_equal. f_equal.
      destruct (Split s ","); [done|]. by rewrite fmap_cons.
    + f_equal. destruct (Split s ",") as [|w ws] eqn:E; cbn.
      * exfalso. revert E. clear. destruct s as [|d s]; simpl; [done|].
        destruct (d =?c ","); [done|]. by destruct (Split s ",").
      * by rewrite str_app_assoc.
Qed.

Lemma Split_nonempty s c : Split s c <> [].
Proof. destruct s as [|d s]; simpl; [done|]. destruct (d =?c c); [done|]. by destruct (Split s c). Qed.

(** On an ASCII scalar, the rune-by-rune loop of [splitCSV] is
    [strings.Split] on commas with every item trimmed of blanks; no item is
    lost, merged or reordered, and the empty scalar is the empty list. *)
Theorem splitCSV_is_split_and_trim s :
  isASCII s = true ->
  splitCSV s = if s =?s "" then [] else trimSpace <$> Split s ",".
Proof.
  intros Ha. unfold splitCSV, runes. destruct (s =?s ""); [done|].
  rewrite runes_fuel_ascii, splitCSV_loop_split by done.
  destruct (Split s ",") eqn:E; [by apply Split_nonempty in E|]. done.
Qed.

Lemma splitCSV_is_split_and_trim_witness :
  isASCII "wordpress, sqli ,rce" = true /\
  splitCSV "wordpress, sqli ,rce" = ["wordpress"; "sqli"; "rce"].
Proof.
  split; [reflexivity|].
  etransitivity; [apply splitCSV_is_split_and_trim; reflexivity|reflexivity].
Defined.

(** Promotion: [ParseTemplate] fails exactly when YAML decoding fails or the id
    is empty; otherwise the template keeps its id, and each enforcement
    extension is the template's own when set, else the first one set under an
    [http] entry -- so the effective action is the explicit one wherever it was
    written, [log-only] for a behavioural template without one, and [block]
    for a plain signature. *)
Theorem ParseTemplate_effective_action yaml_Unmarshal data t :
  yaml_Unmarshal data = inr t ->
  (t_ID t = "" -> ParseTemplate yaml_Unmarshal data = inl MissingID) /\
  (t_ID t <> "" -> exists t',
    ParseTemplate yaml_Unmarshal data = inr t' /\ t_ID t' = t_ID t /\
    EffectiveAction t' =
      if decide (t_Action t <> "") then t_Action t
      else if decide (first_action (t_HTTP t) <> "") then first_action (t_HTTP t)
      else if decide (t_SessionMatchers t = None /\ first_session (t_HTTP t) = None)
           then ActionBlock else ActionLogOnly).
Proof.
  intros Hy. unfold ParseTemplate. rewrite Hy.
  split; intros Hid; [by rewrite Hid|].
  destruct (String.eqb_spec (t_ID t) ""); [done|].
  exists (promoteAll t). unfold promoteAll, EffectiveAction.
  destruct (promote_fold_HTTP (t_HTTP t) t) as (-> & -> & ->).
  split; [done|]. split; [done|].
  destruct (decide (t_Action t = "")) as [E|E].
  - rewrite (decide_False (P := t_Action t <> "")) by auto.
    destruct (String.eqb_spec (first_action (t_HTTP t)) "") as [Ef|Ef]; simpl.
    + rewrite (decide_False (P := first_action _ <> "")) by auto.
      destruct (t_SessionMatchers t), (first_session (t_HTTP t)); case_decide; naive_solver.
    + by rewrite decide_True.
  - rewrite (decide_True (P := t_Action t <> "")) by done.
    by destruct (String.eqb_spec (t_Action t) "").
Qed.

(** A behavioural template with its action nested under the [http] entry. *)
Definition nested_template : Template := {|
  t_ID := "cold-cart";
  t_Info := {| info_Severity := SevMedium; info_Tags := []; info_CVEID := [] |};
  t_HTTP := [{| http_Method := "POST"; http_Path := ["/cart/"]; http_Raw := [];
                http_MatchersCondition := ""; http_Matchers := [];
                http_SessionMatchers := Some {| sm_Condition := "and"; sm_Checks := [] |};
                http_Action := ActionChallenge; http_ActionResponseCode := 0 |}];
  t_SessionMatchers := None; t_Action := ""; t_ActionResponseCode := 0; t_SourcePath := "";
|}.

Lemma ParseTemplate_effective_action_witness :
  t_ID nested_template <> "" /\
  exists t', ParseTemplate (fun _ => inr nested_template) "" = inr t' /\
             EffectiveAction t' = ActionChallenge.
Proof.
  split; [discriminate|].
  destruct (ParseTemplate_effective_action (fun _ => inr nested_template) "" nested_template eq_refl)
    as [_ H].
  destruct H as (t' & H1 & _ & H2); [discriminate|]. exists t'. split; [exact H1|].
  rewrite H2. reflexivity.
Defined.
