(* ===== verification/Session.v ===== *)
(** * The Session/Behavior Tracker ([internal/session/tracker.go])

    Per-session records in an LRU cache with a time to live, the recording of
    clean requests, the challenge flag, and the evaluation of a rule's
    [session-matchers].  [t.now()] is an argument: one per reading of the clock,
    in the order the code reads it. *)

From S2P Require Export Lru Template.

(** ** Data *)

(** The request view as the tracker sees it: only [view.Path] is read. *)
Record hit := Hit { hit_ts : time; hit_path : string }.

Record record := {
  firstSeen : time;
  lastSeen : time;
  lastPath : string;
  challengePassed : bool;
  pageviews : list hit;
}.

Definition maxPageviewStamps : nat := 64.

(** ** Pure helpers *)

Fixpoint countWithin_loop (hits : list hit) (path : string) (window : duration)
    (cutoff : time) (n : Z) : Z :=
  match hits with
  | [] => n
  | h :: hits =>
      if negb (path =?s "") && negb (hit_path h =?s path)
      then countWithin_loop hits path window cutoff n
      else if (window <=? 0) || Time.After (hit_ts h) cutoff
      then countWithin_loop hits path window cutoff (n + 1)
      else countWithin_loop hits path window cutoff n
  end.

Definition countWithin (hits : list hit) (path : string) (window : duration) (now : time) : Z :=
  countWithin_loop hits path window (Time.Add now (int64_wrap (- window))) 0.

(** The three local string helpers of tracker.go. *)
Definition containsStr (s sub : string) : bool := Contains s sub.
Definition hasPrefix (s p : string) : bool :=
  (len p <=? len s) && (str_take (String.length p) s =?s p).
Definition hasSuffix (s p : string) : bool :=
  (len p <=? len s) && (str_drop (String.length s - String.length p) s =?s p).

Definition byte_is (o : option byte) (c : byte) : bool :=
  match o with Some x => x =?c c | None => false end.

(** The slice expressions keep Go's bounds checks: [pattern[1:len(pattern)-1]]
    panics on the pattern ["*"]. *)
Definition matchGlob (pattern s : string) : go bool :=
  if pattern =?s "" then Ret false
  else if pattern =?s s then Ret true
  else if byte_is (first_byte pattern) "*" && byte_is (last_byte pattern) "*" then
    inner ← slice pattern 1 (len pattern - 1);
    Ret (negb (inner =?s "") && containsStr s inner)
  else if byte_is (last_byte pattern) "*" then
    p ← slice pattern 0 (len pattern - 1);
    Ret (hasPrefix s p)
  else if byte_is (first_byte pattern) "*" then
    p ← slice pattern 1 (len pattern);
    Ret (hasSuffix s p)
  else Ret false.

(** What [Evaluate] copies out of the record under the lock; the zero values
    when there is no record. *)
Record snapshot := {
  snap_challengePassed : bool;
  snap_lastPath : string;
  snap_hits : list hit;
}.

Definition snapshot_of (r : option record) : snapshot :=
  match r with
  | Some r => {| snap_challengePassed := challengePassed r;
                 snap_lastPath := lastPath r; snap_hits := pageviews r |}
  | None => {| snap_challengePassed := false; snap_lastPath := ""; snap_hits := [] |}
  end.

(** [viewPath] is [None] for a nil view. *)
Definition evalCheck (c : SessionCheck) (seen : bool) (sn : snapshot)
    (viewPath : option string) (now : time) : go bool :=
  let ty := chk_Type c in
  let hits := snap_hits sn in
  if ty =?s "session-seen-before" then Ret seen
  else if ty =?s "challenge-passed" then Ret (snap_challengePassed sn)
  else if ty =?s "min-prior-pageviews" then
    Ret (chk_Value c <=? countWithin hits "" (chk_Window c) now)
  else if ty =?s "rate-limit" then
    Ret (chk_Value c <? countWithin hits "" (chk_Window c) now)
  else if ty =?s "endpoint-rate-limit" then
    let path := match viewPath with Some p => p | None => "" end in
    let path := if negb (chk_Match c =?s "") then chk_Match c else path in
    Ret (chk_Value c <=? countWithin hits path (chk_Window c) now + 1)
  else if ty =?s "last-path-matches" then
    if negb (snap_lastPath sn =?s "") then matchGlob (chk_Match c) (snap_lastPath sn)
    else Ret false
  else Ret false.

(** The loop of [Evaluate] over [sm.Checks], with its early returns. *)
Fixpoint evalChecks (and_ : bool) (cs : list SessionCheck) (seen : bool) (sn : snapshot)
    (viewPath : option string) (now : time) : go bool :=
  match cs with
  | [] => Ret and_
  | c :: cs =>
      got ← evalCheck c seen sn viewPath now;
      let got := if chk_Negate c then negb got else got in
      if and_
      then if negb got then Ret false else evalChecks and_ cs seen sn viewPath now
      else if got then Ret true else evalChecks and_ cs seen sn viewPath now
  end.

(** ** The tracker *)

Section Tracker.
Context `{LRU record}.

Record tracker := Tracker { t_cache : lru_t record; t_ttl : duration }.

Definition with_cache (t : tracker) (c : lru_t record) : tracker := Tracker c (t_ttl t).

(** [New(maxEntries, ttl)]; [None] is an error of the LRU library. *)
Definition New (maxEntries : Z) (ttl : duration) : option tracker :=
  let maxEntries := if maxEntries <=? 0 then 100000 else maxEntries in
  c ← lru_new maxEntries; Some (Tracker c ttl).

Definition Len (t : tracker) : Z := lru_len (t_cache t).

(** [get]: a live record, evicting an expired one. *)
Definition get (t : tracker) (key : string) (now : time) : option record * tracker :=
  match lru_get key (t_cache t) with
  | (None, c) => (None, with_cache t c)
  | (Some r, c) =>
      if t_ttl t <? Time.Sub now (lastSeen r)
      then (None, with_cache t (lru_remove key c))
      else (Some r, with_cache t c)
  end.

Definition new_record (now : time) : record :=
  {| firstSeen := now; lastSeen := 0; lastPath := ""; challengePassed := false; pageviews := [] |}.

(** The update of a record by [Record]. *)
Definition record_hit (r : record) (path : string) (now : time) : record :=
  let pv := pageviews r ++ [Hit now path] in
  {| firstSeen := firstSeen r; lastSeen := now; lastPath := path;
     challengePassed := challengePassed r;
     pageviews := if (maxPageviewStamps <? length pv)%nat then last_n maxPageviewStamps pv else pv |}.

(** [Record(key, view)]: [now] is read first, [now_get] inside [get]. *)
Definition Record_ (t : tracker) (key path : string) (now now_get : time) : tracker :=
  if key =?s "" then t else
  let '(o, t) := get t key now_get in
  let r := match o with Some r => r | None => new_record now end in
  with_cache t (lru_add key (record_hit r path now) (t_cache t)).

(** [MarkChallengePassed(key)]: [now_first] is read only for a new record. *)
Definition MarkChallengePassed (t : tracker) (key : string)
    (now_get now_first now_last : time) : tracker :=
  if key =?s "" then t else
  let '(o, t) := get t key now_get in
  let r := match o with Some r => r | None => new_record now_first end in
  let r := {| firstSeen := firstSeen r; lastSeen := now_last; lastPath := lastPath r;
              challengePassed := true; pageviews := pageviews r |} in
  with_cache t (lru_add key r (t_cache t)).

Definition ChallengePassed (t : tracker) (key : string) (now : time) : bool * tracker :=
  if key =?s "" then (false, t) else
  let '(o, t) := get t key now in
  (match o with Some r => challengePassed r | None => false end, t).

(** [Evaluate(sm, key, view)]; a nil [sm] is [None]. *)
Definition Evaluate (t : tracker) (sm : option SessionMatchers) (key : string)
    (viewPath : option string) (now_get now : time) : go bool * tracker :=
  match sm with
  | None => (Ret false, t)
  | Some sm =>
      match sm_Checks sm with
      | [] => (Ret false, t)
      | cs =>
          let '(o, t) := get t key now_get in
          let and_ := (sm_Condition sm =?s "") || (sm_Condition sm =?s "and") in
          (evalChecks and_ cs (bool_decide (is_Some o)) (snapshot_of o) viewPath now, t)
      end
  end.

End Tracker.
Arguments tracker {_}.

(** ** Lemmas: counting and globs *)

(** A recorded hit counts for [path] within [window]. *)
Definition hit_counts (path : string) (window : duration) (now : time) (h : hit) : bool :=
  ((path =?s "") || (hit_path h =?s path))
  && ((window <=? 0) || (Time.Add now (int64_wrap (- window)) <? hit_ts h)).

Definition count_hits (f : hit -> bool) (hits : list hit) : Z :=
  Z.of_nat (length (List.filter f hits)).

Lemma countWithin_spec hits path window now :
  countWithin hits path window now = count_hits (hit_counts path window now) hits.
Proof.
  unfold countWithin, count_hits.
  assert (G : forall n, countWithin_loop hits path window (Time.Add now (int64_wrap (- window))) n =
    n + Z.of_nat (length (List.filter (hit_counts path window now) hits))).
  { induction hits as [|h hits IH]; intros n; cbn [countWithin_loop List.filter]; [cbn; lia|].
    unfold hit_counts at 1, Time.After.
    destruct (path =?s ""), (hit_path h =?s path); cbn [negb andb orb];
      repeat case_match; rewrite IH; cbn [length]; lia. }
  by rewrite G.
Qed.

Lemma count_hits_bound f hits : 0 <= count_hits f hits <= Z.of_nat (length hits).
Proof. unfold count_hits. pose proof (List.filter_length_le f hits). lia. Qed.

Lemma hasPrefix_spec s p : hasPrefix s p = true <-> exists b, s = p +:+ b.
Proof.
  unfold hasPrefix, len. rewrite andb_true_iff, Z.leb_le, String.eqb_eq. split.
  - intros [_ E]. exists (str_drop (String.length p) s). rewrite <- E at 1. by rewrite str_take_drop.
  - intros [b ->]. rewrite str_length_app, str_take_app. split; [lia|done].
Qed.

Lemma hasSuffix_spec s p : hasSuffix s p = true <-> exists a, s = a +:+ p.
Proof.
  rewrite <- HasSuffix_spec. unfold hasSuffix, HasSuffix, len.
  rewrite !andb_true_iff, Z.leb_le, Nat.leb_le. naive_solver lia.
Qed.

Lemma bool_eq_iff (b c : bool) : (b = true <-> c = true) <-> b = c.
Proof. destruct b, c; naive_solver. Qed.

Lemma last_byte_star_prefix x : last_byte (String "*" x) = Some "*"%char -> x <> "" -> last_byte x = Some "*"%char.
Proof.
  intros E Hx. destruct (str_snoc x) as [->|(t & c & ->)]; [done|].
  rewrite <- str_app_cons, !last_byte_snoc in *. done.
Qed.

Lemma slice_prefix x y : slice (x +:+ y) 0 (len x) = Ret x.
Proof.
  unfold slice. rewrite len_app. pose proof (len_nonneg x); pose proof (len_nonneg y).
  replace ((0 <=? 0) && (0 <=? len x) && (len x <=? len x + len y)) with true by lia.
  rewrite Z.sub_0_r. change (Z.to_nat 0) with 0%nat. rewrite str_drop_0.
  unfold len. rewrite Nat2Z.id.
  by rewrite str_take_app.
Qed.

Lemma slice_tail c x y : slice (String c (x +:+ y)) 1 (1 + len x) = Ret x.
Proof.
  unfold slice. rewrite <- (str_app_cons c x y), len_app.
  pose proof (len_nonneg x); pose proof (len_nonneg y).
  replace (len (String c x)) with (1 + len x) by (unfold len; cbn [String.length]; lia).
  replace ((0 <=? 1) && (1 <=? 1 + len x) && (1 + len x <=? 1 + len x + len y)) with true by lia.
  replace (1 + len x - 1) with (len x) by lia. unfold len. rewrite Nat2Z.id.
  change (Z.to_nat 1) with 1%nat. rewrite str_app_cons.
  change (str_drop 1 (String c (x +:+ y))) with (str_drop 0 (x +:+ y)). rewrite str_drop_0.
  by rewrite str_take_app.
Qed.

Lemma len_snoc x c : len (x +:+ String c "") = len x + 1.
Proof. rewrite len_app. done. Qed.

Lemma len_cons x c : len (String c x) = 1 + len x.
Proof. unfold len. cbn [String.length]. lia. Qed.

(** A glob with a star on both sides. *)
Lemma matchGlob_contains x s :
  x <> "" -> matchGlob (String "*" (x +:+ "*")) s = Ret (Contains s x).
Proof.
  intros Hx. unfold matchGlob.
  change (String "*" (x +:+ "*")) with ((String "*" x) +:+ String "*" "").
  assert (Hn : ((String "*" x) +:+ String "*" "" =?s "") = false) by (by destruct x). rewrite Hn.
  destruct (String.eqb_spec ((String "*" x) +:+ String "*" "") s) as [<-|_].
  - f_equal. symmetry. apply Contains_spec. by exists "*", "*".
  - rewrite last_byte_snoc. cbn [byte_is]. rewrite Ascii.eqb_refl.
    cbn [first_byte String.get].
    replace (byte_is (first_byte ((String "*" x) +:+ "*")) "*") with true by done. cbn [andb].
    rewrite len_snoc, len_cons, str_app_cons.
    replace (1 + len x + 1 - 1) with (1 + len x) by lia.
    rewrite slice_tail. cbn. unfold containsStr. by destruct (String.eqb_spec x "").
Qed.

Lemma matchGlob_prefix x s :
  byte_is (first_byte x) "*" = false -> x <> "" ->
  matchGlob (x +:+ "*") s = Ret (hasPrefix s x).
Proof.
  intros Hf Hx. unfold matchGlob.
  assert (Hn : (x +:+ String "*" "" =?s "") = false) by (by destruct x).
  change (x +:+ "*") with (x +:+ String "*" ""). rewrite Hn.
  assert (Hf' : first_byte (x +:+ String "*" "") = first_byte x) by (by destruct x).
  rewrite Hf', Hf, last_byte_snoc. cbn [byte_is andb]. rewrite Ascii.eqb_refl.
  destruct (String.eqb_spec (x +:+ String "*" "") s) as [<-|_].
  - f_equal. symmetry. apply hasPrefix_spec. by exists "*".
  - rewrite len_snoc. replace (len x + 1 - 1) with (len x) by lia. by rewrite slice_prefix.
Qed.

Lemma matchGlob_suffix x s :
  byte_is (last_byte x) "*" = false -> x <> "" ->
  matchGlob (String "*" x) s = Ret (hasSuffix s x).
Proof.
  intros Hl Hx. unfold matchGlob.
  replace (String "*" x =?s "") with false by done.
  assert (Hl' : byte_is (last_byte (String "*" x)) "*" = false).
  { destruct (str_snoc x) as [->|(t & c & ->)]; [done|].
    rewrite <- str_app_cons. rewrite last_byte_snoc in *. done. }
  rewrite Hl'. cbn [first_byte String.get byte_is andb]. rewrite Ascii.eqb_refl.
  destruct (String.eqb_spec (String "*" x) s) as [<-|_].
  - f_equal. symmetry. apply hasSuffix_spec. by exists "*".
  - rewrite len_cons.
    pose proof (slice_tail "*" x "") as E. rewrite str_app_nil_r in E. by rewrite E.
Qed.

Lemma matchGlob_plain p s :
  byte_is (first_byte p) "*" = false -> byte_is (last_byte p) "*" = false ->
  matchGlob p s = Ret (negb (p =?s "") && (p =?s s)).
Proof.
  intros Hf Hl. unfold matchGlob. rewrite Hf, Hl.
  destruct (p =?s ""); [done|]. by destruct (p =?s s).
Qed.

Lemma matchGlob_panics p s : matchGlob p s = Panic RuntimePanic <-> p = "*" /\ s <> "*".
Proof.
  destruct (byte_is (first_byte p) "*") eqn:Hf.
  - destruct p as [|c p]; [done|]. apply Ascii.eqb_eq in Hf as ->.
    destruct (str_snoc p) as [->|(t & d & ->)].
    + unfold matchGlob. destruct (String.eqb_spec "*" s); naive_solver.
    + destruct (decide (d = "*"%char)) as [->|Hd].
      * destruct t as [|e t].
         -- change (String "*" ("" +:+ "*")) with "**". unfold matchGlob.
            destruct (String.eqb_spec "**" s); naive_solver.
         -- rewrite matchGlob_contains by done. split; [done|]. by intros [E _].
      * rewrite matchGlob_suffix; [split; [done|]; intros [E _]; by destruct t| |by destruct t].
         rewrite last_byte_snoc. cbn. by apply Ascii.eqb_neq.
  - destruct (byte_is (last_byte p) "*") eqn:Hl.
    + destruct (str_snoc p) as [->|(t & d & ->)]; [done|].
      rewrite last_byte_snoc in Hl. apply Ascii.eqb_eq in Hl as ->.
      destruct t as [|e t]; [done|].
      rewrite matchGlob_prefix by done. split; [done|].
      intros [E _]. by destruct t.
    + rewrite matchGlob_plain by done. split; [done|]. intros [-> _]. done.
Qed.

(** [matchGlob] is the glob it documents on every pattern but one: a star on
    both sides is "contains", a trailing star "starts with", a leading star
    "ends with", no star "equals" -- and the one-byte pattern ["*"] makes the
    slice [pattern[1:len(pattern)-1]] panic on every other path. *)
Theorem matchGlob_correct s :
  (forall x, x <> "" ->
     matchGlob ("*" +:+ x +:+ "*") s = Ret true <-> exists a b, s = a +:+ x +:+ b) /\
  (forall x, x <> "" -> byte_is (first_byte x) "*" = false ->
     matchGlob (x +:+ "*") s = Ret true <-> exists b, s = x +:+ b) /\
  (forall x, x <> "" -> byte_is (last_byte x) "*" = false ->
     matchGlob ("*" +:+ x) s = Ret true <-> exists a, s = a +:+ x) /\
  (forall p, byte_is (first_byte p) "*" = false -> byte_is (last_byte p) "*" = false ->
     matchGlob p s = Ret true <-> p <> "" /\ s = p) /\
  (forall p, matchGlob p s = Panic RuntimePanic <-> p = "*" /\ s <> "*").
Proof.
  assert (Hret : forall b c : bool, Ret b = Ret c <-> b = c) by (intros; split; congruence).
  split_and!; intros.
  - change ("*" +:+ x +:+ "*") with (String "*" (x +:+ "*")).
    rewrite matchGlob_contains by done. rewrite Hret. apply Contains_spec.
  - rewrite matchGlob_prefix by done. rewrite Hret. apply hasPrefix_spec.
  - change ("*" +:+ x) with (String "*" x).
    rewrite matchGlob_suffix by done. rewrite Hret. apply hasSuffix_spec.
  - rewrite matchGlob_plain by done. rewrite Hret, andb_true_iff, negb_true_iff.
    rewrite String.eqb_eq, String.eqb_neq. naive_solver.
  - apply matchGlob_panics.
Qed.

(** ** Lemmas: the cache operations *)

Section Laws.
Context `{LRULaws record}.
Implicit Types (t : tracker) (r : record).

(** The live record of a key at a time: present and not expired. *)
Definition live t (key : string) (now : time) : option record :=
  r ← lru_peek key (t_cache t);
  if t_ttl t <? Time.Sub now (lastSeen r) then None else Some r.

Lemma get_live t key now : (get t key now).1 = live t key now.
Proof.
  unfold get, live. rewrite (lru_get_eq key (t_cache t)).
  destruct (lru_peek key (t_cache t)) as [r|]; [|done]. simpl. by case_match.
Qed.

Lemma get_ttl t key now : t_ttl (get t key now).2 = t_ttl t.
Proof. unfold get. destruct (lru_get key (t_cache t)) as [[]]; simpl; [case_match|]; done. Qed.

Lemma get_cap t key now : lru_cap (t_cache (get t key now).2) = lru_cap (t_cache t).
Proof.
  unfold get. rewrite (lru_get_eq key (t_cache t)). destruct (lru_peek key (t_cache t)); simpl;
    [case_match; simpl|]; by rewrite ?lru_remove_cap, lru_get_cap.
Qed.

Lemma get_length t key now :
  (length (lru_items (t_cache (get t key now).2)) <= length (lru_items (t_cache t)))%nat.
Proof.
  unfold get. rewrite (lru_get_eq key (t_cache t)).
  pose proof (items_get_length key (t_cache t)).
  pose proof (items_remove_length key (lru_get key (t_cache t)).2).
  destruct (lru_peek key (t_cache t)); simpl; [case_match; simpl|]; lia.
Qed.

Lemma get_Forall (P : string * record -> Prop) t key now :
  Forall P (lru_items (t_cache t)) -> Forall P (lru_items (t_cache (get t key now).2)).
Proof.
  intros. unfold get. rewrite (lru_get_eq key (t_cache t)).
  destruct (lru_peek key (t_cache t)); simpl; [case_match; simpl|]; auto with smoker.
Qed.

(** [get] never changes what is live under any key. *)
Lemma get_peek_ne t key j now :
  j <> key -> lru_peek j (t_cache (get t key now).2) = lru_peek j (t_cache t).
Proof.
  intros. unfold get. rewrite (lru_get_eq key (t_cache t)).
  destruct (lru_peek key (t_cache t)); simpl; [case_match; simpl|];
    by rewrite ?peek_remove_ne, peek_get by done.
Qed.

Lemma get_peek_eq t key now :
  lru_peek key (t_cache (get t key now).2) = live t key now.
Proof.
  unfold get, live. rewrite (lru_get_eq key (t_cache t)).
  destruct (lru_peek key (t_cache t)) as [r|] eqn:E; simpl.
  - case_match; simpl; [apply peek_remove_eq|by rewrite peek_get].
  - by rewrite peek_get.
Qed.

Lemma get_pair t key now : get t key now = (live t key now, (get t key now).2).
Proof. rewrite <- get_live. by destruct (get t key now). Qed.

(** ** What the operations store *)

Lemma Record_peek t key path now now_get :
  (0 < lru_cap (t_cache t))%nat -> key <> "" ->
  lru_peek key (t_cache (Record_ t key path now now_get)) =
    Some (record_hit (default (new_record now) (live t key now_get)) path now).
Proof.
  intros Hc Hk. unfold Record_. apply String.eqb_neq in Hk. rewrite Hk, get_pair.
  cbn [with_cache t_cache]. rewrite peek_add_eq by (by rewrite get_cap). done.
Qed.

Lemma MarkChallengePassed_peek t key n1 n2 n3 :
  (0 < lru_cap (t_cache t))%nat -> key <> "" ->
  exists r, lru_peek key (t_cache (MarkChallengePassed t key n1 n2 n3)) = Some r /\
    challengePassed r = true /\ lastSeen r = n3.
Proof.
  intros Hc Hk. unfold MarkChallengePassed. apply String.eqb_neq in Hk. rewrite Hk, get_pair.
  cbn [with_cache t_cache]. rewrite peek_add_eq by (by rewrite get_cap).
  eexists. split; [reflexivity|]. done.
Qed.

Lemma ChallengePassed_live t key now :
  key <> "" ->
  (ChallengePassed t key now).1 =
    match live t key now with Some r => challengePassed r | None => false end.
Proof.
  intros Hk. unfold ChallengePassed. apply String.eqb_neq in Hk. by rewrite Hk, get_pair.
Qed.

(** ** Reachable trackers *)

Inductive op :=
| ORecord (key path : string) (now now_get : time)
| OMark (key : string) (now_get now_first now_last : time)
| OPassed (key : string) (now : time)
| OEvaluate (sm : option SessionMatchers) (key : string) (viewPath : option string)
    (now_get now : time).

Definition apply t (o : op) : tracker :=
  match o with
  | ORecord key path now now_get => Record_ t key path now now_get
  | OMark key n1 n2 n3 => MarkChallengePassed t key n1 n2 n3
  | OPassed key now => (ChallengePassed t key now).2
  | OEvaluate sm key vp n1 n2 => (Evaluate t sm key vp n1 n2).2
  end.

(** The clock readings of an operation, in order. *)
Definition readings (o : op) : list time :=
  match o with
  | ORecord _ _ now now_get => [now; now_get]
  | OMark _ n1 n2 n3 => [n1; n2; n3]
  | OPassed _ now => [now]
  | OEvaluate _ _ _ n1 n2 => [n1; n2]
  end.

(** Trackers reachable by operations under a clock that never goes back;
    the index is the last reading. *)
Inductive reachable (maxEntries : Z) (ttl : duration) : tracker -> time -> Prop :=
| reach_new t now : New maxEntries ttl = Some t -> reachable maxEntries ttl t now
| reach_step t now o :
    reachable maxEntries ttl t now ->
    StronglySorted Z.le (now :: readings o) ->
    reachable maxEntries ttl (apply t o) (List.last (readings o) now).

Definition hit_le (h1 h2 : hit) : Prop := hit_ts h1 <= hit_ts h2.

(** A record at most [now] old. *)
Record record_wf (now : time) (r : record) : Prop := {
  wf_bound : (length (pageviews r) <= maxPageviewStamps)%nat;
  wf_sorted : StronglySorted hit_le (pageviews r);
  wf_last : Forall (fun h => hit_ts h <= lastSeen r) (pageviews r);
  wf_first : firstSeen r <= lastSeen r;
  wf_now : lastSeen r <= now;
  wf_path : forall h, last (pageviews r) = Some h -> hit_path h = lastPath r;
}.

Record tracker_wf (now : time) (t : tracker) : Prop := {
  wf_cap : (0 < lru_cap (t_cache t))%nat;
  wf_len : (length (lru_items (t_cache t)) <= lru_cap (t_cache t))%nat;
  wf_records : Forall (fun p => record_wf now p.2) (lru_items (t_cache t));
}.

Lemma record_wf_mono now now' r : now <= now' -> record_wf now r -> record_wf now' r.
Proof. intros Hle []; split; auto; lia. Qed.

Lemma tracker_wf_mono now now' t : now <= now' -> tracker_wf now t -> tracker_wf now' t.
Proof.
  intros Hle [? ? HF]; split; auto. eapply Forall_impl; [exact HF|].
  intros. by eapply record_wf_mono.
Qed.

Lemma get_wf now t key n : tracker_wf now t -> tracker_wf now (get t key n).2.
Proof.
  intros []. split.
  - by rewrite get_cap.
  - rewrite get_cap. pose proof (get_length t key n). lia.
  - by apply get_Forall.
Qed.

Lemma live_wf now t key n r : tracker_wf now t -> live t key n = Some r -> record_wf now r.
Proof.
  intros [_ _ HF] E. apply bind_Some in E as (r' & E & Hx). case_match; simplify_eq.
  eapply (assoc_Forall (record_wf now)); [exact HF|exact E].
Qed.

Lemma add_wf now t key r :
  tracker_wf now t -> record_wf now r ->
  tracker_wf now (with_cache t (lru_add key r (t_cache t))).
Proof.
  intros [] Hr. split; cbn [with_cache t_cache].
  - by rewrite lru_add_cap.
  - rewrite lru_add_cap. apply items_add_length.
  - by apply items_add_Forall.
Qed.

Lemma record_hit_wf now r path :
  record_wf now r \/ r = new_record now ->
  record_wf now (record_hit r path now).
Proof.
  intros Hr. set (pv := pageviews r ++ [Hit now path]).
  assert (Hs : StronglySorted hit_le pv /\ Forall (fun h => hit_ts h <= now) pv /\
               firstSeen r <= now /\ pv <> []).
  { subst pv. destruct Hr as [[] | -> ]; cbn; [|repeat constructor; try done; lia].
    assert (Forall (fun h => hit_ts h <= now) (pageviews r)).
    { eapply Forall_impl; [eassumption|]. simpl. lia. }
    split_and!; [| |lia|by destruct (pageviews r)].
    - by apply StronglySorted_snoc.
    - apply Forall_app. split; [done|]. by repeat constructor. }
  destruct Hs as (Hs & HF & Hf & Hne).
  assert (Hlast : last pv = Some (Hit now path)) by (by apply last_snoc).
  split; cbn [record_hit pageviews lastSeen firstSeen lastPath]; fold pv; try done; try lia.
  - destruct (Nat.ltb_spec maxPageviewStamps (length pv)); [|done]. rewrite last_n_length. lia.
  - case_match; [by apply StronglySorted_drop|done].
  - case_match; [by apply Forall_drop|done].
  - intros h Hh. enough (Some h = Some (Hit now path)) by (by simplify_eq).
    rewrite <- Hh. case_match; [|done].
    rewrite last_last_n; [done|unfold maxPageviewStamps; lia].
Qed.

Lemma sorted_readings_last o now :
  StronglySorted Z.le (now :: readings o) -> now <= List.last (readings o) now.
Proof. destruct o; simpl; intros Hs; repeat (inversion_clear Hs as [|? ? Hs' HF]; rename Hs' into Hs);
  rewrite ?Forall_cons in *; lia. Qed.

Lemma apply_wf now t o :
  tracker_wf now t -> StronglySorted Z.le (now :: readings o) ->
  tracker_wf (List.last (readings o) now) (apply t o).
Proof.
  intros Hwf Hs. pose proof (sorted_readings_last _ _ Hs) as Hle.
  apply (tracker_wf_mono _ _ _ Hle) in Hwf as Hwf'.
  destruct o as [key path n ng|key n1 n2 n3|key n|sm key vp n1 n2]; cbn [apply readings List.last] in *.
  - unfold Record_. destruct (key =?s ""); [done|]. rewrite get_pair. apply add_wf.
    { by apply get_wf. }
    inversion_clear Hs as [|? ? Hs' HF1]. inversion_clear Hs' as [|? ? Hs'' HF2].
    rewrite !Forall_cons in *. apply (record_wf_mono n); [lia|].
    apply record_hit_wf. destruct (live t key ng) as [r|] eqn:E; [left|by right].
    apply (record_wf_mono now); [lia|]. by eapply live_wf.
  - unfold MarkChallengePassed. destruct (key =?s ""); [done|]. rewrite get_pair. apply add_wf.
    { by apply get_wf. }
    inversion_clear Hs as [|? ? Hs' HF1]. inversion_clear Hs' as [|? ? Hs'' HF2].
    inversion_clear Hs'' as [|? ? _ HF3]. rewrite !Forall_cons in *.
    destruct (live t key n1) as [r|] eqn:E.
    + pose proof (live_wf _ _ _ _ _ Hwf E) as []. split; cbn; try done; try lia.
      eapply Forall_impl; [eassumption|]. cbn. lia.
    + split; cbn; try done; try lia; constructor.
  - unfold ChallengePassed. destruct (key =?s ""); [done|]. rewrite get_pair. by apply get_wf.
  - unfold Evaluate. destruct sm as [sm|]; [|done]. destruct (sm_Checks sm); [done|].
    rewrite get_pair. by apply get_wf.
Qed.

Lemma New_wf maxEntries ttl t now : New maxEntries ttl = Some t -> tracker_wf now t.
Proof.
  unfold New. set (n := if _ <=? 0 then _ else _).
  assert (Hn : 0 < n) by (subst n; destruct (Z.leb_spec maxEntries 0); lia).
  destruct (lru_new_ok n Hn) as (c & -> & Hi & Hc). intros [= <-].
  split; cbn [t_cache]; rewrite ?Hi, ?Hc; [lia|cbn; lia|done].
Qed.

Lemma reachable_wf maxEntries ttl t now : reachable maxEntries ttl t now -> tracker_wf now t.
Proof. induction 1; eauto using New_wf, apply_wf. Qed.

End Laws.

(** ** Properties *)

Section Properties.
Context `{LRULaws record}.
Implicit Types (t : tracker) (r : record).

(** (C26) Invariant of the tracker: whatever sequence of operations it went
    through, under a clock that never goes back, it holds at most
    [maxEntries] (100000 by default) sessions, and each of them has at most 64
    hits, in time order, none later than its last activity, which is not in
    the future, with [lastPath] the path of the latest hit. *)
Theorem tracker_invariant maxEntries ttl t now :
  reachable maxEntries ttl t now ->
  tracker_wf now t /\
  Len t <= (if maxEntries <=? 0 then 100000 else maxEntries).
Proof.
  intros Hr. split; [by eapply reachable_wf|].
  assert (Hc : lru_cap (t_cache t) = Z.to_nat (if maxEntries <=? 0 then 100000 else maxEntries)).
  { induction Hr as [t now Hn|t now o Hr IH Hs].
    - revert Hn. unfold New. set (n := if _ <=? 0 then _ else _).
      assert (Hn : 0 < n) by (subst n; destruct (Z.leb_spec maxEntries 0); lia).
      destruct (lru_new_ok n Hn) as (c & -> & _ & Hc). by intros [= <-].
    - rewrite <- IH. destruct o as [key p n1 n2|key n1 n2 n3|key n|sm key vp n1 n2]; cbn [apply].
      + unfold Record_. destruct (key =?s ""); [done|]. rewrite get_pair. cbn [with_cache t_cache].
        by rewrite lru_add_cap, get_cap.
      + unfold MarkChallengePassed. destruct (key =?s ""); [done|]. rewrite get_pair.
        cbn [with_cache t_cache]. by rewrite lru_add_cap, get_cap.
      + unfold ChallengePassed. destruct (key =?s ""); [done|]. rewrite get_pair. apply get_cap.
      + unfold Evaluate. destruct sm as [sm|]; [|done]. destruct (sm_Checks sm); [done|].
        rewrite get_pair. apply get_cap. }
  destruct (reachable_wf _ _ _ _ Hr) as [_ Hl _]. unfold Len. rewrite lru_len_items.
  destruct (Z.leb_spec maxEntries 0); lia.
Qed.

(** [evalCheck] as a total function; [Evaluate] only uses it where it does not
    panic. *)
Definition check_value (c : SessionCheck) (o : option record) (vp : option string) (now : time) : bool :=
  match evalCheck c (bool_decide (is_Some o)) (snapshot_of o) vp now with
  | Ret b => b
  | Panic _ => false
  end.

(** The check cannot hit the panic of [matchGlob]. *)
Definition check_safe (c : SessionCheck) : Prop :=
  chk_Type c = "last-path-matches" -> chk_Match c <> "*".

Lemma evalCheck_safe c seen sn vp now :
  check_safe c -> exists b, evalCheck c seen sn vp now = Ret b.
Proof.
  intros Hs. unfold evalCheck. repeat (case_match; [by eexists|]).
  destruct (String.eqb_spec (chk_Type c) "last-path-matches") as [E|]; [|by eexists].
  case_match; [|by eexists]. destruct (matchGlob _ _) as [b|p] eqn:Em; [by eexists|].
  destruct p; [|exfalso; revert Em; unfold matchGlob, slice; by repeat case_match].
  exfalso. apply matchGlob_panics in Em as [Em _]. by apply Hs.
Qed.

(** The value of a rule's condition for a session [o]. *)
Definition condition_value (sm : SessionMatchers) (o : option record) (vp : option string) (now : time) : bool :=
  let holds c := xorb (chk_Negate c) (check_value c o vp now) in
  if (sm_Condition sm =?s "") || (sm_Condition sm =?s "and")
  then forallb holds (sm_Checks sm) else existsb holds (sm_Checks sm).

Lemma evalChecks_value sm o vp now :
  Forall check_safe (sm_Checks sm) ->
  evalChecks ((sm_Condition sm =?s "") || (sm_Condition sm =?s "and")) (sm_Checks sm)
    (bool_decide (is_Some o)) (snapshot_of o) vp now = Ret (condition_value sm o vp now).
Proof.
  intros Hs. unfold condition_value.
  set (and_ := (sm_Condition sm =?s "") || (sm_Condition sm =?s "and")).
  induction Hs as [|c cs Hc Hs IH]; [by destruct and_|].
  cbn [evalChecks forallb existsb].
  destruct (evalCheck_safe c (bool_decide (is_Some o)) (snapshot_of o) vp now Hc) as [b Hb].
  assert (Hh : check_value c o vp now = b) by (unfold check_value; by rewrite Hb).
  rewrite Hb, Hh. cbn [mbind go_bind].
  replace (if chk_Negate c then negb b else b) with (xorb (chk_Negate c) b) by (by destruct (chk_Negate c), b).
  rewrite IH. by destruct and_, (xorb (chk_Negate c) b).
Qed.

Lemma Evaluate_value t sm key vp n1 n2 :
  sm_Checks sm <> [] -> Forall check_safe (sm_Checks sm) ->
  Evaluate t (Some sm) key vp n1 n2 =
    (Ret (condition_value sm (live t key n1) vp n2), (get t key n1).2).
Proof.
  intros Hne Hs. unfold Evaluate. destruct (sm_Checks sm) as [|c0 cs0] eqn:Ec; [done|].
  rewrite get_pair, <- Ec, evalChecks_value; [done|]. by rewrite Ec.
Qed.

(** [Evaluate] is the condition its rule writes: with an [and] (or empty)
    condition every check holds, with any other some check does, a negated
    check holding when its predicate does not; the early returns of the loop
    change nothing.  The session is the live one at the time of the call, and
    no other session is touched. *)
Theorem Evaluate_all_or_any t sm key vp n1 n2 :
  sm_Checks sm <> [] -> Forall check_safe (sm_Checks sm) ->
  let holds c := xorb (chk_Negate c) (check_value c (live t key n1) vp n2) in
  (Evaluate t (Some sm) key vp n1 n2).1 =
    Ret (if (sm_Condition sm =?s "") || (sm_Condition sm =?s "and")
         then forallb holds (sm_Checks sm) else existsb holds (sm_Checks sm)) /\
  forall j, j <> key ->
    lru_peek j (t_cache (Evaluate t (Some sm) key vp n1 n2).2) = lru_peek j (t_cache t).
Proof.
  intros Hne Hs holds. rewrite Evaluate_value by done. cbn [fst snd].
  split; [done|]. intros. by apply get_peek_ne.
Qed.

(** A rule that asks for the glob ["*"] crashes: as soon as the session has
    a last path other than ["*"] itself, evaluating its [last-path-matches]
    check panics instead of matching. *)
Theorem Evaluate_panics_on_star t cond c key vp n1 n2 r :
  live t key n1 = Some r -> lastPath r <> "" -> lastPath r <> "*" ->
  chk_Type c = "last-path-matches" -> chk_Match c = "*" ->
  (Evaluate t (Some {| sm_Condition := cond; sm_Checks := [c] |}) key vp n1 n2).1 = Panic RuntimePanic.
Proof.
  intros Hl Hp Hs Ht Hm. unfold Evaluate. cbn [sm_Checks]. rewrite get_pair, Hl. cbn [fst evalChecks].
  unfold evalCheck. rewrite Ht, Hm. cbn [String.eqb Ascii.eqb Bool.eqb snapshot_of snap_lastPath].
  apply String.eqb_neq in Hp. rewrite Hp. cbn [negb].
  by rewrite (proj2 (matchGlob_panics "*" (lastPath r)) (conj eq_refl Hs)).
Qed.

(** The 64-hit bound caps the rate rules: in every reachable tracker a
    [rate-limit] check with a value of 64 or more, a [min-prior-pageviews]
    check above 64 and an [endpoint-rate-limit] check above 65 never hold,
    however many requests the session made. *)
Theorem rate_rules_saturate maxEntries ttl t now key vp n1 n2 c :
  reachable maxEntries ttl t now ->
  (chk_Type c = "rate-limit" /\ 64 <= chk_Value c) \/
  (chk_Type c = "min-prior-pageviews" /\ 64 < chk_Value c) \/
  (chk_Type c = "endpoint-rate-limit" /\ 65 < chk_Value c) ->
  check_value c (live t key n1) vp n2 = false.
Proof.
  intros Hr%reachable_wf Hc.
  assert (Hb : forall p w, countWithin (snap_hits (snapshot_of (live t key n1))) p w n2 <= 64).
  { intros p w. rewrite countWithin_spec. etrans; [apply count_hits_bound|].
    destruct (live t key n1) as [r|] eqn:E; cbn; [|lia].
    pose proof (wf_bound _ _ (live_wf _ _ _ _ _ Hr E)). unfold maxPageviewStamps in *. lia. }
  unfold check_value, evalCheck.
  destruct Hc as [[-> Hv]|[[-> Hv]|[-> Hv]]]; cbn [String.eqb Ascii.eqb Bool.eqb].
  - specialize (Hb "" (chk_Window c)). lia.
  - specialize (Hb "" (chk_Window c)). lia.
  - set (p := if negb _ then _ else _). specialize (Hb p (chk_Window c)). lia.
Qed.

(** A run of recorded requests of one session: path, clock at [Record], clock
    in [get]. *)
Fixpoint visit t (key : string) (visits : list (string * time * time)) : tracker :=
  match visits with
  | [] => t
  | (path, n, ng) :: vs => visit (Record_ t key path n ng) key vs
  end.

(** No gap between the last activity [last] and the next visit exceeds [ttl]. *)
Fixpoint gaps_ok (ttl : duration) (last_ : time) (visits : list (string * time * time)) (now : time) : Prop :=
  match visits with
  | [] => Time.Sub now last_ <= ttl
  | (_, n, ng) :: vs => Time.Sub ng last_ <= ttl /\ gaps_ok ttl n vs now
  end.

(** The grace of a solved challenge lasts as long as the session: once
    [MarkChallengePassed] ran, the session counts as passed after any number
    of recorded requests none of which comes more than [ttl] after the
    previous activity; and when the session stays idle longer than [ttl] the
    grace is gone. *)
Theorem challenge_grace t key n1 n2 n3 visits now :
  (0 < lru_cap (t_cache t))%nat -> key <> "" ->
  let t' := MarkChallengePassed t key n1 n2 n3 in
  (gaps_ok (t_ttl t) n3 visits now ->
   (ChallengePassed (visit t' key visits) key now).1 = true) /\
  (t_ttl t < Time.Sub now n3 -> (ChallengePassed t' key now).1 = false).
Proof.
  intros Hc Hk t'.
  destruct (MarkChallengePassed_peek t key n1 n2 n3 Hc Hk) as (r & Hp & Hch & Hl).
  assert (Ht : t_ttl t' = t_ttl t /\ (0 < lru_cap (t_cache t'))%nat).
  { subst t'. unfold MarkChallengePassed. apply String.eqb_neq in Hk. rewrite Hk, get_pair.
    cbn [with_cache t_ttl t_cache]. by rewrite lru_add_cap, get_cap, get_ttl. }
  destruct Ht as [Htt Hc'].
  split.
  - rewrite <- Htt. clear Htt Hc. fold t' in Hp. clearbody t'. revert t' n3 r Hp Hch Hl Hc'.
    induction visits as [|[[path n] ng] vs IH]; intros t' n3 r Hp Hch Hl Hc'; cbn [gaps_ok visit].
    + intros Hg. rewrite ChallengePassed_live by done. unfold live. rewrite Hp. cbn [mbind option_bind].
      rewrite Hl. replace (t_ttl t' <? Time.Sub now n3) with false by lia. done.
    + intros [Hg Hgs].
      assert (Htt : t_ttl (Record_ t' key path n ng) = t_ttl t' /\
                    (0 < lru_cap (t_cache (Record_ t' key path n ng)))%nat).
      { unfold Record_. pose proof Hk as Hk'. apply String.eqb_neq in Hk'. rewrite Hk', get_pair.
        cbn [with_cache t_ttl t_cache]. by rewrite lru_add_cap, get_cap, get_ttl. }
      destruct Htt as [Htt Hcap]. rewrite <- Htt in Hgs. eapply IH; [|..|exact Hcap|exact Hgs].
      * by apply Record_peek.
      * unfold live. rewrite Hp. cbn [mbind option_bind]. rewrite Hl.
        replace (t_ttl t' <? Time.Sub ng n3) with false by lia. done.
      * done.
  - intros Hg. rewrite ChallengePassed_live by done. unfold live. fold t' in Hp. rewrite Hp.
    cbn [mbind option_bind]. rewrite Hl, Htt. by replace (t_ttl t <? Time.Sub now n3) with true by lia.
Qed.

End Properties.

(** ** Witnesses *)

Module SessionExamples.

#[local] Existing Instance ListLru.list_lru.
#[local] Existing Instance ListLru.list_lru_laws.

Definition t0 : tracker := Tracker (ListLru.Lru 2 []) (30 * Minute).

(** A session that visited [/shop] once, a minute after the epoch of the example. *)
Definition t1 : tracker := Record_ t0 "sid:a" "/shop" Minute Minute.

Lemma t1_reachable : reachable 2 (30 * Minute) t1 Minute.
Proof.
  apply (reach_step 2 (30 * Minute) t0 0 (ORecord "sid:a" "/shop" Minute Minute)).
  - by apply reach_new.
  - repeat constructor; discriminate.
Defined.

Lemma tracker_invariant_witness :
  reachable 2 (30 * Minute) t1 Minute /\ tracker_wf Minute t1 /\ Len t1 <= 2.
Proof. split; [exact t1_reachable|]. apply (tracker_invariant 2 (30 * Minute) t1 Minute t1_reachable). Defined.

Definition check (ty m : string) (v : Z) (neg : bool) : SessionCheck :=
  {| chk_Type := ty; chk_Negate := neg; chk_Value := v; chk_Window := 30 * Minute; chk_Match := m |}.

(** The cold-cart rule of the authoring guide, on the warm session. *)
Definition cold_cart : SessionMatchers :=
  {| sm_Condition := "and";
     sm_Checks := [check "session-seen-before" "" 0 true; check "min-prior-pageviews" "" 1 true] |}.

Lemma Evaluate_all_or_any_witness :
  sm_Checks cold_cart <> [] /\ Forall check_safe (sm_Checks cold_cart) /\
  (Evaluate t1 (Some cold_cart) "sid:a" None (2 * Minute) (2 * Minute)).1 = Ret false /\
  (Evaluate t1 (Some cold_cart) "sid:b" None (2 * Minute) (2 * Minute)).1 = Ret true.
Proof.
  assert (Hs : Forall check_safe (sm_Checks cold_cart)) by (repeat constructor; intros E; discriminate E).
  split; [discriminate|]. split; [exact Hs|]. split.
  - etransitivity; [apply (Evaluate_all_or_any t1 cold_cart "sid:a"); [discriminate|exact Hs]|].
    reflexivity.
  - etransitivity; [apply (Evaluate_all_or_any t1 cold_cart "sid:b"); [discriminate|exact Hs]|].
    reflexivity.
Defined.

Lemma Evaluate_panics_on_star_witness :
  (Evaluate t1 (Some {| sm_Condition := ""; sm_Checks := [check "last-path-matches" "*" 0 false] |})
     "sid:a" None Minute Minute).1 = Panic RuntimePanic.
Proof.
  eapply Evaluate_panics_on_star; [reflexivity| | | |]; try reflexivity; discriminate.
Defined.

Lemma rate_rules_saturate_witness :
  check_value (check "rate-limit" "" 64 false) (live t1 "sid:a" Minute) None Minute = false.
Proof.
  apply (rate_rules_saturate 2 (30 * Minute) t1 Minute); [exact t1_reachable|].
  left. split; [reflexivity|discriminate].
Defined.

Lemma challenge_grace_witness :
  (ChallengePassed (visit (MarkChallengePassed t1 "sid:a" Minute Minute Minute) "sid:a"
     [("/cart", 20 * Minute, 20 * Minute); ("/pay", 45 * Minute, 45 * Minute)]) "sid:a" Hour).1 = true /\
  (ChallengePassed (MarkChallengePassed t1 "sid:a" Minute Minute Minute) "sid:a" Hour).1 = false.
Proof.
  split.
  - apply challenge_grace; [repeat constructor|discriminate|].
    split; [discriminate|split; discriminate].
  - apply (challenge_grace t1 "sid:a" Minute Minute Minute [] Hour); [repeat constructor|discriminate|].
    reflexivity.
Defined.

End SessionExamples.
