(* ===== verification/Reputation.v ===== *)
(** * The IP Reputation Manager ([internal/reputation/reputation.go])

    An in-memory map of entries, persisted in a BoltDB bucket: lookups with TTL
    expiry, the greylist/block escalation on violations, forced blocks, and the
    reload of the persisted state.  [m.now()] is an argument of each operation,
    which reads the clock at most once. *)

From S2P Require Export GoStrings.

(** ** Data *)

(** [State] *)
Inductive State := StateClean | StateGreylisted | StateBlocked.

#[export] Instance State_eq_dec : EqDecision State.
Proof. solve_decision. Defined.

(** [Transition] *)
Record Transition := {
  tr_IP : string;
  tr_From : State;
  tr_To : State;
  tr_Reason : string;
  tr_Changed : bool;
  tr_Expiry : time;
}.

(** [Config] *)
Record Config := {
  BlockThreshold : Z;
  Window : duration;
  GreylistTTL : duration;
  BlockTTL : duration;
  CleanTTL : duration;
}.

(** [entry] *)
Record entry := {
  e_State : State;
  e_Since : time;
  e_Expiry : time;
  e_Violations : list time;
}.

#[export] Instance entry_eq_dec : EqDecision entry.
Proof. solve_decision. Defined.

(** ** The database and the JSON encoding *)

(** [go.etcd.io/bbolt], not part of the repository: [bolt_bucket] is the
    content of the bucket ["reputation"] ([None]: no such bucket), [bolt_update
    f] a read-write transaction whose function is [f] ([None]: it returned an
    error); the boolean says whether [Update] returned nil. *)
Class BoltDB := {
  bolt_t : Type;
  bolt_bucket : bolt_t -> option (gmap string string);
  bolt_update :
    (option (gmap string string) -> option (option (gmap string string))) ->
    bolt_t -> bool * bolt_t;
}.

(** A transaction commits everything or nothing. *)
Class BoltDBLaws `{BoltDB} : Prop := {
  bolt_commit f db :
    (bolt_update f db).1 = true -> Some (bolt_bucket (bolt_update f db).2) = f (bolt_bucket db);
  bolt_rollback f db :
    (bolt_update f db).1 = false -> bolt_bucket (bolt_update f db).2 = bolt_bucket db;
}.

(** [encoding/json] on entries: [None] is an error. *)
Class EntryJSON := {
  json_Marshal : entry -> option string;
  json_Unmarshal : string -> option entry;
}.

(** [time.Time.MarshalJSON] accepts the years 0 to 9999. *)
Definition min_json_time : time := -31622400 * Second.
Definition max_json_time : time := 315537897600 * Second - 1.

Definition json_time_ok (t : time) : Prop := min_json_time <= t <= max_json_time.

Record json_entry_ok (e : entry) : Prop := {
  json_since_ok : json_time_ok (e_Since e);
  json_expiry_ok : json_time_ok (e_Expiry e);
  json_violations_ok : Forall json_time_ok (e_Violations e);
}.

(** An entry whose times have a four-digit year is encoded, and an encoded
    entry decodes to itself. *)
Class EntryJSONLaws `{EntryJSON} : Prop := {
  json_total e : json_entry_ok e -> is_Some (json_Marshal e);
  json_roundtrip e b : json_Marshal e = Some b -> json_Unmarshal b = Some e;
}.

(** ** The manager *)

Section Manager.
Context `{BoltDB} `{EntryJSON}.

(** [OnTransition] appends to [emitted] (in smoker, to reputation.log). *)
Record Manager := {
  cfg : Config;
  db : bolt_t;
  entries : gmap string entry;
  emitted : list Transition;
}.

Definition set_entries (m : Manager) (es : gmap string entry) : Manager :=
  {| cfg := cfg m; db := db m; entries := es; emitted := emitted m |}.
Definition set_db (m : Manager) (d : bolt_t) : Manager :=
  {| cfg := cfg m; db := d; entries := entries m; emitted := emitted m |}.

Definition emit (m : Manager) (tr : Transition) : Manager :=
  if tr_Changed tr
  then {| cfg := cfg m; db := db m; entries := entries m; emitted := emitted m ++ [tr] |}
  else m.

(** [persist]: the error of the transaction is dropped. *)
Definition persist (m : Manager) (ip : string) (e : entry) : Manager :=
  match json_Marshal e with
  | None => m
  | Some data =>
      set_db m (bolt_update (fun b =>
        match b with
        | None => Some None
        | Some b => Some (Some (<[ip := data]> b))
        end) (db m)).2
  end.

Definition delete_ (m : Manager) (ip : string) : Manager :=
  set_db m (bolt_update (fun b =>
    match b with
    | None => Some None
    | Some b => Some (Some (delete ip b))
    end) (db m)).2.

(** An expiry that is set and past. *)
Definition expired (e : entry) (now : time) : bool :=
  negb (Time.IsZero (e_Expiry e)) && Time.After now (e_Expiry e).

(** The three critical sections of [Lookup], run without a common lock: the
    read, the removal from the map, the removal from the database (with the
    transition it logs). *)
Inductive lookup_read := LookupDone (s : State) | LookupExpired (e : entry).

Definition Lookup_read (m : Manager) (ip : string) (now : time) : lookup_read :=
  match entries m !! ip with
  | None => LookupDone StateClean
  | Some e => if expired e now then LookupExpired e else LookupDone (e_State e)
  end.

Definition Lookup_evict (m : Manager) (ip : string) : Manager :=
  set_entries m (delete ip (entries m)).

Definition Lookup_forget (m : Manager) (ip : string) (e : entry) : Manager :=
  emit (delete_ m ip)
    {| tr_IP := ip; tr_From := e_State e; tr_To := StateClean;
       tr_Reason := "ttl expired"; tr_Changed := true; tr_Expiry := 0 |}.

Definition Lookup (m : Manager) (ip : string) (now : time) : State * Manager :=
  match Lookup_read m ip now with
  | LookupDone s => (s, m)
  | LookupExpired e => (StateClean, Lookup_forget (Lookup_evict m ip) ip e)
  end.

(** The violations kept by [RegisterViolation]: those after [now - Window]. *)
Definition prune (cutoff : time) (vs : list time) : list time :=
  List.filter (fun ts => Time.After ts cutoff) vs.

(** The entry after a violation, unless it is blocked already. *)
Definition violated (c : Config) (e : entry) (now : time) : entry :=
  let vs := prune (Time.Add now (int64_wrap (- Window c))) (e_Violations e ++ [now]) in
  if BlockThreshold c <=? Z.of_nat (length vs)
  then {| e_State := StateBlocked; e_Since := now;
          e_Expiry := Time.Add now (BlockTTL c); e_Violations := vs |}
  else {| e_State := StateGreylisted; e_Since := now;
          e_Expiry := Time.Add now (GreylistTTL c); e_Violations := vs |}.

Definition new_entry (now : time) : entry :=
  {| e_State := StateClean; e_Since := now; e_Expiry := 0; e_Violations := [] |}.

Definition RegisterViolation (m : Manager) (ip reason : string) (now : time) : Transition * Manager :=
  let e := default (new_entry now) (entries m !! ip) in
  let from := e_State e in
  if bool_decide (from = StateBlocked) then
    ({| tr_IP := ip; tr_From := from; tr_To := StateBlocked; tr_Reason := reason;
        tr_Changed := false; tr_Expiry := e_Expiry e |}, m)
  else
    let e := violated (cfg m) e now in
    let m := set_entries m (<[ip := e]> (entries m)) in
    let m := persist m ip e in
    let tr := {| tr_IP := ip; tr_From := from; tr_To := e_State e; tr_Reason := reason;
                 tr_Changed := negb (bool_decide (from = e_State e)); tr_Expiry := e_Expiry e |} in
    (tr, emit m tr).

(** [MarkClean] and [Block] share this shape: the entry is replaced. *)
Definition force (m : Manager) (ip reason : string) (now : time) (to : State) (ttl : duration) :
    Transition * Manager :=
  let from := match entries m !! ip with Some e => e_State e | None => StateClean end in
  let ne := {| e_State := to; e_Since := now; e_Expiry := Time.Add now ttl; e_Violations := [] |} in
  let m := set_entries m (<[ip := ne]> (entries m)) in
  let m := persist m ip ne in
  let tr := {| tr_IP := ip; tr_From := from; tr_To := to; tr_Reason := reason;
               tr_Changed := negb (bool_decide (from = to)); tr_Expiry := e_Expiry ne |} in
  (tr, emit m tr).

Definition MarkClean (m : Manager) (ip reason : string) (now : time) : Transition * Manager :=
  force m ip reason now StateClean (CleanTTL (cfg m)).

Definition Block (m : Manager) (ip reason : string) (now : time) : Transition * Manager :=
  force m ip reason now StateBlocked (BlockTTL (cfg m)).

(** The loop of [load] over the bucket: corrupt and expired entries are
    skipped. *)
Definition load_entries (b : gmap string string) (now : time) : gmap string entry :=
  omap (fun v => e ← json_Unmarshal v; if expired e now then None else Some e) b.

(** [Open] on an opened database ([bolt.Open] succeeded); [None] when the
    transaction of [load] fails. *)
Definition Open (d : bolt_t) (c : Config) (now : time) : option Manager :=
  let '(ok, d') := bolt_update (fun b => Some (Some (default ∅ b))) d in
  if (ok : bool)
  then Some {| cfg := c; db := d'; entries := load_entries (default ∅ (bolt_bucket d')) now;
               emitted := [] |}
  else None.

End Manager.
Arguments Manager {_}.

(** ** Lemmas: the pure state machine of one address *)

Lemma prune_app c l1 l2 : prune c (l1 ++ l2) = prune c l1 ++ prune c l2.
Proof. apply List.filter_app. Qed.

Lemma prune_prune c1 c2 l : c1 <= c2 -> prune c2 (prune c1 l) = prune c2 l.
Proof.
  intros Hle. unfold prune. induction l as [|t l IH]; [done|]. cbn [List.filter].
  unfold Time.After in *. destruct (Z.ltb_spec c1 t); cbn [List.filter]; rewrite IH; [done|].
  destruct (Z.ltb_spec c2 t); [lia|done].
Qed.

Lemma prune_old c l : Forall (fun t => t <= c) l -> prune c l = [].
Proof.
  induction 1 as [|t l Ht _ IH]; [done|]. unfold prune in *. cbn [List.filter].
  unfold Time.After in *. by replace (c <? t) with false by lia.
Qed.

Lemma expired_mono e t t' : t <= t' -> expired e t = true -> expired e t' = true.
Proof. unfold expired, Time.After. rewrite !andb_true_iff, !Z.ltb_lt. intros ? []. split; [done|lia]. Qed.

Lemma violated_violations c e now :
  e_Violations (violated c e now) =
  prune (Time.Add now (int64_wrap (- Window c))) (e_Violations e ++ [now]).
Proof. unfold violated. by case_match. Qed.

(** Drop an entry that is past its expiry. *)
Definition fresh (now : time) (o : option entry) : option entry :=
  e ← o; if expired e now then None else Some e.

Lemma fresh_fresh t t' o : t <= t' -> fresh t' (fresh t o) = fresh t' o.
Proof.
  intros Hle. destruct o as [e|]; [|done]. cbn. destruct (expired e t) eqn:E; [|done].
  cbn. by rewrite (expired_mono _ _ _ Hle E).
Qed.

Section Facts.
Context `{BoltDB} `{EntryJSON}.
Implicit Types (m : Manager) (ip reason : string).

Lemma cfg_emit m tr : cfg (emit m tr) = cfg m.
Proof. unfold emit. by case_match. Qed.
Lemma entries_emit m tr : entries (emit m tr) = entries m.
Proof. unfold emit. by case_match. Qed.
Lemma db_emit m tr : db (emit m tr) = db m.
Proof. unfold emit. by case_match. Qed.
Lemma cfg_persist m ip e : cfg (persist m ip e) = cfg m.
Proof. unfold persist. by case_match. Qed.
Lemma entries_persist m ip e : entries (persist m ip e) = entries m.
Proof. unfold persist. by case_match. Qed.
Lemma emitted_persist m ip e : emitted (persist m ip e) = emitted m.
Proof. unfold persist. by case_match. Qed.

Lemma emitted_emit m tr :
  emitted (emit m tr) = emitted m ++ (if tr_Changed tr then [tr] else []).
Proof. unfold emit. case_match; [done|]. by rewrite app_nil_r. Qed.

(** The map after each operation, one address at a time. *)
Lemma Lookup_entries m ip now :
  entries (Lookup m ip now).2 =
    match entries m !! ip with
    | Some e => if expired e now then delete ip (entries m) else entries m
    | None => entries m
    end.
Proof.
  unfold Lookup, Lookup_read. destruct (entries m !! ip) as [e|]; [|done].
  destruct (expired e now); [|done]. cbn [snd]. unfold Lookup_forget. by rewrite entries_emit.
Qed.

Lemma Lookup_entry m ip j now :
  entries (Lookup m ip now).2 !! j =
    if decide (j = ip) then fresh now (entries m !! ip) else entries m !! j.
Proof.
  rewrite Lookup_entries. case_decide as E; [subst j|].
  - destruct (entries m !! ip) as [e|] eqn:Ee; [|done]. cbn.
    destruct (expired e now); [apply lookup_delete_eq|done].
  - destruct (entries m !! ip) as [e|]; [|done]. destruct (expired e now); [|done].
    by rewrite lookup_delete_ne.
Qed.

Lemma Lookup_cfg m ip now : cfg (Lookup m ip now).2 = cfg m.
Proof.
  unfold Lookup. destruct (Lookup_read m ip now); [done|].
  cbn [snd]. unfold Lookup_forget. by rewrite cfg_emit.
Qed.

Lemma Lookup_status m ip now :
  (Lookup m ip now).1 =
    match fresh now (entries m !! ip) with Some e => e_State e | None => StateClean end.
Proof.
  unfold Lookup, Lookup_read. destruct (entries m !! ip) as [e|]; [|done]. cbn.
  by destruct (expired e now).
Qed.

Lemma RegisterViolation_cfg m ip reason now : cfg (RegisterViolation m ip reason now).2 = cfg m.
Proof. unfold RegisterViolation. case_match; [done|]. cbn [snd]. by rewrite cfg_emit, cfg_persist. Qed.

Lemma RegisterViolation_entries m ip reason now :
  entries (RegisterViolation m ip reason now).2 =
    let e := default (new_entry now) (entries m !! ip) in
    if bool_decide (e_State e = StateBlocked) then entries m
    else <[ip := violated (cfg m) e now]> (entries m).
Proof.
  unfold RegisterViolation. cbv zeta. case_match; [done|].
  cbn [snd]. by rewrite entries_emit, entries_persist.
Qed.

Lemma force_cfg m ip reason now to ttl : cfg (force m ip reason now to ttl).2 = cfg m.
Proof. unfold force. cbn [snd]. by rewrite cfg_emit, cfg_persist. Qed.

Lemma force_entries m ip reason now to ttl :
  entries (force m ip reason now to ttl).2 =
    <[ip := {| e_State := to; e_Since := now; e_Expiry := Time.Add now ttl; e_Violations := [] |}]>
      (entries m).
Proof. unfold force. cbn [snd]. by rewrite entries_emit, entries_persist. Qed.

(** ** Escalation *)

(** What the proxy does to a violating address: look it up, then register the
    violation. *)
Definition strike ip reason m (t : time) : Manager :=
  (RegisterViolation (Lookup m ip t).2 ip reason t).2.

Definition strikes ip reason m (ts : list time) : Manager := fold_left (strike ip reason) ts m.

(** The violations at [t] of a history [ts ++ [t]] that fall in the window. *)
Definition in_window (c : Config) (ts : list time) (t : time) : list time :=
  prune (t - Window c) (ts ++ [t]).

Lemma strikes_cfg ip reason ts m : cfg (strikes ip reason m ts) = cfg m.
Proof.
  unfold strikes. revert m; induction ts as [|t ts IH]; intros m; [done|]. cbn [fold_left].
  rewrite IH. unfold strike. by rewrite RegisterViolation_cfg, Lookup_cfg.
Qed.

(** One strike on an address that is not blocked. *)
Lemma strike_entry m ip reason t :
  0 <= Window (cfg m) <= max_int64 ->
  (forall e, fresh t (entries m !! ip) = Some e -> e_State e <> StateBlocked) ->
  entries (strike ip reason m t) !! ip =
    Some (violated (cfg m) (default (new_entry t) (fresh t (entries m !! ip))) t).
Proof.
  intros HW Hb. unfold strike. rewrite RegisterViolation_entries. cbv zeta.
  rewrite Lookup_entry, decide_True, Lookup_cfg by done.
  destruct (fresh t (entries m !! ip)) as [e|] eqn:E; cbn [default from_option id].
  - rewrite bool_decide_false by (by apply Hb). apply lookup_insert_eq.
  - apply lookup_insert_eq.
Qed.

(** The history did not reach the threshold at any earlier strike. *)
Definition not_yet (c : Config) (ts : list time) : Prop :=
  forall p s q, ts = p ++ s :: q -> Z.of_nat (length (in_window c p s)) < BlockThreshold c.

Lemma strikes_entry m ip reason ts t :
  entries m !! ip = None ->
  0 <= Window (cfg m) <= max_int64 -> Window (cfg m) <= GreylistTTL (cfg m) ->
  StronglySorted Z.le (ts ++ [t]) -> not_yet (cfg m) ts ->
  exists e, entries (strikes ip reason m (ts ++ [t])) !! ip = Some e /\
    e_Violations e = in_window (cfg m) ts t /\
    e_State e = (if BlockThreshold (cfg m) <=? Z.of_nat (length (in_window (cfg m) ts t))
                 then StateBlocked else StateGreylisted) /\
    e_Expiry e = t + (if BlockThreshold (cfg m) <=? Z.of_nat (length (in_window (cfg m) ts t))
                      then BlockTTL (cfg m) else GreylistTTL (cfg m)).
Proof.
  intros H0' HW HG. revert t. induction ts as [|s ts IH] using rev_ind; intros t Hs Hny.
  - unfold strikes. cbn [app fold_left]. rewrite strike_entry; [|done|by rewrite H0'].
    rewrite H0'. eexists. split; [reflexivity|]. cbn [fresh mbind option_bind default from_option].
    rewrite violated_violations. unfold violated, in_window, Time.Add. cbn [e_Violations new_entry].
    rewrite int64_opp, Z.add_opp_r by lia. split; [done|]. by case_match.
  - assert (Hs1 : StronglySorted Z.le (ts ++ [s])).
    { clear -Hs. induction (ts ++ [s]) as [|x l IHl]; [constructor|]. inversion_clear Hs.
      constructor; [by apply IHl|]. by apply Forall_app in H0 as [? _]. }
    assert (Hny1 : not_yet (cfg m) ts).
    { intros p x q ->. apply (Hny p x (q ++ [s])). by rewrite <- app_assoc. }
    destruct (IH s Hs1 Hny1) as (e & He & Hv & Hst & Hex).
    assert (Hlt : BlockThreshold (cfg m) <=? Z.of_nat (length (in_window (cfg m) ts s)) = false).
    { apply Z.leb_gt. apply (Hny ts s []). done. }
    rewrite Hlt in Hst, Hex.
    assert (Hst' : forall x, x ∈ ts ++ [s] -> x <= s).
    { clear -Hs1. intros x Hx. apply elem_of_app in Hx as [Hx|Hx%list_elem_of_singleton]; [|lia].
      induction ts as [|y ts IH']; [by apply elem_of_nil in Hx|]. inversion_clear Hs1.
      apply elem_of_cons in Hx as [->|Hx]; [|by apply IH'].
      rewrite Forall_forall in H0. apply H0. apply elem_of_app. right. by left. }
    assert (Hle : s <= t).
    { clear -Hs. induction ts as [|y ts IH']; cbn in Hs; inversion_clear Hs; [|by apply IH'].
      by inversion_clear H0. }
    set (m1 := strikes ip reason m (ts ++ [s])) in *.
    assert (Hc1 : cfg m1 = cfg m) by apply strikes_cfg.
    replace (strikes ip reason m ((ts ++ [s]) ++ [t])) with (strike ip reason m1 t)
      by (unfold m1, strikes; by rewrite !fold_left_app).
    rewrite strike_entry, Hc1, He.
    2: by rewrite Hc1.
    2: { intros e' E. cbn in E. rewrite He in E. cbn in E. case_match; simplify_eq. by rewrite Hst. }
    eexists. split; [reflexivity|].
    set (e0 := default _ _).
    assert (Hw : prune (t - Window (cfg m)) (e_Violations e0 ++ [t]) = in_window (cfg m) (ts ++ [s]) t).
    { unfold e0, in_window. cbn [fresh mbind option_bind]. rewrite (prune_app _ (ts ++ [s])), prune_app.
      f_equal. destruct (expired e t) eqn:Ex; cbn [default from_option id e_Violations new_entry].
      - symmetry. apply prune_old. apply Forall_forall. intros x Hx.
        apply Hst' in Hx. unfold expired, Time.After in Ex. bool_to_prop. rewrite Hex in *. lia.
      - rewrite Hv. apply prune_prune. lia. }
    rewrite violated_violations. unfold violated, Time.Add.
    rewrite int64_opp, Z.add_opp_r, Hw by lia. split; [done|]. by case_match.
Qed.

End Facts.

(** ** Operations as steps *)

Section Ops.
Context `{BoltDB} `{EntryJSON}.
Implicit Types (m : Manager) (ip reason : string).

Inductive rop :=
| OpLookup (ip : string) (now : time)
| OpViolation (ip reason : string) (now : time)
| OpClean (ip reason : string) (now : time)
| OpBlock (ip reason : string) (now : time).

Definition rop_apply m (o : rop) : Manager :=
  match o with
  | OpLookup ip now => (Lookup m ip now).2
  | OpViolation ip reason now => (RegisterViolation m ip reason now).2
  | OpClean ip reason now => (MarkClean m ip reason now).2
  | OpBlock ip reason now => (Block m ip reason now).2
  end.

Definition rop_time (o : rop) : time :=
  match o with
  | OpLookup _ now | OpViolation _ _ now | OpClean _ _ now | OpBlock _ _ now => now
  end.

Definition rop_cleans ip (o : rop) : bool :=
  match o with OpClean j _ _ => j =?s ip | _ => false end.

Lemma rop_cfg m o : cfg (rop_apply m o) = cfg m.
Proof.
  destruct o; cbn [rop_apply];
    [apply Lookup_cfg|apply RegisterViolation_cfg|apply force_cfg|apply force_cfg].
Qed.

(** An entry that blocks at least until [u]. *)
Definition blocks_until (u : time) (o : option entry) : Prop :=
  exists e, o = Some e /\ e_State e = StateBlocked /\ (e_Expiry e = 0 \/ u <= e_Expiry e).

Lemma blocks_until_fresh u o now : blocks_until u o -> now <= u -> fresh now o = o.
Proof.
  intros (e & -> & _ & Hx) Hle. cbn. unfold expired, Time.IsZero, Time.After.
  destruct Hx as [->|Hx]; [done|]. replace (e_Expiry e <? now) with false by lia.
  by rewrite andb_false_r.
Qed.

Lemma rop_blocked m o ip u :
  blocks_until u (entries m !! ip) -> rop_cleans ip o = false ->
  rop_time o <= u -> u <= rop_time o + BlockTTL (cfg m) ->
  blocks_until u (entries (rop_apply m o) !! ip).
Proof.
  intros Hb Hc Ht Hu.
  destruct o as [j now|j r now|j r now|j r now]; cbn [rop_apply rop_time rop_cleans] in *.
  - rewrite Lookup_entry. case_decide as E; [subst j|done].
    by rewrite (blocks_until_fresh u).
  - rewrite RegisterViolation_entries. cbv zeta.
    destruct (decide (j = ip)) as [->|Hne].
    + destruct Hb as (e & He & Hs & Hx). rewrite He. cbn [default from_option id].
      rewrite bool_decide_true by done. rewrite He. by exists e.
    + case_match; [done|]. by rewrite lookup_insert_ne.
  - unfold MarkClean. apply String.eqb_neq in Hc. rewrite force_entries.
    by rewrite lookup_insert_ne.
  - unfold Block. rewrite force_entries. destruct (decide (j = ip)) as [->|Hne].
    + rewrite lookup_insert_eq. eexists. split; [done|]. split; [done|]. right. done.
    + by rewrite lookup_insert_ne.
Qed.

(** (C17) The sliding-window escalation, under the proxy's call pattern (a lookup
    before every violation) and with a greylist TTL at least as long as the
    window: as long as no earlier violation reached the threshold, an address
    is blocked by the violation at [t] exactly when at least [BlockThreshold]
    of its violations, this one included, are younger than [Window]; otherwise
    it is greylisted.  The block or greylist runs for its TTL from [t], and the
    entry remembers exactly the violations in the window. *)
Theorem escalation_by_sliding_window m ip reason ts t :
  entries m !! ip = None ->
  0 <= Window (cfg m) <= max_int64 -> Window (cfg m) <= GreylistTTL (cfg m) ->
  StronglySorted Z.le (ts ++ [t]) -> not_yet (cfg m) ts ->
  let n := Z.of_nat (length (in_window (cfg m) ts t)) in
  exists e, entries (strikes ip reason m (ts ++ [t])) !! ip = Some e /\
    (e_State e = StateBlocked <-> BlockThreshold (cfg m) <= n) /\
    (e_State e = StateGreylisted <-> n < BlockThreshold (cfg m)) /\
    e_Violations e = in_window (cfg m) ts t /\
    e_Expiry e = t + (if BlockThreshold (cfg m) <=? n then BlockTTL (cfg m) else GreylistTTL (cfg m)).
Proof.
  intros Hn HW HG Hs Hny n.
  destruct (strikes_entry m ip reason ts t Hn HW HG Hs Hny) as (e & He & Hv & Hst & Hx).
  exists e. split; [done|]. fold n in Hst, Hx. rewrite Hst, Hx, Hv.
  destruct (Z.leb_spec (BlockThreshold (cfg m)) n); split_and!; try done; naive_solver lia.
Qed.

Lemma Block_holds m ip reason t0 ops now :
  Forall (fun o => rop_cleans ip o = false /\ t0 <= rop_time o <= t0 + BlockTTL (cfg m)) ops ->
  now <= t0 + BlockTTL (cfg m) ->
  (Lookup (fold_left rop_apply ops (Block m ip reason t0).2) ip now).1 = StateBlocked.
Proof.
  intros Hops Hnow.
  assert (Hb : blocks_until (t0 + BlockTTL (cfg m)) (entries (Block m ip reason t0).2 !! ip)).
  { unfold Block. rewrite force_entries, lookup_insert_eq. eexists. split; [done|].
    split; [done|]. by right. }
  assert (Hc : cfg (Block m ip reason t0).2 = cfg m) by apply force_cfg.
  revert Hb Hc. generalize (Block m ip reason t0).2 as m1.
  induction Hops as [|o ops [Ho Ht] _ IH]; intros m1 Hb Hc; cbn [fold_left].
  - rewrite Lookup_status, (blocks_until_fresh _ _ _ Hb) by done.
    by destruct Hb as (e & -> & ? & _).
  - apply IH; [|by rewrite rop_cfg]. apply rop_blocked; try done; rewrite ?Hc; lia.
Qed.

(** A ban holds: after [Block], the address looks up as blocked at every
    time up to [BlockTTL] later, whatever lookups, violations, bans (of any
    address) and cleans of other addresses happen meanwhile; in particular
    further violations neither downgrade it nor shorten it. *)
Theorem block_holds_until_ttl m ip reason t0 ops now :
  Forall (fun o => rop_cleans ip o = false /\ t0 <= rop_time o <= t0 + BlockTTL (cfg m)) ops ->
  now <= t0 + BlockTTL (cfg m) ->
  (Lookup (fold_left rop_apply ops (Block m ip reason t0).2) ip now).1 = StateBlocked.
Proof.
  apply Block_holds.
Qed.

(** A violation of an address that is already blocked changes nothing: the
    state, the expiry and the violation count stay as they were -- the block
    is not refreshed -- and no transition is logged. *)
Theorem violation_while_blocked_is_noop m ip reason now e :
  entries m !! ip = Some e -> e_State e = StateBlocked ->
  (RegisterViolation m ip reason now).2 = m /\
  tr_Changed (RegisterViolation m ip reason now).1 = false /\
  tr_Expiry (RegisterViolation m ip reason now).1 = e_Expiry e.
Proof.
  intros He Hs. unfold RegisterViolation. rewrite He. cbn [default from_option id].
  by rewrite bool_decide_true.
Qed.

(** The last state reputation.log gives for an address. *)
Definition logged_state (log : list Transition) ip : State :=
  match last (List.filter (fun tr => tr_IP tr =?s ip) log) with
  | Some tr => tr_To tr
  | None => StateClean
  end.

Definition memory_state m ip : State :=
  match entries m !! ip with Some e => e_State e | None => StateClean end.

Lemma logged_state_snoc log tr ip :
  logged_state (log ++ [tr]) ip = if tr_IP tr =?s ip then tr_To tr else logged_state log ip.
Proof.
  unfold logged_state. rewrite List.filter_app. cbn [List.filter].
  destruct (tr_IP tr =?s ip); [by rewrite last_snoc|by rewrite app_nil_r].
Qed.

Lemma logged_state_emit m tr j :
  tr_From tr = logged_state (emitted m) (tr_IP tr) ->
  tr_Changed tr = negb (bool_decide (tr_From tr = tr_To tr)) ->
  logged_state (emitted (emit m tr)) j =
    if decide (j = tr_IP tr) then tr_To tr else logged_state (emitted m) j.
Proof.
  intros Hf Hc. rewrite emitted_emit, Hc. case_bool_decide as E; cbn [negb].
  - rewrite app_nil_r. case_decide; [subst j; congruence|done].
  - rewrite logged_state_snoc. destruct (String.eqb_spec (tr_IP tr) j); case_decide; congruence.
Qed.

Lemma rop_logged m o :
  (forall ip, logged_state (emitted m) ip = memory_state m ip) ->
  forall ip, logged_state (emitted (rop_apply m o)) ip = memory_state (rop_apply m o) ip.
Proof.
  intros Hm ip. destruct o as [j now|j r now|j r now|j r now]; cbn [rop_apply].
  - unfold memory_state. rewrite Lookup_entry. unfold Lookup, Lookup_read.
    destruct (entries m !! j) as [e|] eqn:Ee; cbn [fresh mbind option_bind].
    2: { cbn [snd]. rewrite Hm. unfold memory_state. case_decide; [subst ip|]; by rewrite ?Ee. }
    destruct (expired e now) eqn:Ex; cbn [snd].
    + unfold Lookup_forget. rewrite emitted_emit. cbn [tr_Changed].
      rewrite logged_state_snoc. cbn [tr_IP tr_To].
      change (emitted (delete_ (Lookup_evict m j) j)) with (emitted m).
      destruct (String.eqb_spec j ip); case_decide; try congruence. apply Hm.
    + rewrite Hm. unfold memory_state. case_decide; [subst ip|]; by rewrite ?Ee.
  - unfold RegisterViolation. cbv zeta.
    destruct (bool_decide (e_State (default (new_entry now) (entries m !! j)) = StateBlocked)) eqn:Eb;
      [apply Hm|].
    cbn [snd]. rewrite logged_state_emit; [|cbn [tr_From tr_IP]|done].
    + cbn [tr_IP tr_To]. rewrite emitted_persist. unfold memory_state.
      rewrite entries_emit, entries_persist. cbn [entries emitted set_entries].
      destruct (decide (ip = j)) as [->|Hne]; [by rewrite lookup_insert_eq|].
      rewrite lookup_insert_ne by done. apply Hm.
    + rewrite emitted_persist. cbn [emitted set_entries]. rewrite Hm. unfold memory_state.
      by destruct (entries m !! j).
  - unfold MarkClean, force. cbn [snd]. rewrite logged_state_emit; [|cbn [tr_From tr_IP]|done].
    + cbn [tr_IP tr_To]. rewrite emitted_persist. unfold memory_state.
      rewrite entries_emit, entries_persist. cbn [entries emitted set_entries].
      destruct (decide (ip = j)) as [->|Hne]; [by rewrite lookup_insert_eq|].
      rewrite lookup_insert_ne by done. apply Hm.
    + rewrite emitted_persist. cbn [emitted set_entries]. by rewrite Hm.
  - unfold Block, force. cbn [snd]. rewrite logged_state_emit; [|cbn [tr_From tr_IP]|done].
    + cbn [tr_IP tr_To]. rewrite emitted_persist. unfold memory_state.
      rewrite entries_emit, entries_persist. cbn [entries emitted set_entries].
      destruct (decide (ip = j)) as [->|Hne]; [by rewrite lookup_insert_eq|].
      rewrite lookup_insert_ne by done. apply Hm.
    + rewrite emitted_persist. cbn [emitted set_entries]. by rewrite Hm.
Qed.

(** reputation.log tells the truth: for a manager that started with no
    entry, after any operations the last transition logged for an address
    ends in the state the manager has for it (clean when none was logged). *)
Theorem reputation_log_is_complete m ops ip :
  entries m = ∅ -> emitted m = [] ->
  logged_state (emitted (fold_left rop_apply ops m)) ip =
    memory_state (fold_left rop_apply ops m) ip.
Proof.
  intros He Hl. revert ip.
  assert (Hm : forall ip, logged_state (emitted m) ip = memory_state m ip).
  { intros ip. rewrite Hl. unfold memory_state. by rewrite He, lookup_empty. }
  clear He Hl. revert m Hm. induction ops as [|o ops IH]; intros m Hm; [exact Hm|].
  cbn [fold_left]. apply IH. by apply rop_logged.
Qed.

(** [Lookup] takes its decision and its eviction in separate critical
    sections, and a ban can fall between them: when the entry of an address
    has expired, [Block] running after the read of [Lookup] and before its
    eviction is erased, in memory and in the database -- [Block] reported the
    address blocked, and it looks up as clean right away. *)
Theorem lookup_race_loses_ban `{!BoltDBLaws} m ip reason now e b :
  Lookup_read m ip now = LookupExpired e ->
  (forall f d, f (bolt_bucket d) <> None -> (bolt_update f d).1 = true) ->
  bolt_bucket (db m) = Some b -> 0 <= BlockTTL (cfg m) ->
  let m1 := (Block m ip reason now).2 in
  let m2 := Lookup_forget (Lookup_evict m1 ip) ip e in
  tr_To (Block m ip reason now).1 = StateBlocked /\ (Lookup m1 ip now).1 = StateBlocked /\
  (Lookup m2 ip now).1 = StateClean /\
  exists b', bolt_bucket (db m2) = Some b' /\ b' !! ip = None.
Proof.
  intros Hr Hup Hb Httl m1 m2. split; [done|]. split; [|split].
  - apply (Block_holds m ip reason now []); [done|lia].
  - rewrite Lookup_status. unfold m2, Lookup_forget. rewrite entries_emit.
    cbn [entries set_db delete_ Lookup_evict set_entries]. by rewrite lookup_delete_eq.
  - unfold m2, Lookup_forget. rewrite db_emit. cbn [db delete_ set_db Lookup_evict set_entries].
    set (f := fun b0 => match b0 with None => _ | Some b1 => _ end).
    assert (Hok : (bolt_update f (db m1)).1 = true).
    { apply Hup. unfold f. by destruct (bolt_bucket (db m1)). }
    apply bolt_commit in Hok. unfold f in Hok at 2.
    assert (Hb1 : exists b1, bolt_bucket (db m1) = Some b1).
    { unfold m1, Block, force. cbn [snd]. rewrite db_emit. unfold persist.
      destruct (json_Marshal _); [|by exists b]. cbn [db set_db set_entries].
      set (g := fun b0 => match b0 with None => _ | Some b1 => _ end).
      assert (Hg : (bolt_update g (db m)).1 = true).
      { apply Hup. unfold g. by destruct (bolt_bucket (db m)). }
      apply bolt_commit in Hg. unfold g in Hg at 2. rewrite Hb in Hg. simplify_eq. by eexists. }
    destruct Hb1 as [b1 Hb1]. rewrite Hb1 in Hok. simplify_eq.
    eexists. split; [exact Hok|]. apply lookup_delete_eq.
Qed.

End Ops.

(** ** Persistence *)

Section Persistence.
Context `{BoltDBLaws} `{EntryJSONLaws}.
Implicit Types (m : Manager) (ip reason : string).

(** Transactions that the database can run do not fail. *)
Definition bolt_available : Prop :=
  forall f d, f (bolt_bucket d) <> None -> (bolt_update f d).1 = true.

(** The database holds what the memory holds, up to entries expired at [now]. *)
Definition agrees m (now : time) : Prop :=
  exists b, bolt_bucket (db m) = Some b /\
    forall ip, fresh now (b !! ip ≫= json_Unmarshal) = fresh now (entries m !! ip).

Definition entries_ok m : Prop := forall ip e, entries m !! ip = Some e -> json_entry_ok e.

(** The times an operation may store have four-digit years. *)
Definition rop_ok (c : Config) (o : rop) : Prop :=
  json_time_ok (rop_time o) /\ json_time_ok (rop_time o + GreylistTTL c) /\
  json_time_ok (rop_time o + BlockTTL c) /\ json_time_ok (rop_time o + CleanTTL c).

Lemma agrees_mono m t t' : t <= t' -> agrees m t -> agrees m t'.
Proof.
  intros Hle (b & Hb & Ha). exists b. split; [done|]. intros ip.
  rewrite <- (fresh_fresh t t'), Ha by done. by apply fresh_fresh.
Qed.

Lemma persist_agrees m ip e now b :
  bolt_available -> json_entry_ok e -> bolt_bucket (db m) = Some b ->
  (forall j, j <> ip -> fresh now (b !! j ≫= json_Unmarshal) = fresh now (entries m !! j)) ->
  entries m !! ip = Some e -> agrees (persist m ip e) now.
Proof.
  intros Hup He Hb Ha Hm. destruct (json_total e He) as [data Hd].
  unfold agrees. rewrite entries_persist. unfold persist. rewrite Hd. cbn [db set_db].
  set (f := fun b0 => match b0 with None => _ | Some b1 => _ end).
  assert (Hok : (bolt_update f (db m)).1 = true) by (apply Hup; unfold f; by rewrite Hb).
  apply bolt_commit in Hok. unfold f in Hok at 2. rewrite Hb in Hok. simplify_eq.
  eexists. split; [exact Hok|]. intros j. destruct (decide (j = ip)) as [->|Hne].
  - rewrite lookup_insert_eq, Hm. cbn [mbind option_bind]. by rewrite (json_roundtrip e data Hd).
  - rewrite lookup_insert_ne by done. by apply Ha.
Qed.

Lemma delete_agrees m ip now b :
  bolt_available -> bolt_bucket (db m) = Some b ->
  (forall j, j <> ip -> fresh now (b !! j ≫= json_Unmarshal) = fresh now (entries m !! j)) ->
  entries m !! ip = None -> agrees (delete_ m ip) now.
Proof.
  intros Hup Hb Ha Hm. unfold agrees, delete_. cbn [db set_db entries].
  set (f := fun b0 => match b0 with None => _ | Some b1 => _ end).
  assert (Hok : (bolt_update f (db m)).1 = true) by (apply Hup; unfold f; by rewrite Hb).
  apply bolt_commit in Hok. unfold f in Hok at 2. rewrite Hb in Hok. simplify_eq.
  eexists. split; [exact Hok|]. intros j. destruct (decide (j = ip)) as [->|Hne].
  - by rewrite lookup_delete_eq, Hm.
  - rewrite lookup_delete_ne by done. by apply Ha.
Qed.

Lemma emit_agrees m tr now : agrees m now -> agrees (emit m tr) now.
Proof. unfold agrees. by rewrite db_emit, entries_emit. Qed.

(** Storing an entry in memory and in the database keeps them in agreement. *)
Lemma store_agrees m ip e now :
  bolt_available -> json_entry_ok e -> agrees m now ->
  agrees (persist (set_entries m (<[ip := e]> (entries m))) ip e) now.
Proof.
  intros Hup He (b & Hb & Ha). eapply persist_agrees; [done|done|exact Hb| |].
  - intros j Hne. cbn. rewrite lookup_insert_ne by done. apply Ha.
  - cbn. apply lookup_insert_eq.
Qed.

Lemma violated_ok c e now :
  json_entry_ok e -> json_time_ok now -> json_time_ok (now + GreylistTTL c) ->
  json_time_ok (now + BlockTTL c) -> json_entry_ok (violated c e now).
Proof.
  intros [] Hn Hg Hb.
  assert (HF : Forall json_time_ok (prune (Time.Add now (int64_wrap (- Window c))) (e_Violations e ++ [now]))).
  { apply Forall_forall. intros t Ht%list_elem_of_In. unfold prune in Ht.
    apply List.filter_In in Ht as [Ht%list_elem_of_In _].
    apply elem_of_app in Ht as [Ht|Ht%list_elem_of_singleton]; [|by subst].
    by apply (proj1 (Forall_forall _ _) json_violations_ok0). }
  unfold violated. by case_match.
Qed.

Lemma rop_agrees m o now :
  bolt_available -> rop_ok (cfg m) o -> now <= rop_time o ->
  agrees m now -> entries_ok m ->
  agrees (rop_apply m o) (rop_time o) /\ entries_ok (rop_apply m o).
Proof.
  intros Hup (Hn & Hg & Hbl & Hcl) Hle Ha He. apply (agrees_mono _ _ _ Hle) in Ha.
  destruct o as [ip t|ip r t|ip r t|ip r t]; cbn [rop_apply rop_time] in *.
  - split.
    + unfold Lookup, Lookup_read. destruct (entries m !! ip) as [e|] eqn:Ee; [|done].
      destruct (expired e t); [|done]. cbn [snd]. unfold Lookup_forget. apply emit_agrees.
      destruct Ha as (b & Hb & Ha). eapply delete_agrees; [done|exact Hb| |].
      * intros j Hne. cbn. rewrite lookup_delete_ne by done. apply Ha.
      * cbn. apply lookup_delete_eq.
    + intros j e. rewrite Lookup_entries. repeat case_match; try apply He.
      rewrite lookup_delete_Some. intros [_ ?]. by eapply He.
  - assert (Ho : json_entry_ok (violated (cfg m) (default (new_entry t) (entries m !! ip)) t)).
    { apply violated_ok; [|done..]. destruct (entries m !! ip) as [e|] eqn:Ee; cbn; [by eapply He|].
      split; cbn; try done. }
    split.
    + unfold RegisterViolation. cbv zeta. case_match; [done|]. cbn [snd].
      apply emit_agrees, store_agrees; done.
    + intros j e. rewrite RegisterViolation_entries. cbv zeta. case_match; [apply He|].
      intros [[_ <-]|[_ ?]]%lookup_insert_Some; [done|]. by eapply He.
  - assert (Ho : json_entry_ok {| e_State := StateClean; e_Since := t;
      e_Expiry := Time.Add t (CleanTTL (cfg m)); e_Violations := [] |}) by (split; cbn; done).
    split; [unfold MarkClean, force; cbn [snd]; apply emit_agrees, store_agrees; done|].
    intros j e. unfold MarkClean. rewrite force_entries.
    intros [[_ <-]|[_ ?]]%lookup_insert_Some; [done|]. by eapply He.
  - assert (Ho : json_entry_ok {| e_State := StateBlocked; e_Since := t;
      e_Expiry := Time.Add t (BlockTTL (cfg m)); e_Violations := [] |}) by (split; cbn; done).
    split; [unfold Block, force; cbn [snd]; apply emit_agrees, store_agrees; done|].
    intros j e. unfold Block. rewrite force_entries.
    intros [[_ <-]|[_ ?]]%lookup_insert_Some; [done|]. by eapply He.
Qed.

Lemma load_entries_lookup b now ip :
  load_entries b now !! ip = fresh now (b !! ip ≫= json_Unmarshal).
Proof.
  unfold load_entries. rewrite lookup_omap. by destruct (b !! ip).
Qed.

Lemma Open_spec d c now :
  bolt_available -> exists m, Open d c now = Some m /\ cfg m = c /\ emitted m = [] /\
    agrees m now /\
    forall ip, entries m !! ip = fresh now (default ∅ (bolt_bucket d) !! ip ≫= json_Unmarshal).
Proof.
  intros Hup. unfold Open.
  set (f := fun b : option (gmap string string) => Some (Some (default ∅ b))).
  assert (Hok : (bolt_update f d).1 = true) by (by apply Hup).
  pose proof (bolt_commit f d Hok) as Hc. unfold f in Hc at 2. simplify_eq.
  destruct (bolt_update f d) as [ok d'] eqn:E. cbn in *. subst ok.
  eexists. split; [reflexivity|]. cbn [cfg emitted entries]. split_and!; [done|done| |].
  - eexists. cbn [db]. split; [exact Hc|]. intros ip. cbn [entries]. rewrite Hc. cbn [default from_option id].
    rewrite load_entries_lookup. symmetry. by apply fresh_fresh.
  - intros ip. rewrite load_entries_lookup, Hc. done.
Qed.

(** The entries stored in a database have encodable times. *)
Definition stored_ok (d : bolt_t) : Prop :=
  forall ip v e, default ∅ (bolt_bucket d) !! ip = Some v -> json_Unmarshal v = Some e -> json_entry_ok e.

(** (C18) Restart transparency: open the database, run any operations with
    increasing clocks, and open it again: every address looks up the same in
    the new manager as it would have in the old one, at any time from then on.
    (The database accepts its transactions and the years fit RFC 3339.) *)
Theorem restart_preserves_lookups d c t0 ops now :
  bolt_available -> stored_ok d ->
  StronglySorted Z.le (t0 :: (rop_time <$> ops) ++ [now]) ->
  Forall (rop_ok c) ops ->
  exists m m', Open d c t0 = Some m /\
    Open (db (fold_left rop_apply ops m)) c now = Some m' /\
    (forall ip t, now <= t ->
      (Lookup m' ip t).1 = (Lookup (fold_left rop_apply ops m) ip t).1).
Proof.
  intros Hup Hst Hs Hok. destruct (Open_spec d c t0 Hup) as (m & Ho & Hc & _ & Ha & Hd).
  assert (He : entries_ok m).
  { intros ip e E. rewrite Hd in E. destruct (_ !! ip) as [v|] eqn:Ev; [|done]. cbn in E.
    destruct (json_Unmarshal v) as [e'|] eqn:Eu; [|done]. cbn in E. case_match; simplify_eq.
    by eapply Hst. }
  clear Hd Hst. subst c.
  enough (G : agrees (fold_left rop_apply ops m) now).
  { destruct (Open_spec (db (fold_left rop_apply ops m)) (cfg m) now Hup) as (m' & Ho' & _ & _ & _ & Hl).
    exists m, m'. split; [done|]. split; [done|]. intros ip t Ht. rewrite !Lookup_status, Hl.
    destruct G as (b & Hb & HG). rewrite Hb. cbn [default from_option id].
    rewrite HG, fresh_fresh by done. done. }
  clear Ho d.
  revert m t0 Hs Hok Ha He. induction ops as [|o ops IH]; intros m t0 Hs Hok Ha He; cbn [fold_left].
  - apply (agrees_mono _ t0); [|done]. inversion_clear Hs as [|? ? _ HF]. by inversion_clear HF.
  - inversion_clear Hok as [|? ? Ho Hos]. cbn in Hs. inversion_clear Hs as [|? ? Hs' HF].
    inversion_clear HF as [|? ? Hle _].
    destruct (rop_agrees m o t0 Hup Ho Hle Ha He) as [Ha' He'].
    apply (IH _ (rop_time o)); rewrite ?rop_cfg; done.
Qed.

End Persistence.

(** ** Examples and witnesses *)

Module ReputationExamples.

(** An in-memory database, and an encoding of entries as binary numerals. *)
#[local] Instance MemBolt : BoltDB := {
  bolt_t := option (gmap string string);
  bolt_bucket := id;
  bolt_update f d := match f d with Some d' => (true, d') | None => (false, d) end;
}.

#[local] Instance MemBoltLaws : BoltDBLaws.
Proof. split; intros f d; cbn; by destruct (f d). Qed.

Lemma mem_available : bolt_available.
Proof. intros f d Hf. cbn in *. by destruct (f d). Qed.

Definition entry_tuple (e : entry) : Z * Z * Z * list Z :=
  (match e_State e with StateClean => 0 | StateGreylisted => 1 | StateBlocked => 2 end,
   e_Since e, e_Expiry e, e_Violations e).

Definition tuple_entry (x : Z * Z * Z * list Z) : option entry :=
  let '(s, since, expiry, vs) := x in
  Some {| e_State := if s =? 0 then StateClean else if s =? 1 then StateGreylisted else StateBlocked;
          e_Since := since; e_Expiry := expiry; e_Violations := vs |}.

Fixpoint bits_string (p : positive) : string :=
  match p with
  | xH => "" | xO p => String "0" (bits_string p) | xI p => String "1" (bits_string p)
  end.

Fixpoint string_bits (s : string) : positive :=
  match s with
  | EmptyString => xH
  | String c s => if (c =?c "0")%char then xO (string_bits s) else xI (string_bits s)
  end.

#[local] Instance BitsJSON : EntryJSON := {
  json_Marshal e := Some (bits_string (encode (entry_tuple e)));
  json_Unmarshal s := x ← decode (string_bits s); tuple_entry x;
}.

#[local] Instance BitsJSONLaws : EntryJSONLaws.
Proof.
  split; [by eexists|]. intros e b E. cbn in *. simplify_eq.
  assert (Hb : forall p, string_bits (bits_string p) = p) by (induction p; cbn; congruence).
  rewrite Hb, decode_encode. cbn. unfold tuple_entry, entry_tuple. by destruct e as [[] ? ? ?].
Qed.

Definition cfg0 : Config :=
  {| BlockThreshold := 2; Window := 10 * Minute; GreylistTTL := 15 * Minute;
     BlockTTL := 24 * Hour; CleanTTL := Hour |}.

Definition m0 : Manager := {| cfg := cfg0; db := Some ∅; entries := ∅; emitted := [] |}.

Definition t0 : time := 63838540800 * Second.

Lemma escalation_by_sliding_window_witness :
  exists e, entries (strikes "192.0.2.1" "sqli" m0 ([t0] ++ [t0 + Minute])) !! "192.0.2.1" = Some e /\
    e_State e = StateBlocked.
Proof.
  destruct (escalation_by_sliding_window m0 "192.0.2.1" "sqli" [t0] (t0 + Minute))
    as (e & He & Hb & _ & _ & _).
  - reflexivity.
  - vm_compute; split; discriminate.
  - vm_compute; discriminate.
  - repeat constructor; vm_compute; discriminate.
  - intros [|x [|y p]] s q E; cbn in E; [injection E as <- <-; reflexivity|discriminate..].
  - exists e. split; [exact He|]. apply Hb. vm_compute; discriminate.
Defined.

Lemma block_holds_until_ttl_witness :
  (Lookup (rop_apply (Block m0 "192.0.2.1" "ban" t0).2
             (OpViolation "192.0.2.1" "again" (t0 + Hour))) "192.0.2.1" (t0 + 24 * Hour)).1 = StateBlocked.
Proof.
  apply (block_holds_until_ttl m0 "192.0.2.1" "ban" t0 [OpViolation "192.0.2.1" "again" (t0 + Hour)]).
  - repeat constructor; vm_compute; discriminate.
  - vm_compute; discriminate.
Defined.

Lemma violation_while_blocked_is_noop_witness :
  tr_Expiry (RegisterViolation (Block m0 "192.0.2.1" "ban" t0).2 "192.0.2.1" "again" (t0 + Hour)).1
    = t0 + 24 * Hour.
Proof.
  apply (violation_while_blocked_is_noop (Block m0 "192.0.2.1" "ban" t0).2 "192.0.2.1" "again" (t0 + Hour)
    {| e_State := StateBlocked; e_Since := t0; e_Expiry := t0 + 24 * Hour; e_Violations := [] |});
    reflexivity.
Defined.

Lemma reputation_log_is_complete_witness :
  logged_state (emitted (rop_apply m0 (OpViolation "192.0.2.1" "xss" t0))) "192.0.2.1"
    = memory_state (rop_apply m0 (OpViolation "192.0.2.1" "xss" t0)) "192.0.2.1".
Proof.
  apply (reputation_log_is_complete m0 [OpViolation "192.0.2.1" "xss" t0]); reflexivity.
Defined.

Lemma lookup_race_loses_ban_witness :
  let e := {| e_State := StateGreylisted; e_Since := t0; e_Expiry := t0; e_Violations := [t0] |} in
  let m := {| cfg := cfg0; db := Some ∅; entries := {["192.0.2.1" := e]}; emitted := [] |} in
  (Lookup (Lookup_forget (Lookup_evict (Block m "192.0.2.1" "ban" (t0 + Hour)).2 "192.0.2.1")
             "192.0.2.1" e) "192.0.2.1" (t0 + Hour)).1 = StateClean.
Proof.
  intros e m.
  apply (lookup_race_loses_ban m "192.0.2.1" "ban" (t0 + Hour) e ∅);
    [reflexivity|apply mem_available|reflexivity|vm_compute; discriminate].
Defined.

Lemma restart_preserves_lookups_witness :
  exists m m', @Open MemBolt BitsJSON None cfg0 t0 = Some m /\
    Open (db (rop_apply m (OpBlock "192.0.2.1" "ban" t0))) cfg0 (t0 + Hour) = Some m' /\
    (Lookup m' "192.0.2.1" (t0 + Hour)).1 = StateBlocked.
Proof.
  destruct (@restart_preserves_lookups MemBolt _ BitsJSON _ None cfg0 t0 [OpBlock "192.0.2.1" "ban" t0] (t0 + Hour))
    as (m & m' & Ho & Ho' & Hl).
  - apply mem_available.
  - intros ip v e E. exfalso. assert (E' : (∅ : gmap string string) !! ip = Some v) by exact E.
    by rewrite lookup_empty in E'.
  - repeat constructor; vm_compute; discriminate.
  - repeat constructor; vm_compute; discriminate.
  - exists m, m'. split; [exact Ho|]. split; [exact Ho'|]. rewrite Hl by reflexivity.
    vm_compute in Ho. injection Ho as <-. reflexivity.
Defined.

End ReputationExamples.
