(* ===== verification/Sections.v ===== *)
(** * The reputation manager under concurrency ([internal/reputation/reputation.go])

    Every request runs on a goroutine of its own.  A method of the manager is
    a sequence of atomic sections: what it does under its mutex, the
    transaction on the database that follows without it, and the call of
    [OnTransition].  [section] runs one of them; a pool of goroutines runs them
    in any order.  [Reputation] has the methods undivided; [alone] shows that a
    method that nothing interrupts is that. *)

From S2P Require Export Reputation.

Section Sections.
Context `{BoltDB} `{EntryJSON}.
Implicit Types (m : Manager) (ip reason : string).

(** ** Atomic sections *)

(** The mutex section of [RegisterViolation]; an address blocked already is left
    alone, and nothing follows. *)
Definition violation_locked m ip reason (now : time) : option (entry * Transition) * Manager :=
  let e := default (new_entry now) (entries m !! ip) in
  let from := e_State e in
  if bool_decide (from = StateBlocked) then (None, m)
  else
    let e := violated (cfg m) e now in
    (Some (e, {| tr_IP := ip; tr_From := from; tr_To := e_State e; tr_Reason := reason;
                 tr_Changed := negb (bool_decide (from = e_State e)); tr_Expiry := e_Expiry e |}),
     set_entries m (<[ip := e]> (entries m))).

(** The mutex section of [MarkClean] and of [Block] *)
Definition force_locked m ip reason (now : time) (to : State) : (entry * Transition) * Manager :=
  let from := match entries m !! ip with Some e => e_State e | None => StateClean end in
  let ttl := match to with StateBlocked => BlockTTL (cfg m) | _ => CleanTTL (cfg m) end in
  let ne := {| e_State := to; e_Since := now; e_Expiry := Time.Add now ttl; e_Violations := [] |} in
  (ne, {| tr_IP := ip; tr_From := from; tr_To := to; tr_Reason := reason;
          tr_Changed := negb (bool_decide (from = to)); tr_Expiry := e_Expiry ne |},
   set_entries m (<[ip := ne]> (entries m))).

Definition expired_tr ip (e : entry) : Transition :=
  {| tr_IP := ip; tr_From := e_State e; tr_To := StateClean; tr_Reason := "ttl expired";
     tr_Changed := true; tr_Expiry := 0 |}.

(** A goroutine inside a method: the section it runs next.  [Forcing] to
    [StateBlocked] is [Block], to [StateClean] it is [MarkClean]. *)
Inductive thread :=
| Reading (ip : string) (now : time)
| Evicting (ip : string) (e : entry)
| Deleting (ip : string) (e : entry)
| Violating (ip reason : string) (now : time)
| Forcing (ip reason : string) (now : time) (to : State)
| Persisting (ip : string) (e : entry) (tr : Transition)
| Emitting (tr : Transition)
| Returned.

Definition section m (th : thread) : Manager * thread :=
  match th with
  | Reading ip now =>
      match Lookup_read m ip now with
      | LookupDone _ => (m, Returned)
      | LookupExpired e => (m, Evicting ip e)
      end
  | Evicting ip e => (Lookup_evict m ip, Deleting ip e)
  | Deleting ip e => (delete_ m ip, Emitting (expired_tr ip e))
  | Violating ip reason now =>
      match violation_locked m ip reason now with
      | (None, m) => (m, Returned)
      | (Some (e, tr), m) => (m, Persisting ip e tr)
      end
  | Forcing ip reason now to =>
      let '(e, tr, m) := force_locked m ip reason now to in (m, Persisting ip e tr)
  | Persisting ip e tr => (persist m ip e, Emitting tr)
  | Emitting tr => (emit m tr, Returned)
  | Returned => (m, Returned)
  end.

(** A method that nothing interrupts: four sections at most. *)
Fixpoint alone (fuel : nat) m (th : thread) : Manager :=
  match fuel with
  | O => m
  | S fuel => let '(m, th) := section m th in alone fuel m th
  end.

Lemma alone_methods m ip reason now :
  alone 4 m (Reading ip now) = (Lookup m ip now).2 /\
  alone 4 m (Violating ip reason now) = (RegisterViolation m ip reason now).2 /\
  alone 4 m (Forcing ip reason now StateClean) = (MarkClean m ip reason now).2 /\
  alone 4 m (Forcing ip reason now StateBlocked) = (Block m ip reason now).2.
Proof.
  split_and!.
  - cbn. unfold Lookup. by destruct (Lookup_read m ip now).
  - cbn. unfold violation_locked, RegisterViolation. cbv zeta. by case_bool_decide.
  - done.
  - done.
Qed.

(** ** The memory *)

Lemma section_cfg m th : cfg (section m th).1 = cfg m.
Proof.
  destruct th as [ip now|ip e|ip e|ip reason now|ip reason now to|ip e tr|tr|]; try done; cbn.
  - by destruct (Lookup_read m ip now).
  - unfold violation_locked. by case_bool_decide.
  - apply cfg_persist.
  - apply cfg_emit.
Qed.

(** What a section does to the entries in memory *)
Lemma section_entries m th : entries (section m th).1 =
  match th with
  | Evicting ip _ => delete ip (entries m)
  | Violating ip _ now =>
      let e := default (new_entry now) (entries m !! ip) in
      if bool_decide (e_State e = StateBlocked) then entries m
      else <[ip := violated (cfg m) e now]> (entries m)
  | Forcing ip _ now to =>
      <[ip := {| e_State := to; e_Since := now;
                 e_Expiry := Time.Add now (match to with StateBlocked => BlockTTL (cfg m) | _ => CleanTTL (cfg m) end);
                 e_Violations := [] |}]> (entries m)
  | _ => entries m
  end.
Proof.
  destruct th as [ip now|ip e|ip e|ip reason now|ip reason now to|ip e tr|tr|]; try done; cbn.
  - by destruct (Lookup_read m ip now).
  - unfold violation_locked. by case_bool_decide.
  - apply entries_persist.
  - apply entries_emit.
Qed.

(** A section that leaves a ban of [q] up to [u] in force: all but the eviction
    of an entry of [q] that was read earlier, a cleaning of [q], and a new ban
    that ends before [u]. *)
Definition harmless (c : Config) (q : string) (u : time) (th : thread) : Prop :=
  match th with
  | Evicting ip _ => ip <> q
  | Forcing ip _ now to => ip <> q \/ (to = StateBlocked /\ u <= now + BlockTTL c)
  | _ => True
  end.

Lemma section_banned m th q u :
  blocks_until u (entries m !! q) -> harmless (cfg m) q u th ->
  blocks_until u (entries (section m th).1 !! q).
Proof.
  intros Hb Hh. rewrite section_entries.
  destruct th as [ip now|ip e|ip e|ip reason now|ip reason now to|ip e tr|tr|]; try done; cbn in Hh.
  - by rewrite lookup_delete_ne.
  - cbv zeta. case_bool_decide as E; [done|]. destruct (decide (ip = q)) as [->|].
    + destruct Hb as (e & He & Hbl & _). by rewrite He in E.
    + by rewrite lookup_insert_ne.
  - destruct (decide (ip = q)) as [->|]; [|by rewrite lookup_insert_ne].
    destruct Hh as [?|[-> Hu]]; [done|]. rewrite lookup_insert_eq.
    eexists. split; [done|]. split; [done|]. by right.
Qed.

End Sections.

(** ** Goroutines *)

Section Pool.
Context `{BoltDB} `{EntryJSON}.
Implicit Types (m : Manager) (ip reason : string).

Record pool := Pool { po_rep : Manager; po_threads : list thread }.

(** The address a goroutine works on, until it has left the manager's state *)
Definition thread_addr (th : thread) : option string :=
  match th with
  | Reading ip _ | Evicting ip _ | Deleting ip _ | Violating ip _ _ | Forcing ip _ _ _ | Persisting ip _ _ => Some ip
  | Emitting _ | Returned => None
  end.

Definition begins (th : thread) : Prop :=
  match th with
  | Reading _ _ | Violating _ _ _ | Forcing _ _ _ StateClean | Forcing _ _ _ StateBlocked => True
  | _ => False
  end.

(** A goroutine calls a method that [admits] lets in, or one of them runs its
    next section. *)
Inductive pool_step (admits : list thread -> thread -> Prop) : pool -> pool -> Prop :=
| pool_call m ths th :
    begins th -> admits ths th -> pool_step admits (Pool m ths) (Pool m (ths ++ [th]))
| pool_section m l1 th l2 :
    pool_step admits (Pool m (l1 ++ th :: l2)) (Pool (section m th).1 (l1 ++ (section m th).2 :: l2)).

(** All calls have returned, but for their log lines. *)
Definition quiet (p : pool) : Prop := Forall (fun th => thread_addr th = None) (po_threads p).

(** A ban of [q] up to [u] stays in force through any sections of any
    goroutines, as long as none of them harms it. *)
Lemma pool_banned admits p p' q u :
  rtc (fun x y => pool_step admits x y /\ Forall (harmless (cfg (po_rep x)) q u) (po_threads x)) p p' ->
  blocks_until u (entries (po_rep p) !! q) -> blocks_until u (entries (po_rep p') !! q).
Proof.
  induction 1 as [|x y z [Hs Hh] _ IH]; [done|]. intros Hb. apply IH.
  destruct Hs as [m ths th|m l1 th l2]; [done|]. cbn in *.
  apply section_banned; [done|]. apply Forall_app in Hh as [_ Hh]. by apply Forall_cons in Hh as [? _].
Qed.

Context `{!BoltDBLaws} `{!EntryJSONLaws}.

(** *** The database catches up *)

(** The times that a call may store have four-digit years. *)
Definition storable_call (c : Config) (th : thread) : Prop :=
  match th with
  | Violating _ _ now | Forcing _ _ now _ =>
      json_time_ok now /\ json_time_ok (now + GreylistTTL c) /\
      json_time_ok (now + BlockTTL c) /\ json_time_ok (now + CleanTTL c)
  | _ => True
  end.

(** No other goroutine works on the address. *)
Definition apart (c : Config) (ths : list thread) (th : thread) : Prop :=
  (forall th', th' ∈ ths -> thread_addr th' <> thread_addr th) /\ storable_call c th.

(** The address whose database entry a goroutine is about to change *)
Definition behind (th : thread) : option string :=
  match th with Deleting ip _ | Persisting ip _ _ => Some ip | _ => None end.

Definition thread_ok (c : Config) m (th : thread) : Prop :=
  match th with
  | Deleting ip _ => entries m !! ip = None
  | Persisting ip e _ => entries m !! ip = Some e /\ json_entry_ok e
  | _ => storable_call c th
  end.

(** Memory and database agree on the addresses that nobody is storing. *)
Record pool_inv (c : Config) (now : time) (p : pool) : Prop := {
  pi_cfg : cfg (po_rep p) = c;
  pi_apart : NoDup (omap thread_addr (po_threads p));
  pi_entries : entries_ok (po_rep p);
  pi_threads : Forall (thread_ok c (po_rep p)) (po_threads p);
  pi_agree : exists b, bolt_bucket (db (po_rep p)) = Some b /\
    forall ip, Forall (fun th => behind th <> Some ip) (po_threads p) ->
      fresh now (b !! ip ≫= json_Unmarshal) = fresh now (entries (po_rep p) !! ip);
}.

Lemma bucket_persist m ip e b :
  bolt_available -> json_entry_ok e -> bolt_bucket (db m) = Some b ->
  exists data, json_Unmarshal data = Some e /\ bolt_bucket (db (persist m ip e)) = Some (<[ip := data]> b).
Proof.
  intros Hup He Hb. destruct (json_total e He) as [data Hd]. exists data.
  split; [by apply json_roundtrip|]. unfold persist. rewrite Hd. cbn [db set_db].
  set (f := fun b0 => match b0 with None => _ | Some b1 => _ end).
  assert (Hok : (bolt_update f (db m)).1 = true) by (apply Hup; unfold f; by rewrite Hb).
  apply bolt_commit in Hok. unfold f in Hok at 2. rewrite Hb in Hok. by simplify_eq.
Qed.

Lemma bucket_delete m ip b :
  bolt_available -> bolt_bucket (db m) = Some b -> bolt_bucket (db (delete_ m ip)) = Some (delete ip b).
Proof.
  intros Hup Hb. unfold delete_. cbn [db set_db].
  set (f := fun b0 => match b0 with None => _ | Some b1 => _ end).
  assert (Hok : (bolt_update f (db m)).1 = true) by (apply Hup; unfold f; by rewrite Hb).
  apply bolt_commit in Hok. unfold f in Hok at 2. rewrite Hb in Hok. by simplify_eq.
Qed.

(** The memory sections leave the database alone. *)
Lemma section_db m th :
  match th with Deleting _ _ | Persisting _ _ _ => True | _ => db (section m th).1 = db m end.
Proof.
  destruct th as [ip now|ip e|ip e|ip reason now|ip reason now to|ip e tr|tr|]; try done; cbn.
  - by destruct (Lookup_read m ip now).
  - unfold violation_locked. by case_bool_decide.
  - apply db_emit.
Qed.

(** The other goroutines work on other addresses. *)
Lemma apart_others l1 th l2 ip th' :
  NoDup (omap thread_addr (l1 ++ th :: l2)) -> thread_addr th = Some ip -> th' ∈ l1 ++ l2 ->
  thread_addr th' <> Some ip.
Proof.
  rewrite omap_app. cbn. intros Hn E. rewrite E in Hn. cbn in Hn.
  rewrite <- Permutation_middle in Hn. apply NoDup_cons in Hn as [Hn _].
  intros Hin E'. apply Hn. rewrite <- omap_app. apply list_elem_of_omap. eauto.
Qed.

Lemma behind_addr th ip : behind th = Some ip -> thread_addr th = Some ip.
Proof. by destruct th. Qed.

(** What a section may do: change memory and database at its own address only,
    and leave them in agreement there unless it still has to store. *)
Record local_step (c : Config) (now : time) m (b : gmap string string) th m' th' : Prop := {
  ls_cfg : cfg m' = c;
  ls_addr : thread_addr th' = None \/ thread_addr th' = thread_addr th;
  ls_frame j : thread_addr th <> Some j -> entries m' !! j = entries m !! j;
  ls_entries : entries_ok m';
  ls_ok : thread_ok c m' th';
  ls_agree : exists b', bolt_bucket (db m') = Some b' /\
    (forall j, thread_addr th <> Some j -> b' !! j = b !! j) /\
    (forall ip, thread_addr th = Some ip -> behind th' <> Some ip ->
       fresh now (b' !! ip ≫= json_Unmarshal) = fresh now (entries m' !! ip));
}.

Lemma local_step_inv c now m b l1 th l2 m' th' :
  pool_inv c now (Pool m (l1 ++ th :: l2)) -> bolt_bucket (db m) = Some b ->
  local_step c now m b th m' th' -> pool_inv c now (Pool m' (l1 ++ th' :: l2)).
Proof.
  intros [Hc Ha He Ht (b0 & Hb0 & Hag)] Hb [Hc' Haddr Hf He' Hok (b' & Hb' & Hfb & Hmine)].
  cbn [po_rep po_threads] in *. assert (b0 = b) as -> by congruence.
  pose proof (fun ip => apart_others l1 th l2 ip) as Hoth.
  apply Forall_app in Ht as [Ht1 [Ht Ht2]%Forall_cons].
  assert (Hrest : Forall (thread_ok c m') (l1 ++ l2)).
  { apply Forall_forall. intros x Hx. assert (Hx' : thread_ok c m x).
    { apply (proj1 (Forall_forall _ (l1 ++ l2))); [by apply Forall_app|done]. }
    destruct x as [ip t|ip e|ip e|ip r t|ip r t s|ip e tr|tr|]; try done; cbn in *;
      (rewrite Hf; [done|]); intros E; by eapply (Hoth ip); eauto. }
  apply Forall_app in Hrest as [Hr1 Hr2].
  split; cbn [po_rep po_threads]; [done| |done|by apply Forall_app; split; [|constructor]|].
  - rewrite omap_app in Ha |- *. cbn in Ha |- *. destruct Haddr as [->| ->]; [|done].
    destruct (thread_addr th); [|done]. rewrite <- Permutation_middle in Ha. by apply NoDup_cons in Ha as [_ Ha].
  - exists b'. split; [done|]. intros ip Hq. apply Forall_app in Hq as [Hq1 [Hq Hq2]%Forall_cons].
    destruct (decide (thread_addr th = Some ip)) as [E|E]; [by apply Hmine|].
    rewrite Hfb, Hf by done. apply Hag. apply Forall_app. split; [done|]. constructor; [|done].
    intros Eb. by apply E, behind_addr.
Qed.

(** A mutex section that puts [e] in memory and leaves it to be stored *)
Lemma store_local c now m b ip e tr th :
  cfg m = c -> entries_ok m -> bolt_bucket (db m) = Some b -> thread_addr th = Some ip -> json_entry_ok e ->
  local_step c now m b th (set_entries m (<[ip := e]> (entries m))) (Persisting ip e tr).
Proof.
  intros Hc He Hb Ha Ho. split; [done|by right| | |split; [apply lookup_insert_eq|done]|].
  - intros j Hj. apply lookup_insert_ne. congruence.
  - intros j x Hx. cbn in Hx. apply lookup_insert_Some in Hx as [[_ <-]|[_ Hx]]; [done|by eapply He].
  - exists b. split_and!; [done..|]. intros j E Hn. cbn in Hn. congruence.
Qed.

Lemma section_local c now m l1 th l2 b :
  bolt_available -> pool_inv c now (Pool m (l1 ++ th :: l2)) -> bolt_bucket (db m) = Some b ->
  local_step c now m b th (section m th).1 (section m th).2.
Proof.
  intros Hup [Hc Ha He Ht (b0 & Hb0 & Hag)] Hb. cbn [po_rep po_threads] in *.
  assert (b0 = b) as -> by congruence.
  pose proof (fun ip => apart_others l1 th l2 ip) as Hoth.
  apply Forall_app in Ht as [_ [Ht _]%Forall_cons].
  assert (Hmine : forall ip, thread_addr th = Some ip -> behind th <> Some ip ->
    fresh now (b !! ip ≫= json_Unmarshal) = fresh now (entries m !! ip)).
  { intros ip E Hn. apply Hag. apply Forall_forall. intros x [Hx|[->|Hx]%elem_of_cons]%elem_of_app; [|done|];
      intros Eb%behind_addr; eapply (Hoth ip); eauto; apply elem_of_app; auto. }
  destruct th as [ip t|ip e|ip e|ip reason t|ip reason t to|ip e tr|tr|]; cbn [section thread_addr behind fst snd] in *.
  - destruct (Lookup_read m ip t); cbn [fst snd]; (split; [done|auto|done|done|done|]); exists b; split_and!; [done..|by intros; apply Hmine].
  - split; [done|by right|intros j Hj; apply lookup_delete_ne; intros ->; by apply Hj| |apply lookup_delete_eq|].
    + intros j x Hx. cbn in Hx. apply lookup_delete_Some in Hx as [_ Hx]. by eapply He.
    + exists b. split_and!; [done..|]. intros j [= <-] Hn. by destruct Hn.
  - split; [done|by left|done|done|done|]. exists (delete ip b). split_and!.
    + by apply bucket_delete.
    + intros j Hj. apply lookup_delete_ne. intros ->. by apply Hj.
    + intros j [= <-] _. cbn. rewrite lookup_delete_eq. cbn in Ht. by rewrite Ht.
  - unfold violation_locked. case_bool_decide; cbn [fst snd]; [split; [done|by left|done..|]; exists b; split_and!; [done..|by intros; apply Hmine]|].
    destruct Ht as (Hn & Hg & Hbl & _).
    assert (Ho : json_entry_ok (violated (cfg m) (default (new_entry t) (entries m !! ip)) t)).
    { subst c. apply violated_ok; [|done..]. destruct (entries m !! ip) as [x|] eqn:Ex; cbn; [by eapply He|by split]. }
    by apply store_local.
  - destruct Ht as (Hn & Hg & Hbl & Hcl). apply store_local; [done..|]. subst c. split; cbn; [done| |done]. by destruct to.
  - destruct Ht as [Hm Ho]. destruct (bucket_persist m ip e b Hup Ho Hb) as (data & Hu & Hb').
    split; [by rewrite cfg_persist|by left|by rewrite entries_persist|unfold entries_ok; by rewrite entries_persist|done|].
    exists (<[ip := data]> b). split_and!; [done| |].
    + intros j Hj. apply lookup_insert_ne. intros ->. by apply Hj.
    + intros j [= <-] _. rewrite lookup_insert_eq, entries_persist, Hm. cbn. by rewrite Hu.
  - split; [by rewrite cfg_emit|by left|by rewrite entries_emit|unfold entries_ok; by rewrite entries_emit|done|].
    exists b. split_and!; [by rewrite db_emit|done|done].
  - split; [done|by left|done..|]. exists b. by split_and!.
Qed.

Lemma call_inv c now m ths th :
  begins th -> apart c ths th -> pool_inv c now (Pool m ths) -> pool_inv c now (Pool m (ths ++ [th])).
Proof.
  intros Hbg [Hap Hst] [Hc Ha He Ht (b & Hb & Hag)]. cbn [po_rep po_threads] in *.
  split; cbn [po_rep po_threads]; [done| |done| |].
  - rewrite omap_app. cbn. destruct (thread_addr th) as [ip|] eqn:E; [|by rewrite app_nil_r].
    rewrite Permutation_app_comm. cbn. constructor; [|done].
    intros (x & Hx & E')%list_elem_of_omap. by eapply Hap.
  - apply Forall_app. split; [done|]. constructor; [|done]. destruct th; cbn in *; done.
  - exists b. split; [done|]. intros ip [Hq _]%Forall_app. by apply Hag.
Qed.

Lemma pool_reaches_inv c now p p' :
  bolt_available -> rtc (pool_step (apart c)) p p' -> pool_inv c now p -> pool_inv c now p'.
Proof.
  intros Hup. induction 1 as [|x y z Hs _ IH]; [done|]. intros Hi. apply IH.
  destruct Hs as [m ths th Hb Ha|m l1 th l2]; [by apply call_inv|].
  pose proof Hi as [_ _ _ _ (b & Hb & _)]. eapply local_step_inv; [exact Hi|exact Hb|].
  by eapply section_local.
Qed.

(** (C19) The database catches up.  Whatever calls run on however many goroutines, in
    whatever interleaving of their sections: as long as no two of them work on
    the same address at the same time, once they have all left the manager a
    restart on the database preserves the state of every address -- although
    the database is written after the mutex is released, in any order. *)
Theorem quiet_database_is_current m now c' p :
  bolt_available -> agrees m now -> entries_ok m ->
  rtc (pool_step (apart (cfg m))) (Pool m []) p -> quiet p ->
  exists m', Open (db (po_rep p)) c' now = Some m' /\
    forall ip t, now <= t -> (Lookup m' ip t).1 = (Lookup (po_rep p) ip t).1.
Proof.
  intros Hup (b & Hb & Ha) He Hs Hq.
  assert (Hi : pool_inv (cfg m) now (Pool m [])).
  { split; cbn; [done|constructor|done|constructor|]. exists b. split; [done|]. intros ip _. apply Ha. }
  pose proof (pool_reaches_inv _ _ _ _ Hup Hs Hi) as [_ _ _ _ (b' & Hb' & Hag)].
  destruct (Open_spec (db (po_rep p)) c' now Hup) as (m' & Ho & _ & _ & _ & Hd).
  exists m'. split; [done|]. intros ip t Ht. rewrite !Lookup_status, Hd, Hb'. cbn [default from_option id].
  rewrite Hag, fresh_fresh; [done..|].
  eapply Forall_impl; [exact Hq|]. intros th Hth Hbe%behind_addr. congruence.
Qed.

(** *** Two calls on one address *)

Lemma first_violation_greylists c now :
  1 < BlockThreshold c -> e_State (violated c (new_entry now) now) = StateGreylisted /\
    e_Expiry (violated c (new_entry now) now) = now + GreylistTTL c.
Proof.
  intros Hthr. unfold violated. cbn [new_entry e_Violations app].
  assert (Hl : Z.of_nat (length (prune (Time.Add now (int64_wrap (- Window c))) [now])) <= 1).
  { unfold prune. cbn. case_match; cbn; lia. }
  by rewrite (proj2 (Z.leb_gt _ _)) by lia.
Qed.

Lemma pool_left {adm m a b m' a'} : section m a = (m', a') -> pool_step adm (Pool m [a; b]) (Pool m' [a'; b]).
Proof. intros E. pose proof (pool_section adm m [] a [b]) as Hp. by rewrite E in Hp. Qed.

Lemma pool_right {adm m a b m' b'} : section m b = (m', b') -> pool_step adm (Pool m [a; b]) (Pool m' [a; b']).
Proof. intros E. pose proof (pool_section adm m [a] b []) as Hp. by rewrite E in Hp. Qed.

Lemma violation_first m ip reason now : entries m !! ip = None ->
  exists tr, section m (Violating ip reason now) =
    (set_entries m (<[ip := violated (cfg m) (new_entry now) now]> (entries m)),
     Persisting ip (violated (cfg m) (new_entry now) now) tr).
Proof. intros E. cbn. unfold violation_locked. rewrite E. cbn. by eexists. Qed.

Lemma forced m ip reason now to :
  let e := {| e_State := to; e_Since := now;
              e_Expiry := Time.Add now (match to with StateBlocked => BlockTTL (cfg m) | _ => CleanTTL (cfg m) end);
              e_Violations := [] |} in
  exists tr, section m (Forcing ip reason now to) =
    (set_entries m (<[ip := e]> (entries m)), Persisting ip e tr).
Proof. by eexists. Qed.

(** (C20) The same address at the same time is another matter: a violation and a ban
    that overlap may be stored in the order opposite to the one in which they
    took effect.  Then the client is banned in memory, but its database entry,
    once both calls have returned, is the greylisting: a restart ends the ban. *)
Theorem overlapping_store_loses_ban m now ip reason t1 t2 t :
  bolt_available -> agrees m now -> entries m !! ip = None -> 1 < BlockThreshold (cfg m) ->
  storable_call (cfg m) (Violating ip reason t1) -> storable_call (cfg m) (Violating ip reason t2) ->
  now <= t -> t <= t1 + GreylistTTL (cfg m) -> t <= t2 + BlockTTL (cfg m) ->
  exists p m', rtc (pool_step (fun _ _ => True)) (Pool m []) p /\ Forall (eq Returned) (po_threads p) /\
    (Lookup (po_rep p) ip t).1 = StateBlocked /\
    Open (db (po_rep p)) (cfg m) now = Some m' /\ (Lookup m' ip t).1 = StateGreylisted.
Proof.
  intros Hup (b & Hb & _) Hn Hthr (Ht1 & Hg1 & Hb1 & _) (Ht2 & _ & Hb2 & _) Hnow Hgt Hbt.
  set (g := violated (cfg m) (new_entry t1) t1).
  destruct (first_violation_greylists (cfg m) t1 Hthr) as [Hg Hge]. fold g in Hg, Hge.
  set (k := {| e_State := StateBlocked; e_Since := t2; e_Expiry := Time.Add t2 (BlockTTL (cfg m)); e_Violations := [] |}).
  set (m1 := set_entries m (<[ip := g]> (entries m))). set (m2 := set_entries m1 (<[ip := k]> (entries m1))).
  destruct (violation_first m ip reason t1 Hn) as [tr1 Hs1]. fold g in Hs1.
  destruct (forced m1 ip reason t2 StateBlocked) as [tr2 Hs2]. fold m1 in Hs1. fold k m2 in Hs2.
  assert (Hgo : json_entry_ok g) by (apply violated_ok; [by split|done..]).
  assert (Hko : json_entry_ok k) by (by split).
  destruct (bucket_persist m2 ip k b Hup Hko Hb) as (dk & _ & Hb3).
  destruct (bucket_persist (persist m2 ip k) ip g _ Hup Hgo Hb3) as (dg & Hdg & Hb4).
  set (m4 := persist (persist m2 ip k) ip g) in *. set (m6 := emit (emit m4 tr1) tr2).
  destruct (Open_spec (db m6) (cfg m) now Hup) as (m' & Ho & _ & _ & _ & Hd).
  exists (Pool m6 [Returned; Returned]), m'. split_and!; [|by repeat constructor| |exact Ho|].
  - eapply rtc_l; [apply (pool_call _ m [] (Violating ip reason t1)); done|].
    eapply rtc_l; [apply (pool_call _ m [Violating ip reason t1] (Forcing ip reason t2 StateBlocked)); done|].
    eapply rtc_l; [apply (pool_left Hs1)|]. eapply rtc_l; [apply (pool_right Hs2)|].
    eapply rtc_l; [eapply pool_right; reflexivity|]. eapply rtc_l; [eapply pool_left; reflexivity|].
    eapply rtc_l; [eapply pool_left; reflexivity|]. eapply rtc_l; [eapply pool_right; reflexivity|]. reflexivity.
  - rewrite Lookup_status. cbn [po_rep]. unfold m6, m4. rewrite !entries_emit, !entries_persist. change (entries m2) with (<[ip := k]> (entries m1)).
    rewrite lookup_insert_eq, (blocks_until_fresh t); [done| |done]. exists k. split_and!; [done..|by right].
  - rewrite Lookup_status, Hd. unfold m6. rewrite !db_emit, Hb4. cbn [default from_option id].
    rewrite lookup_insert_eq, fresh_fresh by done. cbn. rewrite Hdg. cbn.
    unfold expired, Time.After. rewrite Hge, (proj2 (Z.ltb_ge _ _)), andb_false_r by done. done.
Qed.

End Pool.

(** ** Witnesses *)

Module SectionsExamples.
Import ReputationExamples.
#[local] Existing Instance MemBolt.
#[local] Existing Instance MemBoltLaws.
#[local] Existing Instance BitsJSON.
#[local] Existing Instance BitsJSONLaws.

Lemma m0_agrees : agrees m0 t0.
Proof. exists ∅. split; [reflexivity|]. intros ip. reflexivity. Qed.

Lemma m0_entries : entries_ok m0.
Proof. intros ip e E. cbn in E. by rewrite lookup_empty in E. Qed.

Definition strike : thread := Violating "192.0.2.1" "scan" t0.
Definition ban : thread := Forcing "192.0.2.2" "shell" t0 StateBlocked.

(** Two calls whose sections alternate; the first to leave memory is the last to
    be stored. *)
Definition m_struck : Manager := (section m0 strike).1.
Definition m_banned : Manager := (section m_struck ban).1.

Lemma alternating :
  exists p, rtc (pool_step (apart cfg0)) (Pool m0 []) p /\ quiet p /\
    entries (po_rep p) = entries m_banned.
Proof.
  eexists. split.
  - eapply rtc_l; [apply (pool_call _ m0 [] strike); [done|]|].
    { split; [intros th Hth; by apply elem_of_nil in Hth|]. repeat split; vm_compute; discriminate. }
    eapply rtc_l; [apply (pool_call _ m0 [strike] ban); [done|]|].
    { split; [intros th ->%list_elem_of_singleton; discriminate|]. repeat split; vm_compute; discriminate. }
    eapply rtc_l; [eapply pool_left; reflexivity|]. eapply rtc_l; [eapply pool_right; reflexivity|].
    eapply rtc_l; [eapply pool_right; reflexivity|]. eapply rtc_l; [eapply pool_left; reflexivity|]. reflexivity.
  - split; [repeat constructor|]. cbn [po_rep]. by rewrite !entries_persist.
Qed.

Lemma quiet_database_is_current_witness :
  exists p m', quiet p /\ Open (db (po_rep p)) cfg0 t0 = Some m' /\
    (Lookup m' "192.0.2.2" t0).1 = StateBlocked.
Proof.
  destruct alternating as (p & Hs & Hq & He).
  destruct (quiet_database_is_current m0 t0 cfg0 p mem_available m0_agrees m0_entries Hs Hq) as (m' & Ho & Hl).
  exists p, m'. split; [exact Hq|]. split; [exact Ho|].
  rewrite Hl by reflexivity. rewrite Lookup_status, He. vm_compute. reflexivity.
Defined.

Lemma overlapping_store_loses_ban_witness :
  exists p m', rtc (pool_step (fun _ _ => True)) (Pool m0 []) p /\
    (Lookup (po_rep p) "192.0.2.1" (t0 + Minute)).1 = StateBlocked /\
    Open (db (po_rep p)) cfg0 t0 = Some m' /\ (Lookup m' "192.0.2.1" (t0 + Minute)).1 = StateGreylisted.
Proof.
  destruct (overlapping_store_loses_ban m0 t0 "192.0.2.1" "scan" t0 (t0 + Second) (t0 + Minute))
    as (p & m' & Hs & _ & Hb & Ho & Hg).
  - apply mem_available.
  - apply m0_agrees.
  - reflexivity.
  - reflexivity.
  - repeat split; vm_compute; discriminate.
  - repeat split; vm_compute; discriminate.
  - vm_compute. discriminate.
  - vm_compute. discriminate.
  - vm_compute. discriminate.
  - exists p, m'. split; [exact Hs|]. split; [exact Hb|]. split; [exact Ho|exact Hg].
Defined.

End SectionsExamples.
