(* ===== verification/GoRegexp.v ===== *)
(** * Go regular expressions

    Package [regexp] as smoker uses it: [Compile] and [MatchString] on patterns
    written by rule authors, and [QuoteMeta].  The compiler and the matcher are
    the class [Regexp]; [RegexpLaws] states the documented behaviour on the one
    family of patterns the code builds itself, literals and [.*] between the
    anchors [^] and [$].  [PathRegexp] is an instance for that family. *)

From S2P Require Export GoStrings.

(** ** QuoteMeta *)

(** The bytes [\.+*?()|[]{}^$], which [QuoteMeta] escapes. *)
Definition is_meta (c : byte) : bool :=
  str_existsb (fun x => x =?c c) "\.+*?()|[]{}^$".

Fixpoint QuoteMeta (s : string) : string :=
  match s with
  | EmptyString => ""
  | String c s' => if is_meta c then String "\" (String c (QuoteMeta s')) else String c (QuoteMeta s')
  end.

(** ** Anchored patterns of literals and [.*] *)

Inductive re_item := Lit (c : byte) | AnyStar.

Definition newline : byte := ascii_of_N 10.

Definition no_newline (s : string) : bool := str_forallb (fun c => negb (c =?c newline)) s.

Definition item_pattern (i : re_item) : string :=
  match i with Lit c => QuoteMeta (String c "") | AnyStar => ".*" end.

Definition items_pattern (its : list re_item) : string :=
  foldr (fun i s => item_pattern i +:+ s) "" its.

(** What [.*] does with the rest of a pattern: [k] holds after some
    newline-free prefix. *)
Fixpoint after_star (k : string -> bool) (s : string) : bool :=
  k s ||
  match s with
  | EmptyString => false
  | String c s' => negb (c =?c newline) && after_star k s'
  end.

Fixpoint items_match (its : list re_item) (s : string) : bool :=
  match its with
  | [] => s =?s ""
  | Lit c :: its => match s with String d s' => (c =?c d) && items_match its s' | EmptyString => false end
  | AnyStar :: its => after_star (items_match its) s
  end.

Definition item_ascii (i : re_item) : bool :=
  match i with Lit c => is_ascii c | AnyStar => true end.

(** [regexp.Compile] ([None] is an error) and [(re *Regexp).MatchString] *)
Class Regexp := {
  re_t : Type;
  re_Compile : string -> option re_t;
  re_MatchString : re_t -> string -> bool;
}.

Class RegexpLaws `{Regexp} : Prop := {
  re_anchored its : forallb item_ascii its = true ->
    exists re, re_Compile ("^" +:+ items_pattern its +:+ "$") = Some re /\
      forall s, re_MatchString re s = items_match its s;
}.

(** ** Lemmas *)

Lemma QuoteMeta_app s t : QuoteMeta (s +:+ t) = QuoteMeta s +:+ QuoteMeta t.
Proof.
  induction s as [|c s IH]; [done|]. rewrite str_app_cons. cbn [QuoteMeta].
  rewrite IH. by case_match.
Qed.

Lemma after_star_spec k s :
  after_star k s = true <-> exists w t, s = w +:+ t /\ no_newline w = true /\ k t = true.
Proof.
  induction s as [|c s IH]; cbn [after_star]; rewrite orb_true_iff.
  - split; [intros [?|?]; [by exists "", ""|done]|]. intros ([|] & [|] & [=] & _ & Hk). by left.
  - rewrite andb_true_iff, IH. split.
    + intros [Hk|[Hc (w & t & -> & Hw & Hk)]]; [by exists "", (String c s)|].
      exists (String c w), t. split; [done|]. split; [|done].
      unfold no_newline in *. cbn [str_forallb]. by rewrite Hc, Hw.
    + intros (w & t & E & Hw & Hk). destruct w as [|d w]; [left; cbn in E; by rewrite E|].
      rewrite str_app_cons in E. injection E as -> E. unfold no_newline in Hw.
      cbn [str_forallb] in Hw. apply andb_true_iff in Hw as [Hd Hw]. right.
      split; [done|]. by exists w, t.
Qed.

Fixpoint lits (s : string) : list re_item :=
  match s with EmptyString => [] | String c s' => Lit c :: lits s' end.

Lemma items_match_lits l its s :
  items_match (lits l ++ its) s = true <-> exists t, s = l +:+ t /\ items_match its t = true.
Proof.
  revert s. induction l as [|c l IH]; intros s; cbn [lits app items_match].
  - split; [by exists s|]. by intros (t & -> & ?).
  - destruct s as [|d s].
    + split; [done|]. by intros (t & [=] & _).
    + rewrite andb_true_iff, Ascii.eqb_eq, IH. split.
      * intros [-> (t & -> & Ht)]. by exists t.
      * intros (t & E & Ht). rewrite str_app_cons in E. injection E as -> ->. eauto.
Qed.

Lemma lits_ascii s : forallb item_ascii (lits s) = isASCII s.
Proof. induction s as [|c s IH]; [done|]. cbn. by rewrite IH. Qed.

Lemma items_pattern_app its js : items_pattern (its ++ js) = items_pattern its +:+ items_pattern js.
Proof.
  induction its as [|i its IH]; [done|]. cbn [app items_pattern foldr].
  fold (items_pattern (its ++ js)) (items_pattern its). by rewrite IH, str_app_assoc.
Qed.

Lemma items_pattern_lits s : items_pattern (lits s) = QuoteMeta s.
Proof.
  induction s as [|c s IH]; [done|]. cbn [lits items_pattern foldr].
  fold (items_pattern (lits s)). rewrite IH. cbn [item_pattern QuoteMeta].
  by destruct (is_meta c).
Qed.

(** ** An instance for the anchored patterns *)

Module PathRegexp.

(** The body of an anchored pattern, up to its [$]. *)
Fixpoint parse (s : string) : option (list re_item) :=
  match s with
  | String "$" "" => Some []
  | String "\" (String c s) => cons (Lit c) <$> parse s
  | String "." (String "*" s) => cons AnyStar <$> parse s
  | String c s => if is_meta c || negb (is_ascii c) then None else cons (Lit c) <$> parse s
  | EmptyString => None
  end.

Definition compile (s : string) : option (list re_item) :=
  match s with String "^" s => parse s | _ => None end.

Definition regexp : Regexp := {|
  re_t := list re_item; re_Compile := compile; re_MatchString := items_match |}.

Lemma parse_plain c s :
  is_meta c = false -> is_ascii c = true -> parse (String c s) = cons (Lit c) <$> parse s.
Proof. destruct c as [[][][][][][][][]]; try discriminate; reflexivity. Qed.

Lemma parse_items its :
  forallb item_ascii its = true -> parse (items_pattern its +:+ "$") = Some its.
Proof.
  induction its as [|i its IH]; [done|]. cbn [forallb]. rewrite andb_true_iff. intros [Hi His].
  cbn [items_pattern foldr]. fold (items_pattern its). rewrite str_app_assoc.
  destruct i as [c|]; cbn [item_pattern QuoteMeta].
  - destruct (is_meta c) eqn:Ec; rewrite !str_app_cons, str_app_nil_l.
    + cbn [parse]. by rewrite IH.
    + rewrite parse_plain by done. by rewrite IH.
  - change (parse (".*" +:+ (items_pattern its +:+ "$")))
      with (cons AnyStar <$> parse (items_pattern its +:+ "$")). by rewrite IH.
Qed.

Lemma laws : RegexpLaws (H := regexp).
Proof.
  split. intros its His. exists its. split; [|done]. change (parse (items_pattern its +:+ "$") = Some its).
  by apply parse_items.
Qed.

End PathRegexp.

Example QuoteMeta_ex : QuoteMeta "/a.php?x=[1]" = "/a\.php\?x=\[1\]". Proof. reflexivity. Qed.
