(* ===== verification/Tls.v ===== *)
(** * Certificates ([internal/tlsterm/certloader.go])

    The store that answers TLS handshakes by server name, and its loader: the
    regular expressions over nginx and Apache virtual hosts are executable, with
    the leftmost-first semantics of package [regexp]; the file system,
    [filepath.Glob] and [tls.LoadX509KeyPair] are arguments.  [TLSConfig] and
    [NewAutocert] only fill in structures of other packages. *)

From S2P Require Export GoRegexp.

(** ** The patterns

    A pattern is a sequence of items with one capturing group.  Negated classes
    and [.] match byte by byte what Go matches rune by rune: no byte of a
    longer rune is in a class of theirs.  [Folded c] is the letter [c] under the
    flag [i], which also stands for the two non-ASCII letters that fold to [s]
    and [k]. *)
Inductive item :=
| Bol
| Eol
| One (p : byte -> bool)
| Folded (c : byte)
| Star (p : byte -> bool)
| Group (p : byte -> bool).

(** [\s] *)
Definition re_space (c : byte) : bool :=
  str_existsb (fun x => x =?c c) (String (ascii_of_N 9) (String (ascii_of_N 10)
    (String (ascii_of_N 12) (String (ascii_of_N 13) " ")))).
Definition not_space (c : byte) : bool := negb (re_space c).
Definition not_semi (c : byte) : bool := negb (c =?c ";").
Definition not_newline (c : byte) : bool := negb (c =?c newline).

Definition long_s : string := String (ascii_of_N 197) (String (ascii_of_N 191) "").
Definition kelvin : string := String (ascii_of_N 226) (String (ascii_of_N 132) (String (ascii_of_N 170) "")).

(** The rest of [s] after one letter that folds to [c]. *)
Definition fold_letter (c : byte) (s : string) : option string :=
  match s with
  | EmptyString => None
  | String d s' =>
      if byte_lower d =?c byte_lower c then Some s'
      else if (byte_lower c =?c "s") && HasPrefix s long_s then Some (str_drop 2 s)
      else if (byte_lower c =?c "k") && HasPrefix s kelvin then Some (str_drop 3 s)
      else None
  end.

Definition at_bol (prev : option byte) : bool :=
  match prev with None => true | Some c => c =?c newline end.

(** A match: the group, the byte before the end, and the rest of the text. *)
Definition re_match : Type := string * option byte * string.

Section Exec.
Context (k : option byte -> string -> option re_match) (p : byte -> bool).

(** A greedy [p*], which gives back bytes until [k] succeeds. *)
Fixpoint star (prev : option byte) (s : string) : option re_match :=
  match s with
  | String d s' =>
      if p d then match star (Some d) s' with Some r => Some r | None => k prev s end
      else k prev s
  | EmptyString => k prev s
  end.

(** The same for the group, which has read [acc]. *)
Fixpoint group (acc : string) (prev : option byte) (s : string) : option re_match :=
  let finish := match k prev s with Some r => Some (acc, r.1.2, r.2) | None => None end in
  match s with
  | String d s' =>
      if p d then match group (acc +:+ String d "") (Some d) s' with Some r => Some r | None => finish end
      else finish
  | EmptyString => finish
  end.
End Exec.

Fixpoint exec (re : list item) (prev : option byte) (s : string) : option re_match :=
  match re with
  | [] => Some ("", prev, s)
  | Bol :: re => if at_bol prev then exec re prev s else None
  | Eol :: re =>
      match s with
      | EmptyString => exec re prev s
      | String c _ => if c =?c newline then exec re prev s else None
      end
  | One p :: re =>
      match s with
      | String d s' => if p d then exec re (Some d) s' else None
      | EmptyString => None
      end
  | Folded c :: re => s' ← fold_letter c s; exec re (Some c) s'
  | Star p :: re => star (exec re) p prev s
  | Group p :: re =>
      match s with
      | String d s' => if p d then group (exec re) p (String d "") (Some d) s' else None
      | EmptyString => None
      end
  end.

(** The leftmost match. *)
Fixpoint find_match (re : list item) (prev : option byte) (s : string) : option re_match :=
  match exec re prev s with
  | Some r => Some r
  | None => match s with EmptyString => None | String c s' => find_match re (Some c) s' end
  end.

(** [FindStringSubmatch], whose result has length 2 or 0: the group *)
Definition FindStringSubmatch (re : list item) (s : string) : option string :=
  r ← find_match re None s; Some r.1.1.

(** [FindAllStringSubmatch(_, -1)] for patterns without empty matches: the
    groups.  Each match takes a byte, so the length of the text is fuel
    enough. *)
Fixpoint find_all (fuel : nat) (re : list item) (prev : option byte) (s : string) : list string :=
  match fuel with
  | O => []
  | S fuel =>
      match find_match re prev s with
      | Some (g, prev', s') => g :: find_all fuel re prev' s'
      | None => []
      end
  end.

Definition FindAllStringSubmatch (re : list item) (s : string) : list string :=
  find_all (S (String.length s)) re None s.

Fixpoint literal (w : string) : list item :=
  match w with EmptyString => [] | String c w => One (fun x => x =?c c) :: literal w end.
Fixpoint folded (w : string) : list item :=
  match w with EmptyString => [] | String c w => Folded c :: folded w end.

(** [(?m)^\s*name\s+([^;]+);] *)
Definition nginx_directive (name : string) : list item :=
  Bol :: Star re_space :: literal name ++
  [One re_space; Star re_space; Group not_semi; One (fun c => c =?c ";")].

(** [(?mi)^\s*name\s+(\S+)] *)
Definition apache_directive (name : string) : list item :=
  Bol :: Star re_space :: folded name ++ [One re_space; Star re_space; Group not_space].

Definition reNginxServerName : list item := nginx_directive "server_name".
Definition reNginxCert : list item := nginx_directive "ssl_certificate".
Definition reNginxKey : list item := nginx_directive "ssl_certificate_key".

Definition reApacheServerName : list item := apache_directive "ServerName".
(** [(?mi)^\s*ServerAlias\s+(.+)$] *)
Definition reApacheServerAlias : list item :=
  Bol :: Star re_space :: folded "ServerAlias" ++ [One re_space; Star re_space; Group not_newline; Eol].
Definition reApacheCert : list item := apache_directive "SSLCertificateFile".
Definition reApacheKey : list item := apache_directive "SSLCertificateKeyFile".

(** ** Virtual hosts *)

(** [pair] *)
Record pair := { certFile : string; keyFile : string; domains : list string }.

Section Vhosts.
Context `{Unicode}.

Definition firstSubmatch (re : list item) (s : string) : string :=
  match FindStringSubmatch re s with None => "" | Some m => TrimSpace m end.

(** [dedup], with [seen] what was output so far *)
Fixpoint dedup_loop (seen : gset string) (l : list string) : list string :=
  match l with
  | [] => []
  | s :: l =>
      let s := ToLower (TrimSpace s) in
      if (s =?s "") || bool_decide (s ∈ seen) then dedup_loop seen l
      else s :: dedup_loop ({[s]} ∪ seen) l
  end.

Definition dedup (l : list string) : list string := dedup_loop ∅ l.

(** [parseNginx] and [parseApache] on what [os.ReadFile] returns *)
Definition parseNginx (data : option string) : list pair :=
  match data with
  | None => []
  | Some text =>
      let cert := firstSubmatch reNginxCert text in
      let key := firstSubmatch reNginxKey text in
      if (cert =?s "") || (key =?s "") then []
      else
        let ds := flat_map (fun m => List.filter (fun d => negb (d =?s "_")) (Fields m))
                    (FindAllStringSubmatch reNginxServerName text) in
        [{| certFile := cert; keyFile := key; domains := dedup ds |}]
  end.

Definition parseApache (data : option string) : list pair :=
  match data with
  | None => []
  | Some text =>
      let cert := firstSubmatch reApacheCert text in
      let key := firstSubmatch reApacheKey text in
      if (cert =?s "") || (key =?s "") then []
      else
        let sn := firstSubmatch reApacheServerName text in
        let ds := (if sn =?s "" then [] else [sn]) ++
                  flat_map Fields (FindAllStringSubmatch reApacheServerAlias text) in
        [{| certFile := cert; keyFile := key; domains := dedup ds |}]
  end.

(** ** The store *)

(** [NewAutocert]: the settings of an [autocert.Manager] that accepts the terms
    of service and serves the given domains. *)
Record autocert := { am_Cache : string; am_Email : string; am_HostWhitelist : list string }.

Definition NewAutocert (cacheDir email : string) (domains : list string) : autocert :=
  {| am_Cache := cacheDir; am_Email := email; am_HostWhitelist := domains |}.

Section Store.
Context {Certificate ClientHelloInfo : Type} (ServerName : ClientHelloInfo -> string).

Inductive tls_error := NoCertificate (name : string) | Fallback (e : string).

(** [CertStore] *)
Record CertStore := {
  byName : gmap string Certificate;
  fallback : option (ClientHelloInfo -> string + Certificate);
}.

Definition NewCertStore : CertStore := {| byName := ∅; fallback := None |}.

(** [SetAutocert]: [m] is the manager's [GetCertificate]. *)
Definition SetAutocert (m : ClientHelloInfo -> string + Certificate) (s : CertStore) : CertStore :=
  {| byName := byName s; fallback := Some m |}.

Definition TrimSuffix (s suffix : string) : string :=
  if HasSuffix s suffix then str_take (String.length s - String.length suffix) s else s.

Definition matchWildcard (s : CertStore) (name : string) : option Certificate :=
  match IndexByte name "." with
  | None => None
  | Some dot => byName s !! ("*" +:+ str_drop dot name)
  end.

Definition GetCertificate (s : CertStore) (hello : ClientHelloInfo) : tls_error + Certificate :=
  let name := ToLower (TrimSuffix (ServerName hello) ".") in
  match (match byName s !! name with Some c => Some c | None => matchWildcard s name end) with
  | Some c => inr c
  | None =>
      match fallback s with
      | Some fb => match fb hello with inl e => inl (Fallback e) | inr c => inr c end
      | None => inl (NoCertificate (ServerName hello))
      end
  end.

(** [TLSConfig]: what smoker sets of a [tls.Config]; [VersionTLS12] is 0x0303. *)
Record tls_config := { tc_GetCertificate : ClientHelloInfo -> tls_error + Certificate; tc_MinVersion : Z }.

Definition TLSConfig (s : CertStore) : tls_config :=
  {| tc_GetCertificate := GetCertificate s; tc_MinVersion := 771 |}.

(** ** Reload *)

Context (Glob : string -> list string) (ReadFile : string -> option string).
Context (LoadX509KeyPair : string -> string -> string + Certificate).

Definition vhosts (nginxGlobs apacheGlobs : list string) : list pair :=
  flat_map (fun g => flat_map (fun f => parseNginx (ReadFile f)) (Glob g)) nginxGlobs ++
  flat_map (fun g => flat_map (fun f => parseApache (ReadFile f)) (Glob g)) apacheGlobs.

(** The loop of [Reload] on one pair. *)
Definition add_pair (acc : gmap string Certificate * list (string * string)) (p : pair) :
    gmap string Certificate * list (string * string) :=
  if (certFile p =?s "") || (keyFile p =?s "") || bool_decide (domains p = []) then acc
  else match LoadX509KeyPair (certFile p) (keyFile p) with
       | inl err => (acc.1, acc.2 ++ [(certFile p, err)])
       | inr c => (fold_left (fun next d => <[ToLower d := c]> next) (domains p) acc.1, acc.2)
       end.

(** [Reload]: the new store, the number of names and the errors *)
Definition Reload (nginxGlobs apacheGlobs : list string) (s : CertStore) :
    CertStore * Z * list (string * string) :=
  let '(next, errs) := fold_left add_pair (vhosts nginxGlobs apacheGlobs) (∅, []) in
  ({| byName := next; fallback := fallback s |}, Z.of_nat (size next), errs).

End Store.
End Vhosts.

Arguments CertStore : clear implicits.

(** ** What the loader reads in an nginx file

    A virtual host as its author sees it: the directives of interest, each at
    the start of a line with its value up to a semicolon, over one line or more,
    and any other text in between: other directives, blocks, comments, blank
    lines. *)

Inductive chunk :=
| Directive (indent kw gap value trail : string)
| Other (text : string).

Definition nl : string := String newline "".

Definition chunk_text (c : chunk) : string :=
  match c with
  | Directive indent kw gap value trail => indent +:+ kw +:+ gap +:+ value +:+ ";" +:+ trail
  | Other text => text
  end.

(** The chunks, with a newline between one and the next *)
Fixpoint file_text (cs : list chunk) : string :=
  match cs with
  | [] => ""
  | c :: cs => chunk_text c +:+ match cs with [] => "" | _ => nl +:+ file_text cs end
  end.

Fixpoint skip (s : string) : string :=
  match s with
  | String c s' => if re_space c then skip s' else s
  | EmptyString => ""
  end.

Fixpoint word (s : string) : string :=
  match s with
  | String c s => if re_space c then "" else String c (word s)
  | EmptyString => ""
  end.

Definition starts (p : byte -> bool) (s : string) : bool :=
  match s with String c _ => p c | EmptyString => false end.

Definition token (w : string) : bool := str_forallb not_space w && starts not_space w.

Definition known : list string := ["server_name"; "ssl_certificate"; "ssl_certificate_key"].

(** No line of the text starts with the word [name]; [bol]: the text itself
    starts a line. *)
Fixpoint free_of (name : string) (bol : bool) (text : string) : bool :=
  negb (bol && (word (skip text) =?s name)) &&
  match text with
  | String c text => free_of name (c =?c newline) text
  | EmptyString => true
  end.

(** What is between two directives has no line that starts with one of the
    three names.  A directive has white space before its value, which is
    followed by a semicolon; its value and what follows it on the line may span
    lines, none of which starts with another of the names. *)
Definition chunk_ok (c : chunk) : bool :=
  match c with
  | Directive indent kw gap value trail =>
      bool_decide (kw ∈ known) && str_forallb re_space indent && str_forallb re_space gap && starts re_space gap &&
      str_forallb not_semi value && starts not_space value && free_of kw false trail &&
      forallb (fun name => (name =?s kw) || free_of name true (chunk_text c)) known
  | Other text => forallb (fun name => free_of name true text) known
  end.

(** The values of the directives with a name, in order. *)
Definition values (name : string) (cs : list chunk) : list string :=
  omap (fun c => match c with
                 | Directive _ kw _ value _ => if kw =?s name then Some value else None
                 | Other _ => None
                 end) cs.

Section Directives.
Context (name : string) (Hname : token name = true).

Let re := nginx_directive name.
Let tail := [One re_space; Star re_space; Group not_semi; One (fun c => c =?c ";")].

Lemma exec_literal w prev s :
  exec (literal w ++ tail) prev (w +:+ s) = exec tail prev s.
Proof.
  revert prev. induction w as [|c w IH]; intros prev; [done|].
  rewrite str_app_cons. cbn [literal app exec]. rewrite Ascii.eqb_refl, IH. reflexivity.
Qed.

Lemma exec_literal_word w prev s r :
  str_forallb not_space w = true -> exec (literal w ++ tail) prev s = Some r -> word s = w.
Proof.
  revert prev s. induction w as [|c w IH]; intros prev s Hw He.
  - cbn in He. destruct s as [|d s]; [done|]. cbn. by destruct (re_space d).
  - cbn [str_forallb] in Hw. apply andb_true_iff in Hw as [Hc Hw]. cbn [literal app exec] in He.
    destruct s as [|d s]; [done|]. destruct (d =?c c) eqn:E; [|done].
    apply Ascii.eqb_eq in E as ->. cbn. apply negb_true_iff in Hc. rewrite Hc.
    f_equal. by eapply IH.
Qed.

(** A greedy run of [p] that is followed by something else. *)
Lemma star_run k p prev sp s :
  str_forallb p sp = true -> starts p s = false ->
  (forall prev s, starts p s = true -> k prev s = None) ->
  (forall prev prev', k prev s = k prev' s) ->
  star k p prev (sp +:+ s) = k prev s.
Proof.
  intros Hsp Hs Hk Hprev. revert prev. induction sp as [|c sp IH]; intros prev.
  - rewrite str_app_nil_l. destruct s as [|c s]; [done|]. cbn [star]. cbn in Hs. by rewrite Hs.
  - cbn [str_forallb] in Hsp. apply andb_true_iff in Hsp as [Hc Hsp].
    rewrite str_app_cons. cbn [star]. rewrite Hc, (IH Hsp). rewrite (Hprev (Some c) prev).
    destruct (k prev s); [done|]. apply Hk. by cbn.
Qed.

Lemma star_greedy k p prev sp s r :
  str_forallb p sp = true -> starts p s = false -> (forall prev, k prev s = Some r) ->
  star k p prev (sp +:+ s) = Some r.
Proof.
  intros Hsp Hs Hk. revert prev. induction sp as [|c sp IH]; intros prev.
  - rewrite str_app_nil_l. destruct s as [|c s]; [apply Hk|]. cbn [star]. cbn in Hs. rewrite Hs. apply Hk.
  - cbn [str_forallb] in Hsp. apply andb_true_iff in Hsp as [Hc Hsp].
    rewrite str_app_cons. cbn [star]. by rewrite Hc, (IH Hsp).
Qed.

Lemma group_value acc prev v s :
  str_forallb not_semi v = true ->
  group (exec [One (fun c => c =?c ";")]) not_semi acc prev (v +:+ ";" +:+ s) =
    Some (acc +:+ v, Some ";"%char, s).
Proof.
  revert acc prev. induction v as [|c v IH]; intros acc prev Hv.
  - cbn. by rewrite str_app_nil_r.
  - cbn [str_forallb] in Hv. apply andb_true_iff in Hv as [Hc Hv]. rewrite str_app_cons. cbn [group].
    rewrite Hc, IH by done. by rewrite str_app_assoc.
Qed.

Lemma literal_first prev prev' s : exec (literal name ++ tail) prev s = exec (literal name ++ tail) prev' s.
Proof. by destruct name. Qed.

Lemma literal_not_space prev s : starts re_space s = true -> exec (literal name ++ tail) prev s = None.
Proof.
  unfold token in Hname. destruct name as [|a w]; [done|]. intros Hs. destruct s as [|d s]; [done|].
  cbn in *. destruct (d =?c a) eqn:E; [|done]. apply Ascii.eqb_eq in E as ->.
  unfold not_space in Hname. by rewrite Hs in Hname.
Qed.

(** At the start of a line, after its indentation. *)
Lemma exec_indent prev indent s :
  at_bol prev = true -> str_forallb re_space indent = true -> starts re_space s = false ->
  exec re prev (indent +:+ s) = exec (literal name ++ tail) prev s.
Proof.
  intros Hb Hi Hs. unfold re, nginx_directive. cbn [exec]. rewrite Hb. fold tail.
  apply star_run; [done..|apply literal_not_space|intros; apply literal_first].
Qed.

Lemma exec_directive prev indent gap value trail :
  at_bol prev = true -> str_forallb re_space indent = true ->
  str_forallb re_space gap = true -> starts re_space gap = true ->
  str_forallb not_semi value = true -> starts not_space value = true ->
  exec re prev (indent +:+ name +:+ gap +:+ value +:+ ";" +:+ trail) = Some (value, Some ";"%char, trail).
Proof.
  intros Hb Hi Hg Hg1 Hv Hv1. rewrite exec_indent; [|done..|].
  - rewrite exec_literal. destruct gap as [|g gap]; [done|]. cbn [starts] in Hg1.
    cbn [str_forallb] in Hg. apply andb_true_iff in Hg as [_ Hg].
    rewrite str_app_cons. unfold tail. cbn [exec]. rewrite Hg1.
    apply star_greedy; [done| |].
    + destruct value as [|v value]; [done|]. cbn in Hv1 |- *. by apply negb_true_iff.
    + intros pv. destruct value as [|v value]; [done|].
      cbn [str_forallb] in Hv. apply andb_true_iff in Hv as [Hv0 Hv]. rewrite str_app_cons. rewrite Hv0.
      by rewrite group_value.
  - unfold token in Hname. destruct name as [|a w]; [done|]. cbn in Hname |- *.
    apply andb_true_iff in Hname as [_ Ha]. by apply negb_true_iff.
Qed.

Lemma exec_inside prev s : at_bol prev = false -> exec re prev s = None.
Proof. intros H. unfold re, nginx_directive. cbn [exec]. by rewrite H. Qed.

Lemma skip_app s t : skip (s +:+ t) = if skip s =?s "" then skip t else skip s +:+ t.
Proof.
  induction s as [|c s IH]; [done|]. rewrite str_app_cons. cbn [skip]. destruct (re_space c); [exact IH|done].
Qed.

Lemma skip_spaces s : exists sp, s = sp +:+ skip s /\ str_forallb re_space sp = true /\ starts re_space (skip s) = false.
Proof.
  induction s as [|c s (sp & E & Hsp & Hst)]; [by exists ""|]. cbn [skip]. destruct (re_space c) eqn:Ec.
  - exists (String c sp). rewrite str_app_cons, <- E. cbn. by rewrite Ec.
  - exists "". by cbn.
Qed.

Lemma word_app t s : s = "" \/ starts re_space s = true -> word (t +:+ s) = word t.
Proof.
  intros Hs. induction t as [|c t IH]; [|rewrite str_app_cons; cbn; by rewrite IH].
  rewrite str_app_nil_l. destruct Hs as [->|Hs]; [done|]. destruct s; [done|]. cbn in Hs |- *. by rewrite Hs.
Qed.

(** At the start of a line the pattern sees its first word. *)
Lemma exec_bol prev s : at_bol prev = true -> exec re prev s = exec (literal name ++ tail) None (skip s).
Proof.
  intros Hb. destruct (skip_spaces s) as (sp & E & Hsp & Hst). rewrite E at 1.
  rewrite exec_indent by done. apply literal_first.
Qed.

Lemma exec_other_word prev s : word s <> name -> exec (literal name ++ tail) prev s = None.
Proof.
  intros Hw. destruct (exec (literal name ++ tail) prev s) as [x|] eqn:E; [|done]. exfalso. apply Hw.
  eapply exec_literal_word; [|exact E]. unfold token in Hname. by apply andb_true_iff in Hname as [? _].
Qed.

(** A text without the name holds no match: the first one is in what follows. *)
Lemma find_free text : forall prev r R,
  r = "" \/ starts re_space r = true -> (forall prev, find_match re prev r = R) ->
  (forall x, exec (literal name ++ tail) None (skip r) = Some x -> R = Some x) ->
  free_of name (at_bol prev) text = true -> find_match re prev (text +:+ r) = R.
Proof.
  induction text as [|c text IH]; intros prev r R Hr HR Hx Hf; [apply HR|].
  cbn [free_of] in Hf. apply andb_true_iff in Hf as [Hw Hf].
  assert (Hnext : find_match re (Some c) (text +:+ r) = R) by (by apply IH).
  rewrite str_app_cons. cbn [find_match]. destruct (at_bol prev) eqn:Hb.
  2: { by rewrite exec_inside. }
  rewrite exec_bol by done. change (String c (text +:+ r)) with (String c text +:+ r).
  rewrite skip_app. apply negb_true_iff in Hw. cbn [andb] in Hw. apply String.eqb_neq in Hw.
  destruct (skip (String c text) =?s "") eqn:Es.
  - destruct (exec _ None (skip r)) as [x|] eqn:E; [|done]. symmetry. by apply Hx.
  - rewrite exec_other_word; [done|]. by rewrite word_app.
Qed.

(** The first match after a chunk, and the chunk that follows it. *)
Definition rest (cs : list chunk) : string := match cs with [] => "" | _ => nl +:+ file_text cs end.
Definition next_match (cs : list chunk) : option re_match :=
  match cs with [] => None | _ => find_match (nginx_directive name) (Some newline) (file_text cs) end.

Lemma literal_empty prev : exec (literal name ++ tail) prev "" = None.
Proof. unfold token in Hname. by destruct name. Qed.

Lemma find_nothing prev : find_match re prev "" = None.
Proof.
  cbn [find_match]. destruct (at_bol prev) eqn:E; [|by rewrite exec_inside].
  rewrite exec_bol by done. cbn [skip]. by rewrite literal_empty.
Qed.

Lemma find_after text prev cs :
  free_of name (at_bol prev) text = true -> find_match re prev (text +:+ rest cs) = next_match cs.
Proof.
  intros Hf. destruct cs as [|c cs]; cbn [rest next_match].
  - apply find_free; [by left|apply find_nothing| |done]. intros x. cbn [skip]. by rewrite literal_empty.
  - set (s := file_text (c :: cs)).
    assert (Hx : forall x, exec (literal name ++ tail) None (skip (nl +:+ s)) = Some x ->
      find_match re (Some newline) s = Some x).
    { intros x E. change (skip (nl +:+ s)) with (skip s) in E. rewrite <- (exec_bol (Some newline)) in E by done.
      destruct s; cbn [find_match]; by rewrite E. }
    apply find_free; [by right| |done|done]. intros p. unfold nl. rewrite str_app_cons, str_app_nil_l. cbn [find_match].
    destruct (at_bol p) eqn:E; [|by rewrite exec_inside]. rewrite exec_bol by done.
    destruct (exec _ None _) as [x|] eqn:Ex; [|done]. symmetry. by apply Hx.
Qed.

Lemma file_text_cons c cs : file_text (c :: cs) = chunk_text c +:+ rest cs.
Proof. by destruct cs. Qed.

(** The first match from a chunk on: the chunk's value, or what the next gives. *)
Lemma find_chunk prev c cs :
  at_bol prev = true -> chunk_ok c = true -> name ∈ known ->
  find_match re prev (file_text (c :: cs)) =
    match c with
    | Directive _ kw _ value trail =>
        if kw =?s name then Some (value, Some ";"%char, trail +:+ rest cs) else next_match cs
    | Other _ => next_match cs
    end.
Proof.
  intros Hb Hok Hk. rewrite file_text_cons. destruct c as [indent kw gap value trail|text]; cbn [chunk_ok] in Hok.
  - rewrite !andb_true_iff, forallb_forall in Hok. destruct Hok as [[[[[[[_ Hi] Hg] Hg1] Hv] Hv1] Ht] Hall].
    destruct (kw =?s name) eqn:E.
    + apply String.eqb_eq in E as ->. cbn [chunk_text]. rewrite !str_app_assoc.
      pose proof (exec_directive prev indent gap value (trail +:+ rest cs) Hb Hi Hg Hg1 Hv Hv1) as He.
      destruct (indent +:+ name +:+ gap +:+ value +:+ ";" +:+ trail +:+ rest cs); cbn [find_match]; by rewrite He.
    + apply find_after. rewrite Hb. specialize (Hall name ltac:(by apply list_elem_of_In)).
      rewrite String.eqb_sym, E in Hall. exact Hall.
  - apply find_after. rewrite Hb. rewrite forallb_forall in Hok. apply Hok. by apply list_elem_of_In.
Qed.

Lemma find_all_file cs : forall fuel prev,
  at_bol prev = true -> Forall (fun c => chunk_ok c = true) cs -> name ∈ known -> (length cs <= fuel)%nat ->
  find_all fuel re prev (file_text cs) = values name cs.
Proof.
  induction cs as [|c cs IH]; intros fuel prev Hb Hcs Hk Hf.
  { destruct fuel; [done|]. cbn [find_all file_text]. by rewrite find_nothing. }
  apply Forall_cons in Hcs as [Hc Hcs]. destruct fuel as [|fuel]; [cbn in Hf; lia|]. cbn [length] in Hf.
  assert (Hnext : forall f p t, (length cs <= f)%nat -> find_match re p t = next_match cs -> find_all f re p t = values name cs).
  { intros [|f] p t Hlt Hm; [by destruct cs; [|cbn in Hlt; lia]|]. destruct cs as [|c' cs]; cbn [find_all]; rewrite Hm; [done|].
    apply (IH (S f) (Some newline)); [done..|lia]. }
  pose proof (find_chunk prev c cs Hb Hc Hk) as Hm. cbn [values omap list_omap]. fold (values name cs).
  destruct c as [indent kw gap value trail|text]; [|by apply Hnext; [lia|]].
  destruct (kw =?s name) eqn:E; [|by apply Hnext; [lia|]]. cbn [find_all]. rewrite Hm. f_equal.
  apply Hnext; [lia|]. apply find_after. cbn [chunk_ok] in Hc. rewrite !andb_true_iff in Hc.
  apply String.eqb_eq in E as <-. tauto.
Qed.

Lemma find_file prev cs :
  at_bol prev = true -> Forall (fun c => chunk_ok c = true) cs -> name ∈ known ->
  (r ← find_match re prev (file_text cs); Some r.1.1) = head (values name cs).
Proof.
  intros Hb Hcs Hk. pose proof (find_all_file cs (S (length cs)) prev Hb Hcs Hk ltac:(lia)) as E.
  rewrite <- E. cbn [find_all]. by destruct (find_match re prev (file_text cs)) as [[[g p] s]|].
Qed.

End Directives.

Lemma file_text_length cs : (length cs <= S (String.length (file_text cs)))%nat.
Proof.
  induction cs as [|c cs IH]; [cbn; lia|]. rewrite file_text_cons, str_length_app. destruct cs as [|c' cs]; [cbn; lia|].
  cbn [rest]. rewrite str_length_app. cbn [length] in *. change (String.length nl) with 1%nat. lia.
Qed.

Section LoaderFacts.
Context `{Unicode}.

Definition first_value (name : string) (cs : list chunk) : string :=
  match values name cs with [] => "" | v :: _ => TrimSpace v end.

(** (C37) [parseNginx] reads a virtual host the way its author means it: the
    certificate and the key are the values of the first [ssl_certificate] and
    [ssl_certificate_key] directives, and the domains those of all the
    [server_name] directives, over several lines or one; without both files it
    yields nothing.  The directives are those at the start of a line; around
    them may be blank lines, comments, blocks and other directives, of any
    shape and number ([chunk_ok]).  Files are left out in which a line starts
    with one of the three names and is not a directive: there is no white space
    and value after the name, no semicolon after the value, or another of the
    names at the start of a line before it. *)
Theorem parseNginx_reads_vhost cs :
  Forall (fun c => chunk_ok c = true) cs ->
  parseNginx (Some (file_text cs)) =
    let cert := first_value "ssl_certificate" cs in
    let key := first_value "ssl_certificate_key" cs in
    if (cert =?s "") || (key =?s "") then []
    else [{| certFile := cert; keyFile := key;
             domains := dedup (flat_map (fun m => List.filter (fun d => negb (d =?s "_")) (Fields m))
                                 (values "server_name" cs)) |}].
Proof.
  intros Hcs.
  assert (Hfirst : forall name, token name = true -> name ∈ known ->
    firstSubmatch (nginx_directive name) (file_text cs) = first_value name cs).
  { intros name Ht Hk. unfold firstSubmatch, FindStringSubmatch, first_value.
    rewrite (find_file name Ht None cs) by done. by destruct (values name cs). }
  assert (Hall : FindAllStringSubmatch reNginxServerName (file_text cs) = values "server_name" cs).
  { unfold FindAllStringSubmatch, reNginxServerName.
    apply find_all_file; [done|done|done|left|]. apply file_text_length. }
  unfold parseNginx, reNginxCert, reNginxKey.
  rewrite !Hfirst, Hall by (done || (unfold known; set_solver)). reflexivity.
Qed.

(** *** dedup *)

Lemma dedup_loop_spec seen l :
  NoDup (dedup_loop seen l) /\
  forall d, d ∈ dedup_loop seen l <-> d <> "" /\ d ∉ seen /\ exists s, s ∈ l /\ d = ToLower (TrimSpace s).
Proof.
  revert seen. induction l as [|s l IH]; intros seen; cbn [dedup_loop].
  - split; [constructor|]. intros d. split; [by intros ?%elem_of_nil|].
    intros (_ & _ & s & Hs & _). by apply elem_of_nil in Hs.
  - set (x := ToLower (TrimSpace s)). destruct (IH seen) as [Hn Hd].
    destruct (IH ({[x]} ∪ seen)) as [Hn' Hd'].
    destruct ((x =?s "") || bool_decide (x ∈ seen)) eqn:E.
    + split; [done|]. intros d. rewrite Hd. apply orb_true_iff in E.
      assert (Hx : x = "" \/ x ∈ seen).
      { destruct E as [E|E]; [left; by apply String.eqb_eq|right; by apply bool_decide_eq_true in E]. }
      split; [intros (? & ? & s' & ? & ?)|intros (? & ? & s' & [->|]%elem_of_cons & ->)];
        [split_and!; [done..|]; exists s'; split; [by right|done]|naive_solver|eauto].
    + apply orb_false_iff in E as [E1 E2]. apply String.eqb_neq in E1. apply bool_decide_eq_false in E2.
      split.
      * constructor; [|done]. rewrite Hd'. set_solver.
      * intros d. rewrite elem_of_cons, Hd'. split.
        -- intros [->|(? & ? & s' & ? & ?)]; [split_and!; [done..|]; exists s; split; [left|done]|].
           split_and!; [done|set_solver|]. exists s'. split; [by right|done].
        -- intros (? & ? & s' & [->|]%elem_of_cons & ->); [by left|].
           destruct (decide (ToLower (TrimSpace s') = x)) as [->|]; [by left|right].
           split_and!; [done|set_solver|eauto].
Qed.

(** [dedup] keeps each domain once, trimmed and in lower case, and drops empty
    ones. *)
Theorem dedup_spec l :
  NoDup (dedup l) /\ forall d, d ∈ dedup l <-> d <> "" /\ exists s, s ∈ l /\ d = ToLower (TrimSpace s).
Proof.
  destruct (dedup_loop_spec ∅ l) as [Hn Hd]. split; [exact Hn|]. intros d. unfold dedup. rewrite Hd.
  set_solver.
Qed.

(** *** The certificate of a handshake *)

Section StoreFacts.
Context {Certificate ClientHelloInfo : Type} (ServerName : ClientHelloInfo -> string).
Context (Glob : string -> list string) (ReadFile : string -> option string).
Context (LoadX509KeyPair : string -> string -> string + Certificate).

(** The names a pair serves, with its certificate; none unless it loads. *)
Definition pair_names (p : pair) : list (string * Certificate) :=
  if (certFile p =?s "") || (keyFile p =?s "") then []
  else match LoadX509KeyPair (certFile p) (keyFile p) with
       | inl _ => []
       | inr c => map (fun d => (ToLower d, c)) (domains p)
       end.

Definition configured (ps : list pair) (name : string) : option Certificate :=
  last (omap (fun x : string * Certificate => if x.1 =?s name then Some x.2 else None) (flat_map pair_names ps)).

Lemma add_names_lookup ds c (m : gmap string Certificate) name :
  fold_left (fun next d => <[ToLower d := c]> next) ds m !! name =
    match last (omap (fun x : string * Certificate => if x.1 =?s name then Some x.2 else None)
                  (map (fun d => (ToLower d, c)) ds)) with
    | Some c => Some c | None => m !! name end.
Proof.
  revert m. induction ds as [|d ds IH]; intros m; [done|]. cbn [fold_left map omap list_omap fst snd].
  rewrite IH. destruct (ToLower d =?s name) eqn:E.
  - rewrite last_cons. destruct (last _); [done|]. apply String.eqb_eq in E as ->. by rewrite lookup_insert_eq.
  - destruct (last _); [done|]. apply String.eqb_neq in E. by rewrite lookup_insert_ne.
Qed.

Lemma last_app_match {A} (l k : list A) :
  last (l ++ k) = match last k with Some x => Some x | None => last l end.
Proof. rewrite last_app. by destruct (last k). Qed.

Lemma add_pairs_lookup ps acc name :
  (fold_left (add_pair LoadX509KeyPair) ps acc).1 !! name =
    match configured ps name with Some c => Some c | None => acc.1 !! name end.
Proof.
  revert acc. induction ps as [|p ps IH]; intros acc; [done|]. cbn [fold_left]. rewrite IH.
  unfold configured. cbn [flat_map]. rewrite omap_app, last_app_match.
  match goal with |- _ = match match ?x with _ => _ end with _ => _ end => destruct x; [done|] end.
  unfold add_pair, pair_names. destruct ((certFile p =?s "") || (keyFile p =?s "")); [done|].
  case_bool_decide as Hd; cbn [orb].
  - rewrite Hd. by destruct (LoadX509KeyPair _ _).
  - destruct (LoadX509KeyPair _ _) as [err|c]; [done|]. cbn [fst]. apply add_names_lookup.
Qed.

(** (C36) After a reload a handshake gets the certificate of the last loadable pair
    that lists its server name (in any case, with or without a final dot), else
    that of the last one that lists the wildcard of its parent domain, else what
    the fallback gives; and this depends only on what is on disk now: a name
    whose pairs no longer load is served no certificate of the store, even if
    the previous store had one. *)
Theorem GetCertificate_serves ng ag s hello :
  let name := ToLower (TrimSuffix (ServerName hello) ".") in
  let ps := vhosts Glob ReadFile ng ag in
  GetCertificate ServerName (Reload Glob ReadFile LoadX509KeyPair ng ag s).1.1 hello =
    match configured ps name with
    | Some c => inr c
    | None =>
        match (dot ← IndexByte name "."; configured ps ("*" +:+ str_drop dot name)) with
        | Some c => inr c
        | None =>
            match fallback s with
            | None => inl (NoCertificate (ServerName hello))
            | Some fb => match fb hello with inl e => inl (Fallback e) | inr c => inr c end
            end
        end
    end.
Proof.
  intros name ps. unfold Reload. fold ps.
  pose proof (add_pairs_lookup ps (∅, [])) as Hl.
  destruct (fold_left (add_pair LoadX509KeyPair) ps (∅, [])) as [next errs]. cbn [fst] in Hl |- *.
  assert (Hc : forall n, next !! n = configured ps n).
  { intros n. rewrite Hl. destruct (configured ps n); [done|]. apply lookup_empty. }
  unfold GetCertificate, matchWildcard. cbn [byName fallback]. fold name. rewrite Hc.
  destruct (configured ps name); [done|]. destruct (IndexByte name ".") as [dot|]; [|done].
  cbn [mbind option_bind]. by rewrite Hc.
Qed.

(** A wildcard stands for exactly one label: a name is served by it only if
    what follows its first dot is the wildcard's domain. *)
Theorem wildcard_is_one_label (s : CertStore Certificate ClientHelloInfo) label domain c :
  str_forallb (fun x => negb (x =?c ".")) label = true ->
  matchWildcard s (label +:+ "." +:+ domain) = Some c <-> byName s !! ("*." +:+ domain) = Some c.
Proof.
  intros Hl. unfold matchWildcard.
  change ("." +:+ domain) with (String "." domain). rewrite IndexByte_app by done.
  by rewrite str_drop_app.
Qed.

End StoreFacts.
End LoaderFacts.

(** ** Examples and witnesses *)

Module TlsExamples.

#[local] Existing Instance ascii_only.

(** A file as it is found in [sites-enabled]. *)
Definition shop_conf : string := "# the shop

server {
  listen 443 ssl;
  listen [::]:443 ssl;
	
  server_name Shop.test
              *.shop.test   # both
              _;

  # ssl_certificate /old.pem;
  ssl_certificate_key /k.pem; # 0600

  ssl_certificate   /c.pem ;
  location / { proxy_pass http://127.0.0.1:8080; }
}

server { listen 80; server_name old.test; }
server {
  server_name www.shop.test;
}".

Definition vhost : list chunk := [
  Other "# the shop

server {
  listen 443 ssl;
  listen [::]:443 ssl;
	";
  Directive "  " "server_name" " " "Shop.test
              *.shop.test   # both
              _" "";
  Other "
  # ssl_certificate /old.pem;";
  Directive "  " "ssl_certificate_key" " " "/k.pem" " # 0600";
  Directive "
  " "ssl_certificate" "   " "/c.pem " "";
  Other "  location / { proxy_pass http://127.0.0.1:8080; }
}

server { listen 80; server_name old.test; }
server {";
  Directive "  " "server_name" " " "www.shop.test" "";
  Other "}"].

Lemma parseNginx_reads_vhost_witness :
  parseNginx (Some shop_conf) =
    [{| certFile := "/c.pem"; keyFile := "/k.pem"; domains := ["shop.test"; "*.shop.test"; "#"; "both"; "www.shop.test"] |}].
Proof.
  assert (E : shop_conf = file_text vhost) by (vm_compute; reflexivity). rewrite E.
  rewrite (parseNginx_reads_vhost vhost); [vm_compute; reflexivity|].
  repeat constructor.
Defined.

(** An empty [ServerAlias] swallows the next line. *)
Example apache_alias_ex :
  parseApache (Some ("<VirtualHost *:443>" +:+ nl +:+ "servername a.test" +:+ nl +:+ "ServerAlias " +:+ nl +:+
    "DocumentRoot /srv" +:+ nl +:+ "SSLCertificateFile /c" +:+ nl +:+ "SSLCertificateKeyFile /k" +:+ nl)) =
    [{| certFile := "/c"; keyFile := "/k"; domains := ["a.test"; "documentroot"; "/srv"] |}].
Proof. vm_compute. reflexivity. Qed.

Definition load (c k : string) : string + string := if c =?s "/c.pem" then inr c else inl "bad".
Definition store : CertStore string string :=
  (Reload (fun g => [g]) (fun f => Some (file_text vhost)) load ["/etc/nginx/sites-enabled/shop"] [] NewCertStore).1.1.

Example serve_ex : GetCertificate id store "SHOP.test." = inr "/c.pem". Proof. vm_compute. reflexivity. Qed.
Example serve_wild_ex : GetCertificate id store "www.shop.test" = inr "/c.pem". Proof. vm_compute. reflexivity. Qed.
Example serve_none_ex : GetCertificate id store "a.b.shop.test" = inl (NoCertificate "a.b.shop.test").
Proof. vm_compute. reflexivity. Qed.

Lemma wildcard_is_one_label_witness : matchWildcard store ("www" +:+ "." +:+ "shop.test") = Some "/c.pem".
Proof. apply (wildcard_is_one_label store "www" "shop.test" "/c.pem"); [reflexivity|vm_compute; reflexivity]. Defined.

End TlsExamples.
