(* ===== verification/GoPath.v ===== *)
(** * Slash-separated paths

    The functions of Go's packages [path] and [path/filepath] that smoker uses:
    [Clean], [Base] and [Ext].  [Clean] follows its documentation: multiple
    slashes are one, [.] elements vanish, [..] takes the preceding element with
    it, and a [..] at the root vanishes. *)

From S2P Require Export GoStrings.

(** One element on the stack of the elements kept so far (innermost first). *)
Definition clean_step (rooted : bool) (st : list string) (e : string) : list string :=
  if (e =?s "") || (e =?s ".") then st
  else if e =?s ".." then
    match st with
    | [] => if rooted then [] else [".."]
    | top :: st' => if top =?s ".." then ".." :: st else st'
    end
  else e :: st.

Definition clean_elems (rooted : bool) (es : list string) : list string :=
  rev (fold_left (clean_step rooted) es []).

Definition is_rooted (p : string) : bool :=
  match p with String c _ => c =?c "/" | EmptyString => false end.

Definition Clean (p : string) : string :=
  let es := clean_elems (is_rooted p) (Split p "/") in
  if is_rooted p then "/" +:+ Join es "/"
  else match es with [] => "." | _ => Join es "/" end.

(** [path.Ext]: from the last dot of the last element on. *)
Definition Ext (p : string) : string :=
  let base := match LastIndexByte p "/" with Some i => str_drop (S i) p | None => p end in
  match LastIndexByte base "." with Some i => str_drop i base | None => "" end.

(** [filepath.Base] of a path that does not end in a slash. *)
Definition Base (p : string) : string :=
  match LastIndexByte p "/" with Some i => str_drop (S i) p | None => p end.

(** ** Split and Join *)

Definition slash_free (s : string) : bool := str_forallb (fun c => negb (c =?c "/")) s.

Lemma Split_slash_free s c : Forall (fun w => str_forallb (fun x => negb (x =?c c)) w = true) (Split s c).
Proof.
  induction s as [|x s IH]; [by repeat constructor|]. cbn [Split].
  destruct (x =?c c) eqn:E; [by constructor|].
  destruct (Split s c) as [|w ws]; [repeat constructor; cbn; by rewrite E|].
  inversion_clear IH as [|? ? Hw Hws]. constructor; [|done]. cbn [str_forallb]. by rewrite E, Hw.
Qed.

Lemma Split_app_sep w c s :
  str_forallb (fun x => negb (x =?c c)) w = true -> Split (w +:+ String c s) c = w :: Split s c.
Proof.
  induction w as [|x w IH].
  - intros _. change ("" +:+ String c s) with (String c s). cbn [Split]. by rewrite Ascii.eqb_refl.
  - cbn [str_forallb]. rewrite andb_true_iff, negb_true_iff. intros [Hx Hw].
    rewrite str_app_cons. cbn [Split]. by rewrite Hx, IH.
Qed.

Lemma Split_no_sep w c : str_forallb (fun x => negb (x =?c c)) w = true -> Split w c = [w].
Proof.
  induction w as [|x w IH]; [done|]. cbn [str_forallb]. rewrite andb_true_iff, negb_true_iff.
  intros [Hx Hw]. cbn [Split]. by rewrite Hx, IH.
Qed.

Lemma Split_Join ws c :
  ws <> [] -> Forall (fun w => str_forallb (fun x => negb (x =?c c)) w = true) ws ->
  Split (Join ws (String c "")) c = ws.
Proof.
  intros Hne HF. induction HF as [|w ws Hw _ IH]; [done|]. destruct ws as [|w' ws].
  - by apply Split_no_sep.
  - cbn [Join] in *. rewrite str_app_cons, str_app_nil_l, Split_app_sep by done. by rewrite IH.
Qed.

(** ** Clean *)

(** An element that [Clean] keeps as it is. *)
Definition plain_elem (e : string) : Prop := e <> "" /\ e <> "." /\ e <> ".." /\ slash_free e = true.

(** A stack in the making: plain elements, and for a relative path leading
    [..] elements below them. *)
Definition clean_stack (rooted : bool) (st : list string) : Prop :=
  exists ups es, st = es ++ ups /\ Forall plain_elem es /\ Forall (eq "..") ups /\
    (rooted = true -> ups = []).

Lemma plain_step rooted st e : plain_elem e -> clean_step rooted st e = e :: st.
Proof.
  intros (H1 & H2 & H3 & _). unfold clean_step.
  rewrite !(proj2 (String.eqb_neq _ _)) by done. done.
Qed.

Lemma clean_step_stack rooted st e :
  slash_free e = true -> clean_stack rooted st -> clean_stack rooted (clean_step rooted st e).
Proof.
  intros He (ups & es & -> & Hes & Hups & Hr). unfold clean_step.
  destruct (String.eqb_spec e ""); [by exists ups, es|].
  destruct (String.eqb_spec e "."); [by exists ups, es|]. cbn [orb].
  destruct (String.eqb_spec e "..") as [->|].
  - destruct es as [|e' es]; cbn [app].
    + destruct ups as [|u ups].
      * destruct rooted; [by exists [], []|]. exists [".."], []. naive_solver.
      * inversion_clear Hups as [|? ? <- Hu]. rewrite (String.eqb_refl "..").
        exists (".." :: ".." :: ups), []. split_and!; [done|done|by repeat constructor|].
        intros Hrt. by apply Hr in Hrt.
    + inversion_clear Hes as [|? ? He' Hes'].
      rewrite (proj2 (String.eqb_neq e' "..")) by (by destruct He' as (_ & _ & ? & _)).
      by exists ups, es.
  - exists ups, (e :: es). split_and!; [done| |done|done]. by constructor.
Qed.

Lemma clean_fold_stack rooted es st :
  Forall (fun e => slash_free e = true) es -> clean_stack rooted st ->
  clean_stack rooted (fold_left (clean_step rooted) es st).
Proof.
  intros HF. revert st. induction HF as [|e es He _ IH]; intros st Hst; [done|].
  cbn [fold_left]. by apply IH, clean_step_stack.
Qed.

Lemma fold_plain rooted es st :
  Forall plain_elem es -> fold_left (clean_step rooted) es st = rev es ++ st.
Proof.
  intros HF. revert st. induction HF as [|e es He _ IH]; intros st; [done|].
  cbn [fold_left rev]. by rewrite plain_step, IH, <- app_assoc.
Qed.

(** [Clean] of a rooted path: a slash and plain elements. *)
Lemma Clean_rooted p :
  is_rooted p = true ->
  exists es, Clean p = "/" +:+ Join es "/" /\ Forall plain_elem es /\
    es = clean_elems true (Split p "/").
Proof.
  intros Hr. unfold Clean. rewrite Hr. eexists. split; [done|]. split; [|done].
  unfold clean_elems. destruct (clean_fold_stack true (Split p "/") []) as (ups & es & E & Hes & _ & Hups).
  - apply Split_slash_free.
  - by exists [], [].
  - rewrite E, Hups, app_nil_r by done. by apply Forall_rev.
Qed.

Lemma Split_rooted s : Split (String "/" s) "/" = "" :: Split s "/".
Proof. reflexivity. Qed.

Lemma clean_elems_canonical es :
  Forall plain_elem es -> clean_elems true (Split ("/" +:+ Join es "/") "/") = es.
Proof.
  intros HF. rewrite str_app_cons, str_app_nil_l, Split_rooted. unfold clean_elems. cbn [fold_left].
  change (clean_step true [] "") with (@nil string).
  destruct es as [|e es].
  - reflexivity.
  - rewrite Split_Join; [|done|].
    + by rewrite fold_plain, app_nil_r, rev_involutive.
    + eapply Forall_impl; [exact HF|]. by intros x (_ & _ & _ & ?).
Qed.

Lemma Clean_canonical es : Forall plain_elem es -> Clean ("/" +:+ Join es "/") = "/" +:+ Join es "/".
Proof.
  intros HF. unfold Clean. replace (is_rooted ("/" +:+ Join es "/")) with true by done.
  by rewrite clean_elems_canonical.
Qed.

Example Clean_ex1 : Clean "//a/./b/../wp-config.php/" = "/a/wp-config.php". Proof. reflexivity. Qed.
Example Clean_ex2 : Clean "/../x" = "/x". Proof. reflexivity. Qed.
Example Clean_ex3 : Clean "../a/../../b" = "../../b". Proof. reflexivity. Qed.
Example Clean_ex4 : Clean "a/.." = ".". Proof. reflexivity. Qed.
Example Clean_ex5 : Clean "/" = "/". Proof. reflexivity. Qed.
(** An extension is what a name has after the last dot of its last element. *)
Lemma LastIndexByte_skip s t c :
  str_forallb (fun x => negb (x =?c c)) t = true -> LastIndexByte (s +:+ t) c = LastIndexByte s c.
Proof.
  intros Ht. induction s as [|x s IH].
  - rewrite str_app_nil_l. cbn. induction t as [|x t IH]; [done|]. cbn [str_forallb] in Ht.
    apply andb_true_iff in Ht as [Hx%negb_true_iff Ht]. cbn [LastIndexByte]. by rewrite (IH Ht), Hx.
  - rewrite str_app_cons. cbn [LastIndexByte]. by rewrite IH.
Qed.

Definition extension (ext : string) : Prop :=
  str_forallb (fun c => negb (c =?c "/")) ext = true /\ str_forallb (fun c => negb (c =?c ".")) ext = true.

Lemma Ext_app base ext : extension ext -> Ext (base +:+ "." +:+ ext) = "." +:+ ext.
Proof.
  intros [Hs Hd]. unfold Ext. change ("." +:+ ext) with (String "." ext).
  rewrite LastIndexByte_skip by (cbn; exact Hs).
  assert (Hb : exists b, match LastIndexByte base "/" with Some i => str_drop (S i) (base +:+ String "." ext)
      | None => base +:+ String "." ext end = b +:+ String "." ext).
  { destruct (LastIndexByte base "/") as [i|] eqn:E; [|by exists base].
    destruct (LastIndexByte_Some _ _ _ E) as [Eb _]. exists (str_drop (S i) base).
    rewrite Eb at 1. set (l := str_take i base). set (t := str_drop (S i) base).
    assert (Hl : String.length l = i).
    { pose proof (f_equal String.length Eb) as El. unfold l. rewrite str_take_length.
      rewrite str_length_app, str_take_length in El. cbn [String.length] in El. lia. }
    rewrite str_app_assoc. rewrite <- Hl at 1. replace (S (String.length l)) with (String.length (l +:+ "/"))
      by (rewrite str_length_app; cbn; lia).
    change (String "/" t +:+ String "." ext) with ("/" +:+ (t +:+ String "." ext)).
    rewrite <- str_app_assoc. apply str_drop_app. }
  destruct Hb as [b ->]. rewrite LastIndexByte_app by done. apply str_drop_app.
Qed.

Lemma Ext_spec name : Ext name = "" \/ exists base ext, name = base +:+ "." +:+ ext /\ extension ext /\ Ext name = "." +:+ ext.
Proof.
  unfold Ext. set (last := match LastIndexByte name "/" with Some i => str_drop (S i) name | None => name end).
  destruct (LastIndexByte last ".") as [i|] eqn:E; [|by left]. right.
  destruct (LastIndexByte_Some _ _ _ E) as [El Hd]. set (ext := str_drop (S i) last) in *.
  assert (Ex : str_drop i last = "." +:+ ext).
  { rewrite El at 1. pose proof (f_equal String.length El) as Hl. rewrite str_length_app, str_take_length in Hl.
    cbn [String.length] in Hl. replace i with (String.length (str_take i last)) at 1 by (rewrite str_take_length; lia).
    apply str_drop_app. }
  assert (Hname : exists pre, name = pre +:+ last /\ str_forallb (fun c => negb (c =?c "/")) last = true).
  { unfold last. destruct (LastIndexByte name "/") as [j|] eqn:Ej.
    - destruct (LastIndexByte_Some _ _ _ Ej) as [En Hs]. exists (str_take j name +:+ "/"). split; [|done].
      by rewrite str_app_assoc.
    - exists "". split; [done|]. clear -Ej. induction name as [|x s IH]; [done|]. cbn [LastIndexByte] in Ej.
      destruct (LastIndexByte s "/") eqn:E; [done|]. cbn [str_forallb]. destruct (x =?c "/"); [done|]. by apply IH. }
  destruct Hname as (pre & Hn & Hs). exists (pre +:+ str_take i last), ext.
  split; [by rewrite Hn, str_app_assoc; f_equal|]. split; [|done]. split; [|done].
  rewrite El, str_forallb_app in Hs. apply andb_true_iff in Hs as [_ Hs]. cbn [str_forallb] in Hs. exact Hs.
Qed.

Example Ext_ex : Ext "/a.b/c.tar.gz" = ".gz". Proof. reflexivity. Qed.
Example Ext_ex2 : Ext "/a.b/c" = "". Proof. reflexivity. Qed.

(** ** Searching line by line *)

Lemma Split_cons_ne x s c :
  (x =?c c) = false -> exists w ws, Split s c = w :: ws /\ Split (String x s) c = String x w :: ws.
Proof.
  intros Hx. cbn [Split]. rewrite Hx. destruct (Split s c) as [|w ws] eqn:E; [|by eauto].
  destruct s as [|y s]; [done|]. cbn [Split] in E.
  destruct (y =?c c); [done|]. by destruct (Split s c).
Qed.

Lemma Split_app a b c : Split (a +:+ String c b) c = Split a c ++ Split b c.
Proof.
  induction a as [|x a IH].
  - change ("" +:+ String c b) with (String c b). cbn [Split]. by rewrite Ascii.eqb_refl.
  - rewrite str_app_cons. destruct (x =?c c) eqn:Ex.
    + cbn [Split]. by rewrite Ex, IH.
    + destruct (Split_cons_ne x a c Ex) as (w & ws & E & E').
      rewrite E'. cbn [Split]. by rewrite Ex, IH, E.
Qed.

Lemma prefix_first_word p s c w ws :
  str_forallb (fun x => negb (x =?c c)) p = true -> Split s c = w :: ws ->
  String.prefix p s = String.prefix p w.
Proof.
  revert s w ws. induction p as [|y p IH]; intros s w ws Hp E; [by destruct s, w|].
  cbn [str_forallb] in Hp. apply andb_true_iff in Hp as [Hy Hp]. apply negb_true_iff in Hy.
  destruct s as [|x s]; [by injection E as <- <-|]. destruct (x =?c c) eqn:Ex.
  - cbn [Split] in E. rewrite Ex in E. injection E as <- <-. apply Ascii.eqb_eq in Ex as ->.
    cbn. destruct (ascii_dec y c) as [->|]; [by rewrite Ascii.eqb_refl in Hy|]. by destruct p.
  - destruct (Split_cons_ne x s c Ex) as (w' & ws' & E' & E''). rewrite E'' in E.
    injection E as <- <-. cbn. destruct (ascii_dec y x); [by eapply IH|done].
Qed.

(** A string without the separator occurs in one of the pieces or nowhere. *)
Lemma Contains_Split s w c :
  str_forallb (fun x => negb (x =?c c)) w = true ->
  Contains s w = existsb (fun l => Contains l w) (Split s c).
Proof.
  intros Hw. induction s as [|x s IH]; [cbn; by rewrite !orb_false_r|].
  destruct (x =?c c) eqn:Ex.
  - cbn [Split]. rewrite Ex. cbn [existsb Contains]. rewrite IH, orb_false_r. f_equal.
    apply (prefix_first_word w (String x s) c "" (Split s c)); [done|]. cbn [Split]. by rewrite Ex.
  - destruct (Split_cons_ne x s c Ex) as (l & ls & E & E').
    rewrite E'. cbn [Contains existsb]. rewrite IH, E. cbn [existsb].
    rewrite <- orb_assoc. f_equal. by apply (prefix_first_word w (String x s) c _ ls).
Qed.

Lemma str_forallb_Split p s c :
  p c = true -> str_forallb p s = forallb (str_forallb p) (Split s c).
Proof.
  intros Hc. induction s as [|x s IH]; [done|]. destruct (x =?c c) eqn:Ex.
  - cbn [Split]. rewrite Ex. cbn [forallb str_forallb]. rewrite IH.
    apply Ascii.eqb_eq in Ex as ->. by rewrite Hc.
  - destruct (Split_cons_ne x s c Ex) as (l & ls & E & E'). rewrite E'.
    cbn [forallb str_forallb]. rewrite IH, E. cbn [forallb]. by rewrite andb_assoc.
Qed.

Lemma Split_str_map f s c :
  (forall x, (f x =?c c) = (x =?c c)) -> Split (str_map f s) c = str_map f <$> Split s c.
Proof.
  intros Hf. induction s as [|x s IH]; [done|]. cbn [str_map]. destruct (x =?c c) eqn:Ex.
  - cbn [Split]. rewrite Hf, Ex. cbn. by rewrite IH.
  - destruct (Split_cons_ne x s c Ex) as (l & ls & E & E'). rewrite E'.
    cbn [Split]. rewrite Hf, Ex, IH, E. done.
Qed.
