(* ===== verification/Signature.v ===== *)
(** * Compiled signatures ([internal/detect/signature.go])

    From a template to the matchers the engine runs: the path templates with
    their [{{...}}] placeholders, the request lines of raw requests, the word
    and regex matchers, and [NormalizePath]. *)

From S2P Require Export Template GoRegexp GoPath.

(** [RequestView] *)
Record RequestView := {
  v_Method : string;
  v_Path : string;
  v_PathNorm : string;
  v_RawQuery : string;
  v_FullURI : string;
  v_FullURINorm : string;
  v_Headers : gmap string string;
  v_Body : string;
}.

Definition NormalizePath (p : string) : string :=
  if p =?s "" then "/"
  else
    let c := Clean p in
    if c =?s "." then "/" else c.

Section Compile.
Context `{Unicode} `{Regexp}.

(** [pathMatcher]; a nil [re] is [None]. *)
Record pathMatcher := {
  exact : string;
  prefix : string;
  re : option re_t;
  matchQuery : bool;
}.

(** [compiledMatcher] *)
Record compiledMatcher := {
  part : string;
  words : list string;
  res : list re_t;
  condAnd : bool;
  negative : bool;
  caseFold : bool;
}.

(** [compiledBlock]; [methods] holds the keys of the map, all of them true. *)
Record compiledBlock := {
  methods : gset string;
  paths : list pathMatcher;
  matchers : list compiledMatcher;
  matchersAnd : bool;
}.

(** [CompiledSignature] *)
Record CompiledSignature := {
  cs_TemplateID : string;
  cs_Severity : Severity;
  cs_CVE : list string;
  cs_Tags : list string;
  cs_Action : Action;
  cs_RespCode : Z;
  cs_Session : option SessionMatchers;
  cs_Source : string;
  blocks : list compiledBlock;
}.

(** ** Paths *)

Definition stripBaseURL_vars : list string := ["{{BaseURL}}"; "{{RootURL}}"; "{{Hostname}}"].

Fixpoint strip_first (vs : list string) (p : string) : option string :=
  match vs with
  | [] => None
  | v :: vs => if HasPrefix p v then Some (str_drop (String.length v) p) else strip_first vs p
  end.

Definition stripBaseURL (p : string) : string :=
  match strip_first stripBaseURL_vars p with
  | Some rel => rel
  | None =>
      match Index p "://" with
      | Some i =>
          let rest := str_drop (i + 3) p in
          match IndexByte rest "/" with
          | Some slash => str_drop slash rest
          | None => "/"
          end
      | None => p
      end
  end.

Definition hasRegexMeta (s : string) : bool :=
  str_existsb (fun c => str_existsb (fun x => x =?c c) "[](){}.*+?^$|\") s.

(** [string(rel[i])]: the UTF-8 encoding of the code point [rel[i]]. *)
Definition string_of_byte (c : byte) : string :=
  if is_ascii c then String c ""
  else String (ascii_of_N (192 + byte_N c / 64)) (String (ascii_of_N (128 + byte_N c mod 64)) "").

(** The loop of [compilePath] from [rel[i:]] on; [skip] counts the bytes of a
    placeholder still to be passed over ([i += end + 2]). *)
Fixpoint path_pattern (s : string) (skip : nat) : string :=
  match s with
  | EmptyString => ""
  | String c s' =>
      match skip with
      | S k => path_pattern s' k
      | O =>
          if HasPrefix s "{{" then
            match Index s "}}" with
            | None => QuoteMeta s
            | Some end_ => ".*" +:+ path_pattern s' (end_ + 1)
            end
          else QuoteMeta (string_of_byte c) +:+ path_pattern s' 0
      end
  end.

(** [None] is the error of [regexp.Compile]. *)
Definition compilePath (p : string) : option pathMatcher :=
  let rel := stripBaseURL p in
  let matchQuery := bool_decide (IndexByte rel "?" <> None) in
  if negb (Contains rel "{{") && negb (hasRegexMeta rel)
  then Some {| exact := rel; prefix := ""; re := None; matchQuery := matchQuery |}
  else
    re ← re_Compile ("^" +:+ path_pattern rel 0 +:+ "$");
    Some {| exact := ""; prefix := ""; re := Some re; matchQuery := matchQuery |}.

(** ** Matchers and raw requests *)

Definition defaultPart (p : string) : string := if p =?s "" then "request" else ToLower p.

Definition compileMatcher (m : Matcher) : option compiledMatcher :=
  let words := (fun w => if m_CaseInsensitive m then ToLower w else w) <$> m_Words m in
  res ← mapM re_Compile (m_Regex m);
  Some {| part := defaultPart (m_Part m); words := words; res := res;
          condAnd := EqualFold (m_Condition m) "and";
          negative := m_Negative m; caseFold := m_CaseInsensitive m |}.

Definition is_cr_lf (c : byte) : bool := ((byte_N c =? 13) || (byte_N c =? 10))%N.
Definition is_raw_space (c : byte) : bool :=
  is_cr_lf c || ((byte_N c =? 32) || (byte_N c =? 9))%N.

(** [None] is [ok = false]. *)
Definition parseRawRequestLine (raw : string) : option (string * string) :=
  let raw := trim_left is_raw_space raw in
  let raw := match IndexAny raw is_cr_lf with Some nl => str_take nl raw | None => raw end in
  match Fields raw with
  | m :: p :: _ => Some (m, p)
  | _ => None
  end.

(** ** Compile *)

(** One turn of the loop over [h.Raw]; a path that does not compile is left
    out, its method is not. *)
Definition add_raw (cb : gset string * list pathMatcher) (raw : string) :
    gset string * list pathMatcher :=
  match parseRawRequestLine raw with
  | None => cb
  | Some (m, p) =>
      let methods := if negb (m =?s "") then cb.1 ∪ {[ ToUpper m ]} else cb.1 in
      (methods, match compilePath p with Some pm => cb.2 ++ [pm] | None => cb.2 end)
  end.

Definition compileBlock (h : HTTP) : option compiledBlock :=
  let methods : gset string := if negb (http_Method h =?s "") then {[ ToUpper (http_Method h) ]} else ∅ in
  paths ← mapM compilePath (http_Path h);
  let '(methods, paths) := fold_left add_raw (http_Raw h) (methods, paths) in
  matchers ← mapM compileMatcher (http_Matchers h);
  Some {| methods := methods; paths := paths; matchers := matchers;
          matchersAnd := EqualFold (http_MatchersCondition h) "and" |}.

Definition Compile (t : Template) : option CompiledSignature :=
  blocks ← mapM compileBlock (t_HTTP t);
  Some {| cs_TemplateID := t_ID t; cs_Severity := info_Severity (t_Info t);
          cs_CVE := info_CVEID (t_Info t); cs_Tags := info_Tags (t_Info t);
          cs_Action := EffectiveAction t; cs_RespCode := ResponseCode t;
          cs_Session := t_SessionMatchers t; cs_Source := t_SourcePath t;
          blocks := blocks |}.

End Compile.

(** ** Lemmas: path templates *)

(** A path template: a literal, then placeholders each followed by a literal. *)
Fixpoint render (l0 : string) (vs : list (string * string)) : string :=
  match vs with
  | [] => l0
  | (v, l) :: vs => l0 +:+ "{{" +:+ v +:+ "}}" +:+ render l vs
  end.

(** The paths it stands for: each placeholder replaced by some text. *)
Fixpoint instantiate (l0 : string) (vs : list (string * string)) (ws : list string) : string :=
  match vs, ws with
  | (_, l) :: vs, w :: ws => l0 +:+ w +:+ instantiate l vs ws
  | _, _ => l0
  end.

Fixpoint template_items (l0 : string) (vs : list (string * string)) : list re_item :=
  match vs with
  | [] => lits l0
  | (_, l) :: vs => lits l0 ++ AnyStar :: template_items l vs
  end.

Definition open_free (s : string) : bool := str_forallb (fun c => negb (c =?c "{")) s.
Definition close_free (s : string) : bool := str_forallb (fun c => negb (c =?c "}")) s.

(** Literals are ASCII without [{], variable names are without [}]. *)
Definition template_ok (l0 : string) (vs : list (string * string)) : Prop :=
  isASCII l0 = true /\ open_free l0 = true /\
  Forall (fun vl => close_free vl.1 = true /\ isASCII vl.2 = true /\ open_free vl.2 = true) vs.

Lemma string_of_byte_ascii c : is_ascii c = true -> string_of_byte c = String c "".
Proof. unfold string_of_byte. by intros ->. Qed.

Lemma HasPrefix_open_free c s : (c =?c "{") = false -> HasPrefix (String c s) "{{" = false.
Proof.
  intros Hc. apply Ascii.eqb_neq in Hc. destruct (HasPrefix (String c s) "{{") eqn:E; [|done].
  apply HasPrefix_spec in E as [t E]. rewrite str_app_cons in E. by injection E as -> _.
Qed.

Lemma path_pattern_lits l s :
  isASCII l = true -> open_free l = true ->
  path_pattern (l +:+ s) 0 = QuoteMeta l +:+ path_pattern s 0.
Proof.
  unfold isASCII, open_free. induction l as [|c l IH]; [done|]. cbn [str_forallb].
  rewrite !andb_true_iff, negb_true_iff. intros [Ha Has] [Hc Hcs].
  rewrite str_app_cons. cbn [path_pattern].
  rewrite HasPrefix_open_free, string_of_byte_ascii, IH by done.
  change (String c l) with (String c "" +:+ l). by rewrite QuoteMeta_app, str_app_assoc.
Qed.

Lemma path_pattern_skip l s : path_pattern (l +:+ s) (String.length l) = path_pattern s 0.
Proof. induction l as [|c l IH]; [done|]. rewrite str_app_cons. cbn [path_pattern String.length]. done. Qed.

Lemma Index_close v s :
  close_free v = true -> Index (v +:+ "}}" +:+ s) "}}" = Some (String.length v).
Proof.
  unfold close_free. induction v as [|c v IH].
  - intros _. assert (Hp : String.prefix "}}" ("}}" +:+ s) = true) by (apply prefix_spec; by exists s).
    change ("" +:+ ("}}" +:+ s)) with ("}}" +:+ s). destruct s; cbn; reflexivity.
  - cbn [str_forallb]. rewrite andb_true_iff, negb_true_iff. intros [Hc Hv].
    rewrite str_app_cons. cbn [Index]. destruct (String.prefix "}}" _) eqn:E.
    + apply prefix_spec in E as [t E]. rewrite str_app_cons in E. injection E as -> _. done.
    + by rewrite IH.
Qed.

Lemma path_pattern_var v s :
  close_free v = true -> path_pattern ("{{" +:+ v +:+ "}}" +:+ s) 0 = ".*" +:+ path_pattern s 0.
Proof.
  intros Hv. set (r := v +:+ "}}" +:+ s).
  assert (Hi : Index (String "{" (String "{" r)) "}}" = Some (S (S (String.length v)))).
  { unfold r. cbn [Index]. rewrite (Index_close v s Hv). reflexivity. }
  change ("{{" +:+ r) with (String "{" (String "{" r)). cbn [path_pattern]. rewrite Hi.
  replace (HasPrefix (String "{" (String "{" r)) "{{") with true by (destruct r; reflexivity).
  f_equal. replace (S (S (String.length v)) + 1)%nat with (S (String.length (v +:+ "}}"))).
  - cbn [path_pattern]. unfold r. rewrite <- str_app_assoc. apply path_pattern_skip.
  - rewrite str_length_app. cbn. lia.
Qed.

Lemma path_pattern_render l0 vs :
  template_ok l0 vs -> path_pattern (render l0 vs) 0 = items_pattern (template_items l0 vs).
Proof.
  intros (Ha & Ho & HF). revert l0 Ha Ho. induction HF as [|[v l] vs (Hv & Hla & Hlo) _ IH]; intros l0 Ha Ho.
  - cbn [render template_items]. rewrite items_pattern_lits, <- (str_app_nil_r l0) at 1.
    rewrite path_pattern_lits by done. apply str_app_nil_r.
  - cbn [render template_items fst snd] in *. rewrite path_pattern_lits, path_pattern_var, IH by done.
    rewrite items_pattern_app, items_pattern_lits. done.
Qed.

Lemma template_items_ascii l0 vs :
  template_ok l0 vs -> forallb item_ascii (template_items l0 vs) = true.
Proof.
  intros (Ha & _ & HF). revert l0 Ha. induction HF as [|[v l] vs (_ & Hla & _) _ IH]; intros l0 Ha.
  - cbn [template_items]. by rewrite lits_ascii.
  - cbn [template_items]. rewrite forallb_app, lits_ascii, Ha. cbn. by apply IH.
Qed.

Lemma items_match_template l0 vs s :
  items_match (template_items l0 vs) s = true <->
  exists ws, length ws = length vs /\ Forall (fun w => no_newline w = true) ws /\
    s = instantiate l0 vs ws.
Proof.
  revert l0 s. induction vs as [|[v l] vs IH]; intros l0 s; cbn [template_items].
  - rewrite <- (app_nil_r (lits l0)), items_match_lits. cbn [items_match]. split.
    + intros (t & -> & ->%String.eqb_eq). exists []. split_and!; [done|done|]. apply str_app_nil_r.
    + intros ([|] & Hl & _ & ->); [|done]. exists "". split; [|done]. symmetry. apply str_app_nil_r.
  - rewrite items_match_lits. split.
    + intros (t & -> & Ht). cbn [items_match] in Ht.
      apply after_star_spec in Ht as (w & t' & -> & Hw & Ht). apply IH in Ht as (ws & Hl & Hws & ->).
      exists (w :: ws). cbn. split_and!; [by rewrite Hl|by constructor|done].
    + intros ([|w ws] & Hl & HF & ->); [done|]. inversion_clear HF as [|? ? Hw Hws].
      eexists. split; [reflexivity|]. cbn [items_match]. apply after_star_spec. eexists w, _.
      split; [done|]. split; [done|]. apply IH. exists ws. injection Hl as Hl. done.
Qed.

Lemma Contains_open_free l : open_free l = true -> Contains l "{{" = false.
Proof.
  intros Hl. destruct (Contains l "{{") eqn:E; [|done]. apply Contains_spec in E as (a & b & ->).
  unfold open_free in Hl. rewrite !str_forallb_app in Hl. by rewrite andb_false_r in Hl.
Qed.

Lemma Contains_render l0 v l vs : Contains (render l0 ((v, l) :: vs)) "{{" = true.
Proof. apply Contains_spec. eexists l0, _. reflexivity. Qed.

(** ** Lemmas: NormalizePath *)

Lemma NormalizePath_rooted p :
  is_rooted p = true ->
  exists es, NormalizePath p = "/" +:+ Join es "/" /\ Forall plain_elem es /\
    es = clean_elems true (Split p "/").
Proof.
  intros Hr. destruct (Clean_rooted p Hr) as (es & Hc & HF & He). exists es.
  split; [|done]. unfold NormalizePath. destruct p as [|c p]; [done|]. rewrite Hc.
  replace (String c p =?s "") with false by done.
  destruct (String.eqb_spec ("/" +:+ Join es "/") "."); [done|]. done.
Qed.

Lemma NormalizePath_canonical es :
  Forall plain_elem es -> NormalizePath ("/" +:+ Join es "/") = "/" +:+ Join es "/".
Proof.
  intros HF. unfold NormalizePath. rewrite Clean_canonical by done.
  replace ("/" +:+ Join es "/" =?s "") with false by done.
  by replace ("/" +:+ Join es "/" =?s ".") with false by done.
Qed.
