(* ===== verification/Engine.v ===== *)
(** * The detection engine ([internal/detect/engine.go])

    Matching a request against the compiled signatures, and the choice of the
    decision.  The session tracker is behind the interface [SessionEvaluator],
    as in the code; the iteration order of a Go map, which is unspecified, is
    the parameter [map_iter]. *)

From S2P Require Export Signature.

(** [Incident] *)
Record Incident := {
  in_TemplateID : string;
  in_Severity : Severity;
  in_CVE : list string;
  in_Tags : list string;
  in_Action : Action;
  in_RespCode : Z;
  in_Source : string;
  in_Reason : string;
}.

(** [Decision] *)
Record Decision := {
  d_Matched : bool;
  d_Action : Action;
  d_RespCode : Z;
  d_Incident : option Incident;
}.

(** [SessionEvaluator]: an implementation has a state of type [S], may change
    it, and may panic. *)
Class SessionEvaluator (S : Type) :=
  se_Evaluate : S -> SessionMatchers -> string -> RequestView -> go bool * S.

(** What a client may rely on: an evaluation that is safe gives a value, and
    evaluating one rule does not change what the others say about the request. *)
Class SessionEvaluatorSpec (S : Type) `{SessionEvaluator S} := {
  se_safe : S -> SessionMatchers -> Prop;
  se_holds : S -> SessionMatchers -> string -> RequestView -> bool;
  se_value s sm key view :
    se_safe s sm -> (se_Evaluate s sm key view).1 = Ret (se_holds s sm key view);
  se_holds_stable s sm key view sm' :
    se_holds (se_Evaluate s sm key view).2 sm' key view = se_holds s sm' key view;
  se_safe_stable s sm key view sm' : se_safe s sm' -> se_safe (se_Evaluate s sm key view).2 sm';
}.

Section Engine.
Context `{Unicode} `{Regexp} `{MapIter}.

(** ** Matching one request *)

Definition header_line (kv : string * string) : string := kv.1 +:+ ": " +:+ kv.2 +:+ String newline "".

Definition headersString (h : gmap string string) : string :=
  foldr (fun kv s => header_line kv +:+ s) "" (map_iter h).

Definition partValue (part : string) (view : RequestView) : string :=
  if part =?s "path" then v_FullURI view
  else if part =?s "body" then v_Body view
  else if part =?s "header" then headersString (v_Headers view)
  else if (part =?s "all") || (part =?s "request") || (part =?s "") then
    v_Method view +:+ " " +:+ v_FullURI view +:+ String newline "" +:+
    headersString (v_Headers view) +:+ String newline "" +:+ v_Body view
  else default "" (v_Headers view !! part).

(** The loops of [evalMatcher]: all hits with [and], some hit without, and
    no demand at all from an empty list. *)
Fixpoint all_hit {A} (hit : A -> bool) (l : list A) : bool :=
  match l with [] => true | x :: l => if hit x then all_hit hit l else false end.
Fixpoint any_hit {A} (hit : A -> bool) (l : list A) : bool :=
  match l with [] => false | x :: l => if hit x then true else any_hit hit l end.

Definition eval_list {A} (condAnd : bool) (hit : A -> bool) (l : list A) : bool :=
  match l with
  | [] => true
  | _ => if condAnd then all_hit hit l else any_hit hit l
  end.

Definition evalMatcher (m : compiledMatcher) (hay : string) : bool :=
  let wordsOK := eval_list (condAnd m) (fun w => Contains hay w) (words m) in
  let reOK := eval_list (condAnd m) (fun re => re_MatchString re hay) (res m) in
  wordsOK && reOK.

Definition matchMatcher (m : compiledMatcher) (view : RequestView) : bool :=
  let hay := partValue (part m) view in
  let hay := if caseFold m then ToLower hay else hay in
  let r := evalMatcher m hay in
  if negative m then negb r else r.

Definition matchTarget (p : pathMatcher) (target : string) : bool :=
  if negb (exact p =?s "") then target =?s exact p
  else if negb (prefix p =?s "") then HasPrefix target (prefix p)
  else match re p with Some re => re_MatchString re target | None => false end.

Definition matchPath (p : pathMatcher) (view : RequestView) : bool :=
  if matchQuery p then
    matchTarget p (v_FullURI view) ||
    (negb (v_FullURINorm view =?s "") && negb (v_FullURINorm view =?s v_FullURI view) &&
     matchTarget p (v_FullURINorm view))
  else
    matchTarget p (v_Path view) ||
    (negb (v_PathNorm view =?s "") && negb (v_PathNorm view =?s v_Path view) &&
     matchTarget p (v_PathNorm view)).

Definition matchBlock (b : compiledBlock) (view : RequestView) : bool :=
  if negb (bool_decide (methods b = ∅)) && negb (bool_decide (ToUpper (v_Method view) ∈ methods b))
  then false
  else if negb (bool_decide (paths b = [])) && negb (any_hit (fun p => matchPath p view) (paths b))
  then false
  else match matchers b with
       | [] => true
       | ms => if matchersAnd b then all_hit (fun m => matchMatcher m view) ms
               else any_hit (fun m => matchMatcher m view) ms
       end.

Definition httpMatch (sig : CompiledSignature) (view : RequestView) : bool :=
  any_hit (fun b => matchBlock b view) (blocks sig).

(** ** Inspect *)

Definition maxActionRank : Z := 5.

Definition actionRank (a : Action) : Z :=
  if a =?s ActionBan then maxActionRank
  else if a =?s ActionBlock then 4
  else if a =?s ActionChallenge then 3
  else if a =?s ActionRateLimit then 2
  else if a =?s ActionLogOnly then 1
  else 1.

Definition reasonFor (sig : CompiledSignature) : string :=
  match cs_CVE sig with
  | [] => "matched " +:+ cs_TemplateID sig
  | _ => "matched " +:+ cs_TemplateID sig +:+ " (" +:+ Join (cs_CVE sig) "," +:+ ")"
  end.

Definition incident_of (best : CompiledSignature) : Incident := {|
  in_TemplateID := cs_TemplateID best; in_Severity := cs_Severity best; in_CVE := cs_CVE best;
  in_Tags := cs_Tags best; in_Action := cs_Action best; in_RespCode := cs_RespCode best;
  in_Source := cs_Source best; in_Reason := reasonFor best |}.

Definition decision_of (best : option CompiledSignature) : Decision :=
  match best with
  | None => {| d_Matched := false; d_Action := ""; d_RespCode := 0; d_Incident := None |}
  | Some best => {| d_Matched := true; d_Action := cs_Action best; d_RespCode := cs_RespCode best;
                    d_Incident := Some (incident_of best) |}
  end.

Section Inspect.
Context {S : Type} `{SessionEvaluator S}.

(** [engine]; a nil [session] is [None].  [sigs] is the current content of the
    atomic pointer: [Inspect] loads it once. *)
Record engine := {
  sigs : list CompiledSignature;
  session : option S;
}.

Definition NewEngine (session : option S) : engine := {| sigs := []; session := session |}.

Definition Reload (e : engine) (sigs : list CompiledSignature) : engine :=
  {| sigs := sigs; session := session e |}.

Definition Count (e : engine) : Z := Z.of_nat (length (sigs e)).

(** The loop of [Inspect]: the state of the tracker, the best signature so far
    and its rank. *)
Fixpoint inspect_loop (l : list CompiledSignature) (view : RequestView) (sessionKey : string)
    (s : option S) (best : option CompiledSignature) (bestRank : Z) :
    go (option CompiledSignature) * option S :=
  match l with
  | [] => (Ret best, s)
  | sig :: l =>
      let improve (s : option S) :=
        let r := actionRank (cs_Action sig) in
        if bestRank <? r then
          if r =? maxActionRank then (Ret (Some sig), s)
          else inspect_loop l view sessionKey s (Some sig) r
        else inspect_loop l view sessionKey s best bestRank in
      if negb (httpMatch sig view) then inspect_loop l view sessionKey s best bestRank
      else match cs_Session sig with
           | None => improve s
           | Some sm =>
               match s with
               | None => inspect_loop l view sessionKey s best bestRank
               | Some st =>
                   match se_Evaluate st sm sessionKey view with
                   | (Panic p, st) => (Panic p, Some st)
                   | (Ret false, st) => inspect_loop l view sessionKey (Some st) best bestRank
                   | (Ret true, st) => improve (Some st)
                   end
               end
           end
  end.

Definition Inspect (e : engine) (view : RequestView) (sessionKey : string) : go Decision * engine :=
  let '(best, s) := inspect_loop (sigs e) view sessionKey (session e) None 0 in
  (decision_of <$> best, {| sigs := sigs e; session := s |}).

End Inspect.
End Engine.

(** ** Lemmas *)

Lemma all_hit_forallb {A} (hit : A -> bool) l : all_hit hit l = forallb hit l.
Proof. induction l as [|x l IH]; [done|]. cbn. rewrite IH. by destruct (hit x). Qed.

Lemma any_hit_existsb {A} (hit : A -> bool) l : any_hit hit l = existsb hit l.
Proof. induction l as [|x l IH]; [done|]. cbn. rewrite IH. by destruct (hit x). Qed.

Lemma any_hit_true {A} (hit : A -> bool) l :
  any_hit hit l = true <-> exists x, x ∈ l /\ hit x = true.
Proof.
  rewrite any_hit_existsb, existsb_exists.
  split; intros (x & Hx & Hh); exists x; split; try done; by apply list_elem_of_In.
Qed.

Lemma all_hit_true {A} (hit : A -> bool) l :
  all_hit hit l = true <-> forall x, x ∈ l -> hit x = true.
Proof.
  rewrite all_hit_forallb, forallb_forall.
  split; intros HF x Hx; apply HF; by apply list_elem_of_In.
Qed.

Lemma actionRank_range a : 1 <= actionRank a <= maxActionRank.
Proof. unfold actionRank, maxActionRank. repeat case_match; lia. Qed.

Section Choice.
Context `{Unicode} `{Regexp} `{MapIter} {S : Type} `{SessionEvaluatorSpec S}.

(** A signature fires on a request: a block matches, and the behavioural
    condition, if there is one, holds. *)
Definition fires (s : option S) (view : RequestView) (key : string) (sig : CompiledSignature) : bool :=
  httpMatch sig view &&
  match cs_Session sig with
  | None => true
  | Some sm => match s with Some st => se_holds st sm key view | None => false end
  end.

Definition safe_sig (s : option S) (sig : CompiledSignature) : Prop :=
  forall sm st, cs_Session sig = Some sm -> s = Some st -> se_safe st sm.

Definition rank (sig : CompiledSignature) : Z := actionRank (cs_Action sig).

(** [b'] is [best] unless a signature of [l] beats [r], in which case it is
    the first of the strongest ones. *)
Definition improves (f : CompiledSignature -> bool) (l : list CompiledSignature)
    (best : option CompiledSignature) (r : Z) (b' : option CompiledSignature) : Prop :=
  (b' = best /\ forall x, x ∈ l -> f x = true -> rank x <= r) \/
  (exists l1 x l2, l = l1 ++ x :: l2 /\ b' = Some x /\ f x = true /\ r < rank x /\
     (forall y, y ∈ l1 -> f y = true -> rank y < rank x) /\
     (forall y, y ∈ l2 -> f y = true -> rank y <= rank x)).

Lemma improves_skip f sig l best r b' :
  improves f l best r b' -> (f sig = true -> rank sig <= r) -> improves f (sig :: l) best r b'.
Proof.
  intros [[-> Hl]|(l1 & x & l2 & -> & -> & Hx & Hr & H1' & H2')] Hs.
  - left. split; [done|]. intros x [->|Hx]%elem_of_cons; [done|by apply Hl].
  - right. exists (sig :: l1), x, l2. split_and!; try done.
    intros y [->|Hy]%elem_of_cons Hf; [|by apply H1']. apply Hs in Hf. lia.
Qed.

Lemma improves_take f sig l best r b' :
  f sig = true -> r < rank sig -> improves f l (Some sig) (rank sig) b' ->
  improves f (sig :: l) best r b'.
Proof.
  intros Hf Hr [[-> Hl]|(l1 & x & l2 & -> & -> & Hx & Hr' & H1' & H2')]; right.
  - exists [], sig, l. split_and!; try done. by intros y ?%elem_of_nil.
  - exists (sig :: l1), x, l2. split_and!; try done; [lia|].
    intros y [->|Hy]%elem_of_cons Hy'; [done|by apply H1'].
Qed.

Lemma improves_ext f g l best r b' :
  (forall x, x ∈ l -> f x = g x) -> improves f l best r b' -> improves g l best r b'.
Proof.
  intros Hfg [[-> Hl]|(l1 & x & l2 & -> & -> & Hx & Hr & H1' & H2')].
  - left. split; [done|]. intros x Hx. rewrite <- Hfg by done. by apply Hl.
  - right. exists l1, x, l2. split_and!; try done.
    + rewrite <- Hfg; [done|]. set_solver.
    + intros y Hy. rewrite <- Hfg by set_solver. by apply H1'.
    + intros y Hy. rewrite <- Hfg by set_solver. by apply H2'.
Qed.

Lemma inspect_loop_spec l view key s best r :
  r <= maxActionRank -> Forall (safe_sig s) l ->
  exists b' s', inspect_loop l view key s best r = (Ret b', s') /\
    improves (fires s view key) l best r b'.
Proof.
  intros Hr HF. revert s best r Hr HF. induction l as [|sig l IH]; intros s best r Hr HF.
  { exists best, s. split; [done|]. left. split; [done|]. by intros x ?%elem_of_nil. }
  inversion_clear HF as [|? ? Hsig HF']. cbn [inspect_loop].
  assert (Hskip : fires s view key sig = false ->
    exists b' s', inspect_loop l view key s best r = (Ret b', s') /\
      improves (fires s view key) (sig :: l) best r b').
  { intros Hf. destruct (IH s best r Hr HF') as (b' & s' & E & Hi). exists b', s'.
    split; [done|]. apply improves_skip; [done|]. by rewrite Hf. }
  assert (Himp : forall s1, Forall (safe_sig s1) l ->
    (forall x, fires s1 view key x = fires s view key x) -> fires s view key sig = true ->
    exists b' s', (if r <? actionRank (cs_Action sig) then
        if actionRank (cs_Action sig) =? maxActionRank then (Ret (Some sig), s1)
        else inspect_loop l view key s1 (Some sig) (actionRank (cs_Action sig))
      else inspect_loop l view key s1 best r) = (Ret b', s') /\
      improves (fires s view key) (sig :: l) best r b').
  { intros s1 HF1 Hext Hf. pose proof (actionRank_range (cs_Action sig)) as Hrk.
    destruct (Z.ltb_spec r (actionRank (cs_Action sig))) as [Hlt|Hge].
    - destruct (Z.eqb_spec (actionRank (cs_Action sig)) maxActionRank) as [Hmax|_].
      + exists (Some sig), s1. split; [done|]. apply improves_take; [done|done|].
        left. split; [done|]. intros x _ _. unfold rank. rewrite Hmax.
        apply actionRank_range.
      + destruct (IH s1 (Some sig) _ (proj2 Hrk) HF1) as (b' & s' & E & Hi).
        exists b', s'. split; [done|]. apply improves_take; [done|done|].
        eapply improves_ext; [|exact Hi]. intros x _. apply Hext.
    - destruct (IH s1 best r Hr HF1) as (b' & s' & E & Hi). exists b', s'. split; [done|].
      apply improves_skip; [|done]. eapply improves_ext; [|exact Hi]. intros x _. apply Hext. }
  assert (Hf0 : fires s view key sig = httpMatch sig view && match cs_Session sig with
    | None => true
    | Some sm => match s with Some st => se_holds st sm key view | None => false end end) by done.
  destruct (httpMatch sig view); cbn [negb]; [|by apply Hskip].
  destruct (cs_Session sig) as [sm|] eqn:Esm; [|by apply Himp].
  destruct s as [st|]; [|by apply Hskip].
  pose proof (se_value st sm key view (Hsig sm st Esm eq_refl)) as Hv.
  pose proof (se_holds_stable st sm key view) as Hst.
  pose proof (se_safe_stable st sm key view) as Hss.
  destruct (se_Evaluate st sm key view) as [v st'] eqn:Ev. cbn in Hv, Hst, Hss. subst v.
  assert (HF1 : Forall (safe_sig (Some st')) l).
  { eapply Forall_impl; [exact HF'|]. intros x Hx sm' ? Hsm' [= <-]. by apply Hss, Hx. }
  assert (Hext : forall x, fires (Some st') view key x = fires (Some st) view key x).
  { intros x. unfold fires. destruct (cs_Session x); [|done]. by rewrite Hst. }
  cbn in Hf0. destruct (se_holds st sm key view).
  - by apply Himp.
  - destruct (IH (Some st') best r Hr HF1) as (b' & s' & E & Hi). exists b', s'. split; [done|].
    apply improves_skip; [|by rewrite Hf0]. eapply improves_ext; [|exact Hi]. intros x _. apply Hext.
Qed.

(** (C6) The engine enforces the strongest rule: [Inspect] matches exactly when
    some active signature fires, and then it decides by the first signature
    among those of the highest rank that fire -- a weak rule never shadows a
    stronger one, wherever it stands, and the early stop at a ban changes
    nothing.  The active signatures are unchanged. *)
Theorem Inspect_enforces_strongest (e : engine) view key :
  Forall (safe_sig (session e)) (sigs e) ->
  let f := fires (session e) view key in
  exists best e', Inspect e view key = (Ret (decision_of best), e') /\ sigs e' = sigs e /\
    match best with
    | None => forall x, x ∈ sigs e -> f x = false
    | Some b => exists l1 l2, sigs e = l1 ++ b :: l2 /\ f b = true /\
        (forall x, x ∈ l1 -> f x = true -> rank x < rank b) /\
        (forall x, x ∈ l2 -> f x = true -> rank x <= rank b)
    end.
Proof.
  intros HF f. unfold Inspect.
  destruct (inspect_loop_spec (sigs e) view key (session e) None 0) as (b' & s' & E & Hi);
    [done|done|].
  rewrite E. eexists b', _. split; [done|]. split; [done|].
  destruct Hi as [[-> Hl]|(l1 & x & l2 & El & -> & Hx & _ & H1' & H2')].
  - intros x Hx. destruct (f x) eqn:Ef; [|done]. specialize (Hl x Hx Ef).
    pose proof (actionRank_range (cs_Action x)). unfold rank in Hl. lia.
  - by exists l1, l2.
Qed.

End Choice.
