(* ===== verification/SessionEval.v ===== *)
(** * The session tracker behind the engine's interface

    [internal/session/tracker.go] implements [detect.SessionEvaluator]: the
    tracker with the clock reading of the request is an instance of the
    engine's interface, and it keeps the interface's promise for the rules that
    do not use the glob ["*"]. *)

From S2P Require Export Session Engine.

Section Eval.
Context `{LRULaws record}.

(** A tracker while the clock shows [ct_now]. *)
Record clocked := Clocked { ct_tracker : tracker; ct_now : time }.

#[export] Instance clocked_evaluator : SessionEvaluator clocked := fun s sm key view =>
  let '(v, t) := Evaluate (ct_tracker s) (Some sm) key (Some (v_Path view)) (ct_now s) (ct_now s) in
  (v, Clocked t (ct_now s)).

Definition clocked_safe (_ : clocked) (sm : SessionMatchers) : Prop := Forall check_safe (sm_Checks sm).

Definition clocked_holds (s : clocked) (sm : SessionMatchers) (key : string) (view : RequestView) : bool :=
  match sm_Checks sm with
  | [] => false
  | _ => condition_value sm (live (ct_tracker s) key (ct_now s)) (Some (v_Path view)) (ct_now s)
  end.

Lemma live_get t key now : live (get t key now).2 key now = live t key now.
Proof.
  unfold live at 1. rewrite get_peek_eq, get_ttl. unfold live.
  destruct (lru_peek key (t_cache t)) as [r|]; [|done]. cbn.
  destruct (t_ttl t <? Time.Sub now (lastSeen r)) eqn:E; [done|]. cbn. by rewrite E.
Qed.

Lemma Evaluate_live t sm key vp now :
  live (Evaluate t (Some sm) key vp now now).2 key now = live t key now.
Proof.
  unfold Evaluate. destruct (sm_Checks sm); [done|]. rewrite get_pair. cbn [snd]. apply live_get.
Qed.

#[export] Program Instance clocked_spec : SessionEvaluatorSpec clocked := {
  se_safe := clocked_safe;
  se_holds := clocked_holds;
}.
Next Obligation.
  intros s sm key view Hs. unfold se_Evaluate, clocked_evaluator, clocked_holds.
  destruct (sm_Checks sm) eqn:E.
  - unfold Evaluate. by rewrite E.
  - rewrite Evaluate_value; [done|by rewrite E|done].
Qed.
Next Obligation.
  intros s sm key view sm'. unfold clocked_holds, se_Evaluate, clocked_evaluator.
  pose proof (Evaluate_live (ct_tracker s) sm key (Some (v_Path view)) (ct_now s)) as Hl.
  destruct (Evaluate _ _ _ _ _ _) as [v t]. cbn in *. by rewrite Hl.
Qed.
Next Obligation. done. Qed.

End Eval.

(** ** Witness *)

Module EngineExamples.

#[local] Existing Instance ascii_only.
#[local] Existing Instance PathRegexp.regexp.
#[local] Existing Instance ListLru.list_lru.
#[local] Existing Instance ListLru.list_lru_laws.
#[local] Instance listed : MapIter := map_to_list.

Definition view0 : RequestView := {|
  v_Method := "GET"; v_Path := "/cart"; v_PathNorm := "/cart"; v_RawQuery := "";
  v_FullURI := "/cart"; v_FullURINorm := "/cart"; v_Headers := ∅; v_Body := "" |}.

Definition rule (id action : string) (sm : option SessionMatchers) : CompiledSignature := {|
  cs_TemplateID := id; cs_Severity := "high"; cs_CVE := []; cs_Tags := []; cs_Action := action;
  cs_RespCode := 403; cs_Session := sm; cs_Source := "";
  blocks := [{| methods := ∅; paths := []; matchers := []; matchersAnd := false |}] |}.

Definition cold : SessionMatchers := {|
  sm_Condition := "and";
  sm_Checks := [{| chk_Type := "session-seen-before"; chk_Negate := true; chk_Value := 0;
                   chk_Window := 0; chk_Match := "" |}] |}.

Definition engine0 : engine (S := clocked) :=
  Reload (NewEngine (Some (Clocked (Tracker (ListLru.Lru 2 []) Hour) Hour)))
    [rule "observe" "log-only" None; rule "cold-cart" "block" (Some cold); rule "late" "block" None].

Lemma Inspect_enforces_strongest_witness :
  exists d e', Inspect engine0 view0 "ip:1" = (Ret d, e') /\ d_Action d = "block" /\
    d_Matched d = true.
Proof.
  destruct (Inspect_enforces_strongest engine0 view0 "ip:1") as (best & e' & E & _ & Hb).
  - repeat constructor; intros sm st Esm _; try discriminate Esm.
    injection Esm as <-. repeat constructor. discriminate.
  - exists (decision_of best), e'. split; [exact E|].
    assert (Hd : d_Action <$> (Inspect engine0 view0 "ip:1").1 = Ret "block")
      by (vm_compute; reflexivity).
    rewrite E in Hd. injection Hd as Hd. split; [exact Hd|]. destruct best; [reflexivity|discriminate].
Defined.

End EngineExamples.
