(* ===== verification/Burst.v ===== *)
(** * Requests of one session in parallel ([ServeHTTP] of [internal/proxy/proxy.go])

    A request of a session is inspected against the page views recorded so far,
    and recorded itself only after its response has been delivered.  In between
    others of the same session are inspected.  [floor_step] runs the calls of many
    requests on the tracker in any order, each atomic under the tracker's mutex:
    the inspection of step (5), the recording of step (6), and whatever else
    reaches the tracker. *)

From S2P Require Export SessionEval.

(** ** The last hits of a session *)

Lemma last_n_snoc {A} n (l : list A) x : last_n (S n) (l ++ [x]) = last_n n l ++ [x].
Proof.
  unfold last_n. rewrite length_app. cbn [length].
  replace (length l + 1 - S n)%nat with (length l - n)%nat by lia. by rewrite drop_app_le by lia.
Qed.

Lemma last_n_last_n {A} m n (l : list A) : (m <= n)%nat -> last_n m (last_n n l) = last_n m l.
Proof. intros. unfold last_n. rewrite drop_drop, length_drop. f_equal. lia. Qed.

Lemma last_n_Forall_le {A} (P : A -> Prop) m n (l : list A) :
  (m <= n)%nat -> Forall P (last_n n l) -> Forall P (last_n m l).
Proof. intros Hle HF. rewrite <- (last_n_last_n m n) by done. by apply Forall_drop. Qed.

Lemma filter_last_n {A} (p : A -> bool) n l :
  Forall (fun x => p x = true) (last_n n l) -> (n <= length l)%nat -> (n <= length (List.filter p l))%nat.
Proof.
  intros HF Hn. rewrite <- (take_drop (length l - n) l), List.filter_app, length_app.
  fold (last_n n l). enough (length (List.filter p (last_n n l)) = n) by lia.
  transitivity (length (last_n n l)); [|rewrite last_n_length; lia]. clear Hn.
  induction HF as [|x xs Hx _ IH]; [done|]. cbn. rewrite Hx. cbn. by rewrite IH.
Qed.

Section Burst.
Context `{Unicode} `{Regexp} `{MapIter} `{LRULaws record}.
Context (rules : list CompiledSignature) (key : string).

(** ** The floor *)

(** A request after its admission: before its inspection, judged clean and on
    its way to the client, or done with the tracker. *)
Inductive visitor :=
| Inspecting (view : RequestView)
| Forwarding (view : RequestView)
| Gone.

(** The tracker, the requests of the session, and how many of them were judged
    clean by the rules, were delivered (by the backend or the cache), and were
    lost: stopped by the budgets, or by their client before the end of the
    response. *)
Record floor := {
  fl_tracker : tracker;
  fl_visitors : list visitor;
  fl_clean : nat;
  fl_delivered : nat;
  fl_lost : nat;
}.

Inductive move :=
| Arrive (view : RequestView)
| Inspected (i : nat) (now : time)
| Delivered (i : nat) (now : time)
| HungUp (i : nat)
| Elsewhere (o : op).

(** What a request that matches does to the tracker, if anything, is among the
    moves [Elsewhere], as is what the requests of other sessions do.  [None]: no
    such move is possible, or the inspection panics. *)
Definition floor_step (f : floor) (mv : move) : option floor :=
  let vs := fl_visitors f in
  match mv with
  | Arrive view =>
      Some {| fl_tracker := fl_tracker f; fl_visitors := vs ++ [Inspecting view]; fl_clean := fl_clean f;
              fl_delivered := fl_delivered f; fl_lost := fl_lost f |}
  | Inspected i now =>
      match vs !! i with
      | Some (Inspecting view) =>
          match Inspect {| sigs := rules; session := Some (Clocked (fl_tracker f) now) |} view key with
          | (Ret dec, eng) =>
              let t := default (fl_tracker f) (ct_tracker <$> session eng) in
              if d_Matched dec then
                Some {| fl_tracker := t; fl_visitors := <[i := Gone]> vs; fl_clean := fl_clean f;
                        fl_delivered := fl_delivered f; fl_lost := fl_lost f |}
              else
                Some {| fl_tracker := t; fl_visitors := <[i := Forwarding view]> vs; fl_clean := S (fl_clean f);
                        fl_delivered := fl_delivered f; fl_lost := fl_lost f |}
          | (Panic _, _) => None
          end
      | _ => None
      end
  | Delivered i now =>
      match vs !! i with
      | Some (Forwarding view) =>
          Some {| fl_tracker := Record_ (fl_tracker f) key (v_Path view) now now; fl_visitors := <[i := Gone]> vs;
                  fl_clean := fl_clean f; fl_delivered := S (fl_delivered f); fl_lost := fl_lost f |}
      | _ => None
      end
  | HungUp i =>
      match vs !! i with
      | Some (Forwarding _) =>
          Some {| fl_tracker := fl_tracker f; fl_visitors := <[i := Gone]> vs; fl_clean := fl_clean f;
                  fl_delivered := fl_delivered f; fl_lost := S (fl_lost f) |}
      | _ => None
      end
  | Elsewhere o =>
      Some {| fl_tracker := Session.apply (fl_tracker f) o; fl_visitors := vs; fl_clean := fl_clean f;
              fl_delivered := fl_delivered f; fl_lost := fl_lost f |}
  end.

(** The floors of a run, in order; [None] if a move is not possible. *)
Fixpoint floors (f : floor) (ms : list move) : option (list floor) :=
  match ms with
  | [] => Some [f]
  | mv :: ms => f' ← floor_step f mv; cons f <$> floors f' ms
  end.

Definition opened (t : tracker) : floor :=
  {| fl_tracker := t; fl_visitors := []; fl_clean := 0; fl_delivered := 0; fl_lost := 0 |}.

Definition with_backend (v : visitor) : bool := match v with Forwarding _ => true | _ => false end.

Definition in_flight (f : floor) : nat := length (List.filter with_backend (fl_visitors f)).

(** The clock readings of a move *)
Definition move_times (mv : move) : list time :=
  match mv with
  | Inspected _ now | Delivered _ now => [now]
  | Elsewhere o => readings o
  | _ => []
  end.

(** ** Counting *)

Lemma in_flight_insert vs i v x : vs !! i = Some v ->
  (length (List.filter with_backend (<[i := x]> vs)) + (if with_backend v then 1 else 0) =
   length (List.filter with_backend vs) + (if with_backend x then 1 else 0))%nat.
Proof.
  intros E. rewrite <- (take_drop_middle _ _ _ E) at 2. rewrite insert_take_drop by (by eapply lookup_lt_Some).
  rewrite !List.filter_app, !length_app. cbn [List.filter].
  destruct (with_backend v), (with_backend x); cbn [length]; lia.
Qed.

(** Every request judged clean is with the backend, delivered or lost. *)
Definition balanced (f : floor) : Prop := fl_clean f = (in_flight f + fl_delivered f + fl_lost f)%nat.

Lemma step_balanced f mv f' : floor_step f mv = Some f' -> balanced f -> balanced f'.
Proof.
  unfold balanced, in_flight. intros E Hb. destruct mv as [view|i now|i now|i|o]; cbn [floor_step] in E.
  - injection E as <-. cbn. rewrite List.filter_app, length_app. cbn. lia.
  - destruct (fl_visitors f !! i) as [[view| |]|] eqn:Ei; try done.
    destruct (Inspect _ _ _) as [[dec|] eng]; [|done].
    destruct (d_Matched dec); injection E as <-; cbn [fl_visitors fl_clean fl_delivered fl_lost];
      [pose proof (in_flight_insert _ _ _ Gone Ei)|pose proof (in_flight_insert _ _ _ (Forwarding view) Ei)];
      cbn in *; lia.
  - destruct (fl_visitors f !! i) as [[| |]|] eqn:Ei; try done. injection E as <-.
    pose proof (in_flight_insert _ _ _ Gone Ei). cbn in *. lia.
  - destruct (fl_visitors f !! i) as [[| |]|] eqn:Ei; try done. injection E as <-.
    pose proof (in_flight_insert _ _ _ Gone Ei). cbn in *. lia.
  - injection E as <-. cbn. lia.
Qed.

(** ** What the tracker remembers *)

(** The last [n] hits of the session, as far as they are kept, are from [T0] on. *)
Definition remembers (T0 : time) (n : nat) (hits : list hit) : Prop :=
  (Nat.min n maxPageviewStamps <= length hits)%nat /\
  Forall (fun h => T0 <= hit_ts h) (last_n (Nat.min n maxPageviewStamps) hits).

Lemma remembers_0 T0 hits : remembers T0 0 hits.
Proof. split; [cbn; lia|]. cbn. unfold last_n. rewrite drop_ge by lia. constructor. Qed.

Lemma remembers_le T0 n m hits : (m <= n)%nat -> remembers T0 n hits -> remembers T0 m hits.
Proof. intros Hle [Hl HF]. split; [lia|]. eapply last_n_Forall_le; [|exact HF]. lia. Qed.

Lemma record_hit_remembers T0 n r path now :
  T0 <= now -> remembers T0 n (pageviews r) -> remembers T0 (S n) (pageviews (record_hit r path now)).
Proof.
  intros Ht [Hl HF]. cbn [record_hit pageviews].
  assert (Hs : Forall (fun h => T0 <= hit_ts h)
    (last_n (Nat.min (S n) maxPageviewStamps) (pageviews r ++ [Hit now path]))).
  { replace (Nat.min (S n) maxPageviewStamps) with (S (Nat.min n (Nat.pred maxPageviewStamps)))
      by (unfold maxPageviewStamps; lia).
    rewrite last_n_snoc. apply Forall_app. split; [|by repeat constructor].
    eapply last_n_Forall_le; [|exact HF]. unfold maxPageviewStamps. lia. }
  split.
  - case_match; [rewrite last_n_length|]; rewrite length_app; cbn [length]; lia.
  - case_match; [rewrite last_n_last_n by lia|]; done.
Qed.

(** The session from [T0] on with [n] hits: it has not been idle, and is found. *)
Definition known (T0 : time) (n : nat) (t : tracker) : Prop :=
  exists r, lru_peek key (t_cache t) = Some r /\ T0 <= lastSeen r /\ remembers T0 n (pageviews r).

Context (T0 : time) (w : duration).
Implicit Types (t : tracker).

Definition while_ (now : time) : Prop := T0 <= now < T0 + w.

(** The tracker has room and does not forget within the window. *)
Definition holds_on (t : tracker) : Prop := (0 < lru_cap (t_cache t))%nat /\ w <= t_ttl t.

Lemma known_live n t now : holds_on t -> while_ now -> known T0 n t ->
  exists r, live t key now = Some r /\ T0 <= lastSeen r /\ remembers T0 n (pageviews r).
Proof.
  intros [_ Httl] [Hge Hlt] (r & E & Hs & Hr). exists r. split; [|done].
  unfold live. rewrite E. cbn. rewrite (proj2 (Z.ltb_ge _ _)); [done|].
  unfold Time.Sub, min_int64, max_int64. lia.
Qed.

Lemma get_holds_on t j now : holds_on t -> holds_on (get t j now).2.
Proof. intros [? ?]. split; [by rewrite get_cap|by rewrite get_ttl]. Qed.

(** A read leaves the session known. *)
Lemma get_known n t j now : holds_on t -> while_ now -> known T0 n t -> known T0 n (get t j now).2.
Proof.
  intros Ht Hn Hk. destruct (decide (j = key)) as [->|Hne].
  - destruct (known_live n t now Ht Hn Hk) as (r & E & ? & ?). exists r. by rewrite get_peek_eq.
  - destruct Hk as (r & E & ? & ?). exists r. by rewrite get_peek_ne by done.
Qed.

(** An update of the session from what is live, which leaves the hits or adds one *)
Lemma add_known n t j now r' :
  holds_on t -> j <> key ->
  is_Some (lru_peek key (t_cache (with_cache (get t j now).2 (lru_add j r' (t_cache (get t j now).2))))) ->
  known T0 n t -> known T0 n (with_cache (get t j now).2 (lru_add j r' (t_cache (get t j now).2))).
Proof.
  intros Ht Hne [x Hx] (r & E & Hs & Hr). cbn [with_cache t_cache] in *. exists x. split; [done|].
  apply peek_add_ne in Hx; [|done]. rewrite get_peek_ne in Hx by done. by simplify_eq.
Qed.

Lemma apply_holds_on t o : holds_on t -> holds_on (Session.apply t o).
Proof.
  intros Ht. destruct o as [j path n1 n2|j n1 n2 n3|j n1|sm j vp n1 n2]; cbn [Session.apply].
  - unfold Record_. destruct (j =?s ""); [done|]. rewrite get_pair.
    destruct (get_holds_on t j n2 Ht). split; cbn; [by rewrite lru_add_cap|done].
  - unfold MarkChallengePassed. destruct (j =?s ""); [done|]. rewrite get_pair.
    destruct (get_holds_on t j n1 Ht). split; cbn; [by rewrite lru_add_cap|done].
  - unfold ChallengePassed. destruct (j =?s ""); [done|]. rewrite get_pair. by apply get_holds_on.
  - unfold Evaluate. destruct sm as [sm|]; [|done]. destruct (sm_Checks sm); [done|]. rewrite get_pair. by apply get_holds_on.
Qed.

(** Whatever reaches the tracker, the session stays known unless it is evicted. *)
Lemma apply_known n t o :
  holds_on t -> Forall while_ (readings o) -> is_Some (lru_peek key (t_cache (Session.apply t o))) ->
  known T0 n t -> known T0 n (Session.apply t o).
Proof.
  intros Ht Hn Hev Hk. destruct o as [j path n1 n2|j n1 n2 n3|j n1|sm j vp n1 n2]; cbn [Session.apply readings] in *;
    rewrite !Forall_cons in Hn.
  - unfold Record_ in *. destruct (j =?s ""); [done|]. rewrite get_pair in *.
    destruct (decide (j = key)) as [->|Hne]; [|by apply add_known].
    destruct Hn as ([Hn1 _] & Hn2 & _). destruct (known_live n t n2 Ht Hn2 Hk) as (r & -> & Hs & Hr).
    eexists. cbn [with_cache t_cache]. rewrite peek_add_eq by (by destruct (get_holds_on t key n2 Ht)).
    split; [done|]. split; [done|]. apply (remembers_le _ (S n)); [lia|]. by apply record_hit_remembers.
  - unfold MarkChallengePassed in *. destruct (j =?s ""); [done|]. rewrite get_pair in *.
    destruct (decide (j = key)) as [->|Hne]; [|by apply add_known].
    destruct Hn as (Hn1 & _ & [Hn3 _] & _). destruct (known_live n t n1 Ht Hn1 Hk) as (r & -> & Hs & Hr).
    eexists. cbn [with_cache t_cache]. rewrite peek_add_eq by (by destruct (get_holds_on t key n1 Ht)).
    split; [done|]. done.
  - unfold ChallengePassed. destruct (j =?s ""); [done|]. rewrite get_pair. destruct Hn. by apply get_known.
  - unfold Evaluate. destruct sm as [sm|]; [|done]. destruct (sm_Checks sm); [done|]. rewrite get_pair. destruct Hn. by apply get_known.
Qed.

Lemma Record_known n t path now :
  key <> "" -> holds_on t -> while_ now -> (n <> 0%nat -> known T0 n t) -> known T0 (S n) (Record_ t key path now now).
Proof.
  intros Hkey Ht Hn Hk. pose proof (Record_peek t key path now now (proj1 Ht) Hkey) as E.
  eexists. split; [exact E|]. split; [by destruct Hn|]. apply record_hit_remembers; [by destruct Hn|].
  destruct n as [|n]; [apply remembers_0|]. destruct (known_live (S n) t now Ht Hn (Hk ltac:(done))) as (r & -> & _ & ?). done.
Qed.

(** ** The inspection *)

Lemma inspect_loop_keeps (P : clocked -> Prop) view l :
  (forall st sm, P st -> P (se_Evaluate st sm key view).2) ->
  forall st best r, P st -> exists st', (inspect_loop l view key (Some st) best r).2 = Some st' /\ P st'.
Proof.
  intros HP. induction l as [|sig l IH]; intros st best r Hst; [by exists st|]. cbn [inspect_loop].
  assert (Himp : forall s, P s -> exists st',
    (if r <? actionRank (cs_Action sig)
     then if actionRank (cs_Action sig) =? maxActionRank then (Ret (Some sig), Some s)
          else inspect_loop l view key (Some s) (Some sig) (actionRank (cs_Action sig))
     else inspect_loop l view key (Some s) best r).2 = Some st' /\ P st').
  { intros s Hs. repeat case_match; [by exists s|by apply IH..]. }
  destruct (httpMatch sig view); cbn [negb]; [|by apply IH].
  destruct (cs_Session sig) as [sm|]; [|by apply Himp].
  specialize (HP st sm Hst). destruct (se_Evaluate st sm key view) as [[[]|p] s1]; cbn [snd] in HP.
  - by apply Himp.
  - by apply IH.
  - by exists s1.
Qed.

Definition safe_rules : Prop :=
  Forall (fun sig => forall sm, cs_Session sig = Some sm -> Forall check_safe (sm_Checks sm)) rules.

(** An inspection says whether a rule fires, and keeps what every evaluation keeps. *)
Lemma Inspect_floor (P : clocked -> Prop) t view now :
  safe_rules -> (forall st sm, P st -> P (se_Evaluate st sm key view).2) -> P (Clocked t now) ->
  exists dec eng (t' : clocked), Inspect {| sigs := rules; session := Some (Clocked t now) |} view key = (Ret dec, eng) /\
    session eng = Some t' /\ P t' /\
    (d_Matched dec = false <-> forall x, x ∈ rules -> fires (Some (Clocked t now)) view key x = false).
Proof.
  intros Hsafe HP Hp. unfold Inspect. cbn [sigs session].
  destruct (inspect_loop_spec rules view key (Some (Clocked t now)) None 0) as (b & s' & E & Hi); [done| |].
  { eapply Forall_impl; [exact Hsafe|]. intros sig Hs sm st Esm _. by apply Hs. }
  destruct (inspect_loop_keeps P view rules HP (Clocked t now) None 0 Hp) as (st' & Est & Hst).
  rewrite E in Est |- *. cbn [snd] in Est. subst s'. eexists _, _, st'. split; [done|]. split; [done|]. split; [done|].
  destruct Hi as [[-> Hl]|(l1 & x & l2 & -> & -> & Hx & _)].
  - split; [|done]. intros _ x Hx. destruct (fires _ view key x) eqn:Ef; [|done]. specialize (Hl x Hx Ef).
    pose proof (actionRank_range (cs_Action x)). unfold rank in Hl. lia.
  - split; [done|]. intros Hn. rewrite Hn in Hx; [done|]. set_solver.
Qed.

Lemma Evaluate_keeps n view now st sm :
  while_ now -> ct_now st = now /\ holds_on (ct_tracker st) /\ (n <> 0%nat -> known T0 n (ct_tracker st)) ->
  let st' := (se_Evaluate st sm key view).2 in
  ct_now st' = now /\ holds_on (ct_tracker st') /\ (n <> 0%nat -> known T0 n (ct_tracker st')).
Proof.
  intros Hw (<- & Ht & Hk). unfold se_Evaluate, clocked_evaluator, Evaluate.
  destruct (sm_Checks sm); [done|]. rewrite get_pair. cbn. split; [done|].
  split; [by apply get_holds_on|]. intros Hn. apply get_known; auto.
Qed.

(** ** The rule *)

(** A rule whose condition is the one check [c] *)
Definition counts (rule : CompiledSignature) (cond : string) (c : SessionCheck) : Prop :=
  cs_Session rule = Some {| sm_Condition := cond; sm_Checks := [c] |} /\
  chk_Type c = "rate-limit" /\ chk_Negate c = false /\ chk_Window c = w.

Lemma rate_limit_fires rule cond c n t view now :
  counts rule cond c -> 0 < w <= max_int64 -> holds_on t -> while_ now -> httpMatch rule view = true ->
  (n <> 0%nat -> known T0 n t) -> 0 <= chk_Value c < Z.of_nat maxPageviewStamps ->
  fires (Some (Clocked t now)) view key rule = false -> Z.of_nat n <= chk_Value c.
Proof.
  intros (Es & Et & En & Ew) Hw Ht Hn Hm Hk Hv Hf.
  destruct (decide (n = 0%nat)) as [->|Hn0]; [lia|].
  destruct (known_live n t now Ht Hn (Hk Hn0)) as (r & El & _ & Hl & HF).
  unfold fires in Hf. rewrite Hm, Es in Hf. cbn in Hf. unfold clocked_holds, condition_value in Hf. cbn in Hf.
  rewrite El, En in Hf. unfold check_value, evalCheck in Hf. rewrite Et in Hf. cbn in Hf.
  assert (Hc : (chk_Value c <? countWithin (pageviews r) "" (chk_Window c) now) = false).
  { unfold countWithin. by destruct ((cond =?s "") || (cond =?s "and")), (chk_Value c <? _). }
  apply Z.ltb_ge in Hc. rewrite countWithin_spec, Ew in Hc. unfold count_hits in Hc.
  assert (HF' : Forall (fun h => hit_counts "" w now h = true) (last_n (Nat.min n maxPageviewStamps) (pageviews r))).
  { eapply Forall_impl; [exact HF|]. intros h Hh. unfold hit_counts, Time.Add. cbn.
    rewrite int64_wrap_id by (unfold is_int64, min_int64, max_int64 in *; lia).
    destruct Hn. apply orb_true_iff. right. apply Z.ltb_lt. cbn in Hh. lia. }
  pose proof (filter_last_n _ _ _ HF' Hl). unfold maxPageviewStamps in *. lia.
Qed.

(** ** Runs *)

Record floor_ok (matches : RequestView -> bool) (f : floor) : Prop := {
  fo_holds : holds_on (fl_tracker f);
  fo_known : fl_delivered f <> 0%nat -> known T0 (fl_delivered f) (fl_tracker f);
  fo_balanced : balanced f;
  fo_views : Forall (fun v => match v with Inspecting view => matches view = true | _ => True end) (fl_visitors f);
}.

(** The session is not evicted once it has a page view. *)
Definition resident (f : floor) : Prop :=
  fl_delivered f <> 0%nat -> is_Some (lru_peek key (t_cache (fl_tracker f))).

Definition arrives_matching (matches : RequestView -> bool) (mv : move) : Prop :=
  match mv with Arrive view => matches view = true | _ => True end.

Lemma floor_step_ok matches f mv f' :
  key <> "" -> safe_rules -> floor_ok matches f -> Forall while_ (move_times mv) -> arrives_matching matches mv ->
  resident f' -> floor_step f mv = Some f' -> floor_ok matches f'.
Proof.
  intros Hkey Hsafe [Hh Hk Hb Hv] Ht Hm Hres E. pose proof (step_balanced f mv f' E Hb) as Hb'.
  destruct mv as [view|i now|i now|i|o]; cbn [floor_step move_times] in *; rewrite ?Forall_singleton in Ht.
  - injection E as <-. split; try done. cbn. apply Forall_app. split; [done|by repeat constructor].
  - destruct (fl_visitors f !! i) as [[view| |]|] eqn:Ei; try done.
    destruct (Inspect_floor (fun st => ct_now st = now /\ holds_on (ct_tracker st) /\
      (fl_delivered f <> 0%nat -> known T0 (fl_delivered f) (ct_tracker st))) (fl_tracker f) view now Hsafe)
      as (dec & eng & t' & EI & Es & (_ & Hh' & Hk') & _); [intros; by apply Evaluate_keeps|done|].
    rewrite EI, Es in E. cbn in E. destruct (d_Matched dec); injection E as <-; split; try done; cbn;
      by apply Forall_insert.
  - destruct (fl_visitors f !! i) as [[|view|]|] eqn:Ei; try done. injection E as <-. split; try done; cbn.
    + unfold Record_. destruct (key =?s ""); [done|]. rewrite get_pair.
      destruct (get_holds_on (fl_tracker f) key now Hh). split; cbn; [by rewrite lru_add_cap|done].
    + intros _. by apply Record_known.
    + by apply Forall_insert.
  - destruct (fl_visitors f !! i) as [[|view|]|] eqn:Ei; try done. injection E as <-. split; try done; cbn.
    by apply Forall_insert.
  - injection E as <-. split; try done; cbn in *; [by apply apply_holds_on|].
    intros Hn. apply apply_known; auto.
Qed.

Lemma floors_head f ms fs : floors f ms = Some fs -> exists l, fs = f :: l.
Proof.
  destruct ms; cbn [floors]; [intros [= <-]; by exists []|].
  destruct (floor_step f _); [|done]. cbn. destruct (floors _ ms); [|done]. intros [= <-]. eauto.
Qed.

(** (C21) A rate rule is exact up to the requests in flight.  The rule is one whose
    behavioural condition is a single rate-limit check, not negated, with a limit
    below [maxPageviewStamps], the 64 page views that a session remembers: with a
    larger limit no rule ever fires ([rate_rules_saturate]), and nothing is
    bounded.  The requests are those the rule's HTTP part matches, and no rule
    panics on them.  Then in a window of the rule, however the inspections and the
    recordings of a session's requests interleave with each other and with
    whatever else reaches the tracker, the number of requests that are judged
    clean is at most the limit of the rule plus the largest number of requests
    that were under way at the same time, plus those that were lost on the way:
    their client hung up, or the budgets stopped them.  (The session is known as
    long as it is active: it is not evicted, and the session lifetime is no
    shorter than the window.) *)
Theorem rate_rule_bounds_the_crowd rule cond c (k : nat) t ms fs :
  key <> "" -> safe_rules -> rule ∈ rules -> counts rule cond c ->
  0 < w <= max_int64 -> 0 <= chk_Value c < Z.of_nat maxPageviewStamps -> holds_on t ->
  Forall (arrives_matching (httpMatch rule)) ms -> Forall (fun mv => Forall while_ (move_times mv)) ms ->
  floors (opened t) ms = Some fs -> Forall resident fs -> Forall (fun f => (in_flight f <= k)%nat) fs ->
  Forall (fun f => Z.of_nat (fl_clean f) <= chk_Value c + Z.of_nat k + Z.of_nat (fl_lost f)) fs.
Proof.
  intros Hkey Hsafe Hin Hc Hw Hv Ht.
  assert (Hgen : forall ms f fs, floor_ok (httpMatch rule) f ->
    Z.of_nat (fl_clean f) <= chk_Value c + Z.of_nat k + Z.of_nat (fl_lost f) ->
    Forall (arrives_matching (httpMatch rule)) ms -> Forall (fun mv => Forall while_ (move_times mv)) ms ->
    floors f ms = Some fs -> Forall resident fs -> Forall (fun f => (in_flight f <= k)%nat) fs ->
    Forall (fun f => Z.of_nat (fl_clean f) <= chk_Value c + Z.of_nat k + Z.of_nat (fl_lost f)) fs).
  2: { intros Hm Htimes. apply Hgen; [|cbn; lia|done..].
       split; [done|done|done|constructor]. }
  clear t ms fs Ht. induction ms as [|mv ms IH]; intros f fs Hok Hle Hm Htimes E Hres Hk.
  { injection E as <-. by constructor. }
  apply Forall_cons in Hm as [Hm Hms]. apply Forall_cons in Htimes as [Ht Hts]. cbn [floors] in E.
  destruct (floor_step f mv) as [f'|] eqn:Ef; [|done]. cbn in E.
  destruct (floors f' ms) as [fs'|] eqn:Efs; [|done]. injection E as <-.
  apply Forall_cons in Hres as [_ Hres]. apply Forall_cons in Hk as [_ Hk]. constructor; [done|].
  assert (Hhead : f' ∈ fs').
  { destruct (floors_head _ _ _ Efs) as [l ->]. by left. }
  rewrite Forall_forall in Hres, Hk. pose proof (Hk _ Hhead) as Hk'.
  assert (Hok' : floor_ok (httpMatch rule) f') by (eapply floor_step_ok; eauto).
  apply (IH f'); try done; [|by apply Forall_forall..]. clear IH Hts Hms Efs Hres Hk Hhead.
  destruct Hok as [Hh Hkn Hb Hvs], Hok' as [_ _ Hb' _]. unfold balanced in *.
  destruct mv as [view|i now|i now|i|o]; cbn [floor_step move_times] in *; rewrite ?Forall_singleton in Ht.
  1,5: by injection Ef as <-.
  - destruct (fl_visitors f !! i) as [[view| |]|] eqn:Ei; try done.
    destruct (Inspect_floor (fun _ => True) (fl_tracker f) view now Hsafe) as (dec & eng & t' & EI & _ & _ & Hd); [done..|].
    rewrite EI in Ef. destruct (d_Matched dec) eqn:Ed; injection Ef as <-; [done|].
    assert (Hf : Z.of_nat (fl_delivered f) <= chk_Value c).
    { eapply rate_limit_fires; [done..| |done|done|].
      - by apply (proj1 (Forall_lookup _ _) Hvs i _ Ei).
      - by apply (proj1 Hd eq_refl). }
    cbn [fl_clean fl_delivered fl_lost] in *. lia.
  - destruct (fl_visitors f !! i) as [[|view|]|] eqn:Ei; try done. by injection Ef as <-.
  - destruct (fl_visitors f !! i) as [[|view|]|] eqn:Ei; try done. injection Ef as <-. cbn in *. lia.
Qed.

(** *** The bound is reached *)

Lemma floors_app f ms1 fs1 g ms2 fs2 :
  floors f ms1 = Some fs1 -> last fs1 = Some g -> floors g ms2 = Some fs2 ->
  exists fs, floors f (ms1 ++ ms2) = Some fs /\ last fs = last fs2.
Proof.
  revert f fs1. induction ms1 as [|mv ms1 IH]; intros f fs1 E1 Hl E2.
  - injection E1 as <-. injection Hl as <-. by exists fs2.
  - cbn [floors app] in *. destruct (floor_step f mv) as [f'|]; [|done]. cbn in *.
    destruct (floors f' ms1) as [fs1'|] eqn:E1'; [|done]. injection E1 as <-.
    assert (Hl' : last fs1' = Some g) by (by destruct (floors_head _ _ _ E1') as [l ->]).
    destruct (IH f' fs1' E1' Hl' E2) as (fs & E & Hfs). rewrite E. exists (f :: fs). split; [done|].
    by destruct (floors_head _ _ _ E) as [l ->].
Qed.

(** [n] requests that all arrive, are inspected and only then delivered *)
Definition burst (n : nat) (view : RequestView) (now now' : time) : list move :=
  replicate n (Arrive view) ++ map (fun i => Inspected i now) (List.seq 0 n) ++
  map (fun i => Delivered i now') (List.seq 0 n).

(** A run of moves and its last floor *)
Definition leads (f : floor) (ms : list move) (g : floor) : Prop :=
  exists fs, floors f ms = Some fs /\ last fs = Some g.

Lemma leads_nil f : leads f [] f.
Proof. by exists [f]. Qed.

Lemma leads_cons f mv f' ms g : floor_step f mv = Some f' -> leads f' ms g -> leads f (mv :: ms) g.
Proof.
  intros E (fs & Ef & Hl). exists (f :: fs). cbn [floors]. rewrite E. cbn. rewrite Ef. split; [done|].
  by destruct (floors_head _ _ _ Ef) as [l ->].
Qed.

Lemma leads_app f ms1 g ms2 h : leads f ms1 g -> leads g ms2 h -> leads f (ms1 ++ ms2) h.
Proof.
  intros (fs1 & E1 & Hl1) (fs2 & E2 & Hl2). destruct (floors_app _ _ _ _ _ _ E1 Hl1 E2) as (fs & E & Hl).
  exists fs. by rewrite Hl.
Qed.

Lemma insert_middle (l1 l2 : list visitor) v x : <[length l1 := x]> (l1 ++ v :: l2) = (l1 ++ [x]) ++ l2.
Proof. rewrite <- (Nat.add_0_r (length l1)), insert_app_r, <- app_assoc. done. Qed.

Lemma arrivals n view : forall f,
  leads f (replicate n (Arrive view))
    {| fl_tracker := fl_tracker f; fl_visitors := fl_visitors f ++ replicate n (Inspecting view);
       fl_clean := fl_clean f; fl_delivered := fl_delivered f; fl_lost := fl_lost f |}.
Proof.
  induction n as [|n IH]; intros f; cbn [replicate].
  - rewrite app_nil_r. destruct f. apply leads_nil.
  - eapply leads_cons; [done|]. specialize (IH {| fl_tracker := fl_tracker f; fl_visitors := fl_visitors f ++ [Inspecting view];
      fl_clean := fl_clean f; fl_delivered := fl_delivered f; fl_lost := fl_lost f |}).
    cbn in IH. by rewrite <- app_assoc in IH.
Qed.

(** No rule fires on the session as it is now. *)
Definition unnoticed (view : RequestView) (now : time) (t : tracker) : Prop :=
  forall x, x ∈ rules -> fires (Some (Clocked t now)) view key x = false.

Lemma inspections n view now : safe_rules -> forall done_ t c d l, unnoticed view now t ->
  exists t', leads {| fl_tracker := t; fl_visitors := replicate done_ (Forwarding view) ++ replicate n (Inspecting view);
                      fl_clean := c; fl_delivered := d; fl_lost := l |}
    (map (fun i => Inspected i now) (List.seq done_ n))
    {| fl_tracker := t'; fl_visitors := replicate (done_ + n) (Forwarding view); fl_clean := c + n;
       fl_delivered := d; fl_lost := l |}.
Proof.
  intros Hsafe. induction n as [|n IH]; intros m t c d l Hu.
  { exists t. cbn. rewrite app_nil_r, !Nat.add_0_r. apply leads_nil. }
  destruct (Inspect_floor (fun st => ct_now st = now /\
    forall x, fires (Some st) view key x = fires (Some (Clocked t now)) view key x) t view now Hsafe)
    as (dec & eng & t' & EI & Es & [Hnow Hf] & Hd); [|done|].
  { intros st sm [Hnow Hf]. split.
    - unfold se_Evaluate, clocked_evaluator. by destruct (Evaluate _ _ _ _ _ _).
    - intros x. rewrite <- Hf. unfold fires. destruct (cs_Session x) as [sm'|]; [|done].
      f_equal. apply (se_holds_stable st sm key view sm'). }
  destruct (IH (S m) (ct_tracker t') (S c) d l) as [t2 Hl].
  { intros x Hx. destruct t' as [t'' n']. cbn in Hnow |- *. rewrite <- Hnow. rewrite Hnow at 1. subst n'.
    rewrite Hf. by apply Hu. }
  exists t2. cbn [List.seq map replicate]. eapply leads_cons.
  - cbn [floor_step fl_visitors fl_tracker]. rewrite list_lookup_middle by (by rewrite length_replicate).
    rewrite EI, (proj2 Hd Hu), Es. reflexivity.
  - cbn [fl_clean fl_delivered fl_lost default from_option fmap option_fmap option_map id].
    pose proof (insert_middle (replicate m (Forwarding view)) (replicate n (Inspecting view)) (Inspecting view) (Forwarding view)) as Ei.
    rewrite length_replicate in Ei. rewrite Ei, <- replicate_S_end.
    replace (m + S n)%nat with (S m + n)%nat by lia. by replace (c + S n)%nat with (S c + n)%nat by lia.
Qed.

Lemma deliveries n view now : forall done_ t c d l,
  exists t', leads {| fl_tracker := t; fl_visitors := replicate done_ Gone ++ replicate n (Forwarding view);
                      fl_clean := c; fl_delivered := d; fl_lost := l |}
    (map (fun i => Delivered i now) (List.seq done_ n))
    {| fl_tracker := t'; fl_visitors := replicate (done_ + n) Gone; fl_clean := c;
       fl_delivered := d + n; fl_lost := l |}.
Proof.
  induction n as [|n IH]; intros m t c d l.
  { exists t. cbn. rewrite app_nil_r, !Nat.add_0_r. apply leads_nil. }
  destruct (IH (S m) (Record_ t key (v_Path view) now now) c (S d) l) as [t2 Hl].
  exists t2. cbn [List.seq map replicate]. eapply leads_cons.
  - cbn [floor_step fl_visitors fl_tracker]. rewrite list_lookup_middle by (by rewrite length_replicate). reflexivity.
  - cbn [fl_clean fl_delivered fl_lost].
    pose proof (insert_middle (replicate m Gone) (replicate n (Forwarding view)) (Forwarding view) Gone) as Ei.
    rewrite length_replicate in Ei. rewrite Ei, <- replicate_S_end.
    replace (m + S n)%nat with (S m + n)%nat by lia. by replace (d + S n)%nat with (S d + n)%nat by lia.
Qed.

(** A burst evades every rate rule: if no rule fires on a request as the session
    is now, then any number of copies of it that are sent in parallel -- each
    inspected before the first is recorded -- are all judged clean and all
    delivered, whatever the limits of the rules are. *)
Theorem parallel_burst_evades n view now now' t :
  safe_rules -> unnoticed view now t ->
  exists f, leads (opened t) (burst n view now now') f /\
    fl_clean f = n /\ fl_delivered f = n /\ fl_lost f = 0%nat.
Proof.
  intros Hsafe Hu. pose proof (arrivals n view (opened t)) as H1'.
  destruct (inspections n view now Hsafe 0 t 0 0 0 Hu) as [t1 H2'].
  destruct (deliveries n view now' 0 t1 n 0 0) as [t2 H3'].
  exists {| fl_tracker := t2; fl_visitors := replicate n Gone; fl_clean := n; fl_delivered := n; fl_lost := 0 |}.
  split; [|by split_and!]. eapply leads_app; [exact H1'|]. eapply leads_app; [exact H2'|]. exact H3'.
Qed.

End Burst.


(** ** Witnesses *)

Module BurstExamples.

#[local] Existing Instance ascii_only.
#[local] Existing Instance PathRegexp.regexp.
#[local] Existing Instance ListLru.list_lru.
#[local] Existing Instance ListLru.list_lru_laws.
#[local] Existing Instance EngineExamples.listed.

Definition at_most_two : SessionCheck :=
  {| chk_Type := "rate-limit"; chk_Negate := false; chk_Value := 2; chk_Window := Minute; chk_Match := "" |}.

Definition limited : CompiledSignature :=
  EngineExamples.rule "rate" "block" (Some {| sm_Condition := "and"; sm_Checks := [at_most_two] |}).

Definition t0 : tracker := Tracker (ListLru.Lru 2 []) Hour.

(** Four requests at once, another client, one that comes after them, and one
    whose client does not wait. *)
Definition moves : list move :=
  burst 4 EngineExamples.view0 Second (2 * Second) ++
  [Elsewhere (ORecord "ip:2" "/" (3 * Second) (3 * Second));
   Arrive EngineExamples.view0; Inspected 4 (4 * Second)].

Lemma limited_safe : safe_rules [limited].
Proof. repeat constructor. intros sm [= <-]. repeat constructor; discriminate. Qed.

Lemma in_the_minute : Forall (fun mv => Forall (while_ 0 Minute) (move_times mv)) moves.
Proof.
  assert (Hb : forallb (fun mv => forallb (fun now => (0 <=? now) && (now <? Minute)) (move_times mv)) moves = true)
    by (vm_compute; reflexivity).
  rewrite forallb_forall in Hb. apply Forall_forall. intros mv Hmv%list_elem_of_In. specialize (Hb mv Hmv).
  rewrite forallb_forall in Hb. apply Forall_forall. intros now Hnow%list_elem_of_In. specialize (Hb now Hnow).
  unfold while_. lia.
Qed.

Definition as_seen (fs : list floor) : bool :=
  forallb (fun f => (in_flight f <=? 4)%nat &&
    ((fl_delivered f =? 0)%nat || bool_decide (is_Some (lru_peek "ip:1" (t_cache (fl_tracker f)))))) fs &&
  (match last fs with Some f => (fl_clean f =? 4)%nat | None => false end).

Lemma rate_rule_bounds_the_crowd_witness :
  exists fs, floors [limited] "ip:1" (opened t0) moves = Some fs /\ as_seen fs = true /\
    Forall (fun f => Z.of_nat (fl_clean f) <= 2 + 4 + Z.of_nat (fl_lost f)) fs.
Proof.
  assert (Hc : match floors [limited] "ip:1" (opened t0) moves with Some fs => as_seen fs | None => false end = true)
    by (vm_compute; reflexivity).
  destruct (floors [limited] "ip:1" (opened t0) moves) as [fs|] eqn:E; [|discriminate Hc].
  exists fs. split; [reflexivity|]. split; [exact Hc|].
  unfold as_seen in Hc. apply andb_true_iff in Hc as [Hc _]. rewrite forallb_forall in Hc.
  apply (rate_rule_bounds_the_crowd [limited] "ip:1" 0 Minute limited "and" at_most_two 4 t0 moves fs).
  - discriminate.
  - exact limited_safe.
  - left.
  - repeat split; reflexivity.
  - vm_compute. split; [reflexivity|discriminate].
  - vm_compute. split; [discriminate|reflexivity].
  - split; vm_compute; [lia|discriminate].
  - repeat (constructor; [reflexivity || exact I|]). constructor.
  - exact in_the_minute.
  - exact E.
  - apply Forall_forall. intros f Hf Hd. apply list_elem_of_In in Hf. specialize (Hc f Hf).
    apply andb_true_iff in Hc as [_ Hc]. apply orb_true_iff in Hc as [Hc|Hc].
    + apply Nat.eqb_eq in Hc. contradiction.
    + exact (bool_decide_eq_true_1 _ Hc).
  - apply Forall_forall. intros f Hf. apply list_elem_of_In in Hf. specialize (Hc f Hf).
    apply andb_true_iff in Hc as [Hc _]. apply Nat.leb_le. exact Hc.
Defined.

Lemma parallel_burst_evades_witness :
  exists f, leads [limited] "ip:1" (opened t0) (burst 1000 EngineExamples.view0 Second (2 * Second)) f /\
    fl_clean f = 1000%nat.
Proof.
  destruct (parallel_burst_evades [limited] "ip:1" 1000 EngineExamples.view0 Second (2 * Second) t0)
    as (f & Hl & Hc & _).
  - exact limited_safe.
  - intros x Hx. apply list_elem_of_singleton in Hx as ->. vm_compute. reflexivity.
  - exists f. split; [exact Hl|exact Hc].
Defined.

End BurstExamples.
