(* ===== verification/Matching.v ===== *)
(** * What the signatures recognise

    The theorems about matching: [Compile] against the template it compiles,
    path templates and evasions by path spelling, the iteration order of the
    header map, and two matchers that do not do what the rule guide says. *)

From S2P Require Export Engine.

(** ** Paths *)

Section Paths.
Context `{Unicode} `{RegexpLaws}.

Lemma matchTarget_static pm target :
  prefix pm = "" -> re pm = None ->
  matchTarget pm target = true <-> exact pm <> "" /\ target = exact pm.
Proof.
  intros Hp Hr. unfold matchTarget. rewrite Hp, Hr.
  destruct (String.eqb_spec (exact pm) ""); cbn [negb].
  - rewrite (String.eqb_refl ""). cbn [negb]. naive_solver.
  - rewrite String.eqb_eq. naive_solver.
Qed.

Lemma compilePath_spec p l0 vs :
  stripBaseURL p = render l0 vs -> template_ok l0 vs ->
  exists pm, compilePath p = Some pm /\
    matchQuery pm = bool_decide (IndexByte (render l0 vs) "?" <> None) /\
    forall target, matchTarget pm target = true <->
      render l0 vs <> "" /\
      exists ws, length ws = length vs /\ Forall (fun w => no_newline w = true) ws /\
        target = instantiate l0 vs ws.
Proof.
  intros Hs Hok. unfold compilePath. rewrite Hs.
  destruct (negb (Contains (render l0 vs) "{{") && negb (hasRegexMeta (render l0 vs))) eqn:E.
  - eexists. split; [reflexivity|]. split; [done|]. intros target.
    rewrite matchTarget_static by done. cbn [exact].
    destruct vs as [|[v l] vs]; [|by rewrite Contains_render in E].
    cbn [render instantiate]. split; intros [? Ht]; (split; [done|]).
    + by exists [].
    + destruct Ht as ([|] & _ & _ & ->); done.
  - rewrite path_pattern_render by done.
    destruct (re_anchored _ (template_items_ascii l0 vs Hok)) as (r & -> & Hm).
    eexists. split; [reflexivity|]. split; [done|]. intros target.
    unfold matchTarget. cbn [exact prefix re]. cbn [negb]. rewrite !(String.eqb_refl ""). cbn [negb].
    rewrite Hm, items_match_template. split; [|by intros [_ ?]].
    intros Ht. split; [|done]. intros Hr. rewrite Hr in E. discriminate.
Qed.

(** A path template means what it says: with the base URL stripped and
    written as literals (ASCII, no brace) around [{{...}}] placeholders, it
    compiles, and it matches exactly the targets that are its literals with
    arbitrary newline-free text for the placeholders -- regular-expression
    characters in the literals stand for themselves, and the match is anchored
    at both ends.  The one exception is the empty template (a bare
    [{{BaseURL}}]), which matches nothing. *)
Theorem path_template_meaning p l0 vs :
  stripBaseURL p = render l0 vs -> template_ok l0 vs ->
  exists pm, compilePath p = Some pm /\
    forall target, matchTarget pm target = true <->
      render l0 vs <> "" /\
      exists ws, length ws = length vs /\ Forall (fun w => no_newline w = true) ws /\
        target = instantiate l0 vs ws.
Proof. intros Hs Hok. destruct (compilePath_spec p l0 vs Hs Hok) as (pm & ? & _ & ?). by exists pm. Qed.

(** [NormalizePath] canonicalises: on a rooted path the result is a slash and
    elements that are neither empty nor [.] nor [..], normalising again changes
    nothing, and two paths normalise alike exactly when resolving their
    elements one by one gives the same list. *)
Theorem NormalizePath_canonicalises p q :
  is_rooted p = true -> is_rooted q = true ->
  (exists es, NormalizePath p = "/" +:+ Join es "/" /\ Forall plain_elem es) /\
  NormalizePath (NormalizePath p) = NormalizePath p /\
  (NormalizePath p = NormalizePath q <->
   clean_elems true (Split p "/") = clean_elems true (Split q "/")).
Proof.
  intros Hp Hq.
  destruct (NormalizePath_rooted p Hp) as (es & -> & HF & Ees).
  destruct (NormalizePath_rooted q Hq) as (fs & -> & HG & Efs).
  rewrite <- Ees, <- Efs. split; [by exists es|]. split; [by apply NormalizePath_canonical|].
  split; [|by intros ->]. intros E.
  rewrite <- (clean_elems_canonical es), <- (clean_elems_canonical fs) by done. by rewrite E.
Qed.

Lemma IndexByte_free s c : str_forallb (fun x => negb (x =?c c)) s = true -> IndexByte s c = None.
Proof. by rewrite IndexByte_none. Qed.

(** (C25) Evasions by path spelling are caught: a signature for the path with the
    elements [es] fires on a request path exactly when the elements of that
    path resolve to [es], whatever doubled slashes, dot segments or trailing
    slashes it is written with. *)
Theorem path_evasions_are_caught p es (view : RequestView) :
  stripBaseURL p = "/" +:+ Join es "/" -> Forall plain_elem es ->
  isASCII (Join es "/") = true -> open_free (Join es "/") = true ->
  str_forallb (fun x => negb (x =?c "?")) (Join es "/") = true ->
  is_rooted (v_Path view) = true -> v_PathNorm view = NormalizePath (v_Path view) ->
  exists pm, compilePath p = Some pm /\
    (matchPath pm view = true <-> clean_elems true (Split (v_Path view) "/") = es).
Proof.
  intros Hs HF Ha Ho Hq Hr Hn.
  destruct (compilePath_spec p ("/" +:+ Join es "/") [] Hs) as (pm & Hc & Hmq & Hm).
  { split_and!; [exact Ha|exact Ho|done]. }
  exists pm. split; [done|].
  assert (Hm' : forall target, matchTarget pm target = true <-> target = "/" +:+ Join es "/").
  { intros target. rewrite Hm. cbn [render]. split.
    - by intros (_ & [|] & _ & _ & ->).
    - intros ->. split; [done|]. by exists []. }
  unfold matchPath. rewrite Hmq, bool_decide_false.
  2: { intros Hx. apply Hx. cbn [render]. by apply IndexByte_free. }
  destruct (NormalizePath_rooted _ Hr) as (fs & En & HG & Efs). rewrite <- Efs.
  rewrite orb_true_iff, !andb_true_iff, !Hm', Hn, En. split.
  - intros [Ev|[_ Ev]].
    + rewrite Efs, Ev. by apply clean_elems_canonical.
    + rewrite <- (clean_elems_canonical es), <- (clean_elems_canonical fs) by done. by rewrite Ev.
  - intros ->. destruct (String.eqb_spec ("/" +:+ Join es "/") (v_Path view)) as [E|Hne].
    + by left.
    + right. split; [done|]. done.
Qed.

End Paths.

(** ** Compile, against the template *)

Section Templates.
Context `{Unicode} `{Regexp} `{MapIter}.
Implicit Types (h : HTTP) (view : RequestView).

(** The request lines of the raw requests. *)
Definition raw_lines h : list (string * string) := omap parseRawRequestLine (http_Raw h).

(** The methods a block names; none: any method. *)
Definition block_methods h : list string :=
  List.filter (fun m => negb (m =?s "")) (http_Method h :: (raw_lines h).*1).

(** The paths a block names; none that compiles: any path. *)
Definition block_paths h : list string := http_Path h ++ (raw_lines h).*2.

Definition method_ok h (method : string) : Prop :=
  block_methods h = [] \/ exists m, m ∈ block_methods h /\ ToUpper m = ToUpper method.

Definition path_ok h view : Prop :=
  omap compilePath (block_paths h) = [] \/
  exists p pm, p ∈ block_paths h /\ compilePath p = Some pm /\ matchPath pm view = true.

(** Under [and] every item counts, under [or] one is enough, and an empty
    list demands nothing. *)
Definition demand {A} (and_ : bool) (P : A -> Prop) (l : list A) : Prop :=
  l = [] \/ if and_ then forall x, x ∈ l -> P x else exists x, x ∈ l /\ P x.

Definition haystack (m : Matcher) view : string :=
  let hay := partValue (defaultPart (m_Part m)) view in
  if m_CaseInsensitive m then ToLower hay else hay.

Definition word_hits (m : Matcher) view (w : string) : Prop :=
  Contains (haystack m view) (if m_CaseInsensitive m then ToLower w else w) = true.

Definition regex_hits (m : Matcher) view (r : string) : Prop :=
  exists re, re_Compile r = Some re /\ re_MatchString re (haystack m view) = true.

Definition matcher_ok view (m : Matcher) : Prop :=
  let and_ := EqualFold (m_Condition m) "and" in
  let hit := demand and_ (word_hits m view) (m_Words m) /\ demand and_ (regex_hits m view) (m_Regex m) in
  if m_Negative m then ~ hit else hit.

Definition block_ok view h : Prop :=
  method_ok h (v_Method view) /\ path_ok h view /\
  demand (EqualFold (http_MatchersCondition h) "and") (matcher_ok view) (http_Matchers h).

(** A list of items against the list of what they compile to. *)
Lemma demand_Forall2 {A B} (f : A -> option B) (P : A -> Prop) (hit : B -> bool) l k c :
  Forall2 (fun x y => f x = Some y) l k ->
  (forall x y, x ∈ l -> f x = Some y -> P x <-> hit y = true) ->
  demand c P l <-> eval_list c hit k = true.
Proof.
  intros HF HP. unfold demand, eval_list.
  assert (Hex : (exists x, x ∈ l /\ P x) <-> any_hit hit k = true).
  { rewrite any_hit_true. split.
    - intros (x & Hx & HPx). destruct (Forall2_elem_of_l _ _ _ _ HF Hx) as (y & Hy & E).
      exists y. split; [done|]. by apply (HP x y).
    - intros (y & Hy & Hh). destruct (Forall2_elem_of_r _ _ _ _ HF Hy) as (x & Hx & E).
      exists x. split; [done|]. by apply (HP x y). }
  assert (Hall : (forall x, x ∈ l -> P x) <-> all_hit hit k = true).
  { rewrite all_hit_true. split.
    - intros HPl y Hy. destruct (Forall2_elem_of_r _ _ _ _ HF Hy) as (x & Hx & E).
      apply (HP x y); auto.
    - intros Hh x Hx. destruct (Forall2_elem_of_l _ _ _ _ HF Hx) as (y & Hy & E).
      apply (HP x y); auto. }
  destruct HF as [|x y l k E HF]; [naive_solver|].
  destruct c; [rewrite <- Hall|rewrite <- Hex]; naive_solver.
Qed.

Lemma compileMatcher_ok m cm view :
  compileMatcher m = Some cm -> matcher_ok view m <-> matchMatcher cm view = true.
Proof.
  unfold compileMatcher. destruct (mapM re_Compile (m_Regex m)) as [rs|] eqn:Er; [|done].
  intros [= <-]. apply mapM_Some in Er. unfold matcher_ok, matchMatcher.
  cbn [part words res condAnd negative caseFold]. fold (haystack m view).
  set (c := EqualFold (m_Condition m) "and"). unfold evalMatcher. cbn [words res condAnd]. fold c.
  assert (Hw : demand c (word_hits m view) (m_Words m) <->
    eval_list c (fun w => Contains (haystack m view) w)
      ((fun w => if m_CaseInsensitive m then ToLower w else w) <$> m_Words m) = true).
  { apply (demand_Forall2 (fun w => Some (if m_CaseInsensitive m then ToLower w else w))).
    - apply Forall2_fmap_r, Forall_Forall2_diag. by apply Forall_true.
    - intros x y _ [= <-]. done. }
  assert (Hr : demand c (regex_hits m view) (m_Regex m) <->
    eval_list c (fun re => re_MatchString re (haystack m view)) rs = true).
  { apply (demand_Forall2 re_Compile _ _ _ _ _ Er). intros x y _ E. unfold regex_hits. naive_solver. }
  fold c. destruct (m_Negative m).
  - rewrite negb_true_iff, <- not_true_iff_false, andb_true_iff. tauto.
  - rewrite andb_true_iff. tauto.
Qed.

Lemma add_raw_fold raws ms ps :
  fold_left add_raw raws (ms, ps) =
    (ms ∪ list_to_set (ToUpper <$> List.filter (fun m => negb (m =?s "")) (omap parseRawRequestLine raws).*1),
     ps ++ omap compilePath (omap parseRawRequestLine raws).*2).
Proof.
  revert ms ps. induction raws as [|raw raws IH]; intros ms ps; cbn [fold_left].
  - cbn. rewrite app_nil_r. f_equal. set_solver.
  - unfold add_raw at 2. cbn [omap list_omap fst snd].
    destruct (parseRawRequestLine raw) as [[m p]|]; [|by rewrite IH].
    rewrite IH. cbn [fmap list_fmap fst snd List.filter omap list_omap].
    f_equal.
    + destruct (negb (m =?s "")); cbn; set_solver.
    + destruct (compilePath p); cbn; by rewrite <- ?app_assoc.
Qed.

Lemma compileBlock_Some h b :
  compileBlock h = Some b ->
  methods b = list_to_set (ToUpper <$> block_methods h) /\
  paths b = omap compilePath (block_paths h) /\
  Forall2 (fun m cm => compileMatcher m = Some cm) (http_Matchers h) (matchers b) /\
  matchersAnd b = EqualFold (http_MatchersCondition h) "and".
Proof.
  unfold compileBlock. destruct (mapM compilePath (http_Path h)) as [ps|] eqn:Ep; [|done].
  cbn [mbind option_bind]. rewrite add_raw_fold.
  destruct (mapM compileMatcher (http_Matchers h)) as [cms|] eqn:Em; [|done].
  intros [= <-]. cbn [methods paths matchers matchersAnd]. split_and!; [| |by apply mapM_Some|done].
  - unfold block_methods. cbn [List.filter]. destruct (negb (http_Method h =?s "")); cbn; set_solver.
  - unfold block_paths. rewrite omap_app. f_equal. apply mapM_Some in Ep.
    induction Ep as [|p pm l k E _ IH]; [done|]. cbn. by rewrite E, IH.
Qed.

Lemma matchBlock_eval b view :
  matchBlock b view =
    if negb (bool_decide (methods b = ∅)) && negb (bool_decide (ToUpper (v_Method view) ∈ methods b))
    then false
    else if negb (bool_decide (paths b = [])) && negb (any_hit (fun p => matchPath p view) (paths b))
    then false
    else eval_list (matchersAnd b) (fun m => matchMatcher m view) (matchers b).
Proof. unfold matchBlock, eval_list. by destruct (matchers b). Qed.

Lemma compileBlock_ok h b view : compileBlock h = Some b -> block_ok view h <-> matchBlock b view = true.
Proof.
  intros Hb. destruct (compileBlock_Some h b Hb) as (Hm & Hp & HF & Hc).
  unfold block_ok. rewrite matchBlock_eval. cbv zeta.
  assert (Hmeth : method_ok h (v_Method view) <->
    negb (bool_decide (methods b = ∅)) && negb (bool_decide (ToUpper (v_Method view) ∈ methods b)) = false).
  { unfold method_ok. rewrite Hm, andb_false_iff, !negb_false_iff, !bool_decide_eq_true,
      elem_of_list_to_set, list_elem_of_fmap.
    split; (intros [E|(m & Hx)]; [left|right; exists m; naive_solver]).
    - by rewrite E.
    - destruct (block_methods h); [done|]. exfalso. cbn in E. set_solver. }
  assert (Hpath : path_ok h view <->
    negb (bool_decide (paths b = [])) && negb (any_hit (fun p => matchPath p view) (paths b)) = false).
  { unfold path_ok. rewrite Hp, andb_false_iff, !negb_false_iff, bool_decide_eq_true, any_hit_true.
    apply or_iff_compat_l. split.
    - intros (p & pm & Hx & E & Ho). exists pm. split; [|done]. apply list_elem_of_omap. by exists p.
    - intros (pm & (p & Hx & E)%list_elem_of_omap & Ho). by exists p, pm. }
  rewrite Hmeth, Hpath, (demand_Forall2 compileMatcher _ (fun m => matchMatcher m view) _ _ _ HF).
  2: { intros x y _ E. by apply compileMatcher_ok. }
  rewrite <- Hc. generalize (negb (bool_decide (methods b = ∅)) &&
    negb (bool_decide (ToUpper (v_Method view) ∈ methods b))) as c1.
  generalize (negb (bool_decide (paths b = [])) && negb (any_hit (fun p => matchPath p view) (paths b))) as c2.
  generalize (eval_list (matchersAnd b) (fun m => matchMatcher m view) (matchers b)) as c3.
  intros [] [] []; intuition discriminate.
Qed.

(** (C24) Compilation preserves meaning: the compiled signature matches a request
    exactly when some [http] block of the template does -- its method (of the
    block or of a raw request line, whatever the case), one of its paths, and
    its matchers under [and]/[or], each matcher the words and regexes of its
    part, negated and case-folded as it says. *)
Theorem Compile_preserves_meaning t sig view :
  Compile t = Some sig ->
  httpMatch sig view = true <-> exists h, h ∈ t_HTTP t /\ block_ok view h.
Proof.
  unfold Compile. destruct (mapM compileBlock (t_HTTP t)) as [bs|] eqn:E; [|done].
  intros [= <-]. apply mapM_Some in E. unfold httpMatch. cbn [blocks].
  rewrite any_hit_true. split.
  - intros (b & Hb & Hm). destruct (Forall2_elem_of_r _ _ _ _ E Hb) as (h & Hh & Eh).
    exists h. split; [done|]. by apply (compileBlock_ok h b).
  - intros (h & Hh & Ho). destruct (Forall2_elem_of_l _ _ _ _ E Hh) as (b & Hb & Eh).
    exists b. split; [done|]. by apply (compileBlock_ok h b).
Qed.

(** A matcher that smoker does not evaluate is a matcher that always holds:
    with neither words nor regexes (a [status] or [dsl] matcher, whose fields
    are not read) and not negative, it matches every request, so an [or] block
    that lists it matches every request that passes its method and paths. *)
Theorem unsupported_matcher_matches_all h b m view :
  compileBlock h = Some b -> m ∈ http_Matchers h ->
  m_Words m = [] -> m_Regex m = [] -> m_Negative m = false ->
  EqualFold (http_MatchersCondition h) "and" = false ->
  matchBlock b view = true <-> method_ok h (v_Method view) /\ path_ok h view.
Proof.
  intros Hb Hm Hw Hr Hn Hc. rewrite <- (compileBlock_ok h b view Hb). unfold block_ok.
  rewrite Hc. split; [by intros (? & ? & _)|]. intros [? ?]. split_and!; [done|done|].
  right. exists m. split; [done|]. unfold matcher_ok. rewrite Hn, Hw, Hr. split; by left.
Qed.

End Templates.

(** ** Headers *)

Section Headers.
Context `{Unicode} `{Regexp}.
Implicit Types (view : RequestView) (kv : string * string).

(** Header keys in canonical MIME form, as [net/http] delivers them, have an
    upper-case letter ([Host], [User-Agent], ...). *)
Definition canonical_keys (h : gmap string string) : Prop :=
  forall k v, h !! k = Some v -> str_existsb is_upper k = true.

Definition special_parts : list string := ["path"; "body"; "header"; "all"; "request"; ""].

Lemma lowered_no_upper s : str_existsb is_upper (str_map byte_lower s) = false.
Proof.
  unfold str_existsb. apply negb_false_iff. induction s as [|c s IH]; [done|].
  cbn [str_map str_forallb]. rewrite IH, andb_true_r. by destruct c as [[][][][][][][][]].
Qed.

(** A matcher on a named header sees no header: the rule compiler lower-cases
    the part while the header map has canonical keys, so the value matched is
    always the empty string, and a positive matcher with words (none of them
    empty) never fires. *)
Theorem named_header_matcher_never_fires `{!MapIter} m cm view :
  compileMatcher m = Some cm -> canonical_keys (v_Headers view) ->
  isASCII (m_Part m) = true -> ToLower (m_Part m) ∉ special_parts ->
  m_Negative m = false -> m_Words m <> [] ->
  Forall (fun w => w <> "") (words cm) ->
  partValue (part cm) view = "" /\ matchMatcher cm view = false.
Proof.
  unfold compileMatcher. destruct (mapM re_Compile (m_Regex m)) as [rs|]; [|done].
  intros [= <-] Hk Ha Hs Hn Hw0 Hw. cbn [words] in Hw.
  assert (Hp : partValue (defaultPart (m_Part m)) view = "").
  { unfold defaultPart. rewrite (proj2 (String.eqb_neq (m_Part m) "")).
    2: { intros E. rewrite E in Hs. apply Hs. unfold special_parts. cbn. set_solver. }
    unfold special_parts in Hs. rewrite !not_elem_of_cons in Hs.
    destruct Hs as (? & ? & ? & ? & ? & ? & _). unfold partValue.
    rewrite !(proj2 (String.eqb_neq _ _)) by done. cbn [orb].
    destruct (v_Headers view !! ToLower (m_Part m)) as [v|] eqn:E; [|done].
    apply Hk in E. unfold ToLower in E. rewrite Ha in E. by rewrite lowered_no_upper in E. }
  split; [done|]. unfold matchMatcher. cbn [part caseFold negative]. rewrite Hp, Hn.
  replace (if m_CaseInsensitive m then ToLower "" else "") with ("" : string)
    by (by destruct (m_CaseInsensitive m)).
  unfold evalMatcher. cbn [condAnd words res]. apply andb_false_iff. left.
  assert (Hc : forall w, w <> "" -> Contains "" w = false) by (by intros []).
  set (g := fun w => if m_CaseInsensitive m then ToLower w else w) in *.
  destruct (m_Words m) as [|w ws]; [done|]. cbn [fmap list_fmap] in *.
  cbn [eval_list]. destruct (EqualFold (m_Condition m) "and"); cbn [all_hit].
  - inversion_clear Hw. by rewrite Hc.
  - apply not_true_iff_false. rewrite any_hit_true. intros (x & Hx & Hh).
    rewrite Hc in Hh; [done|]. by apply (proj1 (Forall_forall _ _) Hw).
Qed.

Lemma byte_lower_newline x : (byte_lower x =?c newline) = (x =?c newline).
Proof. by destruct x as [[][][][][][][][]]. Qed.

Lemma headersString_lines (i : MapIter) h :
  Split (headersString h) newline =
    concat ((fun kv => Split (kv.1 +:+ ": " +:+ kv.2) newline) <$> map_iter h) ++ [""].
Proof.
  unfold headersString. induction (map_iter h) as [|kv l IH]; [done|]. cbn [foldr fmap list_fmap concat].
  set (rest := foldr _ "" l) in *.
  replace (header_line kv +:+ rest) with ((kv.1 +:+ ": " +:+ kv.2) +:+ String newline rest)
    by (unfold header_line; by rewrite !str_app_assoc).
  rewrite Split_app, IH. by rewrite app_assoc.
Qed.

Lemma concat_perm {A} (l k : list (list A)) : l ≡ₚ k -> concat l ≡ₚ concat k.
Proof.
  induction 1 as [|x l k _ IH|x y l|l1 l2 l3 _ IH1 _ IH2]; cbn; [done|by rewrite IH| |by rewrite IH1].
  rewrite !app_assoc. apply Permutation_app; [apply Permutation_app_comm|done].
Qed.

Section TwoOrders.
Context (i1 i2 : MapIter) `{!MapIterLaws (H := i1)} `{!MapIterLaws (H := i2)}.

Lemma headersString_perm h :
  Split (@headersString i1 h) newline ≡ₚ Split (@headersString i2 h) newline.
Proof.
  rewrite !headersString_lines. apply Permutation_app; [|done].
  apply concat_perm, fmap_Permutation.
  rewrite (@map_iter_perm i1 _ h). by rewrite (@map_iter_perm i2 _ h).
Qed.

Lemma partValue_perm part view :
  Split (@partValue i1 part view) newline ≡ₚ Split (@partValue i2 part view) newline.
Proof.
  unfold partValue. repeat case_match; try done; [apply headersString_perm|].
  assert (E : forall hs, v_Method view +:+ " " +:+ v_FullURI view +:+ String newline "" +:+ hs +:+
      String newline "" +:+ v_Body view =
      (v_Method view +:+ " " +:+ v_FullURI view) +:+ String newline (hs +:+ String newline (v_Body view))).
  { intros hs. rewrite !str_app_assoc. done. }
  rewrite !E, !Split_app. apply Permutation_app; [done|]. apply Permutation_app; [|done].
  apply headersString_perm.
Qed.

Lemma existsb_perm {A} (f : A -> bool) l k : l ≡ₚ k -> existsb f l = existsb f k.
Proof. induction 1 as [|x l k _ IH|x y l|l1 l2 l3 _ IH1 _ IH2]; cbn; [done|by rewrite IH| |congruence]. by destruct (f x), (f y). Qed.

Lemma forallb_perm {A} (f : A -> bool) l k : l ≡ₚ k -> forallb f l = forallb f k.
Proof. induction 1 as [|x l k _ IH|x y l|l1 l2 l3 _ IH1 _ IH2]; cbn; [done|by rewrite IH| |congruence]. by destruct (f x), (f y). Qed.

Lemma Contains_perm a b w :
  Split a newline ≡ₚ Split b newline -> no_newline w = true -> Contains a w = Contains b w.
Proof. intros HP Hw. rewrite !(Contains_Split _ w newline) by done. by apply existsb_perm. Qed.

Lemma eval_list_ext {A} c (f g : A -> bool) l :
  (forall x, x ∈ l -> f x = g x) -> eval_list c f l = eval_list c g l.
Proof.
  intros Hfg.
  assert (Ha : all_hit f l = all_hit g l).
  { induction l as [|x l IH]; [done|]. cbn. rewrite Hfg by (by left).
    destruct (g x); [|done]. apply IH. intros y Hy. apply Hfg. by right. }
  assert (Ho : any_hit f l = any_hit g l).
  { clear Ha. induction l as [|x l IH]; [done|]. cbn. rewrite Hfg by (by left).
    destruct (g x); [done|]. apply IH. intros y Hy. apply Hfg. by right. }
  unfold eval_list. destruct l; [done|]. by rewrite Ha, Ho.
Qed.

(** Verdicts do not depend on Go's random map order: the header map reaches
    a matcher as one string whose lines are in iteration order, but a matcher
    of words without a line break gives the same answer whatever the order
    (case folding on ASCII text included). *)
Theorem words_ignore_header_order cm view :
  res cm = [] -> Forall (fun w => no_newline w = true) (words cm) ->
  (caseFold cm = true -> isASCII (@partValue i1 (part cm) view) = true) ->
  @matchMatcher _ _ i1 cm view = @matchMatcher _ _ i2 cm view.
Proof.
  intros Hr Hw Hc. unfold matchMatcher. pose proof (partValue_perm (part cm) view) as HP.
  set (a := @partValue i1 (part cm) view) in *. set (b := @partValue i2 (part cm) view) in *.
  assert (HQ : Split (if caseFold cm then ToLower a else a) newline ≡ₚ
               Split (if caseFold cm then ToLower b else b) newline).
  { destruct (caseFold cm); [|done]. unfold ToLower. specialize (Hc eq_refl).
    assert (Hb : isASCII b = true).
    { unfold isASCII in Hc |- *. rewrite (str_forallb_Split _ a newline) in Hc by done.
      rewrite (str_forallb_Split _ b newline) by done. by rewrite <- Hc, (forallb_perm _ _ _ HP). }
    rewrite Hc, Hb, !Split_str_map by apply byte_lower_newline. by apply fmap_Permutation. }
  assert (E : evalMatcher cm (if caseFold cm then ToLower a else a) =
              evalMatcher cm (if caseFold cm then ToLower b else b)).
  { unfold evalMatcher. rewrite Hr. cbn [eval_list]. rewrite !andb_true_r.
    apply eval_list_ext. intros w Hin. apply Contains_perm; [done|].
    by apply (proj1 (Forall_forall _ _) Hw). }
  by rewrite E.
Qed.

End TwoOrders.
End Headers.

(** ** Witnesses *)

Module MatchingExamples.

#[local] Existing Instance ascii_only.
#[local] Existing Instance PathRegexp.regexp.
#[local] Existing Instance PathRegexp.laws.
#[local] Instance listed : MapIter := map_to_list.
#[local] Instance listed_laws : MapIterLaws. Proof. by intros h. Qed.
#[local] Instance reversed : MapIter := fun h => rev (map_to_list h).
#[local] Instance reversed_laws : MapIterLaws (H := reversed).
Proof. intros h. symmetry. apply Permutation_rev. Qed.

Definition view0 : RequestView := {|
  v_Method := "get"; v_Path := "//shop/.././wp-config.php/"; v_PathNorm := "/wp-config.php";
  v_RawQuery := ""; v_FullURI := "//shop/.././wp-config.php/"; v_FullURINorm := "/wp-config.php";
  v_Headers := {[ "User-Agent" := "sqlmap/1.7"; "Host" := "shop.test" ]}; v_Body := "" |}.

Definition word_matcher (part w : string) : Matcher := {|
  m_Type := "word"; m_Part := part; m_Words := [w]; m_Regex := []; m_Condition := "or";
  m_Negative := false; m_CaseInsensitive := true |}.

Definition status_matcher : Matcher := {|
  m_Type := "status"; m_Part := ""; m_Words := []; m_Regex := []; m_Condition := "";
  m_Negative := false; m_CaseInsensitive := false |}.

Definition block0 (ps : list string) (ms : list Matcher) : HTTP := {|
  http_Method := "GET"; http_Path := ps; http_Raw := []; http_MatchersCondition := "or";
  http_Matchers := ms; http_SessionMatchers := None; http_Action := ""; http_ActionResponseCode := 0 |}.

Definition template0 : Template := {|
  t_ID := "CVE-0"; t_Info := {| info_Severity := "high"; info_Tags := []; info_CVEID := [] |};
  t_HTTP := [block0 ["{{BaseURL}}/wp-config.php"] []]; t_SessionMatchers := None;
  t_Action := ""; t_ActionResponseCode := 0; t_SourcePath := "" |}.

Lemma path_template_meaning_witness :
  exists pm, compilePath "{{BaseURL}}/wp-content/{{slug}}/readme.txt" = Some pm /\
    matchTarget pm "/wp-content/plugins/x/readme.txt" = true.
Proof.
  destruct (path_template_meaning "{{BaseURL}}/wp-content/{{slug}}/readme.txt"
    "/wp-content/" [("slug", "/readme.txt")]) as (pm & Hc & Hm).
  - reflexivity.
  - split; [reflexivity|]. split; [reflexivity|]. repeat constructor.
  - exists pm. split; [exact Hc|]. apply Hm. split; [discriminate|]. exists ["plugins/x"].
    split; [reflexivity|]. split; [repeat constructor|reflexivity].
Defined.

Lemma NormalizePath_canonicalises_witness :
  NormalizePath "//a/./b/../c/" = NormalizePath "/a/c".
Proof.
  apply (NormalizePath_canonicalises "//a/./b/../c/" "/a/c"); reflexivity.
Defined.

Lemma path_evasions_are_caught_witness :
  exists pm, compilePath "{{BaseURL}}/wp-config.php" = Some pm /\ matchPath pm view0 = true.
Proof.
  destruct (path_evasions_are_caught "{{BaseURL}}/wp-config.php" ["wp-config.php"] view0)
    as (pm & Hc & Hm); [reflexivity| |reflexivity|reflexivity|reflexivity|reflexivity|reflexivity|].
  - repeat constructor; discriminate.
  - exists pm. split; [exact Hc|]. apply Hm. reflexivity.
Defined.

Definition holds {A} (P : A -> bool) (o : option A) : bool :=
  match o with Some a => P a | None => false end.

Definition sig0 : option CompiledSignature := Compile template0.

Lemma Compile_preserves_meaning_witness :
  exists sig, sig0 = Some sig /\ httpMatch sig view0 = true /\
    exists h, h ∈ t_HTTP template0 /\ block_ok view0 h.
Proof.
  assert (Hm : holds (fun sig => httpMatch sig view0) sig0 = true) by (vm_compute; reflexivity).
  destruct sig0 as [sig|] eqn:E; [|discriminate]. exists sig. split; [reflexivity|].
  cbn [holds] in Hm.
  split; [exact Hm|]. apply (Compile_preserves_meaning template0 sig view0 E). exact Hm.
Defined.

Lemma unsupported_matcher_matches_all_witness :
  exists b, compileBlock (block0 ["{{BaseURL}}/wp-config.php"] [word_matcher "body" "evil"; status_matcher]) = Some b /\
    matchBlock b view0 = true.
Proof.
  set (h := block0 _ _).
  assert (Hb : holds (fun _ => true) (compileBlock h) = true) by (vm_compute; reflexivity).
  assert (Hp : holds (fun pm => matchPath pm view0) (compilePath "{{BaseURL}}/wp-config.php") = true)
    by (vm_compute; reflexivity).
  destruct (compileBlock h) as [b|] eqn:E; [|discriminate]. exists b. split; [reflexivity|].
  apply (unsupported_matcher_matches_all _ b status_matcher view0 E);
    [right; left|reflexivity|reflexivity|reflexivity|reflexivity|]. split.
  - right. exists "GET". split; [left|reflexivity].
  - right. destruct (compilePath _) as [pm|] eqn:Ep; [|discriminate].
    exists "{{BaseURL}}/wp-config.php", pm. split; [left|]. split; [exact Ep|exact Hp].
Defined.

Lemma named_header_matcher_never_fires_witness :
  exists cm, compileMatcher (word_matcher "User-Agent" "sqlmap") = Some cm /\
    matchMatcher cm view0 = false.
Proof.
  assert (Hw : holds (fun cm => forallb (fun w => negb (String.eqb w "")) (words cm))
    (compileMatcher (word_matcher "User-Agent" "sqlmap")) = true) by (vm_compute; reflexivity).
  destruct (compileMatcher _) as [cm|] eqn:E; [|discriminate]. exists cm. split; [reflexivity|].
  apply (named_header_matcher_never_fires (word_matcher "User-Agent" "sqlmap") cm view0 E).
  - intros k v Hk. change (v_Headers view0) with
      (<["User-Agent" := "sqlmap/1.7"]> (<["Host" := "shop.test"]> (∅ : gmap string string))) in Hk.
    apply lookup_insert_Some in Hk as [[<- _]|[_ Hk]]; [reflexivity|].
    apply lookup_insert_Some in Hk as [[<- _]|[_ Hk]]; [reflexivity|].
    by rewrite lookup_empty in Hk.
  - reflexivity.
  - vm_compute. intros Hin. repeat (apply elem_of_cons in Hin as [Hin|Hin]; [discriminate|]).
    by apply elem_of_nil in Hin.
  - reflexivity.
  - discriminate.
  - cbn [holds] in Hw. rewrite forallb_forall in Hw. apply Forall_forall. intros w Hin ->.
    apply list_elem_of_In, Hw in Hin. discriminate.
Defined.

Lemma words_ignore_header_order_witness :
  let cm := {| part := "header"; words := ["sqlmap"]; res := []; condAnd := false;
               negative := false; caseFold := true |} in
  @matchMatcher _ _ listed cm view0 = @matchMatcher _ _ reversed cm view0.
Proof.
  intros cm. apply (words_ignore_header_order listed reversed cm view0);
    [reflexivity|repeat constructor|intros _; vm_compute; reflexivity].
Defined.

End MatchingExamples.
