(* ===== verification/FileTree.v ===== *)
(** * Directory trees

    What [filepath.WalkDir] walks: the directories of templates and of access
    lists. *)

From S2P Require Export GoPath.

(** What [WalkDir] finds: a file with its content ([None]: unreadable), a
    directory with its entries in lexical order ([None]: unreadable). *)
Inductive fsnode :=
| File (name : string) (content : option string)
| Dir (name : string) (children : option (list fsnode)).

Definition node_name (n : fsnode) : string := match n with File name _ | Dir name _ => name end.

Definition filepath_Join (dir name : string) : string := dir +:+ "/" +:+ name.

(** The files a walk meets that skips the directories named [.git]; an entry
    that cannot be read or listed is passed over. *)
Fixpoint walk_files (path : string) (n : fsnode) : list (string * option string) :=
  match n with
  | File _ content => [(path, content)]
  | Dir name children =>
      if name =?s ".git" then []
      else match children with
           | None => []
           | Some cs => flat_map (fun c => walk_files (filepath_Join path (node_name c)) c) cs
           end
  end.
