(* ===== verification/Loader.v ===== *)
(** * Loading a template directory ([internal/detect/loader.go])

    [LoadDir] over a directory tree: the walk of [filepath.WalkDir] in lexical
    order, the filter on names, and the tally of loaded and skipped templates.
    [SyncRepo] and [run] are in the file [Git]. *)

From S2P Require Export FileTree Signature.

(** The recorded errors; [wrap] only formats them. *)
Inductive load_error :=
| EWalk (path : string)
| ERead (path : string)
| EParse (path : string) (e : parse_error)
| ECompile (path : string).

Section Loader.
Context `{Unicode} `{Regexp} (yaml_Unmarshal : string -> string + Template).

(** [LoadResult] *)
Record LoadResult := {
  Signatures : list CompiledSignature;
  Loaded : Z;
  Skipped : Z;
  Errors : list load_error;
}.

Definition skip (r : LoadResult) (errs : list load_error) : LoadResult :=
  {| Signatures := Signatures r; Loaded := Loaded r; Skipped := Skipped r + 1;
     Errors := Errors r ++ errs |}.

Definition note_error (r : LoadResult) (e : load_error) : LoadResult :=
  {| Signatures := Signatures r; Loaded := Loaded r; Skipped := Skipped r; Errors := Errors r ++ [e] |}.

Definition keep (r : LoadResult) (sig : CompiledSignature) : LoadResult :=
  {| Signatures := Signatures r ++ [sig]; Loaded := Loaded r + 1; Skipped := Skipped r;
     Errors := Errors r |}.

Definition set_SourcePath (t : Template) (path : string) : Template := {|
  t_ID := t_ID t; t_Info := t_Info t; t_HTTP := t_HTTP t; t_SessionMatchers := t_SessionMatchers t;
  t_Action := t_Action t; t_ActionResponseCode := t_ActionResponseCode t; t_SourcePath := path |}.

Definition is_yaml (path : string) : bool :=
  let ext := ToLower (Ext path) in (ext =?s ".yaml") || (ext =?s ".yml").

(** The callback of [WalkDir] on a file. *)
Definition load_file (path : string) (content : option string) (res : LoadResult) : LoadResult :=
  if negb (is_yaml path) then res else
  match content with
  | None => skip res [ERead path]
  | Some data =>
      match ParseTemplate yaml_Unmarshal data with
      | inl perr => skip res [EParse path perr]
      | inr tmpl =>
          match Compile (set_SourcePath tmpl path) with
          | None => skip res [ECompile path]
          | Some sig =>
              match blocks sig with
              | [] => skip res []
              | _ => keep res sig
              end
          end
      end
  end.

(** [WalkDir] with that callback; a directory that cannot be listed is met a
    second time with its error. *)
Fixpoint walk (path : string) (n : fsnode) (res : LoadResult) : LoadResult :=
  match n with
  | File _ content => load_file path content res
  | Dir name children =>
      if name =?s ".git" then res
      else match children with
           | None => note_error res (EWalk path)
           | Some cs => fold_left (fun r c => walk (filepath_Join path (node_name c)) c r) cs res
           end
  end.

Definition no_result : LoadResult := {| Signatures := []; Loaded := 0; Skipped := 0; Errors := [] |}.

(** [LoadDir]; [root] is [None] when the directory cannot be inspected (it is
    absent, say), which the callback records like any other error.  The
    callback never returns an error, so neither does [LoadDir]. *)
Definition LoadDir (dir : string) (root : option fsnode) : LoadResult :=
  match root with
  | None => note_error no_result (EWalk dir)
  | Some n => walk dir n no_result
  end.

(** ** What is loaded *)

(** The YAML files outside [.git], in walk order. *)
Fixpoint yaml_files (path : string) (n : fsnode) : list (string * option string) :=
  match n with
  | File _ content => if is_yaml path then [(path, content)] else []
  | Dir name children =>
      if name =?s ".git" then []
      else match children with
           | None => []
           | Some cs => flat_map (fun c => yaml_files (filepath_Join path (node_name c)) c) cs
           end
  end.

(** The signature of a file: it can be read, parsed and compiled, and has at
    least one [http] block. *)
Definition file_signature (f : string * option string) : option CompiledSignature :=
  data ← f.2;
  match ParseTemplate yaml_Unmarshal data with
  | inl _ => None
  | inr tmpl =>
      sig ← Compile (set_SourcePath tmpl f.1);
      match blocks sig with [] => None | _ => Some sig end
  end.

(** [r'] is [r] with the files [fs] loaded. *)
Definition loads (r : LoadResult) (fs : list (string * option string)) (r' : LoadResult) : Prop :=
  Signatures r' = Signatures r ++ omap file_signature fs /\
  Loaded r' = Loaded r + Z.of_nat (length (omap file_signature fs)) /\
  Loaded r' + Skipped r' = Loaded r + Skipped r + Z.of_nat (length fs).

Lemma loads_nil r : loads r [] r.
Proof. unfold loads. cbn. rewrite app_nil_r. split_and!; [done|lia..]. Qed.

Lemma loads_app r fs r1 gs r2 : loads r fs r1 -> loads r1 gs r2 -> loads r (fs ++ gs) r2.
Proof.
  unfold loads. intros (E1 & E2 & E3) (F1 & F2 & F3).
  rewrite omap_app, !length_app, F1, E1, app_assoc. split_and!; [done|lia..].
Qed.

Lemma load_file_loads path content r :
  loads r (if is_yaml path then [(path, content)] else []) (load_file path content r).
Proof.
  unfold load_file. destruct (is_yaml path); cbn [negb]; [|apply loads_nil].
  unfold loads. cbn [omap list_omap]. unfold file_signature. cbn [fst snd].
  destruct content as [data|]; cbn [mbind option_bind];
    [destruct (ParseTemplate yaml_Unmarshal data) as [|tmpl];
     [|destruct (Compile (set_SourcePath tmpl path)) as [sig|]; cbn [mbind option_bind];
       [destruct (blocks sig)|]]|];
    cbn; rewrite ?app_nil_r; split_and!; (done || lia).
Qed.

Lemma walk_loads n : forall path r, loads r (yaml_files path n) (walk path n r).
Proof.
  revert n. fix IH 1. intros [name content|name children] path r; cbn [walk yaml_files].
  - apply load_file_loads.
  - destruct (name =?s ".git"); [apply loads_nil|]. destruct children as [cs|].
    + revert r. induction cs as [|c cs IHcs]; intros r; [apply loads_nil|].
      cbn [fold_left flat_map]. eapply loads_app; [apply IH|apply IHcs].
    + unfold loads, note_error. cbn. rewrite app_nil_r. split_and!; [done|lia..].
Qed.

(** A bad template takes nothing down with it: [LoadDir] loads exactly the
    templates of the tree (the [.yaml] and [.yml] files outside [.git]) that
    can be read, parsed and compiled and have an [http] block, in walk order,
    whatever the other files hold; the rest are counted as skipped, and every
    template is counted once. *)
Theorem LoadDir_isolates_failures dir root :
  let r := LoadDir dir (Some root) in
  Signatures r = omap file_signature (yaml_files dir root) /\
  Loaded r = Z.of_nat (length (Signatures r)) /\
  Loaded r + Skipped r = Z.of_nat (length (yaml_files dir root)).
Proof.
  intros r. destruct (walk_loads root dir no_result) as (E1 & E2 & E3).
  unfold r, LoadDir. rewrite E1. cbn in E2, E3 |- *. split_and!; [done|lia|lia].
Qed.

End Loader.
