(* ===== verification/Git.v ===== *)
(** * Mirroring a repository ([SyncRepo] in [internal/detect/loader.go])

    The sequence of [git] commands.  [git] itself, and the directory it works
    on, are an interface: a state, what [os.MkdirAll] does to it, and what
    running a command does. *)

From S2P Require Export GoStrings.

(** A command and the directory it runs in. *)
Record command := { cmd_Dir : string; cmd_Args : list string }.

(** [exec.Cmd.CombinedOutput]: the error, if any, and the output *)
Class Host (S : Type) := {
  host_MkdirAll : S -> string -> option string * S;
  host_run : S -> command -> option string * string * S;
}.

(** [GitSource] *)
Record GitSource := { g_Name : string; g_URL : string; g_Branch : string; g_Subdir : string }.

Section Git.
Context `{Unicode} {S : Type} `{Host S}.

(** [run]; [dir] is never empty here *)
Definition run (s : S) (dir : string) (args : list string) : option string * S :=
  let '(err, out, s) := host_run s {| cmd_Dir := dir; cmd_Args := args |} in
  (match err with Some e => Some (e +:+ ": " +:+ TrimSpace out) | None => None end, s).

Definition git_init : list string := ["git"; "init"; "-q"].
Definition git_remote_add (url : string) : list string := ["git"; "remote"; "add"; "origin"; url].
Definition git_remote_set (url : string) : list string := ["git"; "remote"; "set-url"; "origin"; url].
Definition git_fetch (branch : string) : list string :=
  ["git"; "fetch"; "--depth"; "1"; "-q"; "origin"; branch].
Definition git_checkout : list string := ["git"; "checkout"; "-q"; "FETCH_HEAD"; "--"; "."].

Definition syncOne (s : S) (dest : string) (g : GitSource) : option string * S :=
  let branch := if g_Branch g =?s "" then "main" else g_Branch g in
  match host_MkdirAll s dest with
  | (Some e, s) => (Some e, s)
  | (None, s) =>
      match run s dest git_init with
      | (Some e, s) => (Some e, s)
      | (None, s) =>
          let s := (run s dest (git_remote_add (g_URL g))).2 in
          match run s dest (git_remote_set (g_URL g)) with
          | (Some e, s) => (Some e, s)
          | (None, s) =>
              match run s dest (git_fetch branch) with
              | (Some e, s) => (Some e, s)
              | (None, s) => run s dest git_checkout
              end
          end
      end
  end.

Definition SyncRepo (s : S) (dest url branch : string) : option string * S :=
  if url =?s "" then (None, s)
  else syncOne s dest {| g_Name := ""; g_URL := url; g_Branch := branch; g_Subdir := "" |}.

End Git.

(** ** What a sync does to the files

    The documented behaviour of [git] that the comments of [syncOne] rely on:
    [init], [remote] and [fetch] leave the files of the work tree alone, [fetch]
    sets [FETCH_HEAD] to the branch of the URL of [origin], [set-url] sets that
    URL, and [checkout FETCH_HEAD -- .] writes the files of [FETCH_HEAD] over
    those of the same name and leaves the others; a failed command leaves the
    files alone.  [repo] is what the remote serves. *)
Class GitLaws (S : Type) `{Host S} (repo : string -> string -> gmap string string) := {
  work : S -> string -> gmap string string;
  origin : S -> string -> option string;
  fetch_head : S -> string -> option (gmap string string);
  git_mkdir s d d' : work (host_MkdirAll s d).2 d' = work s d';
  git_quiet s dir args :
    args <> git_checkout -> work (host_run s {| cmd_Dir := dir; cmd_Args := args |}).2 dir = work s dir;
  git_failed s dir args e :
    (host_run s {| cmd_Dir := dir; cmd_Args := args |}).1.1 = Some e ->
    work (host_run s {| cmd_Dir := dir; cmd_Args := args |}).2 dir = work s dir;
  git_set_url s dir url :
    (host_run s {| cmd_Dir := dir; cmd_Args := git_remote_set url |}).1.1 = None ->
    origin (host_run s {| cmd_Dir := dir; cmd_Args := git_remote_set url |}).2 dir = Some url;
  git_fetched s dir branch url :
    (host_run s {| cmd_Dir := dir; cmd_Args := git_fetch branch |}).1.1 = None ->
    origin s dir = Some url ->
    fetch_head (host_run s {| cmd_Dir := dir; cmd_Args := git_fetch branch |}).2 dir = Some (repo url branch);
  git_checked_out s dir head :
    (host_run s {| cmd_Dir := dir; cmd_Args := git_checkout |}).1.1 = None ->
    fetch_head s dir = Some head ->
    work (host_run s {| cmd_Dir := dir; cmd_Args := git_checkout |}).2 dir = head ∪ work s dir;
}.

Section GitFacts.
Context `{Unicode} {S : Type} {repo : string -> string -> gmap string string} `{GitLaws S repo}.

Lemma run_result s dir args err s' :
  run s dir args = (err, s') ->
  s' = (host_run s {| cmd_Dir := dir; cmd_Args := args |}).2 /\
  match err with
  | None => (host_run s {| cmd_Dir := dir; cmd_Args := args |}).1.1 = None
  | Some _ => exists e, (host_run s {| cmd_Dir := dir; cmd_Args := args |}).1.1 = Some e
  end.
Proof.
  unfold run. destruct (host_run _ _) as [[[e|] out] s1]; intros [= <- <-]; cbn; split; eauto.
Qed.

Lemma run_quiet s dir args err s' :
  run s dir args = (err, s') -> args <> git_checkout \/ is_Some err -> work s' dir = work s dir.
Proof.
  intros Hr Hq. destruct (run_result _ _ _ _ _ Hr) as [-> He]. destruct Hq as [Hq|[e ->]].
  - by apply git_quiet.
  - destruct He as [e' He]. by eapply git_failed.
Qed.

(** A sync that succeeds overlays the branch of the repository on the
    directory: the files of the repository are there with its contents, and
    local files it does not have are kept; a sync that fails, at whatever
    command, leaves the files as they were; a blank URL does nothing. *)
Theorem SyncRepo_overlays s dest url branch :
  let r := SyncRepo s dest url branch in
  match r.1 with
  | None =>
      if url =?s "" then r.2 = s
      else work r.2 dest = repo url (if branch =?s "" then "main" else branch) ∪ work s dest
  | Some _ => work r.2 dest = work s dest
  end.
Proof.
  intros r. unfold r, SyncRepo. destruct (url =?s ""); [done|]. unfold syncOne. cbn [g_Branch g_URL].
  set (b := if branch =?s "" then "main" else branch).
  pose proof (git_mkdir s dest dest) as Em.
  destruct (host_MkdirAll s dest) as [[e|] s1]; cbn [fst snd] in *; [done|].
  destruct (run s1 dest git_init) as [[e|] s2] eqn:E2.
  { cbn. rewrite (run_quiet _ _ _ _ _ E2), Em by (by left). done. }
  apply run_quiet in E2 as W2; [|by left].
  destruct (run s2 dest (git_remote_add url)) as [e3 s3] eqn:E3. cbn [snd].
  apply run_quiet in E3 as W3; [|by left].
  destruct (run s3 dest (git_remote_set url)) as [[e|] s4] eqn:E4.
  { cbn. rewrite (run_quiet _ _ _ _ _ E4) by (by left). by rewrite W3, W2, Em. }
  apply run_quiet in E4 as W4; [|by left].
  destruct (run_result _ _ _ _ _ E4) as [-> Ok4]. apply git_set_url in Ok4 as O4.
  destruct (run _ dest (git_fetch b)) as [[e|] s5] eqn:E5.
  { cbn. rewrite (run_quiet _ _ _ _ _ E5) by (by left). by rewrite W4, W3, W2, Em. }
  apply run_quiet in E5 as W5; [|by left].
  destruct (run_result _ _ _ _ _ E5) as [-> Ok5]. pose proof (git_fetched _ _ _ _ Ok5 O4) as F5.
  destruct (run _ dest git_checkout) as [[e|] s6] eqn:E6; cbn [fst snd].
  { rewrite (run_quiet _ _ _ _ _ E6) by (right; eauto). by rewrite W5, W4, W3, W2, Em. }
  destruct (run_result _ _ _ _ _ E6) as [-> Ok6]. rewrite (git_checked_out _ _ _ Ok6 F5).
  by rewrite W5, W4, W3, W2, Em.
Qed.

End GitFacts.

(** ** Commands in order *)

(** A host that records the commands and lets those in [bad] fail. *)
Module Recorder.

Record host := { ran : list (list string); bad : list (list string) }.

#[export] Instance recorder : Host host := {
  host_MkdirAll h d := (None, h);
  host_run h c := (if bool_decide (cmd_Args c ∈ bad h) then Some "exit status 1" else None, "",
                   {| ran := ran h ++ [cmd_Args c]; bad := bad h |});
}.

End Recorder.

Section Order.
Import Recorder.
Context `{Unicode}.

Lemma run_recorded h dir args :
  run h dir args =
    (if bool_decide (args ∈ bad h) then Some ("exit status 1" +:+ ": " +:+ TrimSpace "") else None,
     {| ran := ran h ++ [args]; bad := bad h |}).
Proof. unfold run, host_run, recorder. cbn [cmd_Args]. by destruct (bool_decide (args ∈ bad h)). Qed.

(** The commands run in order, each only if those before it succeeded, except
    that [remote add] may fail (the remote exists); and the sync succeeds only
    if all the others did. *)
Theorem SyncRepo_protocol bad dest url branch :
  url <> "" ->
  let b := if branch =?s "" then "main" else branch in
  let r := SyncRepo {| ran := []; bad := bad |} dest url branch in
  (exists rest, ran r.2 ++ rest =
     [git_init; git_remote_add url; git_remote_set url; git_fetch b; git_checkout]) /\
  (git_checkout ∈ ran r.2 -> git_init ∉ bad /\ git_remote_set url ∉ bad /\ git_fetch b ∉ bad) /\
  (r.1 = None <-> git_init ∉ bad /\ git_remote_set url ∉ bad /\ git_fetch b ∉ bad /\ git_checkout ∉ bad).
Proof.
  intros Hu b r. unfold r, SyncRepo. rewrite (proj2 (String.eqb_neq url "")) by done.
  unfold syncOne. cbn [g_Branch g_URL host_MkdirAll recorder]. fold b.
  rewrite run_recorded. cbv beta iota zeta delta [fst snd Recorder.bad Recorder.ran app].
  case_bool_decide as H1.
  { split; [by eexists|]. split; [by intros ?%list_elem_of_singleton|]. split; [done|tauto]. }
  rewrite !(run_recorded _ _ (git_remote_add url)), run_recorded.
  cbv beta iota zeta delta [fst snd Recorder.bad Recorder.ran app]. case_bool_decide as H2.
  { split; [by eexists|]. split; [set_solver|]. split; [done|tauto]. }
  rewrite run_recorded. cbv beta iota zeta delta [fst snd Recorder.bad Recorder.ran app].
  case_bool_decide as H3.
  { split; [by exists [git_checkout]|]. split; [set_solver|]. split; [done|tauto]. }
  rewrite run_recorded. cbv beta iota zeta delta [fst snd Recorder.bad Recorder.ran app].
  split; [by exists []|]. split; [done|]. case_bool_decide as H4; split; try done; tauto.
Qed.

End Order.

(** ** Examples and witnesses *)

Module GitExamples.
Import Recorder.

#[local] Existing Instance ascii_only.

Lemma SyncRepo_protocol_witness :
  (SyncRepo {| Recorder.ran := []; Recorder.bad := [git_remote_add "u"] |} "/t" "u" "").1 = None.
Proof.
  refine (proj2 (proj2 (proj2 (SyncRepo_protocol [git_remote_add "u"] "/t" "u" "" _))) _); [discriminate|].
  split_and!; intros Hin%list_elem_of_singleton; discriminate Hin.
Defined.

Example sync_order :
  Recorder.ran (SyncRepo {| Recorder.ran := []; Recorder.bad := [git_fetch "main"] |} "/t" "u" "").2 =
    [git_init; git_remote_add "u"; git_remote_set "u"; git_fetch "main"].
Proof. vm_compute. reflexivity. Qed.

(** A host with one directory, whose [git] works. *)
Record dir_state := { d_work : gmap string string; d_origin : option string; d_head : option (gmap string string) }.

Definition remote (url branch : string) : gmap string string :=
  if (url =?s "u") && (branch =?s "main") then {["cve.yaml" := "new"]} else ∅.

#[local] Instance one_dir : Host dir_state := {
  host_MkdirAll s d := (None, s);
  host_run s c :=
    (None, "",
     let args := cmd_Args c in
     if bool_decide (args = git_checkout) then
       {| d_work := default ∅ (d_head s) ∪ d_work s; d_origin := d_origin s; d_head := d_head s |}
     else if bool_decide (take 4 args = ["git"; "remote"; "set-url"; "origin"]) then
       {| d_work := d_work s; d_origin := args !! 4%nat; d_head := d_head s |}
     else if bool_decide (take 6 args = ["git"; "fetch"; "--depth"; "1"; "-q"; "origin"]) then
       {| d_work := d_work s; d_origin := d_origin s;
          d_head := url ← d_origin s; branch ← args !! 6%nat; Some (remote url branch) |}
     else s);
}.

#[local] Program Instance one_dir_laws : GitLaws dir_state remote := {
  work s _ := d_work s;
  origin s _ := d_origin s;
  fetch_head s _ := d_head s;
}.
Next Obligation. done. Qed.
Next Obligation.
  intros s dir args Hne. cbn [host_run one_dir cmd_Args snd]. rewrite bool_decide_eq_false_2 by done.
  cbn. destruct (bool_decide _); [done|]. by destruct (bool_decide _).
Qed.
Next Obligation. done. Qed.
Next Obligation. done. Qed.
Next Obligation. intros s dir branch url _ E. cbn. by rewrite E. Qed.
Next Obligation. intros s dir head _ E. cbn. by rewrite E. Qed.

Example overlay_ex :
  d_work (SyncRepo {| d_work := {["cve.yaml" := "old"; "mine.yaml" := "x"]}; d_origin := None; d_head := None |}
    "/t" "u" "").2 = {["cve.yaml" := "new"; "mine.yaml" := "x"]}.
Proof. vm_compute. reflexivity. Qed.

End GitExamples.
