(* ===== verification/GoCrypto.v ===== *)
(** * SHA-256, HMAC, base64 and hex

    The packages [crypto/sha256] (FIPS 180-4), [crypto/hmac] (RFC 2104),
    [encoding/base64] ([RawURLEncoding]) and [encoding/hex] as executable
    functions on byte strings, checked on the published test vectors.  Words are
    32-bit integers in [Z]. *)

From S2P Require Export GoStrings.

Module Sha256.

Definition w32 (x : Z) : Z := x mod 2 ^ 32.
Definition add32 (x y : Z) : Z := w32 (x + y).
Definition rotr (n x : Z) : Z := Z.lor (Z.shiftr x n) (w32 (Z.shiftl x (32 - n))).
Definition not32 (x : Z) : Z := 2 ^ 32 - 1 - x.

(** FIPS 180-4 defines its constants: the first 32 bits of the fractional parts
    of the square roots (initial state) and of the cube roots (round constants)
    of the first primes. *)
Definition isPrime (p : Z) : bool :=
  forallb (fun d => negb (p mod Z.of_nat d =? 0)) (seq 2 (Z.to_nat (Z.sqrt p) - 1)).

Definition primes (n : nat) : list Z :=
  take n (List.filter isPrime (Z.of_nat <$> seq 2 320)).

(** The integer cube root, [k] bits from the top. *)
Fixpoint cbrt_from (k : nat) (acc x : Z) : Z :=
  match k with
  | O => acc
  | S k =>
      let t := acc + 2 ^ Z.of_nat k in
      cbrt_from k (if t * t * t <=? x then t else acc) x
  end.

Definition H0 : list Z :=
  Eval vm_compute in (fun p => w32 (Z.sqrt (p * 2 ^ 64))) <$> primes 8.

Definition K : list Z :=
  Eval vm_compute in (fun p => w32 (cbrt_from 40 0 (p * 2 ^ 96))) <$> primes 64.

Definition ch (x y z : Z) : Z := Z.lxor (Z.land x y) (Z.land (not32 x) z).
Definition maj (x y z : Z) : Z := Z.lxor (Z.lxor (Z.land x y) (Z.land x z)) (Z.land y z).
Definition bsig0 (x : Z) : Z := Z.lxor (Z.lxor (rotr 2 x) (rotr 13 x)) (rotr 22 x).
Definition bsig1 (x : Z) : Z := Z.lxor (Z.lxor (rotr 6 x) (rotr 11 x)) (rotr 25 x).
Definition ssig0 (x : Z) : Z := Z.lxor (Z.lxor (rotr 7 x) (rotr 18 x)) (Z.shiftr x 3).
Definition ssig1 (x : Z) : Z := Z.lxor (Z.lxor (rotr 17 x) (rotr 19 x)) (Z.shiftr x 10).

(** The message schedule, latest word first: 16 words of the block and [n]
    more. *)
Fixpoint schedule (n : nat) (w : list Z) : list Z :=
  match n with
  | O => w
  | S n =>
      let wt := add32 (add32 (ssig1 (nth 1 w 0)) (nth 6 w 0))
                      (add32 (ssig0 (nth 14 w 0)) (nth 15 w 0)) in
      schedule n (wt :: w)
  end.

Definition round (st : list Z) (kw : Z * Z) : list Z :=
  match st with
  | [a; b; c; d; e; f; g; h] =>
      let t1 := add32 (add32 h (bsig1 e)) (add32 (ch e f g) (add32 kw.1 kw.2)) in
      let t2 := add32 (bsig0 a) (maj a b c) in
      [add32 t1 t2; a; b; c; add32 d t1; e; f; g]
  | _ => st
  end.

Definition compress (st block : list Z) : list Z :=
  let w := rev (schedule 48 (rev block)) in
  zip_with add32 st (fold_left round (zip K w) st).

(** Big-endian words of four bytes. *)
Fixpoint words (bs : list Z) : list Z :=
  match bs with
  | a :: b :: c :: d :: bs => (((a * 256 + b) * 256 + c) * 256 + d) :: words bs
  | _ => []
  end.

Fixpoint blocks (n : nat) (ws : list Z) : list (list Z) :=
  match n with
  | O => []
  | S n => match ws with [] => [] | _ => take 16 ws :: blocks n (drop 16 ws) end
  end.

Fixpoint be_bytes (n : nat) (x : Z) : list Z :=
  match n with
  | O => []
  | S n => be_bytes n (x / 256) ++ [x mod 256]
  end.

Definition pad (bs : list Z) : list Z :=
  let l := length bs in
  let zeros := Z.to_nat ((55 - Z.of_nat l) mod 64) in
  bs ++ 128 :: replicate zeros 0 ++ be_bytes 8 (Z.of_nat l * 8).

Definition sum (bs : list Z) : list Z :=
  let ws := words (pad bs) in
  flat_map (be_bytes 4) (fold_left compress (blocks (length ws) ws) H0).

End Sha256.

Definition byte_Z (c : byte) : Z := Z.of_N (byte_N c).
Definition Z_byte (z : Z) : byte := ascii_of_N (Z.to_N z).
Definition string_bytes (s : string) : list Z := byte_Z <$> String.list_ascii_of_string s.
Definition bytes_string (l : list Z) : string := String.string_of_list_ascii (Z_byte <$> l).

(** [sha256.Sum256] *)
Definition Sum256 (s : string) : string := bytes_string (Sha256.sum (string_bytes s)).

(** [hmac.New(sha256.New, key)], [Write(msg)], [Sum(nil)] *)
Definition hmac_sha256 (key msg : string) : string :=
  let k := string_bytes key in
  let k := if (64 <? length k)%nat then Sha256.sum k else k in
  let k := k ++ replicate (64 - length k) 0 in
  let ipad := Z.lxor 54 <$> k in
  let opad := Z.lxor 92 <$> k in
  bytes_string (Sha256.sum (opad ++ Sha256.sum (ipad ++ string_bytes msg))).

(** ** base64.RawURLEncoding *)

Definition b64_alphabet : string :=
  "ABCDEFGHIJKLMNOPQRSTUVWXYZabcdefghijklmnopqrstuvwxyz0123456789-_".

Definition b64_char (n : Z) : byte := default "A"%char (String.get (Z.to_nat n) b64_alphabet).

Fixpoint b64_encode (bs : list Z) : list byte :=
  match bs with
  | a :: b :: c :: bs =>
      b64_char (a / 4) :: b64_char (a mod 4 * 16 + b / 16) ::
      b64_char (b mod 16 * 4 + c / 64) :: b64_char (c mod 64) :: b64_encode bs
  | [a; b] => [b64_char (a / 4); b64_char (a mod 4 * 16 + b / 16); b64_char (b mod 16 * 4)]
  | [a] => [b64_char (a / 4); b64_char (a mod 4 * 16)]
  | [] => []
  end.

Definition RawURLEncoding (s : string) : string := String.string_of_list_ascii (b64_encode (string_bytes s)).

(** ** hex.EncodeToString *)

Definition hex_char (n : Z) : byte := default "0"%char (String.get (Z.to_nat n) "0123456789abcdef").

Definition hex_EncodeToString (s : string) : string :=
  String.string_of_list_ascii (flat_map (fun b => [hex_char (b / 16); hex_char (b mod 16)]) (string_bytes s)).

(** ** Lemmas *)

Definition is_b64 (c : byte) : bool := str_existsb (fun x => x =?c c) b64_alphabet.

Lemma b64_char_ok n : is_b64 (b64_char n) = true.
Proof.
  unfold b64_char. destruct (Z.to_nat n) as [|k]; [done|].
  do 64 (destruct k as [|k]; [vm_compute; reflexivity|]). done.
Qed.

Lemma b64_encode_chars bs : Forall (fun c => is_b64 c = true) (b64_encode bs).
Proof.
  revert bs. fix IH 1. intros [|a [|b [|c bs]]]; cbn [b64_encode];
    repeat (constructor; [apply b64_char_ok|]); [constructor..|apply IH].
Qed.

Lemma str_forallb_of_list p l :
  Forall (fun c => p c = true) l -> str_forallb p (String.string_of_list_ascii l) = true.
Proof. induction 1 as [|c l Hc _ IH]; [done|]. cbn. by rewrite Hc, IH. Qed.

Lemma str_forallb_impl (p q : byte -> bool) s :
  (forall c, p c = true -> q c = true) -> str_forallb p s = true -> str_forallb q s = true.
Proof.
  intros Hpq. induction s as [|c s IH]; [done|]. cbn. rewrite !andb_true_iff.
  intros [Hc Hs]. split; [by apply Hpq|by apply IH].
Qed.

Lemma RawURLEncoding_chars s : str_forallb is_b64 (RawURLEncoding s) = true.
Proof. apply str_forallb_of_list, b64_encode_chars. Qed.

Lemma RawURLEncoding_no_dot s : str_forallb (fun c => negb (c =?c ".")) (RawURLEncoding s) = true.
Proof.
  eapply str_forallb_impl; [|apply RawURLEncoding_chars]. intros c.
  destruct (Ascii.eqb_spec c "."%char) as [->|]; [|done]. by vm_compute.
Qed.

Lemma b64_encode_nonempty bs : bs <> [] -> b64_encode bs <> [].
Proof. by destruct bs as [|a [|b [|c bs]]]. Qed.

Lemma string_bytes_nonempty s : s <> "" -> string_bytes s <> [].
Proof. by destruct s. Qed.

Lemma RawURLEncoding_nonempty s : s <> "" -> RawURLEncoding s <> "".
Proof.
  intros Hs. unfold RawURLEncoding. pose proof (b64_encode_nonempty _ (string_bytes_nonempty s Hs)).
  by destruct (b64_encode (string_bytes s)).
Qed.

(** ** Lemmas: the length of a digest *)

Module Digest.
Import Sha256.

Lemma be_bytes_length n x : length (be_bytes n x) = n.
Proof. revert x; induction n as [|n IH]; intros x; [done|]. cbn [be_bytes]. rewrite length_app, IH. cbn. lia. Qed.

Lemma round_length st kw : length (round st kw) = length st.
Proof. by destruct st as [|? [|? [|? [|? [|? [|? [|? [|? [|? ?]]]]]]]]]. Qed.

Lemma compress_length st block : length (compress st block) = length st.
Proof.
  unfold compress. generalize (zip K (rev (schedule 48 (rev block)))) as kws.
  intros kws. rewrite length_zip_with.
  enough (E : length (fold_left round kws st) = length st) by lia.
  revert st. induction kws as [|kw kws IH]; intros st; [done|]. cbn [fold_left].
  by rewrite IH, round_length.
Qed.

Lemma sum_length bs : length (sum bs) = 32%nat.
Proof.
  unfold sum. generalize (blocks (length (words (pad bs))) (words (pad bs))) as bl. intros bl.
  assert (E : length (fold_left compress bl H0) = 8%nat).
  { assert (E0 : length H0 = 8%nat) by done. revert E0. generalize H0 as st.
    induction bl as [|b bl IH]; intros st E; [done|]. cbn [fold_left]. apply IH. by rewrite compress_length. }
  generalize dependent (fold_left compress bl H0). intros l E.
  destruct l as [|? [|? [|? [|? [|? [|? [|? [|? [|? ?]]]]]]]]]; try discriminate.
  cbn [flat_map]. rewrite !length_app, !be_bytes_length. done.
Qed.

End Digest.

Lemma bytes_string_length l : String.length (bytes_string l) = length l.
Proof. unfold bytes_string. induction l as [|x l IH]; [done|]. cbn. by rewrite IH. Qed.

Lemma Sum256_length s : String.length (Sum256 s) = 32%nat.
Proof. unfold Sum256. by rewrite bytes_string_length, Digest.sum_length. Qed.

Lemma hmac_length key msg : String.length (hmac_sha256 key msg) = 32%nat.
Proof. unfold hmac_sha256. by rewrite bytes_string_length, Digest.sum_length. Qed.

(** ** Published test vectors *)

Example sha256_empty :
  hex_EncodeToString (Sum256 "") = "e3b0c44298fc1c149afbf4c8996fb92427ae41e4649b934ca495991b7852b855".
Proof. vm_compute. reflexivity. Qed.
Example sha256_abc :
  hex_EncodeToString (Sum256 "abc") = "ba7816bf8f01cfea414140de5dae2223b00361a396177a9cb410ff61f20015ad".
Proof. vm_compute. reflexivity. Qed.
Example sha256_two_blocks :
  hex_EncodeToString (Sum256 "abcdbcdecdefdefgefghfghighijhijkijkljklmklmnlmnomnopnopq") =
  "248d6a61d20638b8e5c026930c3e6039a33ce45964ff2167f6ecedd419db06c1".
Proof. vm_compute. reflexivity. Qed.
Example hmac_rfc4231_2 :
  hex_EncodeToString (hmac_sha256 "Jefe" "what do ya want for nothing?") =
  "5bdcc146bf60754e6a042426089575c75a003f089d2739839dec58b964ec3843".
Proof. vm_compute. reflexivity. Qed.
Example base64_ex : RawURLEncoding "any carnal pleas" = "YW55IGNhcm5hbCBwbGVhcw". Proof. reflexivity. Qed.
