(* ===== verification/Http.v ===== *)
(** * Requests, headers and response writers

    The part of [net/http] the handlers work with: requests as the server
    delivers them, header maps under canonical keys, and a response writer that
    sends its header once. *)

From S2P Require Export GoStrings.

(** ** Headers *)

(** [http.CanonicalHeaderKey] on ASCII keys. *)
Fixpoint canonical_from (upper : bool) (k : string) : string :=
  match k with
  | EmptyString => ""
  | String c k => String (if upper then byte_upper c else byte_lower c) (canonical_from (c =?c "-") k)
  end.

Definition CanonicalHeaderKey (k : string) : string := canonical_from true k.

Abbreviation Header := (gmap string (list string)) (only parsing).

Module Header.

Definition Values (h : gmap string (list string)) (k : string) : list string :=
  default [] (h !! CanonicalHeaderKey k).

Definition Get (h : gmap string (list string)) (k : string) : string :=
  match Values h k with v :: _ => v | [] => "" end.

Definition Set_ (h : gmap string (list string)) (k v : string) : gmap string (list string) :=
  <[CanonicalHeaderKey k := [v]]> h.

Definition Add (h : gmap string (list string)) (k v : string) : gmap string (list string) :=
  <[CanonicalHeaderKey k := Values h k ++ [v]]> h.

Definition Del (h : gmap string (list string)) (k : string) : gmap string (list string) :=
  delete (CanonicalHeaderKey k) h.

Lemma Get_Set_eq h k v : Get (Set_ h k v) k = v.
Proof. unfold Get, Values, Set_. by rewrite lookup_insert_eq. Qed.

Lemma Get_Set_ne h k j v :
  CanonicalHeaderKey j <> CanonicalHeaderKey k -> Get (Set_ h k v) j = Get h j.
Proof. intros. unfold Get, Values, Set_. by rewrite lookup_insert_ne. Qed.

End Header.

(** ** Requests *)

(** What a body still holds: its bytes, then an error or the end. *)
Record reader := { rd_data : string; rd_fails : bool }.

(** A request as [net/http] delivers it.  [r_Form] are the decoded form values
    in order of precedence, [r_Cookies] the parsed cookies, [r_RequestURI] is
    [r.URL.RequestURI()]; a nil body is [None].  [r_GetBody] is what [GetBody]
    yields, anew each time it is called; a nil function is [None]. *)
Record Request := {
  r_Method : string;
  r_Host : string;
  r_RemoteAddr : string;
  r_TLS : bool;
  r_Path : string;
  r_RawQuery : string;
  r_RequestURI : string;
  r_Header : gmap string (list string);
  r_Form : list (string * string);
  r_Cookies : list (string * string);
  r_Body : option reader;
  r_GetBody : option string;
  r_ContentLength : Z;
}.

Definition lookup_first (l : list (string * string)) (k : string) : option string :=
  snd <$> find (fun kv => kv.1 =?s k) l.

(** [r.FormValue] *)
Definition FormValue (r : Request) (k : string) : string := default "" (lookup_first (r_Form r) k).

(** [r.Cookie(name)] and its [Value]; [None] is [ErrNoCookie]. *)
Definition Cookie (r : Request) (name : string) : option string := lookup_first (r_Cookies r) name.

Definition UserAgent (r : Request) : string := Header.Get (r_Header r) "User-Agent".

(** ** URL escapes *)

Definition is_hex (c : byte) : bool := is_digit c || ((97 <=? byte_N (byte_lower c)) && (byte_N (byte_lower c) <=? 102))%N.

Definition unhex (c : byte) : N :=
  if is_digit c then byte_N c - 48 else byte_N (byte_lower c) - 87.

(** [url.QueryUnescape]; [None] is an error. *)
Fixpoint QueryUnescape (s : string) : option string :=
  match s with
  | EmptyString => Some ""
  | String c s' =>
      if c =?c "%" then
        match s' with
        | String a (String b s'') =>
            if is_hex a && is_hex b
            then String (ascii_of_N (16 * unhex a + unhex b)) <$> QueryUnescape s''
            else None
        | _ => None
        end
      else String (if c =?c "+" then " "%char else c) <$> QueryUnescape s'
  end.

(** ** Cookies set on responses *)

(** [http.Cookie] with [HttpOnly] and [SameSite=Lax], as smoker sets it. *)
Record cookie := {
  ck_Name : string; ck_Value : string; ck_Path : string; ck_Secure : bool; ck_MaxAge : Z }.

(** [Cookie.String()] for names and values that need no quoting. *)
Definition cookie_String (c : cookie) : string :=
  ck_Name c +:+ "=" +:+ ck_Value c +:+ "; Path=" +:+ ck_Path c +:+
  (if 0 <? ck_MaxAge c then "; Max-Age=" +:+ Itoa (ck_MaxAge c)
   else if ck_MaxAge c <? 0 then "; Max-Age=0" else "") +:+
  "; HttpOnly" +:+ (if ck_Secure c then "; Secure" else "") +:+ "; SameSite=Lax".

(** ** Response writers *)

(** A response writer: the header map being built, the status and header that
    were sent, the body so far. *)
Record writer := {
  w_Header : gmap string (list string);
  w_sent : option (Z * gmap string (list string));
  w_body : string;
}.

Definition new_writer : writer := {| w_Header := ∅; w_sent := None; w_body := "" |}.

Definition set_header (w : writer) (k v : string) : writer :=
  {| w_Header := Header.Set_ (w_Header w) k v; w_sent := w_sent w; w_body := w_body w |}.

Definition add_header (w : writer) (k v : string) : writer :=
  {| w_Header := Header.Add (w_Header w) k v; w_sent := w_sent w; w_body := w_body w |}.

(** Only the first [WriteHeader] counts. *)
Definition WriteHeader (w : writer) (code : Z) : writer :=
  match w_sent w with
  | Some _ => w
  | None => {| w_Header := w_Header w; w_sent := Some (code, w_Header w); w_body := w_body w |}
  end.

(** The first [Write] sends status 200. *)
Definition Write (w : writer) (b : string) : writer :=
  let w := WriteHeader w 200 in
  {| w_Header := w_Header w; w_sent := w_sent w; w_body := w_body w +:+ b |}.

Definition StatusOK : Z := 200.
Definition StatusFound : Z := 302.
Definition StatusForbidden : Z := 403.
Definition StatusTooManyRequests : Z := 429.
Definition StatusBadGateway : Z := 502.
Definition StatusServiceUnavailable : Z := 503.

Example canonical_ex : CanonicalHeaderKey "CF-Connecting-IP" = "Cf-Connecting-Ip". Proof. reflexivity. Qed.
Example unescape_ex : QueryUnescape "a=%27+OR%201" = Some "a=' OR 1". Proof. reflexivity. Qed.
Example unescape_bad : QueryUnescape "100%" = None. Proof. reflexivity. Qed.
