(* ===== verification/StatusWriter.v ===== *)
(** * The status for the logs ([internal/proxy/statuswriter.go])

    [statusWriter] around the [ResponseWriter] of [net/http], which passes on
    any number of informational responses (1xx) before the final one.  The
    request pipeline uses the composition of the two for final responses,
    [Http.writer]. *)

From S2P Require Export Http.

(** The [ResponseWriter] underneath: what has gone to the client.  A final
    status counts once, the first [Write] sends 200, and [WriteHeader] with
    another 1xx status than 101 is informational.  Writers of HTTP/1 are
    [http.Hijacker]s, those of HTTP/2 are not; a hijacked writer sends nothing
    any more. *)
Record net_writer := {
  nw_info : list Z;
  nw_status : option Z;
  nw_body : string;
  nw_flusher : bool;
  nw_hijacker : bool;
  nw_hijacked : bool;
}.

Definition informational (code : Z) : bool := (100 <=? code) && (code <=? 199) && negb (code =? 101).

Definition nw_sent (w : net_writer) (info : list Z) (status : option Z) (body : string) : net_writer :=
  {| nw_info := info; nw_status := status; nw_body := body;
     nw_flusher := nw_flusher w; nw_hijacker := nw_hijacker w; nw_hijacked := nw_hijacked w |}.

Definition net_WriteHeader (w : net_writer) (code : Z) : net_writer :=
  if nw_hijacked w then w
  else
    match nw_status w with
    | Some _ => w
    | None =>
        if informational code then nw_sent w (nw_info w ++ [code]) None (nw_body w)
        else nw_sent w (nw_info w) (Some code) (nw_body w)
    end.

(** [Write]: how many bytes were taken is the connection's business. *)
Definition net_Write (w : net_writer) (b : string) (taken : nat) : Z * net_writer :=
  if nw_hijacked w then (0, w)
  else
    let w := net_WriteHeader w 200 in
    let sent := str_take taken b in
    (len sent, nw_sent w (nw_info w) (nw_status w) (nw_body w +:+ sent)).

(** [Flush] of a writer that has not sent a header sends 200. *)
Definition net_Flush (w : net_writer) : net_writer := net_WriteHeader w 200.

(** [Hijack] fails on a connection that was hijacked already. *)
Definition net_Hijack (w : net_writer) : option string * net_writer :=
  if nw_hijacked w then (Some "http: connection has been hijacked", w)
  else (None, {| nw_info := nw_info w; nw_status := nw_status w; nw_body := nw_body w;
                 nw_flusher := nw_flusher w; nw_hijacker := nw_hijacker w; nw_hijacked := true |}).

(** [statusWriter] *)
Record statusWriter := {
  sw_ResponseWriter : net_writer;
  sw_status : Z;
  sw_written : Z;
  sw_wrote : bool;
}.

Definition new_statusWriter (w : net_writer) : statusWriter :=
  {| sw_ResponseWriter := w; sw_status := 0; sw_written := 0; sw_wrote := false |}.

Definition sw_WriteHeader (s : statusWriter) (code : Z) : statusWriter :=
  {| sw_ResponseWriter := net_WriteHeader (sw_ResponseWriter s) code;
     sw_status := if sw_wrote s then sw_status s else code;
     sw_written := sw_written s; sw_wrote := true |}.

Definition sw_Write (s : statusWriter) (b : string) (taken : nat) : statusWriter :=
  let status := if sw_wrote s then sw_status s else 200 in
  let '(n, w) := net_Write (sw_ResponseWriter s) b taken in
  {| sw_ResponseWriter := w; sw_status := status; sw_written := int64_wrap (sw_written s + n); sw_wrote := true |}.

Definition with_writer (s : statusWriter) (w : net_writer) : statusWriter :=
  {| sw_ResponseWriter := w; sw_status := sw_status s; sw_written := sw_written s; sw_wrote := sw_wrote s |}.

Definition sw_Flush (s : statusWriter) : statusWriter :=
  if nw_flusher (sw_ResponseWriter s) then with_writer s (net_Flush (sw_ResponseWriter s)) else s.

(** The error, if there is one; otherwise the caller has the connection. *)
Definition sw_Hijack (s : statusWriter) : option string * statusWriter :=
  if nw_hijacker (sw_ResponseWriter s) then
    let '(err, w) := net_Hijack (sw_ResponseWriter s) in (err, with_writer s w)
  else (Some "smoker: underlying ResponseWriter does not support hijacking", s).

(** [statusInfo] of a [statusWriter] *)
Definition sw_statusInfo (s : statusWriter) : Z * Z :=
  (if sw_status s =? 0 then 200 else sw_status s, sw_written s).

(** The calls of a handler. *)
Inductive sw_call := CallWriteHeader (code : Z) | CallWrite (b : string) (taken : nat) | CallFlush.

Definition sw_run (s : statusWriter) (c : sw_call) : statusWriter :=
  match c with
  | CallWriteHeader code => sw_WriteHeader s code
  | CallWrite b n => sw_Write s b n
  | CallFlush => sw_Flush s
  end.

Definition is_info (c : sw_call) : Prop :=
  match c with CallWriteHeader code => informational code = true | _ => False end.

(** A connection at the start of a request *)
Definition fresh_writer (flusher hijacker : bool) : net_writer :=
  {| nw_info := []; nw_status := None; nw_body := ""; nw_flusher := flusher; nw_hijacker := hijacker;
     nw_hijacked := false |}.

(** The logged values agree with what was sent. *)
Record sw_ok (s : statusWriter) : Prop := {
  swo_status : if sw_wrote s then nw_status (sw_ResponseWriter s) = Some (sw_status s)
               else sw_status s = 0 /\ nw_status (sw_ResponseWriter s) = None /\ nw_body (sw_ResponseWriter s) = "";
  swo_written : sw_written s = int64_wrap (len (nw_body (sw_ResponseWriter s)));
  swo_ours : nw_hijacked (sw_ResponseWriter s) = false;
}.

Lemma int64_wrap_add a b : int64_wrap (int64_wrap a + b) = int64_wrap (a + b).
Proof.
  unfold int64_wrap. f_equal.
  replace ((a + 2 ^ 63) mod 2 ^ 64 - 2 ^ 63 + b + 2 ^ 63) with ((a + 2 ^ 63) mod 2 ^ 64 + b) by lia.
  rewrite Z.add_mod_idemp_l by lia. f_equal. lia.
Qed.

Lemma sw_run_ok s c : sw_ok s -> ~ is_info c -> (c = CallFlush -> sw_wrote s = true) -> sw_ok (sw_run s c).
Proof.
  intros [Hs Hw Ho] Hc Hf. destruct c as [code|b n|]; cbn [sw_run].
  - unfold is_info in Hc. apply not_true_is_false in Hc. unfold sw_WriteHeader, net_WriteHeader.
    destruct (sw_wrote s).
    + split; cbn; rewrite Ho, ?Hs; done.
    + destruct Hs as (_ & E & Hb). split; cbn; rewrite Ho, E, Hc; cbn; first [done | by rewrite Hw].
  - unfold sw_Write, net_Write, net_WriteHeader. rewrite Ho. destruct (sw_wrote s).
    + split; cbn; rewrite Hs; cbn; first [done | by rewrite Hw, int64_wrap_add, len_app].
    + destruct Hs as (_ & E & Hb). split; cbn; rewrite E; cbn; first [done | by rewrite Hw, int64_wrap_add, len_app].
  - unfold sw_Flush, net_Flush, net_WriteHeader. rewrite Ho. rewrite (Hf eq_refl) in Hs. rewrite Hs.
    destruct (nw_flusher _); by split; cbn; rewrite ?(Hf eq_refl).
Qed.

Lemma sw_run_wrote s c : sw_wrote s = true -> sw_wrote (sw_run s c) = true.
Proof. destruct c; cbn; try done; unfold sw_Write, sw_Flush; [by destruct (net_Write _ _ _)|by destruct (nw_flusher _)]. Qed.

(** The log tells what the client got: whatever a handler that sends no
    informational response and does not flush first calls, the captured status is
    the status sent, once something was, and the captured size that of the body. *)
Theorem captured_status_is_sent flusher hijacker c calls :
  Forall (fun c => ~ is_info c) (c :: calls) -> c <> CallFlush ->
  let s := fold_left sw_run (c :: calls) (new_statusWriter (fresh_writer flusher hijacker)) in
  nw_status (sw_ResponseWriter s) = Some (sw_status s) /\
  (sw_statusInfo s).2 = int64_wrap (len (nw_body (sw_ResponseWriter s))).
Proof.
  intros [Hc Hcs]%Forall_cons Hne s.
  assert (Hok : forall l x, Forall (fun c => ~ is_info c) l -> sw_ok x -> sw_wrote x = true ->
    sw_ok (fold_left sw_run l x) /\ sw_wrote (fold_left sw_run l x) = true).
  { induction l as [|d l IH]; intros x Hl Hx Hw; [done|]. apply Forall_cons in Hl as [? ?].
    cbn [fold_left]. apply IH; [done|by apply sw_run_ok|by apply sw_run_wrote]. }
  destruct (Hok calls (sw_run (new_statusWriter (fresh_writer flusher hijacker)) c) Hcs) as [[H1 H2 _] Hw].
  { apply sw_run_ok; [by split|done|done]. }
  { by destruct c. }
  cbn [fold_left] in s. fold s in H1, H2, Hw. rewrite Hw in H1. by split.
Qed.

(** An informational response that the backend sends first, such as 103 Early
    Hints, is captured instead of the final status, which is what the client
    gets and what the logs then miss. *)
Theorem early_hints_hide_status info code s0 flusher hijacker :
  informational info = true -> informational code = false -> code <> info ->
  s0 = new_statusWriter (fresh_writer flusher hijacker) ->
  let s := sw_WriteHeader (sw_WriteHeader s0 info) code in
  nw_status (sw_ResponseWriter s) = Some code /\ (sw_statusInfo s).1 = info.
Proof.
  intros Hi Hc Hne -> s. unfold s, sw_WriteHeader, net_WriteHeader, new_statusWriter. cbn. rewrite Hi. cbn.
  rewrite Hc. split; [done|]. cbn. unfold informational in Hi. destruct (info =? 0) eqn:E; [|done].
  apply Z.eqb_eq in E as ->. done.
Qed.

(** An upgrade (a WebSocket) is answered on the hijacked connection: nothing
    passes the writer, and the log has status 200 and size 0 for it.  Only a
    connection that supports it can be hijacked. *)
Theorem upgrade_is_logged_as_ok flusher hijacker :
  let '(err, s) := sw_Hijack (new_statusWriter (fresh_writer flusher hijacker)) in
  (err = None <-> hijacker = true) /\ nw_hijacked (sw_ResponseWriter s) = hijacker /\
  nw_status (sw_ResponseWriter s) = None /\ sw_statusInfo s = (200, 0).
Proof. by destruct hijacker. Qed.

Module StatusWriterExamples.

Lemma captured_status_is_sent_witness :
  let s := fold_left sw_run [CallWrite "not " 4; CallFlush; CallWriteHeader 404; CallWrite "found" 3]
    (new_statusWriter (fresh_writer true true)) in
  nw_status (sw_ResponseWriter s) = Some 200 /\ (sw_statusInfo s).2 = 7.
Proof.
  apply (captured_status_is_sent true true (CallWrite "not " 4) [CallFlush; CallWriteHeader 404; CallWrite "found" 3]);
    [repeat constructor; vm_compute; auto; discriminate|discriminate].
Defined.

Lemma early_hints_hide_status_witness :
  (sw_statusInfo (sw_WriteHeader (sw_WriteHeader (new_statusWriter (fresh_writer true true)) 103) 500)).1 = 103.
Proof.
  apply (early_hints_hide_status 103 500 (new_statusWriter (fresh_writer true true)) true true);
    [reflexivity|reflexivity|discriminate|reflexivity].
Defined.

End StatusWriterExamples.
