(* ===== verification/Sid.v ===== *)
(** * Session ids ([internal/proxy/sid.go])

    The signed session cookie and the request id.  The random bytes of
    [crypto/rand] are an argument ([None]: the read failed). *)

From S2P Require Export GoCrypto.

Definition newRequestID (rand : option string) : string :=
  match rand with
  | None => "0000000000000000"
  | Some b => hex_EncodeToString b
  end.

Definition macSID (secret id : string) : string :=
  RawURLEncoding (str_take 16 (hmac_sha256 secret id)).

Definition newSignedSID (secret : string) (rand : option string) : string :=
  match rand with
  | None => ""
  | Some b => let id := RawURLEncoding b in id +:+ "." +:+ macSID secret id
  end.

(** [None] is [ok = false]. *)
Definition verifySID (secret cookie : string) : option string :=
  match LastIndexByte cookie "." with
  | None => None
  | Some dot =>
      if (dot =? 0)%nat || (dot =? String.length cookie - 1)%nat then None
      else
        let id := str_take dot cookie in
        let mac := str_drop (S dot) cookie in
        if mac =?s macSID secret id then Some id else None
  end.

(** ** Theorems *)

Lemma macSID_no_dot secret id : str_forallb (fun c => negb (c =?c ".")) (macSID secret id) = true.
Proof. apply RawURLEncoding_no_dot. Qed.

Lemma macSID_nonempty secret id : macSID secret id <> "".
Proof.
  unfold macSID. apply RawURLEncoding_nonempty. intros E.
  assert (El : String.length (str_take 16 (hmac_sha256 secret id)) = 16%nat)
    by (by rewrite str_take_length, hmac_length). by rewrite E in El.
Qed.

Lemma verifySID_spec secret cookie id :
  verifySID secret cookie = Some id <->
  id <> "" /\ cookie = id +:+ "." +:+ macSID secret id.
Proof.
  assert (Hn : forall i m, i <> "" -> m <> "" ->
    (String.length i =? 0)%nat || (String.length i =? String.length (i +:+ String "." m) - 1)%nat = false).
  { intros i m Hi Hm. rewrite str_length_app. destruct i, m; try done. cbn [String.length].
    apply orb_false_iff. split; apply Nat.eqb_neq; lia. }
  unfold verifySID. split.
  - destruct (LastIndexByte cookie ".") as [dot|] eqn:E; [|done].
    destruct (_ || _) eqn:Eb; [done|]. apply orb_false_iff in Eb as [Eb _].
    destruct (String.eqb_spec (str_drop (S dot) cookie) (macSID secret (str_take dot cookie))) as [Em|]; [|done].
    intros [= <-]. apply LastIndexByte_Some in E as [E _]. rewrite Em in E.
    split; [|exact E]. intros Ht. destruct dot; [done|].
    destruct cookie; [|done]. cbn in E. discriminate.
  - intros [Hid ->]. change ("." +:+ macSID secret id) with (String "." (macSID secret id)).
    rewrite LastIndexByte_app by apply macSID_no_dot.
    rewrite Hn by (done || apply macSID_nonempty). rewrite str_take_app.
    replace (str_drop (S (String.length id)) (id +:+ String "." (macSID secret id))) with (macSID secret id).
    + by rewrite String.eqb_refl.
    + replace (id +:+ String "." (macSID secret id)) with ((id +:+ ".") +:+ macSID secret id)
        by (by rewrite str_app_assoc).
      replace (S (String.length id)) with (String.length (id +:+ ".")) by (rewrite str_length_app; cbn; lia).
      by rewrite str_drop_app.
Qed.

(** (C28) The session cookie is exactly its signature: a value verifies, as the id
    [id], if and only if it is [id], a dot and the MAC of [id] under the
    secret, [id] not empty; and a freshly minted cookie verifies as the id it
    was minted for.  So a client can neither rename nor rotate its session
    without producing a MAC. *)
Theorem session_cookie_is_signed secret b cookie id :
  b <> "" ->
  verifySID secret (newSignedSID secret (Some b)) = Some (RawURLEncoding b) /\
  (verifySID secret cookie = Some id <-> id <> "" /\ cookie = id +:+ "." +:+ macSID secret id).
Proof.
  intros Hb. split; [|apply verifySID_spec]. apply verifySID_spec.
  split; [by apply RawURLEncoding_nonempty|done].
Qed.

Lemma session_cookie_is_signed_witness :
  verifySID "k" (newSignedSID "k" (Some "0123456789abcdef")) = Some (RawURLEncoding "0123456789abcdef") /\
  verifySID "k" "forged.AAAA" <> Some "forged".
Proof.
  split.
  - apply (session_cookie_is_signed "k" "0123456789abcdef" "" ""). discriminate.
  - intros E. apply (session_cookie_is_signed "k" "0123456789abcdef" "forged.AAAA" "forged") in E as [_ E];
      [|discriminate]. vm_compute in E. discriminate.
Defined.
