(* ===== verification/Challenge.v ===== *)
(** * The challenge manager ([internal/challenge/challenge.go])

    Tokens and their HMAC, the proof of work, the challenge and block pages, and
    the verify endpoint with its redirect.  The asset files are an argument
    ([None]: cannot be read); [m.now()] is an argument; the log lines are left
    out. *)

From S2P Require Export Http GoCrypto GoPath.

Definition VerifyPath : string := "/_smoker/verify".

(** [Manager]; [cleaner] says whether there is one. *)
Record Manager := {
  assets : string -> option string;
  secret : string;
  ttl : duration;
  powBits : Z;
  cleaner : bool;
}.

Definition New (assets : string -> option string) (secret : string) (ttl : duration) (powBits : Z)
    (cleaner : bool) : Manager :=
  {| assets := assets; secret := secret; ttl := ttl;
     powBits := if powBits <? 0 then 0 else powBits; cleaner := cleaner |}.

(** ** Tokens *)

Definition sign (m : Manager) (msg : string) : string := RawURLEncoding (hmac_sha256 (secret m) msg).

Definition issueToken (m : Manager) (bits : Z) (now : time) : string :=
  let expStr := Itoa (Time.Unix (Time.Add now (ttl m))) in
  let bitsStr := Itoa bits in
  let mac := sign m (expStr +:+ "|" +:+ bitsStr) in
  expStr +:+ "." +:+ bitsStr +:+ "." +:+ mac.

(** The embedded difficulty, or [None] for [ok = false]. *)
Definition validateToken (m : Manager) (token : string) (now : time) : option Z :=
  match SplitN token "." 3 with
  | [expStr; bitsStr; mac] =>
      match ParseInt expStr, Atoi bitsStr with
      | Some exp, Some b =>
          if exp <? Time.Unix now then None
          else if mac =?s sign m (expStr +:+ "|" +:+ bitsStr) then Some b else None
      | _, _ => None
      end
  | _ => None
  end.

(** ** Proof of work *)

(** The inner loop of [leadingZeroBits]: [mask] from [0x80] down; the boolean
    tells a set bit was found.  Eight turns shift the mask out. *)
Fixpoint mask_loop (fuel : nat) (mask x n : Z) : Z * bool :=
  match fuel with
  | O => (n, false)
  | S fuel =>
      if 0 <? mask then
        if negb (Z.land x mask =? 0) then (n, true)
        else mask_loop fuel (Z.shiftr mask 1) x (n + 1)
      else (n, false)
  end.

Fixpoint leadingZeroBits (b : list Z) (n : Z) : Z :=
  match b with
  | [] => n
  | x :: b => if x =? 0 then leadingZeroBits b (n + 8) else (mask_loop 9 128 x n).1
  end.

Definition verifyPoW (token nonce : string) (bits : Z) : bool :=
  if bits <=? 0 then true
  else if nonce =?s "" then false
  else bits <=? leadingZeroBits (string_bytes (Sum256 (token +:+ ":" +:+ nonce))) 0.

(** ** Pages *)

(** The double quote. *)
Definition dq : string := String (ascii_of_N 34) "".

Definition html_entity (c : byte) : string :=
  if c =?c "&" then "&amp;" else if c =?c "<" then "&lt;" else if c =?c ">" then "&gt;"
  else if (byte_N c =? 34)%N then "&quot;" else if c =?c "'" then "&#39;" else String c "".

Fixpoint htmlEscape (s : string) : string :=
  match s with
  | EmptyString => ""
  | String c s => html_entity c +:+ htmlEscape s
  end.

(** [strings.ReplaceAll] for a non-empty [old]; [skip] counts the bytes of an
    occurrence still to be passed over. *)
Fixpoint replace_all (s old new : string) (skip : nat) : string :=
  match s with
  | EmptyString => ""
  | String c s' =>
      match skip with
      | S k => replace_all s' old new k
      | O => if HasPrefix s old then new +:+ replace_all s' old new (String.length old - 1)
             else String c (replace_all s' old new 0)
      end
  end.

Definition ReplaceAll (s old new : string) : string := replace_all s old new 0.

Definition var (vars : gmap string string) (k : string) : string := default "" (vars !! k).

Definition traceLine (vars : gmap string string) : string :=
  let ip := var vars "CLIENT_IP" in
  let id := var vars "REQUEST_ID" in
  if (ip =?s "") && (id =?s "") then ""
  else "<p style=" +:+ dq +:+ "color:#888;font-size:.8rem" +:+ dq +:+ ">IP: <code>" +:+ htmlEscape ip +:+
       "</code> · ID: <code>" +:+ htmlEscape id +:+ "</code></p>".

Definition powSolverJS : string := "
(async function(){
  var f=document.getElementById('f');
  var token=f.token.value, bits=parseInt(f.bits.value,10)||0, enc=new TextEncoder();
  function lz(u){var n=0;for(var i=0;i<u.length;i++){var x=u[i];if(x===0){n+=8;continue;}
    for(var m=128;m>0;m>>=1){if(x&m)return n;n++;}return n;}return n;}
  var nonce=0;
  if(bits>0 && crypto && crypto.subtle){
    for(;;){var h=new Uint8Array(await crypto.subtle.digest('SHA-256',enc.encode(token+':'+nonce)));
      if(lz(h)>=bits)break; nonce++;}
  }
  f.nonce.value=nonce; f.submit();
})();".

Definition hidden (name value : string) : string :=
  "<input type=" +:+ dq +:+ "hidden" +:+ dq +:+ " name=" +:+ dq +:+ name +:+ dq +:+
  " value=" +:+ dq +:+ value +:+ dq +:+ ">".

Definition fallbackPage (name : string) (vars : gmap string string) : string :=
  if name =?s "blocked.html" then
    "<!doctype html><meta charset=" +:+ dq +:+ "utf-8" +:+ dq +:+ "><title>Blocked</title>" +:+
    "<h1>403 — Request blocked</h1><p>" +:+ htmlEscape (var vars "REASON") +:+ "</p>" +:+
    traceLine vars
  else
    "<!doctype html><meta charset=" +:+ dq +:+ "utf-8" +:+ dq +:+ "><title>Verifica</title>" +:+
    "<h1>Verifica in corso…</h1>" +:+
    "<form id=" +:+ dq +:+ "f" +:+ dq +:+ " method=" +:+ dq +:+ "POST" +:+ dq +:+ " action=" +:+ dq +:+
    htmlEscape (var vars "VERIFY_URL") +:+ dq +:+ ">" +:+
    hidden "token" (htmlEscape (var vars "TOKEN")) +:+
    hidden "nonce" "" +:+
    hidden "bits" (htmlEscape (var vars "POW_BITS")) +:+
    hidden "return" (htmlEscape (var vars "RETURN_URL")) +:+
    "<noscript><button type=" +:+ dq +:+ "submit" +:+ dq +:+ ">Continua</button></noscript></form>" +:+
    traceLine vars +:+
    "<script>" +:+ powSolverJS +:+ "</script>".

(** [safeReturn] *)
Definition safeReturn (ret : string) : string :=
  match ret with
  | String c rest =>
      if negb (c =?c "/") then "/"
      else match rest with
           | String d _ => if (d =?c "/") || (d =?c "\") then "/" else ret
           | EmptyString => ret
           end
  | EmptyString => "/"
  end.

(** ** Handlers *)

Section Handlers.
Context `{MapIter}.

Definition render (m : Manager) (name : string) (vars : gmap string string) : string :=
  match assets m name with
  | None => fallbackPage name vars
  | Some data =>
      fold_left (fun out kv => ReplaceAll out ("{{" +:+ kv.1 +:+ "}}") (htmlEscape kv.2))
        (map_iter vars) data
  end.

Definition write_page (w : writer) (code : Z) (page : string) : writer :=
  let w := set_header w "Content-Type" "text/html; charset=utf-8" in
  let w := set_header w "Cache-Control" "no-store" in
  Write (WriteHeader w code) page.

Definition challenge_vars (m : Manager) (r : Request) (ip reqID : string) (now : time) : gmap string string :=
  let bits := if r_TLS r then powBits m else 0 in
  let ret := FormValue r "return" in
  let ret := if ret =?s "" then r_RequestURI r else ret in
  {[ "TOKEN" := issueToken m bits now; "VERIFY_URL" := VerifyPath; "RETURN_URL" := safeReturn ret;
     "POW_BITS" := Itoa bits; "CLIENT_IP" := ip; "REQUEST_ID" := reqID ]}.

Definition nonce_field : string := "name=" +:+ dq +:+ "nonce" +:+ dq.

Definition ServeChallenge (m : Manager) (w : writer) (r : Request) (ip reqID : string) (now : time) : writer :=
  let bits := if r_TLS r then powBits m else 0 in
  let vars := challenge_vars m r ip reqID now in
  let page := render m "challenge.html" vars in
  let page := if (0 <? bits) && negb (Contains page nonce_field)
              then fallbackPage "challenge.html" vars else page in
  write_page w StatusServiceUnavailable page.

Definition ServeBlocked (m : Manager) (w : writer) (ip reqID : string) (code : Z) (reason : string) : writer :=
  write_page w code
    (render m "blocked.html" {[ "REASON" := reason; "CLIENT_IP" := ip; "REQUEST_ID" := reqID ]}).

(** [http.Redirect] to a target that starts with a slash. *)

Definition is_ctl (c : byte) : bool := ((byte_N c <? 32) || (byte_N c =? 127))%N.

Fixpoint escapes_ok (s : string) : bool :=
  match s with
  | EmptyString => true
  | String "%" (String a (String b s)) => is_hex a && is_hex b && escapes_ok s
  | String c s => negb (c =?c "%") && escapes_ok s
  end.

(** [url.Parse] succeeds on such a target. *)
Definition url_parses (url : string) : bool :=
  let '(u, frag, _) := Cut url "#" in
  let '(path, _, _) := Cut u "?" in
  negb (str_existsb is_ctl u) && escapes_ok path && escapes_ok frag.

Fixpoint hexEscapeNonASCII (s : string) : string :=
  match s with
  | EmptyString => ""
  | String c s =>
      (if is_ascii c then String c "" else "%" +:+ hex_EncodeToString (String c "")) +:+
      hexEscapeNonASCII s
  end.

Definition redirect_location (url : string) : string :=
  hexEscapeNonASCII
    (if url_parses url then
       let i := IndexByte url "?" in
       let path := match i with Some i => str_take i url | None => url end in
       let query := match i with Some i => str_drop i url | None => "" end in
       let cleaned := Clean path in
       let cleaned := if HasSuffix path "/" && negb (HasSuffix cleaned "/") then cleaned +:+ "/" else cleaned in
       cleaned +:+ query
     else url).

(** The escaping of [http.Redirect]'s own page. *)
Fixpoint redirect_escape (s : string) : string :=
  match s with
  | EmptyString => ""
  | String c s =>
      (if (byte_N c =? 34)%N then "&#34;" else html_entity c) +:+ redirect_escape s
  end.

Definition Redirect (w : writer) (r : Request) (url : string) (code : Z) : writer :=
  let hadCT := bool_decide (is_Some (w_Header w !! "Content-Type")) in
  let location := redirect_location url in
  let body_url := if url_parses url then location else url in
  let w := set_header w "Location" location in
  let w := if negb hadCT && ((r_Method r =?s "GET") || (r_Method r =?s "HEAD"))
           then set_header w "Content-Type" "text/html; charset=utf-8" else w in
  let w := WriteHeader w code in
  if negb hadCT && (r_Method r =?s "GET")
  then Write w ("<a href=" +:+ dq +:+ redirect_escape body_url +:+ dq +:+ ">Found</a>." +:+
                String (ascii_of_N 10) (String (ascii_of_N 10) ""))
  else w.

(** The calls of [HandleVerify] to the [Cleaner]. *)
Inductive cleaner_call :=
| MarkIPClean (ip reason : string)
| MarkSessionPassed (sessionKey : string).

(** [HandleVerify]: whether it handled the request, its calls to the cleaner
    (in order) and the response. *)
Definition HandleVerify (m : Manager) (w : writer) (r : Request) (ip reqID sessionKey : string) (now : time) :
    bool * list cleaner_call * writer :=
  if negb (r_Path r =?s VerifyPath) then (false, [], w) else
  let token := FormValue r "token" in
  match validateToken m token now with
  | None => (true, [], ServeChallenge m w r ip reqID now)
  | Some bits =>
      if negb (verifyPoW token (FormValue r "nonce") bits)
      then (true, [], ServeChallenge m w r ip reqID now)
      else
        let calls :=
          if cleaner m then
            MarkIPClean ip "challenge passed" ::
            (if negb (sessionKey =?s "") then [MarkSessionPassed sessionKey] else [])
          else [] in
        (true, calls, Redirect w r (safeReturn (FormValue r "return")) StatusFound)
  end.

End Handlers.

(** ** Lemmas: tokens *)

Lemma SplitN3_tokens es bs mac :
  str_forallb (fun c => negb (c =?c ".")) es = true -> str_forallb (fun c => negb (c =?c ".")) bs = true ->
  SplitN (es +:+ "." +:+ bs +:+ "." +:+ mac) "." 3 = [es; bs; mac].
Proof.
  intros He Hb. cbn [SplitN].
  change ("." +:+ bs +:+ "." +:+ mac) with (String "." (bs +:+ String "." mac)).
  by rewrite !Cut_app.
Qed.

Lemma Cut_true s c a b : Cut s c = (a, b, true) -> s = a +:+ String c b.
Proof.
  unfold Cut. destruct (IndexByte s c) as [i|] eqn:E; [|done]. intros [= <- <-].
  by apply IndexByte_Some in E as [E _].
Qed.

Lemma SplitN3_inv t es bs mac :
  SplitN t "." 3 = [es; bs; mac] -> t = es +:+ "." +:+ bs +:+ "." +:+ mac.
Proof.
  cbn [SplitN]. destruct (Cut t ".") as [[a b] []] eqn:E1; [|done].
  destruct (Cut b ".") as [[c d] []] eqn:E2; [|done]. intros [= <- <- <-].
  apply Cut_true in E1 as ->. by apply Cut_true in E2 as ->.
Qed.

Lemma SplitN3_shape t : (exists es bs mac, SplitN t "." 3 = [es; bs; mac]) \/
  (forall es bs mac, SplitN t "." 3 <> [es; bs; mac]).
Proof.
  cbn [SplitN]. destruct (Cut t ".") as [[a b] []]; [|by right].
  destruct (Cut b ".") as [[c d] []]; [left; eauto|by right].
Qed.

(** What [ParseInt] accepts has no dot and no bar. *)
Lemma ParseInt_no c s z :
  ParseInt s = Some z -> is_digit c || (c =?c "-") || (c =?c "+") = false ->
  str_forallb (fun x => negb (x =?c c)) s = true.
Proof.
  intros Hp Hc. eapply str_forallb_impl; [|exact (ParseInt_chars s z Hp)].
  intros x Hx. destruct (Ascii.eqb_spec x c) as [->|]; [|done]. by rewrite Hc in Hx.
Qed.

Lemma validateToken_spec m t now b :
  validateToken m t now = Some b <->
  exists es bs exp, t = es +:+ "." +:+ bs +:+ "." +:+ sign m (es +:+ "|" +:+ bs) /\
    ParseInt es = Some exp /\ Atoi bs = Some b /\ Time.Unix now <= exp.
Proof.
  unfold validateToken. split.
  - destruct (SplitN3_shape t) as [(es & bs & mac & E)|Hn].
    + rewrite E. destruct (ParseInt es) as [exp|] eqn:Ee; [|done].
      destruct (Atoi bs) as [b'|] eqn:Eb; [|done].
      destruct (Z.ltb_spec exp (Time.Unix now)); [done|].
      destruct (String.eqb_spec mac (sign m (es +:+ "|" +:+ bs))) as [->|]; [|done].
      intros [= <-]. exists es, bs, exp. split; [by apply SplitN3_inv|done].
    + destruct (SplitN t "." 3) as [|es [|bs [|mac [|]]]]; try done. by destruct (Hn es bs mac).
  - intros (es & bs & exp & -> & Ee & Eb & Hle).
    rewrite SplitN3_tokens; [|by eapply ParseInt_no|by eapply ParseInt_no].
    rewrite Ee, Eb, String.eqb_refl. by replace (exp <? Time.Unix now) with false by lia.
Qed.

(** (C27) A token is exactly its signature: it is accepted, with difficulty [b], if
    and only if it is an expiry not yet past, a dot, a spelling of [b], a dot
    and the MAC of the two under the secret; and the signed message determines
    both fields, so a MAC cannot be moved to another expiry or difficulty. *)
Theorem token_is_signed m t now b :
  (validateToken m t now = Some b <->
   exists es bs exp, t = es +:+ "." +:+ bs +:+ "." +:+ sign m (es +:+ "|" +:+ bs) /\
     ParseInt es = Some exp /\ Atoi bs = Some b /\ Time.Unix now <= exp) /\
  (forall es bs es' bs', is_Some (ParseInt es) -> is_Some (ParseInt es') ->
     es +:+ "|" +:+ bs = es' +:+ "|" +:+ bs' -> es = es' /\ bs = bs').
Proof.
  split; [apply validateToken_spec|].
  intros es bs es' bs' [e He] [e' He'] E.
  apply (f_equal (fun s => Cut s "|")) in E.
  change ("|" +:+ bs) with (String "|" bs) in E. change ("|" +:+ bs') with (String "|" bs') in E.
  rewrite !Cut_app in E by (by eapply ParseInt_no). by injection E.
Qed.

(** Token round trip: a token issued at [t0] for a difficulty is accepted with
    that difficulty as long as the challenge TTL has not passed, to the second,
    and rejected afterwards. *)
Theorem token_roundtrip m bits t0 now :
  0 <= bits <= max_int64 -> 0 <= Time.Unix (Time.Add t0 (ttl m)) <= max_int64 ->
  validateToken m (issueToken m bits t0) now =
    if Time.Unix now <=? Time.Unix (Time.Add t0 (ttl m)) then Some bits else None.
Proof.
  intros Hb He. unfold issueToken. set (exp := Time.Unix (Time.Add t0 (ttl m))) in *.
  assert (Hs : SplitN (Itoa exp +:+ "." +:+ Itoa bits +:+ "." +:+ sign m (Itoa exp +:+ "|" +:+ Itoa bits)) "." 3
    = [Itoa exp; Itoa bits; sign m (Itoa exp +:+ "|" +:+ Itoa bits)]).
  { apply SplitN3_tokens; (eapply ParseInt_no; [by apply ParseInt_Itoa|done]). }
  unfold validateToken. rewrite Hs. unfold Atoi. rewrite !ParseInt_Itoa by done.
  rewrite String.eqb_refl, Z.leb_antisym. by destruct (exp <? Time.Unix now).
Qed.

(** ** Lemmas: the proof of work *)

(** The bits of a byte and of a string, most significant first. *)
Definition byte_bits (x : Z) : list bool := map (Z.testbit x) [7; 6; 5; 4; 3; 2; 1; 0].
Definition bit_list (s : string) : list bool := flat_map byte_bits (string_bytes s).

Fixpoint leading_false (l : list bool) : Z :=
  match l with false :: l => 1 + leading_false l | _ => 0 end.

Lemma mask_loop_shift fuel mask x n :
  (mask_loop fuel mask x n).1 = n + (mask_loop fuel mask x 0).1.
Proof.
  revert mask n. induction fuel as [|fuel IH]; intros mask n; cbn [mask_loop]; [cbn; lia|].
  destruct (0 <? mask); [|cbn; lia]. destruct (negb _); [cbn; lia|].
  rewrite IH, (IH _ (0 + 1)). lia.
Qed.

Lemma mask_loop_byte c :
  byte_Z c <> 0 ->
  (mask_loop 9 128 (byte_Z c) 0).1 = leading_false (byte_bits (byte_Z c)) /\
  existsb id (byte_bits (byte_Z c)) = true.
Proof. destruct c as [[][][][][][][][]]; vm_compute; done. Qed.

Lemma leading_false_app l l' :
  leading_false (l ++ l') =
    if existsb id l then leading_false l else Z.of_nat (length l) + leading_false l'.
Proof.
  induction l as [|[] l IH]; [done|done|]. cbn [app leading_false existsb id orb length].
  rewrite IH. destruct (existsb id l); lia.
Qed.

Lemma leadingZeroBits_list l n :
  leadingZeroBits (byte_Z <$> l) n = n + leading_false (flat_map byte_bits (byte_Z <$> l)).
Proof.
  revert n. induction l as [|c l IH]; intros n; [cbn; lia|].
  rewrite fmap_cons. cbn [leadingZeroBits flat_map].
  rewrite leading_false_app. destruct (Z.eqb_spec (byte_Z c) 0) as [E|E].
  - rewrite IH, E. change (length (byte_bits 0)) with 8%nat.
    replace (existsb id (byte_bits 0)) with false by done. lia.
  - destruct (mask_loop_byte c E) as [Hm ->]. by rewrite mask_loop_shift, Hm.
Qed.

Lemma leadingZeroBits_spec s n : leadingZeroBits (string_bytes s) n = n + leading_false (bit_list s).
Proof. apply leadingZeroBits_list. Qed.

Lemma leading_false_spec l k :
  0 <= k -> k <= leading_false l <-> forall i : nat, Z.of_nat i < k -> l !! i = Some false.
Proof.
  revert k. induction l as [|[] l IH]; intros k Hk; cbn [leading_false].
  - split; [intros ? i ?; lia|]. intros H. destruct (decide (k <= 0)); [done|].
    specialize (H 0%nat ltac:(lia)). done.
  - split; [intros ? i ?; lia|]. intros H. destruct (decide (k <= 0)); [done|].
    specialize (H 0%nat ltac:(lia)). done.
  - destruct (decide (k = 0)) as [->|].
    + split; [intros _ i ?; lia|]. intros _.
      enough (0 <= leading_false l) by lia. by apply (IH 0); [|intros i ?; lia].
    + transitivity (k - 1 <= leading_false l); [lia|]. rewrite IH by lia. split; intros H i Hi.
      * destruct i as [|i]; [done|]. cbn. apply H. lia.
      * apply (H (S i)). lia.
Qed.

(** The proof of work demands what it says: with difficulty [bits], a nonce
    passes exactly when [bits] is not positive, or the nonce is not empty and
    the first [bits] bits of SHA-256 of "token:nonce" exist and are all zero. *)
Theorem verifyPoW_spec token nonce bits :
  verifyPoW token nonce bits = true <->
  bits <= 0 \/
  (nonce <> "" /\ forall i : nat, Z.of_nat i < bits ->
     bit_list (Sum256 (token +:+ ":" +:+ nonce)) !! i = Some false).
Proof.
  unfold verifyPoW. destruct (Z.leb_spec bits 0); [naive_solver|].
  destruct (String.eqb_spec nonce ""); [split; [done|naive_solver lia]|].
  rewrite Z.leb_le, leadingZeroBits_spec, Z.add_0_l, leading_false_spec by lia.
  split; [by right|]. intros [?|[_ ?]]; [lia|done].
Qed.

(** ** Lemmas: escaping *)

(** What a browser reads back for the five entities. *)
Fixpoint html_unescape (s : string) (skip : nat) : string :=
  match s with
  | EmptyString => ""
  | String c s' =>
      match skip with
      | S k => html_unescape s' k
      | O =>
          if HasPrefix s "&amp;" then String "&" (html_unescape s' 4)
          else if HasPrefix s "&lt;" then String "<" (html_unescape s' 3)
          else if HasPrefix s "&gt;" then String ">" (html_unescape s' 3)
          else if HasPrefix s "&quot;" then String (ascii_of_N 34) (html_unescape s' 5)
          else if HasPrefix s "&#39;" then String "'" (html_unescape s' 4)
          else String c (html_unescape s' 0)
      end
  end.

Definition is_markup (c : byte) : bool :=
  (c =?c "<") || (c =?c ">") || (byte_N c =? 34)%N || (c =?c "'").

Lemma HasPrefix_other c d p s : c <> d -> HasPrefix (String c s) (String d p) = false.
Proof. intros Hcd. unfold HasPrefix. cbn. destruct (ascii_dec d c) as [->|]; [done|]. done. Qed.

Lemma html_entity_cases c s :
  html_unescape (html_entity c +:+ s) 0 = String c (html_unescape s 0).
Proof.
  destruct (decide (c = "&"%char)) as [->|H1]; [by destruct s|].
  destruct (decide (c = "<"%char)) as [->|H2]; [by destruct s|].
  destruct (decide (c = ">"%char)) as [->|H3]; [by destruct s|].
  destruct (decide (c = ascii_of_N 34)) as [->|H4]; [by destruct s|].
  destruct (decide (c = "'"%char)) as [->|H5]; [by destruct s|].
  assert (E : html_entity c = String c "").
  { unfold html_entity. rewrite !(proj2 (Ascii.eqb_neq _ _)) by done.
    destruct (N.eqb_spec (byte_N c) 34) as [E|]; [|done]. exfalso. apply H4.
    unfold byte_N in E. rewrite <- E. symmetry. apply ascii_N_embedding. }
  rewrite E, str_app_cons. cbn [html_unescape].
  by rewrite !HasPrefix_other by done.
Qed.

(** Nothing a visitor controls breaks out of the pages: an escaped value
    contains no angle bracket and no quote, and a browser decodes it back to
    the value. *)
Theorem htmlEscape_neutralises s :
  str_forallb (fun c => negb (is_markup c)) (htmlEscape s) = true /\
  html_unescape (htmlEscape s) 0 = s.
Proof.
  induction s as [|c s [IH1 IH2]]; [done|]. cbn [htmlEscape]. split.
  - rewrite str_forallb_app, IH1, andb_true_r. by destruct c as [[][][][][][][][]].
  - by rewrite html_entity_cases, IH2.
Qed.

Lemma Contains_app_l a b s : Contains a s = true -> Contains (a +:+ b) s = true.
Proof.
  rewrite !Contains_spec. intros (x & y & ->). exists x, (y +:+ b). by rewrite !str_app_assoc.
Qed.

Lemma Contains_app_r a b s : Contains b s = true -> Contains (a +:+ b) s = true.
Proof.
  rewrite !Contains_spec. intros (x & y & ->). exists (a +:+ x), y. by rewrite !str_app_assoc.
Qed.

Lemma fallback_nonce vars : Contains (fallbackPage "challenge.html" vars) nonce_field = true.
Proof.
  unfold fallbackPage. cbn [String.eqb Ascii.eqb Bool.eqb].
  assert (Hh : Contains (hidden "nonce" "") nonce_field = true) by (vm_compute; reflexivity).
  do 20 apply Contains_app_r. by apply Contains_app_l.
Qed.

Section HandlerFacts.
Context `{MapIter}.

Lemma write_page_body w code page : w_body (write_page w code page) = w_body w +:+ page.
Proof.
  unfold write_page, Write, WriteHeader, set_header. by destruct w as [h [s|] b].
Qed.

(** A challenge can be solved: whenever the page demands work (a TLS request
    and a positive difficulty), it carries the nonce field the solver fills in,
    even when the operator's asset predates the protocol or is missing. *)
Theorem challenge_page_carries_nonce m w r ip reqID now :
  r_TLS r = true -> 0 < powBits m ->
  Contains (w_body (ServeChallenge m w r ip reqID now)) nonce_field = true.
Proof.
  intros Ht Hp. unfold ServeChallenge. rewrite write_page_body, Ht.
  replace (0 <? powBits m) with true by lia. cbn [andb]. apply Contains_app_r.
  destruct (Contains (render m "challenge.html" _) nonce_field) eqn:E; cbn [negb];
    [done|apply fallback_nonce].
Qed.

(** The conditions under which a client has proved itself. *)
Definition solved (m : Manager) (r : Request) (now : time) : Prop :=
  exists es bs exp b,
    FormValue r "token" = es +:+ "." +:+ bs +:+ "." +:+ sign m (es +:+ "|" +:+ bs) /\
    ParseInt es = Some exp /\ Atoi bs = Some b /\ Time.Unix now <= exp /\
    verifyPoW (FormValue r "token") (FormValue r "nonce") b = true.

(** Only a solved challenge clears an address: [HandleVerify] handles exactly
    the requests to the verify path; if the token is correctly signed and
    unexpired and the nonce does the work it demands, it cleans exactly the
    client's address and marks exactly its session (when there is one), and
    redirects; in every other case it clears nothing, and on the verify path
    serves a fresh challenge. *)
Theorem verify_clears_only_solved m w r ip reqID key now :
  cleaner m = true ->
  (r_Path r <> VerifyPath -> HandleVerify m w r ip reqID key now = (false, [], w)) /\
  (r_Path r = VerifyPath -> ~ solved m r now ->
     HandleVerify m w r ip reqID key now = (true, [], ServeChallenge m w r ip reqID now)) /\
  (r_Path r = VerifyPath -> solved m r now ->
     HandleVerify m w r ip reqID key now =
       (true, MarkIPClean ip "challenge passed" :: (if key =?s "" then [] else [MarkSessionPassed key]),
        Redirect w r (safeReturn (FormValue r "return")) StatusFound)).
Proof.
  intros Hc. unfold HandleVerify. split_and!.
  - intros Hp. by rewrite (proj2 (String.eqb_neq _ _) Hp).
  - intros Hp Hn. rewrite (proj2 (String.eqb_eq _ _) Hp). cbn [negb].
    destruct (validateToken m (FormValue r "token") now) as [b|] eqn:E; [|done].
    destruct (verifyPoW (FormValue r "token") (FormValue r "nonce") b) eqn:Ev; [|done].
    exfalso. apply Hn. apply validateToken_spec in E as (es & bs & exp & ? & ? & ? & ?).
    by exists es, bs, exp, b.
  - intros Hp (es & bs & exp & b & Et & ? & ? & ? & Ev).
    rewrite (proj2 (String.eqb_eq _ _) Hp). cbn [negb].
    replace (validateToken m (FormValue r "token") now) with (Some b).
    + rewrite Ev, Hc. cbn [negb]. by destruct (key =?s "").
    + symmetry. apply validateToken_spec. by exists es, bs, exp.
Qed.

End HandlerFacts.

(** ** Lemmas: the redirect *)

(** A target whose second byte makes a browser leave the site. *)
Definition second_is (p : byte -> bool) (s : string) : bool :=
  match s with String _ (String d _) => p d | _ => false end.

Lemma safeReturn_spec ret :
  exists rest, safeReturn ret = String "/" rest /\
    second_is (fun d => (d =?c "/") || (d =?c "\")) (safeReturn ret) = false.
Proof.
  unfold safeReturn. destruct ret as [|c rest]; [by exists ""|].
  destruct (Ascii.eqb_spec c "/"%char) as [->|]; cbn [negb]; [|by exists ""].
  destruct rest as [|d rest]; [by exists ""|].
  destruct ((d =?c "/") || (d =?c "\")) eqn:E; [by exists ""|]. exists (String d rest). by cbn.
Qed.

Lemma hexEscape_second c s :
  is_ascii c = true -> second_is (fun d => d =?c "/") (String c s) = false ->
  exists t, hexEscapeNonASCII (String c s) = String c t /\
    second_is (fun d => d =?c "/") (String c t) = false.
Proof.
  intros Hc Hs. cbn [hexEscapeNonASCII]. rewrite Hc, str_app_cons, str_app_nil_l.
  eexists. split; [done|]. destruct s as [|d s]; [done|]. cbn in Hs |- *.
  by destruct (is_ascii d).
Qed.

Lemma slash_then_elems es tail :
  Forall plain_elem es ->
  second_is (fun d => d =?c "/") ("/" +:+ Join es "/" +:+ tail) = false \/ (es = [] /\ True).
Proof.
  intros HF. destruct es as [|e es]; [by right|left]. inversion_clear HF as [|? ? He _].
  destruct He as (He & _ & _ & Hs). destruct e as [|c e]; [done|].
  unfold slash_free in Hs. cbn [str_forallb] in Hs. apply andb_true_iff in Hs as [Hs _].
  apply negb_true_iff in Hs. destruct es; cbn; done.
Qed.

Lemma redirect_cleaned u path query :
  is_rooted path = true -> (query = "" \/ exists q, query = String "?" q) ->
  u = (if HasSuffix path "/" && negb (HasSuffix (Clean path) "/") then Clean path +:+ "/" else Clean path) +:+ query ->
  exists rest, u = String "/" rest /\ second_is (fun d => d =?c "/") u = false.
Proof.
  intros Hr Hq ->. destruct (Clean_rooted path Hr) as (es & -> & HF & _).
  destruct (slash_then_elems es ((if HasSuffix path "/" && negb (HasSuffix ("/" +:+ Join es "/") "/")
    then "/" else "") +:+ query) HF) as [Hs|[-> _]].
  - destruct (HasSuffix path "/" && _) in Hs |- *; rewrite ?str_app_assoc; cbn [String.append] in Hs;
      eexists; (split; [reflexivity|exact Hs]).
  - change ("/" +:+ Join [] "/") with "/". replace (HasSuffix "/" "/") with true by done.
    rewrite andb_false_r. destruct Hq as [->|[q ->]]; eexists; split; reflexivity.
Qed.

Lemma IndexByte_drop s c i : IndexByte s c = Some i -> exists q, str_drop i s = String c q.
Proof.
  revert i. induction s as [|x s IH]; intros i; [done|]. cbn [IndexByte].
  destruct (Ascii.eqb_spec x c) as [->|].
  - intros [= <-]. by exists s.
  - destruct (IndexByte s c) as [j|]; [|done]. intros [= <-]. by apply IH.
Qed.

(** The redirect after a challenge never leaves the site by a double slash:
    whatever the form's return value, the Location is a path whose second byte
    is not a slash. *)
Theorem redirect_never_double_slash ret :
  exists rest, redirect_location (safeReturn ret) = String "/" rest /\
    second_is (fun d => d =?c "/") (String "/" rest) = false.
Proof.
  destruct (safeReturn_spec ret) as (r0 & E & Hs). rewrite E in *.
  assert (Hs' : second_is (fun d => d =?c "/") (String "/" r0) = false).
  { destruct r0; [done|]. cbn in Hs |- *. by apply orb_false_iff in Hs as [? _]. }
  unfold redirect_location. destruct (url_parses (String "/" r0)).
  2: { destruct (hexEscape_second "/" r0 eq_refl Hs') as (t & Et & Ht). by exists t. }
  set (i := IndexByte (String "/" r0) "?").
  set (path := match i with Some i => str_take i (String "/" r0) | None => String "/" r0 end).
  set (query := match i with Some i => str_drop i (String "/" r0) | None => "" end).
  assert (Hp : is_rooted path = true /\ (query = "" \/ exists q, query = String "?" q)).
  { unfold path, query. destruct i as [[|k]|] eqn:Ei.
    - unfold i in Ei. cbn in Ei. by destruct (IndexByte r0 "?").
    - split; [done|]. right. by apply IndexByte_drop.
    - split; [done|]. by left. }
  destruct Hp as [Hr Hq].
  destruct (redirect_cleaned _ path query Hr Hq eq_refl) as (t & Et & Ht). rewrite Et in Ht |- *.
  destruct (hexEscape_second "/" t eq_refl Ht) as (t' & Et' & Ht'). by exists t'.
Qed.

(** The bytes of a host name. *)
Definition is_host_byte (c : byte) : bool :=
  is_digit c || is_lower c || is_upper c || (c =?c ".") || (c =?c "-").

Lemma host_free h c :
  str_forallb is_host_byte h = true -> is_host_byte c = false ->
  str_forallb (fun x => negb (x =?c c)) h = true.
Proof.
  intros Hh Hc. eapply str_forallb_impl; [|exact Hh]. intros x Hx.
  destruct (Ascii.eqb_spec x c) as [->|]; [|done]. by rewrite Hc in Hx.
Qed.

Lemma Cut_free s c : str_forallb (fun x => negb (x =?c c)) s = true -> Cut s c = (s, "", false).
Proof. intros Hs%IndexByte_none. unfold Cut. by rewrite Hs. Qed.

Lemma escapes_ok_free s : str_forallb (fun x => negb (x =?c "%")) s = true -> escapes_ok s = true.
Proof.
  induction s as [|c s IH]; [done|]. cbn [str_forallb]. rewrite andb_true_iff. intros [Hc Hs].
  specialize (IH Hs). destruct (Ascii.eqb_spec c "%"%char) as [->|Hne]; [done|].
  destruct c as [[][][][][][][][]]; try (cbn; by rewrite IH); done.
Qed.

Lemma hexEscape_ascii s : isASCII s = true -> hexEscapeNonASCII s = s.
Proof.
  unfold isASCII. induction s as [|c s IH]; [done|]. cbn [str_forallb hexEscapeNonASCII].
  rewrite andb_true_iff. intros [-> Hs]. by rewrite IH.
Qed.

Lemma Clean_dot_backslash h : slash_free h = true -> Clean ("/./\" +:+ h) = "/\" +:+ h.
Proof.
  intros Hh. assert (He : plain_elem (String "\" h)) by (split_and!; done).
  unfold Clean. replace (is_rooted ("/./\" +:+ h)) with true by done.
  assert (Es : Split ("/./\" +:+ h) "/" = [""; "."; String "\" h]).
  { change ("/./\" +:+ h) with (String "/" (String "." (String "/" (String "\" h)))).
    rewrite Split_rooted. f_equal.
    change (String "." (String "/" (String "\" h))) with ("." +:+ String "/" (String "\" h)).
    rewrite Split_app_sep by done. f_equal. apply Split_no_sep, He. }
  rewrite Es. unfold clean_elems. cbn [fold_left]. change (clean_step true (clean_step true [] "") ".") with (@nil string).
  by rewrite plain_step.
Qed.

(** The redirect after a challenge can leave the site by a backslash: for any
    host name, the return value [/./\host] passes [safeReturn], and the dot
    segment that hid the backslash is cleaned away by [http.Redirect]: the
    Location is [/\host], which [safeReturn] itself rejects as off-site. *)
Theorem redirect_open_by_dot_segment h :
  str_forallb is_host_byte h = true ->
  safeReturn ("/./\" +:+ h) = "/./\" +:+ h /\
  redirect_location (safeReturn ("/./\" +:+ h)) = "/\" +:+ h /\
  safeReturn ("/\" +:+ h) = "/".
Proof.
  intros Hh. split; [done|]. split; [|done].
  change (safeReturn ("/./\" +:+ h)) with ("/./\" +:+ h).
  assert (Hf : forall c, is_host_byte c = false -> str_existsb (fun x => x =?c c) "/./\" = false ->
    str_forallb (fun x => negb (x =?c c)) ("/./\" +:+ h) = true).
  { intros c Hc Hp. rewrite str_forallb_app, (host_free h c Hh Hc), andb_true_r.
    unfold str_existsb in Hp. by apply negb_false_iff in Hp. }
  assert (Hu : url_parses ("/./\" +:+ h) = true).
  { unfold url_parses. rewrite Cut_free by (by apply Hf). rewrite Cut_free by (by apply Hf).
    rewrite escapes_ok_free by (by apply Hf). rewrite andb_true_r.
    unfold str_existsb. rewrite negb_involutive, str_forallb_app.
    apply andb_true_iff. split; [|reflexivity]. apply andb_true_iff. split; [reflexivity|].
    eapply str_forallb_impl; [|exact Hh]. by intros [[][][][][][][][]]. }
  unfold redirect_location. rewrite Hu.
  assert (Hi : IndexByte ("/./\" +:+ h) "?" = None) by (apply IndexByte_none; by apply Hf).
  rewrite Hi, Clean_dot_backslash.
  2: { apply (host_free h "/"%char Hh). done. }
  assert (Hsuf : HasSuffix ("/./\" +:+ h) "/" = false).
  { apply not_true_iff_false. rewrite HasSuffix_spec. intros [t E].
    destruct (str_snoc h) as [->|(h' & d & ->)].
    - apply (f_equal last_byte) in E. by rewrite last_byte_snoc in E.
    - rewrite <- str_app_assoc in E. apply (f_equal last_byte) in E. rewrite !last_byte_snoc in E.
      injection E as ->. rewrite str_forallb_app in Hh. by rewrite andb_false_r in Hh. }
  rewrite Hsuf. cbn [andb]. rewrite str_app_nil_r. apply hexEscape_ascii.
  unfold isASCII. rewrite str_forallb_app. apply andb_true_iff. split; [reflexivity|].
  eapply str_forallb_impl; [|exact Hh]. by intros [[][][][][][][][]].
Qed.

(** ** Witnesses *)

Module ChallengeExamples.

#[local] Instance listed : MapIter := map_to_list.

Definition m0 : Manager := New (fun _ => None) "secret" Hour 8 true.
Definition t0 : time := 63838540800 * Second.

Definition req (path : string) (form : list (string * string)) : Request := {|
  r_Method := "POST"; r_Host := "shop.test"; r_RemoteAddr := "192.0.2.1:4711"; r_TLS := true;
  r_Path := path; r_RawQuery := ""; r_RequestURI := path; r_Header := ∅; r_Form := form;
  r_Cookies := []; r_Body := None; r_GetBody := None; r_ContentLength := 0 |}.

Lemma token_is_signed_witness :
  validateToken m0 (issueToken m0 8 t0) t0 = Some 8 /\
  exists es bs exp, issueToken m0 8 t0 = es +:+ "." +:+ bs +:+ "." +:+ sign m0 (es +:+ "|" +:+ bs) /\
    ParseInt es = Some exp /\ Atoi bs = Some 8 /\ Time.Unix t0 <= exp.
Proof.
  split; [vm_compute; reflexivity|].
  apply (token_is_signed m0 (issueToken m0 8 t0) t0 8). vm_compute. reflexivity.
Defined.

Lemma token_roundtrip_witness :
  validateToken m0 (issueToken m0 8 t0) (t0 + Minute) = Some 8 /\
  validateToken m0 (issueToken m0 8 t0) (t0 + 2 * Hour) = None.
Proof.
  split; [rewrite (token_roundtrip m0 8 t0 (t0 + Minute))|rewrite (token_roundtrip m0 8 t0 (t0 + 2 * Hour))];
    reflexivity || (vm_compute; split; discriminate).
Defined.

Lemma challenge_page_carries_nonce_witness :
  Contains (w_body (ServeChallenge m0 new_writer (req "/cart" []) "192.0.2.1" "id" t0)) nonce_field = true.
Proof. apply (challenge_page_carries_nonce m0 new_writer (req "/cart" []) "192.0.2.1" "id" t0); reflexivity. Defined.

(** A manager that demands no work, whose own token solves the challenge. *)
Definition m1 : Manager := New (fun _ => None) "secret" Hour 0 true.

Lemma verify_clears_only_solved_witness :
  let r := req VerifyPath [("token", issueToken m1 0 t0); ("return", "/cart")] in
  (HandleVerify m1 new_writer r "192.0.2.1" "id" "sid:a" t0).1.2 =
    [MarkIPClean "192.0.2.1" "challenge passed"; MarkSessionPassed "sid:a"] /\
  HandleVerify m1 new_writer (req "/cart" []) "192.0.2.1" "id" "sid:a" t0 = (false, [], new_writer).
Proof.
  intros r. destruct (verify_clears_only_solved m1 new_writer r "192.0.2.1" "id" "sid:a" t0 eq_refl)
    as (_ & _ & Hs). split.
  - rewrite Hs; [reflexivity|reflexivity|].
    exists (Itoa (Time.Unix (t0 + Hour))), "0", (Time.Unix (t0 + Hour)), 0.
    split; [vm_compute; reflexivity|]. split; [vm_compute; reflexivity|].
    split; [vm_compute; reflexivity|]. split; [vm_compute; discriminate|reflexivity].
  - apply (verify_clears_only_solved m1 new_writer (req "/cart" []) "192.0.2.1" "id" "sid:a" t0 eq_refl).
    discriminate.
Defined.

Lemma redirect_open_by_dot_segment_witness :
  redirect_location (safeReturn "/./\evil.example") = "/\evil.example".
Proof. apply (redirect_open_by_dot_segment "evil.example"). reflexivity. Defined.

End ChallengeExamples.
