(* ===== verification/RespCache.v ===== *)
(** * The response cache ([internal/cache/cache.go] and its use in
    [internal/proxy/proxy.go])

    The TTL cache over the LRU library, the decisions what to store and what to
    compress, and [cachingBody], the reader that tees a backend body into the
    cache.  Clock readings are arguments. *)

From S2P Require Export Lru Http.

(** ** The cache *)

(** [Entry] *)
Record Entry := {
  e_Status : Z;
  e_Header : gmap string (list string);
  e_Body : string;
  e_Stored : time;
  e_Expires : time;
}.

Section Cache.
Context `{LRU Entry}.

Definition Cache : Type := lru_t Entry.

Definition New (maxEntries : Z) : option Cache :=
  let maxEntries := if maxEntries <=? 0 then 1024 else maxEntries in
  lru_new maxEntries.

Definition Get (c : Cache) (key : string) (now : time) : option Entry * Cache :=
  match lru_get key c with
  | (None, c) => (None, c)
  | (Some e, c) => if Time.After now (e_Expires e) then (None, lru_remove key c) else (Some e, c)
  end.

Definition Put (c : Cache) (key : string) (e : Entry) : Cache := lru_add key e c.

Definition Age (e : Entry) (now : time) : Z :=
  let d := Time.Sub now (e_Stored e) in
  if d <? 0 then 0 else d / Second.

Definition Len (c : Cache) : Z := lru_len c.

Definition Purge (c : Cache) : Cache := lru_purge c.

(** ** The caching body *)

(** [cachingBody]; [cb_status] to [cb_ttl] never change. *)
Record cachingBody := {
  cb_buf : string;
  cb_key : string;
  cb_status : Z;
  cb_header : gmap string (list string);
  cb_maxSize : Z;
  cb_ttl : duration;
  cb_tooBig : bool;
  cb_committed : bool;
}.

(** The error of a read of the backend body. *)
Inductive read_err := NoErr | EOF | Failed.

Definition is_EOF (e : read_err) : bool := match e with EOF => true | _ => false end.

Definition buffer (b : cachingBody) (data : string) : cachingBody :=
  let with_buf buf tooBig := {| cb_buf := buf; cb_key := cb_key b; cb_status := cb_status b;
    cb_header := cb_header b; cb_maxSize := cb_maxSize b; cb_ttl := cb_ttl b;
    cb_tooBig := tooBig; cb_committed := cb_committed b |} in
  if (0 <? len data) && negb (cb_tooBig b) then
    if (0 <? cb_maxSize b) && (cb_maxSize b <? len (cb_buf b) + len data)
    then with_buf "" true
    else with_buf (cb_buf b +:+ data) false
  else b.

Definition commit (b : cachingBody) : cachingBody := {|
  cb_buf := cb_buf b; cb_key := cb_key b; cb_status := cb_status b; cb_header := cb_header b;
  cb_maxSize := cb_maxSize b; cb_ttl := cb_ttl b; cb_tooBig := cb_tooBig b; cb_committed := true |}.

Definition entry_of (b : cachingBody) (now : time) : Entry := {|
  e_Status := cb_status b; e_Header := cb_header b; e_Body := cb_buf b; e_Stored := now;
  e_Expires := Time.Add now (cb_ttl b) |}.

(** [Read], given what the backend body returned: [data] and [err]. *)
Definition Read (b : cachingBody) (c : Cache) (data : string) (err : read_err) (now : time) :
    cachingBody * Cache :=
  let b := buffer b data in
  if is_EOF err && negb (cb_tooBig b) && negb (cb_committed b)
  then (commit b, Put c (cb_key b) (entry_of b now))
  else (b, c).

Definition read_all (b : cachingBody) (c : Cache) (rs : list (string * read_err)) (now : time) :
    cachingBody * Cache :=
  fold_left (fun bc r => Read bc.1 bc.2 r.1 r.2 now) rs (b, c).

End Cache.
Arguments Cache {_}.

(** ** What may be stored *)

(** The part of [http.Response] the handlers look at. *)
Record Response := {
  resp_Status : Z;
  resp_Header : gmap string (list string);
  resp_ContentLength : Z;
}.

Section Storable.
Context `{Unicode}.

Definition storable (resp : Response) (maxSize : Z) : bool :=
  if negb (resp_Status resp =? StatusOK) then false
  else if negb (Header.Get (resp_Header resp) "Set-Cookie" =?s "") then false
  else
    let cc := ToLower (Header.Get (resp_Header resp) "Cache-Control") in
    if Contains cc "no-store" || Contains cc "private" || Contains cc "no-cache" then false
    else
      let v := TrimSpace (Header.Get (resp_Header resp) "Vary") in
      if negb (v =?s "") && negb (EqualFold v "accept-encoding") then false
      else if (0 <? maxSize) && (maxSize <? resp_ContentLength resp) then false
      else true.

Definition uncached_headers : list string :=
  ["Connection"; "Keep-Alive"; "Proxy-Authenticate"; "Proxy-Authorization"; "Te"; "Trailer";
   "Transfer-Encoding"; "Upgrade"; "Set-Cookie"; "X-Cache"; "Age"].

Definition cacheHeaders (h : gmap string (list string)) : gmap string (list string) :=
  fold_left Header.Del uncached_headers h.

(** ** Compression ([internal/proxy/compression.go])

    The zstd stream itself is a library. *)

Definition remove_spaces (s : string) : string :=
  String.string_of_list_ascii
    (List.filter (fun c => negb (c =?c " ")) (String.list_ascii_of_string s)).

Fixpoint acceptsZstd_loop (parts : list string) : bool :=
  match parts with
  | [] => false
  | part :: parts =>
      let '(name, params, _) := Cut (TrimSpace part) ";" in
      if EqualFold (TrimSpace name) "zstd" then negb (Contains (remove_spaces params) "q=0")
      else acceptsZstd_loop parts
  end.

Definition acceptsZstd (ae : string) : bool := acceptsZstd_loop (Split ae ",").

Definition compressible_types : list string :=
  ["application/json"; "application/javascript"; "application/xml"; "application/xhtml+xml";
   "application/rss+xml"; "application/atom+xml"; "application/ld+json"; "application/manifest+json";
   "application/wasm"; "image/svg+xml"; "application/x-javascript"].

Definition compressibleType (ct : string) : bool :=
  let ct := ToLower (TrimSpace ct) in
  let ct := match IndexByte ct ";" with Some i => TrimSpace (str_take i ct) | None => ct end in
  if ct =?s "text/event-stream" then false
  else if HasPrefix ct "text/" then true
  else existsb (String.eqb ct) compressible_types.

Definition shouldCompress (req : Request) (resp : Response) (minSize : Z) : bool :=
  if negb (Header.Get (resp_Header resp) "Content-Encoding" =?s "") then false
  else if negb (acceptsZstd (Header.Get (r_Header req) "Accept-Encoding")) then false
  else if negb (compressibleType (Header.Get (resp_Header resp) "Content-Type")) then false
  else if (resp_Status resp =? 204) || (resp_Status resp =? 304) || (resp_Status resp =? 206) then false
  else if (0 <=? resp_ContentLength resp) && (resp_ContentLength resp <? minSize) then false
  else true.

End Storable.

(** ** Theorems: the cache *)

Section CacheFacts.
Context `{LRULaws Entry}.
Implicit Types (c : Cache) (e : Entry).

Lemma Get_value c key now :
  (Get c key now).1 =
    e ← lru_peek key c; if Time.After now (e_Expires e) then None else Some e.
Proof.
  unfold Get. rewrite (lru_get_eq key c). destruct (lru_peek key c) as [e|]; [|done]. cbn.
  by destruct (Time.After now (e_Expires e)).
Qed.

(** The cache never serves an expired entry and never serves a wrong one:
    [Get] returns an entry exactly when it is the one stored under that key
    and the clock is not past its expiry; an expired entry is evicted, and no
    lookup changes what any other key holds; after [Put], the key holds the new
    entry. *)
Theorem cache_serves_fresh_only c key now e :
  ((Get c key now).1 = Some e <-> lru_peek key c = Some e /\ now <= e_Expires e) /\
  (lru_peek key c = Some e -> e_Expires e < now -> lru_peek key (Get c key now).2 = None) /\
  (forall j, j <> key -> lru_peek j (Get c key now).2 = lru_peek j c) /\
  ((0 < lru_cap c)%nat -> lru_peek key (Put c key e) = Some e).
Proof.
  split_and!.
  - rewrite Get_value. destruct (lru_peek key c) as [e'|]; cbn; [|naive_solver].
    unfold Time.After. destruct (Z.ltb_spec (e_Expires e') now); split.
    + done.
    + intros [[= ->] ?]. lia.
    + intros [= ->]. done.
    + by intros [[= ->] _].
  - intros Hp Hx. unfold Get. rewrite (lru_get_eq key c), Hp. unfold Time.After.
    replace (e_Expires e <? now) with true by lia. apply peek_remove_eq.
  - intros j Hj. unfold Get. rewrite (lru_get_eq key c). destruct (lru_peek key c) as [e'|].
    + destruct (Time.After now (e_Expires e')); cbn [snd]; by rewrite ?peek_remove_ne, peek_get.
    + apply peek_get.
  - intros Hc. by apply peek_add_eq.
Qed.

(** The reads up to and including the first end of file. *)
Fixpoint to_eof (rs : list (string * read_err)) : option (list string) :=
  match rs with
  | [] => None
  | (d, EOF) :: _ => Some [d]
  | (d, _) :: rs => cons d <$> to_eof rs
  end.

Definition str_concat (l : list string) : string := foldr String.append "" l.

Definition fits (maxSize : Z) (body : string) : bool := (maxSize <=? 0) || (len body <=? maxSize).

Lemma buffer_fields b d :
  cb_key (buffer b d) = cb_key b /\ cb_status (buffer b d) = cb_status b /\
  cb_header (buffer b d) = cb_header b /\ cb_maxSize (buffer b d) = cb_maxSize b /\
  cb_ttl (buffer b d) = cb_ttl b /\ cb_committed (buffer b d) = cb_committed b.
Proof. unfold buffer. by repeat case_match. Qed.

(** A body past its cap stays past it. *)
Lemma buffer_tooBig b d : cb_tooBig b = true -> buffer b d = b.
Proof. unfold buffer. intros ->. by rewrite andb_false_r. Qed.

Lemma len_zero d : (0 <? len d) = false -> d = "".
Proof. unfold len. destruct d; [done|]. cbn [String.length]. intros E. apply Z.ltb_ge in E. lia. Qed.

Lemma buffer_fits b d :
  cb_tooBig b = false -> fits (cb_maxSize b) (cb_buf b) = true ->
  if fits (cb_maxSize b) (cb_buf b +:+ d)
  then cb_tooBig (buffer b d) = false /\ cb_buf (buffer b d) = cb_buf b +:+ d
  else cb_tooBig (buffer b d) = true.
Proof.
  intros Ht Hf. unfold buffer. rewrite Ht. cbn [negb]. rewrite andb_true_r.
  destruct (0 <? len d) eqn:Ed.
  - unfold fits in *. rewrite len_app, Z.ltb_antisym.
    rewrite (Z.ltb_antisym (len (cb_buf b) + len d) (cb_maxSize b)).
    destruct (cb_maxSize b <=? 0); cbn [negb andb orb]; [done|].
    by destruct (len (cb_buf b) + len d <=? cb_maxSize b).
  - apply len_zero in Ed as ->. rewrite str_app_nil_r, Hf. done.
Qed.

(** Reading changes nothing once the body was committed or found too big. *)
Lemma read_all_idle b c rs now :
  cb_tooBig b = true \/ cb_committed b = true -> (read_all b c rs now).2 = c.
Proof.
  revert b. unfold read_all. induction rs as [|[d err] rs IH]; intros b Hb; [done|]. cbn [fold_left].
  assert (E : exists b', Read b c d err now = (b', c) /\ (cb_tooBig b' = true \/ cb_committed b' = true)).
  { unfold Read. destruct Hb as [Hb|Hb].
    - rewrite buffer_tooBig, Hb by done. cbn [negb]. rewrite andb_false_r. eauto.
    - destruct (buffer_fields b d) as (_ & _ & _ & _ & _ & Hc). rewrite Hc, Hb. cbn [negb].
      rewrite andb_false_r. eexists. split; [done|]. right. by rewrite Hc. }
  cbn [fst snd]. destruct E as (b' & -> & Hb'). by apply IH.
Qed.

Lemma read_all_spec b c rs now :
  cb_tooBig b = false -> cb_committed b = false -> fits (cb_maxSize b) (cb_buf b) = true ->
  (read_all b c rs now).2 =
    match to_eof rs with
    | Some ds =>
        let body := cb_buf b +:+ str_concat ds in
        if fits (cb_maxSize b) body then
          Put c (cb_key b) {| e_Status := cb_status b; e_Header := cb_header b; e_Body := body;
                              e_Stored := now; e_Expires := Time.Add now (cb_ttl b) |}
        else c
    | None => c
    end.
Proof.
  revert b. induction rs as [|[d err] rs IH]; intros b Ht Hc Hf; [done|].
  pose proof (buffer_fits b d Ht Hf) as Hb.
  destruct (buffer_fields b d) as (Ek & Es & Eh & Em & El & Ec).
  unfold read_all. cbn [fold_left fst snd]. unfold Read at 2. rewrite Ec, Hc. cbn [negb]. rewrite andb_true_r.
  assert (Hbig : fits (cb_maxSize b) (cb_buf b +:+ d) = false ->
    forall ds, fits (cb_maxSize b) (cb_buf b +:+ (d +:+ ds)) = false).
  { unfold fits. intros [Hm Hl]%orb_false_iff ds. rewrite !len_app in *.
    pose proof (len_nonneg ds). apply orb_false_iff. split; [done|]. lia. }
  destruct (is_EOF err) eqn:Eerr.
  - destruct err; try done. cbn [to_eof str_concat foldr]. rewrite str_app_nil_r. cbv zeta.
    destruct (fits (cb_maxSize b) (cb_buf b +:+ d)).
    + destruct Hb as [-> Hb]. cbn [negb andb].
      etrans; [apply (read_all_idle (commit (buffer b d))); by right|].
      unfold entry_of. by rewrite Ek, Es, Eh, El, Hb.
    + rewrite Hb. cbn [negb andb]. apply (read_all_idle (buffer b d)). by left.
  - cbn [andb]. assert (Ht' : to_eof ((d, err) :: rs) = cons d <$> to_eof rs) by (by destruct err).
    rewrite Ht'. destruct (fits (cb_maxSize b) (cb_buf b +:+ d)) eqn:Ef.
    + destruct Hb as [Hb1 Hb2]. etrans; [apply (IH (buffer b d)); rewrite ?Ec, ?Em, ?Hb2; done|].
      destruct (to_eof rs) as [ds|]; [|done]. cbn [fmap option_fmap option_map str_concat foldr]. cbv zeta.
      rewrite Em, Ek, Es, Eh, El, Hb2. fold (str_concat ds). by rewrite str_app_assoc.
    + etrans; [apply (read_all_idle (buffer b d)); by left|].
      destruct (to_eof rs) as [ds|]; [|done]. cbn [fmap option_fmap option_map str_concat foldr]. cbv zeta.
      fold (str_concat ds). by rewrite Hbig.
Qed.

(** Only whole responses are cached: however the backend body is read, in
    whatever chunks, the cache gains one entry exactly when the reads reach an
    end of file with at most [maxSize] bytes in all (no limit when it is not
    positive), and the entry's body is then the concatenation of the chunks up
    to there; an aborted, failed or oversized body leaves the cache as it was,
    and reading on past the end adds nothing. *)
Theorem only_whole_bodies_are_cached key status header maxSize ttl c rs now :
  let b := {| cb_buf := ""; cb_key := key; cb_status := status; cb_header := header;
              cb_maxSize := maxSize; cb_ttl := ttl; cb_tooBig := false; cb_committed := false |} in
  (read_all b c rs now).2 =
    match to_eof rs with
    | Some ds =>
        if fits maxSize (str_concat ds) then
          Put c key {| e_Status := status; e_Header := header; e_Body := str_concat ds;
                       e_Stored := now; e_Expires := Time.Add now ttl |}
        else c
    | None => c
    end.
Proof.
  intros b. rewrite read_all_spec; [done|done|done|].
  unfold fits. cbn. change (len "") with 0. destruct (Z.leb_spec maxSize 0); [done|]. cbn. lia.
Qed.

End CacheFacts.

(** ** Theorems: headers and compression *)

Lemma delete_all_lookup ks (h : gmap string (list string)) k :
  fold_left Header.Del ks h !! k =
    if bool_decide (k ∈ CanonicalHeaderKey <$> ks) then None else h !! k.
Proof.
  revert h. induction ks as [|j ks IH]; intros h; cbn [fold_left fmap list_fmap].
  - rewrite bool_decide_false; [done|]. apply not_elem_of_nil.
  - rewrite IH. unfold Header.Del. destruct (decide (k = CanonicalHeaderKey j)) as [->|Hne].
    + rewrite lookup_delete_eq. rewrite (bool_decide_true (_ ∈ _ :: _)) by (by left). by case_match.
    + rewrite lookup_delete_ne by done. case_bool_decide; case_bool_decide; try done; exfalso.
      * set_solver.
      * set_solver.
Qed.

(** A cached response replays no per-connection or per-user header: the stored
    header has none of the eleven excluded keys -- [Set-Cookie] above all --
    and every other header as the backend sent it. *)
Theorem cacheHeaders_spec h k :
  cacheHeaders h !! k = if bool_decide (k ∈ uncached_headers) then None else h !! k.
Proof.
  unfold cacheHeaders. rewrite delete_all_lookup.
  by replace (CanonicalHeaderKey <$> uncached_headers) with uncached_headers by (vm_compute; reflexivity).
Qed.

Section Zstd.
Context `{Unicode}.

Lemma remove_spaces_app s t : remove_spaces (s +:+ t) = remove_spaces s +:+ remove_spaces t.
Proof.
  unfold remove_spaces. induction s as [|c s IH]; [done|].
  rewrite str_app_cons. cbn [String.list_ascii_of_string List.filter].
  destruct (negb (c =?c " ")); cbn [String.string_of_list_ascii]; by rewrite IH.
Qed.

(** [q] values below one are read as zero: a client that lists zstd with any
    weight [0.ddd] -- a positive preference in HTTP -- gets no zstd, because
    the test for [q=0] is a substring test. *)
Theorem zstd_fractional_quality_refused d :
  str_forallb is_digit d = true -> acceptsZstd ("zstd;q=0." +:+ d) = false.
Proof.
  intros Hd.
  assert (Hall : forall p : byte -> bool, (forall c, is_digit c = true -> p c = true) ->
    str_forallb p "zstd;q=0." = true -> str_forallb p ("zstd;q=0." +:+ d) = true).
  { intros p Hp Hz. rewrite str_forallb_app, Hz. clear -Hp Hd.
    induction d as [|c d IH]; [done|]. cbn in Hd |- *. apply andb_true_iff in Hd as [Hc Hd].
    by rewrite Hp, IH. }
  assert (Hs : Split ("zstd;q=0." +:+ d) "," = ["zstd;q=0." +:+ d]).
  { assert (Hn : str_forallb (fun x => negb (x =?c ",")) ("zstd;q=0." +:+ d) = true).
    { apply Hall; [|done]. by intros [[][][][][][][][]]. }
    revert Hn. generalize ("zstd;q=0." +:+ d) as s. induction s as [|x s IH]; [done|].
    cbn [str_forallb Split]. rewrite andb_true_iff, negb_true_iff. intros [-> Hn]. by rewrite IH. }
  assert (Hsp : str_forallb (fun c => negb (is_space c)) ("zstd;q=0." +:+ d) = true).
  { apply Hall; [|done]. by intros [[][][][][][][][]]. }
  assert (Ht : TrimSpace ("zstd;q=0." +:+ d) = "zstd;q=0." +:+ d).
  { unfold TrimSpace. replace (isASCII ("zstd;q=0." +:+ d)) with true.
    2: { symmetry. apply Hall; [|done]. by intros [[][][][][][][][]]. }
    replace (trim_left is_space ("zstd;q=0." +:+ d)) with ("zstd;q=0." +:+ d) by done.
    revert Hsp. generalize ("zstd;q=0." +:+ d) as s. induction s as [|x s IH]; [done|].
    cbn [str_forallb trim_right]. rewrite andb_true_iff, negb_true_iff. intros [-> Hn].
    rewrite IH by done. by destruct s. }
  unfold acceptsZstd. rewrite Hs. cbn [acceptsZstd_loop]. rewrite Ht.
  change ("zstd;q=0." +:+ d) with ("zstd" +:+ String ";" ("q=0." +:+ d)). 
  unfold Cut. rewrite IndexByte_app by done. rewrite str_take_app.
  change (str_drop (S (String.length "zstd")) ("zstd" +:+ String ";" ("q=0." +:+ d))) with ("q=0." +:+ d).
  change (EqualFold (TrimSpace "zstd") "zstd") with true. cbn iota.
  apply negb_false_iff, Contains_spec. rewrite remove_spaces_app.
  exists "", ("." +:+ remove_spaces d). done.
Qed.

End Zstd.

(** ** Witnesses *)

Module CacheExamples.

#[local] Existing Instance ascii_only.
#[local] Existing Instance ListLru.list_lru.
#[local] Existing Instance ListLru.list_lru_laws.

Definition e0 : Entry := {|
  e_Status := 200; e_Header := ∅; e_Body := "png"; e_Stored := 0; e_Expires := Minute |}.
Definition c0 : Cache := Put (ListLru.Lru 2 []) "GET shop.test /a.png" e0.

Lemma cache_serves_fresh_only_witness :
  lru_peek "k" (Put c0 "k" e0) = Some e0 /\ (Get c0 "GET shop.test /a.png" Minute).1 = Some e0 /\
  lru_peek "GET shop.test /a.png" (Get c0 "GET shop.test /a.png" (Minute + 1)).2 = None /\
  lru_peek "GET shop.test /a.png" (Get c0 "k" Minute).2 = Some e0.
Proof.
  split_and!.
  - apply (cache_serves_fresh_only c0 "k" 0 e0). cbn. lia.
  - apply (proj2 (proj1 (cache_serves_fresh_only c0 "GET shop.test /a.png" Minute e0))).
    split; [reflexivity|cbn; lia].
  - apply (cache_serves_fresh_only c0 "GET shop.test /a.png" (Minute + 1) e0); reflexivity.
  - assert (Hne : "GET shop.test /a.png" <> "k") by discriminate.
    rewrite (proj1 (proj2 (proj2 (cache_serves_fresh_only c0 "k" Minute e0))) _ Hne). reflexivity.
Defined.

Lemma zstd_fractional_quality_refused_witness : acceptsZstd "zstd;q=0.5" = false.
Proof. apply (zstd_fractional_quality_refused "5"). reflexivity. Defined.

Example acceptsZstd_ex : acceptsZstd "gzip, br;q=1.0, ZSTD" = true. Proof. reflexivity. Qed.
Example storable_ex :
  storable {| resp_Status := 200; resp_Header := {["Vary" := ["Accept-Encoding"]]}; resp_ContentLength := 10 |} 10 = true.
Proof. reflexivity. Qed.
Example storable_private :
  storable {| resp_Status := 200; resp_Header := {["Cache-Control" := ["Private, max-age=60"]]}; resp_ContentLength := 10 |} 10 = false.
Proof. reflexivity. Qed.

End CacheExamples.
