(* ===== verification/CachePool.v ===== *)
(** * The response cache among goroutines ([internal/cache/cache.go], [cachingBody])

    The cache has no lock of its own: the LRU library locks every call.  [Get]
    is therefore two sections when the entry it finds has expired -- another
    goroutine may store a new one before the old one is removed --, and a body
    that is teed into the cache touches it once, at its end.  [task_step] runs
    one section of one goroutine; a run takes them in any order. *)

From S2P Require Export RespCache.

Section Pool.
Context `{LRULaws Entry}.
Implicit Types (c : Cache) (b : cachingBody) (e : Entry).

(** A goroutine: teeing the rest of a body, in [Get], or done. *)
Inductive task :=
| Teeing (b : cachingBody) (reads : list (string * read_err))
| Looking (key : string)
| Removing (key : string)
| Found (key : string) (e : Entry) (now : time)
| Missed (key : string)
| Ended.

(** The next section of a goroutine at time [now] *)
Definition task_step (now : time) c (tk : task) : Cache * task :=
  match tk with
  | Teeing b ((data, err) :: reads) =>
      let '(b, c) := Read b c data err now in (c, Teeing b reads)
  | Teeing b [] => (c, Ended)
  | Looking key =>
      match lru_get key c with
      | (None, c) => (c, Missed key)
      | (Some e, c) => if Time.After now (e_Expires e) then (c, Removing key) else (c, Found key e now)
      end
  | Removing key => (lru_remove key c, Missed key)
  | _ => (c, tk)
  end.

(** [Get] alone is its sections. *)
Lemma Get_sections c key now :
  let '(c1, tk1) := task_step now c (Looking key) in
  let '(c2, tk2) := task_step now c1 tk1 in
  Get c key now = (match tk2 with Found _ e _ => Some e | _ => None end, c2).
Proof.
  cbn. unfold Get. destruct (lru_get key c) as [[e|] c']; [|done]. cbn. by destruct (Time.After now (e_Expires e)).
Qed.

Record cache_pool := CachePool { cp_cache : Cache; cp_tasks : list task }.

Inductive cache_step : cache_pool -> cache_pool -> Prop :=
| cache_section now c l1 tk l2 :
    cache_step (CachePool c (l1 ++ tk :: l2))
      (CachePool (task_step now c tk).1 (l1 ++ (task_step now c tk).2 :: l2)).

(** ** Whole bodies *)

(** A response that was read to its end, within the size limit, is what an
    entry holds. *)
Definition whole (b0 : cachingBody) (rs : list (string * read_err)) (key : string) e : Prop :=
  cb_key b0 = key /\ e_Status e = cb_status b0 /\ e_Header e = cb_header b0 /\
  exists ds, to_eof rs = Some ds /\ e_Body e = str_concat ds /\ fits (cb_maxSize b0) (e_Body e) = true.

(** The bodies that are teed, from their beginning *)
Definition fresh_body (b : cachingBody) : Prop :=
  cb_buf b = "" /\ cb_tooBig b = false /\ cb_committed b = false.

Definition same_body (b0 b : cachingBody) : Prop :=
  cb_key b = cb_key b0 /\ cb_status b = cb_status b0 /\ cb_header b = cb_header b0 /\
  cb_maxSize b = cb_maxSize b0 /\ cb_ttl b = cb_ttl b0.

(** How far a tee has come: it will not store any more, or it holds what it has
    read. *)
Definition under_way (b0 : cachingBody) (rs : list (string * read_err)) b (rest : list (string * read_err)) : Prop :=
  same_body b0 b /\
  (cb_tooBig b = true \/ cb_committed b = true \/
   (cb_tooBig b = false /\ cb_committed b = false /\ fits (cb_maxSize b0) (cb_buf b) = true /\
    exists consumed, rs = consumed ++ rest /\ to_eof consumed = None /\ cb_buf b = str_concat (fst <$> consumed))).

Lemma str_concat_app l1 l2 : str_concat (l1 ++ l2) = str_concat l1 +:+ str_concat l2.
Proof.
  induction l1 as [|x l1 IH]; [done|]. change (str_concat ((x :: l1) ++ l2)) with (x +:+ str_concat (l1 ++ l2)).
  change (str_concat (x :: l1)) with (x +:+ str_concat l1). by rewrite IH, str_app_assoc.
Qed.

Lemma to_eof_app rs1 rs2 : to_eof rs1 = None -> to_eof (rs1 ++ rs2) = app (fst <$> rs1) <$> to_eof rs2.
Proof.
  induction rs1 as [|[d err] rs1 IH]; cbn [to_eof app]; [by destruct (to_eof rs2)|].
  destruct err; [|done|]; (destruct (to_eof rs1); [done|]); intros _; rewrite IH by done; by destruct (to_eof rs2).
Qed.

Lemma fits_empty maxSize : fits maxSize "" = true.
Proof. unfold fits. change (len "") with 0. destruct (Z.leb_spec maxSize 0); [done|]. cbn. lia. Qed.

Lemma fresh_under_way b rs : fresh_body b -> under_way b rs b rs.
Proof.
  intros (Hb & Ht & Hc). split; [by split_and!|]. right. right. split_and!; try done.
  - rewrite Hb. apply fits_empty.
  - exists []. by rewrite Hb.
Qed.

(** One read stores nothing, or the whole body. *)
Lemma read_under_way b0 rs b data err rest c now :
  under_way b0 rs b ((data, err) :: rest) ->
  let '(b', c') := Read b c data err now in
  under_way b0 rs b' rest /\ (c' = c \/ exists e, c' = Put c (cb_key b0) e /\ whole b0 rs (cb_key b0) e).
Proof.
  intros [(Ek & Es & Eh & Em & El) Hst]. destruct (buffer_fields b data) as (Fk & Fs & Fh & Fm & Fl & Fc).
  unfold Read. destruct (cb_tooBig b) eqn:Ebig.
  { rewrite buffer_tooBig, Ebig by done. cbn [negb]. rewrite andb_false_r. split; [|by left].
    split; [by split_and!|by left]. }
  destruct (cb_committed b) eqn:Ecom.
  { rewrite Fc, ?Ecom. cbn [negb]. rewrite andb_false_r. split; [|by left].
    split; [by split_and!; congruence|]. right. left. by rewrite Fc. }
  destruct Hst as [?|[?|(_ & _ & Hf & consumed & Ers & Hn & Hb)]]; [done..|].
  rewrite <- Em in Hf. pose proof (buffer_fits b data Ebig Hf) as Hbf. rewrite Em in Hf, Hbf.
  rewrite Fc, ?Ecom. cbn [negb]. rewrite andb_true_r.
  destruct (fits (cb_maxSize b0) (cb_buf b +:+ data)) eqn:Efit.
  2: { rewrite Hbf. cbn [negb]. rewrite andb_false_r. split; [|by left]. split; [by split_and!; congruence|by left]. }
  destruct Hbf as [Hbig Hbuf]. rewrite Hbig. cbn [negb]. rewrite andb_true_r.
  assert (Hc1 : str_concat (fst <$> consumed ++ [(data, err)]) = cb_buf b +:+ data).
  { rewrite fmap_app, str_concat_app, Hb. cbn. by rewrite str_app_nil_r. }
  destruct err; cbn [is_EOF].
  - split; [|by left]. split; [by split_and!; congruence|]. right. right. rewrite Fc, Hbig, Hbuf.
    split_and!; try done. exists (consumed ++ [(data, NoErr)]). rewrite <- app_assoc. split; [done|].
    split; [|done]. rewrite to_eof_app by done. done.
  - split; [split; [by split_and!; cbn; congruence|by right; left]|]. right. eexists. split; [by rewrite Fk, Ek|].
    split_and!; cbn; [done|congruence|congruence|]. exists ((fst <$> consumed) ++ [data]).
    rewrite Ers, to_eof_app by done. split; [done|]. rewrite Hbuf, str_concat_app, Hb. cbn. rewrite str_app_nil_r.
    split; [done|]. by rewrite <- Hb.
  - split; [|by left]. split; [by split_and!; congruence|]. right. right. rewrite Fc, Hbig, Hbuf.
    split_and!; try done. exists (consumed ++ [(data, Failed)]). rewrite <- app_assoc. split; [done|].
    split; [|done]. rewrite to_eof_app by done. done.
Qed.

(** ** Interleavings *)

(** What the goroutines of [tks] have to do with the bodies of [tees] *)
Definition task_ok (tees : list (cachingBody * list (string * read_err))) (tk : task) : Prop :=
  match tk with
  | Teeing b rest => exists b0 rs, (b0, rs) ∈ tees /\ under_way b0 rs b rest
  | Found key e now => now <= e_Expires e /\ exists b0 rs, (b0, rs) ∈ tees /\ whole b0 rs key e
  | _ => True
  end.

Definition cached_ok (tees : list (cachingBody * list (string * read_err))) (x : string * Entry) : Prop :=
  exists b0 rs, (b0, rs) ∈ tees /\ whole b0 rs x.1 x.2.

Lemma task_step_ok tees now c tk :
  Forall (cached_ok tees) (lru_items c) -> task_ok tees tk ->
  Forall (cached_ok tees) (lru_items (task_step now c tk).1) /\ task_ok tees (task_step now c tk).2.
Proof.
  intros Hc Htk. destruct tk as [b [|[data err] rest]|key|key|key e t|key|]; cbn [task_step]; try done.
  - destruct Htk as (b0 & rs & Hin & Hu). pose proof (read_under_way b0 rs b data err rest c now Hu) as Hr.
    destruct (Read b c data err now) as [b' c']. destruct Hr as [Hu' [->|(e & -> & He)]]; cbn [fst snd].
    + split; [done|by exists b0, rs].
    + split; [|by exists b0, rs]. unfold Put. apply items_add_Forall; [|done]. by exists b0, rs.
  - rewrite (lru_get_eq key c). destruct (lru_peek key c) as [e|] eqn:E.
    + unfold Time.After. destruct (Z.ltb_spec (e_Expires e) now) as [Hlt|Hge]; cbn [fst snd]; (split; [by apply items_get_Forall|]).
      * done.
      * split; [done|]. apply assoc_elem_of in E. rewrite Forall_forall in Hc. apply (Hc _ E).
    + cbn. split; [by apply items_get_Forall|done].
  - cbn. split; [by apply items_remove_Forall|done].
Qed.

(** (C29) Only whole and fresh responses are served, among goroutines too.  However
    the reads of the bodies that are teed into the cache and the sections of the
    lookups interleave -- expired entries are removed late, bodies fail or are
    too big, two are stored under one key --, an entry that a lookup finds is
    the whole body of one of the responses stored under that key, read to its
    end and within its size limit, with that response's status and stored
    headers, and it has not expired at the time of the lookup. *)
Theorem lookups_find_whole_bodies c tees keys p :
  lru_items c = [] -> Forall (fun x => fresh_body x.1) tees ->
  rtc cache_step (CachePool c (map (fun x => Teeing x.1 x.2) tees ++ map Looking keys)) p ->
  forall key e now, Found key e now ∈ cp_tasks p ->
    now <= e_Expires e /\ exists b rs, (b, rs) ∈ tees /\ whole b rs key e.
Proof.
  intros Hc Hf Hs. set (p0 := CachePool _ _) in Hs.
  assert (Hinv : Forall (cached_ok tees) (lru_items (cp_cache p0)) /\ Forall (task_ok tees) (cp_tasks p0)).
  { unfold p0. cbn. rewrite Hc. split; [constructor|]. apply Forall_app. split; apply Forall_forall; intros tk.
    - intros (x & -> & Hx)%list_elem_of_fmap. exists x.1, x.2. split; [by destruct x|]. apply fresh_under_way.
      rewrite Forall_forall in Hf. by apply Hf.
    - by intros (x & -> & _)%list_elem_of_fmap. }
  assert (Hend : Forall (cached_ok tees) (lru_items (cp_cache p)) /\ Forall (task_ok tees) (cp_tasks p)).
  { clearbody p0. induction Hs as [|x y z Hst _ IH]; [done|]. apply IH. clear IH.
    destruct Hst as [now c1 l1 tk l2]. cbn in *. destruct Hinv as [Hi1 [Hl1 [Htk Hl2]%Forall_cons]%Forall_app].
    destruct (task_step_ok tees now c1 tk Hi1 Htk). split; [done|]. apply Forall_app. split; [done|]. by constructor. }
  intros key e now Hin. destruct Hend as [_ Hend]. rewrite Forall_forall in Hend. apply (Hend _ Hin).
Qed.

End Pool.

(** ** Witnesses *)

Module PoolExamples.

#[local] Existing Instance ascii_only.
#[local] Existing Instance ListLru.list_lru.
#[local] Existing Instance ListLru.list_lru_laws.

Definition body0 : cachingBody := {|
  cb_key := "GET shop.test /a.png"; cb_status := 200; cb_header := ∅; cb_ttl := Minute; cb_maxSize := 10;
  cb_buf := ""; cb_tooBig := false; cb_committed := false |}.

Definition reads0 : list (string * read_err) := [("pn", NoErr); ("g", EOF)].

Definition tees0 : list (cachingBody * list (string * read_err)) := [(body0, reads0)].

Abbreviation key0 := "GET shop.test /a.png".

Definition pool0 : cache_pool :=
  CachePool (ListLru.Lru 2 []) (map (fun x => Teeing x.1 x.2) tees0 ++ map Looking [key0; key0]).

(** A lookup between the two reads, and one after them *)
Definition turns : list (nat * time) := [(0%nat, Second); (1%nat, Second); (0%nat, Second); (2%nat, 2 * Second)].

Fixpoint take_turns (p : cache_pool) (l : list (nat * time)) : cache_pool :=
  match l with
  | [] => p
  | (i, now) :: l =>
      match cp_tasks p !! i with
      | Some tk => take_turns (CachePool (task_step now (cp_cache p) tk).1
                                         (<[i := (task_step now (cp_cache p) tk).2]> (cp_tasks p))) l
      | None => p
      end
  end.

Lemma take_turns_steps l : forall p, rtc cache_step p (take_turns p l).
Proof.
  induction l as [|[i now] l IH]; intros [c tks]; cbn [take_turns cp_tasks cp_cache]; [apply rtc_refl|].
  destruct (tks !! i) as [tk|] eqn:E; [|apply rtc_refl]. eapply rtc_l; [|apply IH].
  pose proof (lookup_lt_Some _ _ _ E) as Hlt. rewrite insert_take_drop by done.
  rewrite <- (take_drop_middle _ _ _ E) at 1. apply cache_section.
Qed.

Definition found : Entry := {|
  e_Status := 200; e_Header := ∅; e_Body := "png"; e_Stored := Second; e_Expires := Second + Minute |}.

Lemma lookups_find_whole_bodies_witness :
  cp_tasks (take_turns pool0 turns) = [Teeing (commit (buffer (buffer body0 "pn") "g")) []; Missed key0; Found key0 found (2 * Second)] /\
  2 * Second <= e_Expires found /\ exists b rs, (b, rs) ∈ tees0 /\ whole b rs key0 found.
Proof.
  split; [reflexivity|].
  apply (lookups_find_whole_bodies (cp_cache pool0) tees0 [key0; key0] (take_turns pool0 turns)); [reflexivity| | |].
  - repeat constructor.
  - exact (take_turns_steps turns pool0).
  - do 2 right. left.
Defined.

End PoolExamples.
