(* ===== verification/Float64.v ===== *)
(** * float64

    The floating-point operations smoker uses (conversion from integers,
    addition, subtraction, multiplication, division, comparison) as the class
    [Float64].  [binary64] is the IEEE 754 format itself, by the executable
    specification of the Standard Library; [Float64Laws] states the facts of the
    format the theorems rest on, and [Rationals] is an exact arithmetic that
    satisfies them. *)

From Stdlib Require Import Floats.SpecFloat QArith.
From S2P Require Export Prelude.
#[local] Open Scope Z_scope.

Class Float64 := {
  f64 : Type;
  f_of_Z : Z -> f64;
  f_add : f64 -> f64 -> f64;
  f_sub : f64 -> f64 -> f64;
  f_mul : f64 -> f64 -> f64;
  f_div : f64 -> f64 -> f64;
  f_leb : f64 -> f64 -> bool;
  f_ltb : f64 -> f64 -> bool;
}.

Section Ops.
Context `{Float64}.

Definition f_zero : f64 := f_of_Z 0.

(** [time.Duration.Seconds] *)
Definition Seconds (d : duration) : f64 :=
  f_add (f_of_Z (Z.quot d Second)) (f_div (f_of_Z (Z.rem d Second)) (f_of_Z Second)).

End Ops.

(** Integers up to [2^53] are exact. *)
Definition max_exact : Z := 2 ^ 53.

(** [f_fin x]: [x] is finite.  The rounded operations respect the order, with
    overflow to infinity where it can happen. *)
Class Float64Laws `{Float64} := {
  f_fin : f64 -> Prop;
  f_of_Z_fin a : 0 <= a <= max_exact -> f_fin (f_of_Z a);
  f_of_Z_leb a b : 0 <= a <= max_exact -> 0 <= b <= max_exact -> f_leb (f_of_Z a) (f_of_Z b) = (a <=? b);
  f_of_Z_sub a b : 0 <= b <= a -> a <= max_exact -> f_sub (f_of_Z a) (f_of_Z b) = f_of_Z (a - b);
  f_leb_refl x : f_fin x -> f_leb x x = true;
  f_leb_trans x y z : f_leb x y = true -> f_leb y z = true -> f_leb x z = true;
  f_ltb_not_leb x y : f_fin x -> f_fin y -> f_leb x y = false -> f_ltb y x = true;
  f_sub_range x y : f_fin x -> f_fin y -> f_leb f_zero y = true -> f_leb y x = true ->
    f_fin (f_sub x y) /\ f_leb f_zero (f_sub x y) = true /\ f_leb (f_sub x y) x = true;
  f_add_capped x y b : f_fin x -> f_fin b -> f_leb f_zero x = true -> f_leb f_zero y = true ->
    f_ltb b (f_add x y) = false ->
    f_fin (f_add x y) /\ f_leb f_zero (f_add x y) = true /\ f_leb (f_add x y) b = true;
  f_mul_nonneg x y : f_fin x -> f_ltb f_zero x = true -> f_leb f_zero y = true ->
    f_leb f_zero (f_mul x y) = true;
  f_div_nonneg x y : f_fin x -> f_leb f_zero x = true -> f_ltb f_zero y = true ->
    f_leb f_zero (f_div x y) = true;
  f_Seconds_fin d : is_int64 d -> f_fin (Seconds d);
  f_Seconds_zero : f_ltb f_zero (Seconds 0) = false;
}.

(** ** IEEE 754 binary64 *)

Module Binary64.

Definition prec : Z := 53.
Definition emax : Z := 1024.

Definition binary64 : Float64 := {|
  f64 := spec_float;
  f_of_Z z := binary_normalize prec emax z 0 false;
  f_add := SFadd prec emax;
  f_sub := SFsub prec emax;
  f_mul := SFmul prec emax;
  f_div := SFdiv prec emax;
  f_leb := SFleb;
  f_ltb := SFltb;
|}.

End Binary64.

(** ** Exact rationals *)

Module Rationals.

Definition rationals : Float64 := {|
  f64 := Q;
  f_of_Z := inject_Z;
  f_add x y := Qred (x + y);
  f_sub x y := Qred (x - y);
  f_mul x y := Qred (x * y);
  f_div x y := Qred (x / y);
  f_leb := Qle_bool;
  f_ltb x y := negb (Qle_bool y x);
|}.

#[local] Existing Instance rationals.

Lemma Qdiv_nonneg x y : (0 <= x)%Q -> (0 <= y)%Q -> (0 <= x / y)%Q.
Proof. intros. apply Qmult_le_0_compat; [done|]. by apply Qinv_le_0_compat. Qed.

Lemma Qred_int z : Qred (inject_Z z) = inject_Z z.
Proof.
  unfold Qred, inject_Z. pose proof (Z.ggcd_correct_divisors z 1) as Hg.
  pose proof (Z.ggcd_gcd z 1) as Hd. rewrite Z.gcd_1_r in Hd.
  destruct (Z.ggcd z 1) as [g [aa bb]]. cbn in *. subst g. destruct Hg as [H1 H2].
  rewrite Z.mul_1_l in *. by subst aa bb.
Qed.

Lemma Qle_bool_Q x y : Qle_bool x y = true <-> (x <= y)%Q.
Proof. apply Qle_bool_iff. Qed.

Lemma Qlt_bool_Q x y : negb (Qle_bool y x) = true <-> (x < y)%Q.
Proof. rewrite negb_true_iff, <- not_true_iff_false, Qle_bool_Q. split; [apply Qnot_le_lt|apply Qlt_not_le]. Qed.

#[global] Program Instance laws : Float64Laws := {| f_fin _ := True |}.
Next Obligation. done. Qed.
Next Obligation. intros a b _ _. apply eq_true_iff_eq. cbn. by rewrite Qle_bool_Q, Z.leb_le, <- Zle_Qle. Qed.
Next Obligation.
  intros a b _ _. cbn. rewrite <- (Qred_int (a - b)). apply Qred_complete. unfold Qminus, Z.sub.
  by rewrite inject_Z_plus, inject_Z_opp.
Qed.
Next Obligation. intros x _. apply Qle_bool_Q, Qle_refl. Qed.
Next Obligation. intros x y z. cbn. rewrite !Qle_bool_Q. apply Qle_trans. Qed.
Next Obligation. intros x y _ _ E. cbn in *. by rewrite E. Qed.
Next Obligation.
  intros x y _ _. unfold f_zero. cbn. change (inject_Z 0) with 0%Q.
  rewrite !Qle_bool_Q, Qred_correct. intros Hy Hyx. split_and!; [done|by apply Qle_minus_iff in Hyx|].
  apply Qle_minus_iff. assert (E : (x + - (x - y) == y)%Q) by ring. by rewrite E.
Qed.
Next Obligation.
  intros x y b _ _. unfold f_zero. cbn. change (inject_Z 0) with 0%Q. rewrite negb_false_iff.
  rewrite !Qle_bool_Q. intros Hx Hy Hb. split_and!; [done| |done].
  rewrite Qred_correct. by apply (Qplus_le_compat 0 x 0 y).
Qed.
Next Obligation.
  intros x y _. unfold f_zero. cbn. change (inject_Z 0) with 0%Q.
  rewrite Qlt_bool_Q, !Qle_bool_Q, Qred_correct. intros Hx Hy.
  apply Qmult_le_0_compat; [by apply Qlt_le_weak|done].
Qed.
Next Obligation.
  intros x y _. unfold f_zero. cbn. change (inject_Z 0) with 0%Q.
  rewrite Qlt_bool_Q, !Qle_bool_Q, Qred_correct. intros Hx Hy.
  apply Qdiv_nonneg; [done|by apply Qlt_le_weak].
Qed.
Next Obligation. done. Qed.
Next Obligation. vm_compute. reflexivity. Qed.

End Rationals.
