(* ===== verification/Duration.v ===== *)
(** * Durations in YAML ([internal/config/config.go], [internal/detect/duration.go])

    [time.ParseDuration], on bytes and with the wrap-around of its [uint64]
    sums, and the two [UnmarshalYAML] methods on top of it.  What
    [node.Decode(&s)] delivers is an argument: the decoder is
    [gopkg.in/yaml.v3]. *)

From Stdlib Require Import Floats.SpecFloat Numbers.DecimalString Numbers.DecimalN Numbers.DecimalFacts.
From S2P Require Export GoStrings Float64.

(** ** [time.ParseDuration] *)

Module Time.

Inductive duration_error :=
| Invalid
| MissingUnit
| UnknownUnit (u : string).

(** [unitMap]; both micro signs (U+00B5, U+03BC) are there. *)
Definition unitMap (u : string) : option Z :=
  if u =?s "ns" then Some 1
  else if u =?s "us" then Some 1000
  else if u =?s "µs" then Some 1000
  else if u =?s "μs" then Some 1000
  else if u =?s "ms" then Some 1000000
  else if u =?s "s" then Some Second
  else if u =?s "m" then Some Minute
  else if u =?s "h" then Some Hour
  else None.

Definition uint64_wrap (z : Z) : Z := z `mod` 2 ^ 64.

Definition digit_val (c : byte) : Z := Z.of_N (byte_N c) - 48.

(** [leadingInt]: [None] when the number exceeds [2^63]. *)
Fixpoint leadingInt (x : Z) (s : string) : option (Z * string) :=
  match s with
  | String c r =>
    if is_digit c then
      if 2 ^ 63 / 10 <? x then None
      else let x := x * 10 + digit_val c in
        if 2 ^ 63 <? x then None else leadingInt x r
    else Some (x, s)
  | EmptyString => Some (x, s)
  end.

(** [leadingFraction]: digits past the capacity of the number are skipped. *)
Fixpoint leadingFraction (x scale : Z) (overflow : bool) (s : string) : Z * Z * string :=
  match s with
  | String c r =>
    if is_digit c then
      if overflow then leadingFraction x scale true r
      else if (2 ^ 63 - 1) / 10 <? x then leadingFraction x scale true r
      else let y := x * 10 + digit_val c in
        if 2 ^ 63 <? y then leadingFraction x scale true r
        else leadingFraction y (scale * 10) false r
    else (x, scale, s)
  | EmptyString => (x, scale, s)
  end.

(** The unit extends to the next digit or point. *)
Definition in_unit (c : byte) : bool := negb ((c =?c ".") || is_digit c).

Fixpoint span (p : byte -> bool) (s : string) : string * string :=
  match s with
  | String c r => if p c then let '(a, b) := span p r in (String c a, b) else ("", s)
  | EmptyString => ("", "")
  end.

(** [uint64(f)] of a float that is not negative *)
Definition f_trunc (f : spec_float) : Z :=
  match f with
  | S754_finite _ m e => Z.shiftl (Zpos m) e
  | _ => 0
  end.

(** [uint64(float64(f) * (float64(unit) / scale))]; [scale] is a power of ten
    up to [10^19], which a [float64] holds exactly. *)
Definition fraction (f unit scale : Z) : Z :=
  let c z := @f_of_Z Binary64.binary64 z in
  f_trunc (@f_mul Binary64.binary64 (c f) (@f_div Binary64.binary64 (c unit) (c scale))).

(** The optional fraction, and whether it has digits *)
Definition point (s : string) : Z * Z * bool * string :=
  match s with
  | String c r =>
    if c =?c "." then
      let '(f, scale, s') := leadingFraction 0 1 false r in
      (f, scale, negb (len s' =? len r), s')
    else (0, 1, false, s)
  | EmptyString => (0, 1, false, s)
  end.

(** One number with its unit: the value in nanoseconds and the rest. *)
Definition segment (s : string) : duration_error + Z * string :=
  if negb (match s with String c _ => (c =?c ".") || is_digit c | _ => false end) then inl Invalid
  else match leadingInt 0 s with
  | None => inl Invalid
  | Some (v, s1) =>
    let pre := negb (len s1 =? len s) in
    let '(f, scale, post, s2) := point s1 in
    if negb pre && negb post then inl Invalid
    else let '(u, s3) := span in_unit s2 in
      if u =?s "" then inl MissingUnit
      else match unitMap u with
      | None => inl (UnknownUnit u)
      | Some unit =>
        if 2 ^ 63 / unit <? v then inl Invalid
        else let v := v * unit in
          if 0 <? f then
            let v := uint64_wrap (v + fraction f unit scale) in
            if 2 ^ 63 <? v then inl Invalid else inr (v, s3)
          else inr (v, s3)
      end
  end.

(** The sum over the segments.  Each segment consumes a byte at least: the
    length of the string is enough [fuel] ([segments_fuel]). *)
Fixpoint segments (fuel : nat) (d : Z) (s : string) : duration_error + Z :=
  if s =?s "" then inr d
  else match fuel with
  | O => inl Invalid
  | S fuel =>
    match segment s with
    | inl e => inl e
    | inr (v, s') =>
      let d := uint64_wrap (d + v) in
      if 2 ^ 63 <? d then inl Invalid else segments fuel d s'
    end
  end.

Definition ParseDuration (s : string) : duration_error + duration :=
  let '(neg, s) :=
    match s with
    | String "-" r => (true, r)
    | String "+" r => (false, r)
    | _ => (false, s)
    end in
  if s =?s "0" then inr 0
  else if s =?s "" then inl Invalid
  else match segments (String.length s) 0 s with
  | inl e => inl e
  | inr d =>
    if (neg : bool) then inr (int64_wrap (- int64_wrap d))
    else if 2 ^ 63 - 1 <? d then inl Invalid
    else inr d
  end.

End Time.

(** ** The YAML methods *)

(** What [node.Decode(&s)] or [time.ParseDuration] complains of. *)
Inductive unmarshal_error :=
| EDecode (e : string)
| EInvalidDuration (s : string) (e : Time.duration_error).

(** [Duration.UnmarshalYAML] of package [config]; [d] is the receiver. *)
Definition Duration_UnmarshalYAML (decoded : string + string) (d : duration) : option unmarshal_error * duration :=
  match decoded with
  | inl e => (Some (EDecode e), d)
  | inr s =>
    match Time.ParseDuration s with
    | inl e => (Some (EInvalidDuration s e), d)
    | inr parsed => (None, parsed)
    end
  end.

(** [yamlDuration.UnmarshalYAML] of package [detect] *)
Definition yamlDuration_UnmarshalYAML (decoded : string + string) (d : duration) : option unmarshal_error * duration :=
  match decoded with
  | inl e => (Some (EDecode e), d)
  | inr s =>
    if s =?s "" then (None, 0)
    else match Time.ParseDuration s with
    | inl e => (Some (EInvalidDuration s e), d)
    | inr parsed => (None, parsed)
    end
  end.

Example parse_30m : Time.ParseDuration "30m" = inr (30 * Minute).
Proof. vm_compute. reflexivity. Qed.
Example parse_mixed : Time.ParseDuration "-1h2m3.5s" = inr (- (Hour + 2 * Minute + 3 * Second + 500000000)).
Proof. vm_compute. reflexivity. Qed.
Example parse_thirds : Time.ParseDuration "0.3333333333333333333h" = inr 1200000000000.
Proof. vm_compute. reflexivity. Qed.
Example parse_day : Time.ParseDuration "1d" = inl (Time.UnknownUnit "d").
Proof. vm_compute. reflexivity. Qed.
Example parse_min : Time.ParseDuration "-9223372036854775808ns" = inr min_int64.
Proof. vm_compute. reflexivity. Qed.

(** ** Reading a number *)

Section Numbers.
Import Time.

(** The decimal number [s] after the digits of [x] *)
Fixpoint dec (x : Z) (s : string) : Z :=
  match s with String c r => dec (x * 10 + digit_val c) r | EmptyString => x end.

Lemma digit_val_range c : is_digit c = true -> 0 <= digit_val c <= 9.
Proof. unfold is_digit, digit_val. intros [H1%N.leb_le H2%N.leb_le]%andb_true_iff. lia. Qed.

Lemma dec_grows s : forall x, 0 <= x -> str_forallb is_digit s = true -> x <= dec x s.
Proof.
  induction s as [|c s IH]; intros x Hx; simpl; [lia|].
  intros [Hc Hs]%andb_true_iff. pose proof (digit_val_range c Hc).
  pose proof (IH (x * 10 + digit_val c) ltac:(lia) Hs). lia.
Qed.

Lemma dec_acc d : forall acc,
  dec (Zpos acc) (NilEmpty.string_of_uint d) = Zpos (Pos.of_uint_acc d acc).
Proof.
  induction d; intros acc; cbn [NilEmpty.string_of_uint dec Pos.of_uint_acc]; [done|..];
    rewrite <- IHd; f_equal;
    (match goal with |- context [digit_val ?c] => let v := eval vm_compute in (digit_val c) in
       change (digit_val c) with v end); lia.
Qed.

Lemma dec_uint d : dec 0 (NilEmpty.string_of_uint d) = Z.of_N (N.of_uint d).
Proof.
  unfold N.of_uint. induction d; cbn [NilEmpty.string_of_uint dec Pos.of_uint]; try done;
    apply dec_acc.
Qed.

Lemma dec_Itoa n : 0 <= n -> dec 0 (Itoa n) = n.
Proof.
  intros Hn. rewrite Itoa_nonneg by done.
  rewrite <- (Z2N.id n) at 2 by done. rewrite <- (DecimalN.Unsigned.of_to (Z.to_N n)) at 2.
  destruct (N.to_uint (Z.to_N n)) eqn:E; [by apply to_uint_nonnil in E|..]; apply dec_uint.
Qed.

(** [r] begins with a byte that no number contains. *)
Definition after_number (r : string) : Prop :=
  match r with String c _ => is_digit c = false /\ (c =?c ".") = false | EmptyString => True end.

Lemma leadingInt_dec s r : forall x,
  0 <= x -> str_forallb is_digit s = true -> after_number r -> dec x s <= 2 ^ 63 ->
  leadingInt x (s +:+ r) = Some (dec x s, r).
Proof.
  induction s as [|c s IH]; intros x Hx Hs Hr Hd.
  { rewrite str_app_nil_l. destruct r as [|c r]; [done|]. cbn. by destruct Hr as [-> _]. }
  simpl in Hs. apply andb_true_iff in Hs as [Hc Hs]. pose proof (digit_val_range c Hc).
  rewrite str_app_cons. cbn [leadingInt dec] in *. rewrite Hc.
  pose proof (dec_grows s (x * 10 + digit_val c) ltac:(lia) Hs).
  rewrite (proj2 (Z.ltb_ge _ x)) by (apply Z.div_le_lower_bound; lia).
  rewrite (proj2 (Z.ltb_ge _ (x * 10 + digit_val c))) by lia. apply IH; [lia|done..].
Qed.

(** A number above [2^63] is refused, whatever follows. *)
Lemma leadingInt_overflow s r : forall x,
  0 <= x <= 2 ^ 63 -> str_forallb is_digit s = true -> 2 ^ 63 < dec x s -> leadingInt x (s +:+ r) = None.
Proof.
  induction s as [|c s IH]; intros x Hx Hs Hd; [simpl in Hd; lia|].
  simpl in Hs. apply andb_true_iff in Hs as [Hc Hs]. pose proof (digit_val_range c Hc).
  rewrite str_app_cons. cbn [leadingInt dec] in *. rewrite Hc.
  destruct (_ <? x) eqn:E1; [done|]. destruct (_ <? x * 10 + digit_val c) eqn:E2; [done|].
  apply IH; [lia|done..].
Qed.

End Numbers.

(** ** Termination: the fuel of [segments] is enough *)

Section Fuel.
Import Time.

Lemma leadingInt_shorter s : forall x v r, leadingInt x s = Some (v, r) -> (String.length r <= String.length s)%nat.
Proof.
  induction s as [|c s IH]; intros x v r; cbn [leadingInt]; [by intros [= <- <-]|].
  destruct (is_digit c); [|by intros [= <- <-]].
  destruct (_ <? x); [done|]. destruct (_ <? _ + _); [done|]. intros H%IH. simpl. lia.
Qed.

Lemma leadingFraction_shorter s : forall x sc o,
  (String.length (leadingFraction x sc o s).2 <= String.length s)%nat.
Proof.
  induction s as [|c s IH]; intros x sc o; cbn [leadingFraction]; [done|].
  destruct (is_digit c); [|done]. simpl.
  repeat case_match; (etrans; [apply IH|lia]).
Qed.

Lemma span_shorter p s : forall a b, span p s = (a, b) ->
  (String.length a + String.length b)%nat = String.length s.
Proof.
  induction s as [|c s IH]; intros a b; cbn [span]; [by intros [= <- <-]|].
  destruct (p c); [|by intros [= <- <-]].
  destruct (span p s) as [a' b']. intros [= <- <-]. simpl. f_equal. by apply IH.
Qed.

Lemma point_shorter s : (String.length (point s).2 <= String.length s)%nat.
Proof.
  destruct s as [|c s]; cbn [point]; [done|]. destruct (c =?c "."); [|done].
  pose proof (leadingFraction_shorter s 0 1 false). destruct (leadingFraction 0 1 false s) as [[??]?].
  simpl in *. lia.
Qed.

Lemma segment_shorter s v r : segment s = inr (v, r) -> (String.length r < String.length s)%nat.
Proof.
  unfold segment. destruct (negb _); [done|].
  destruct (leadingInt 0 s) as [[v1 s1]|] eqn:E1; [|done]. apply leadingInt_shorter in E1.
  pose proof (point_shorter s1). destruct (point s1) as [[[f sc] post] s2].
  cbv zeta. destruct (_ && _); [done|]. destruct (span in_unit s2) as [u s3] eqn:E3.
  apply span_shorter in E3. destruct (u =?s "") eqn:Eu; [done|].
  assert (String.length u <> 0)%nat by (destruct u; done).
  intros Hs. repeat case_match; simplify_eq; simpl in *; lia.
Qed.

Lemma segments_fuel s : forall n m d,
  (String.length s <= n)%nat -> (String.length s <= m)%nat -> segments n d s = segments m d s.
Proof.
  induction s as [s IH] using (induction_ltof1 _ String.length). unfold ltof in IH.
  intros n m d Hn Hm. destruct (s =?s "") eqn:E; [destruct n, m; cbn [segments]; by rewrite E|].
  assert (String.length s <> 0)%nat by (destruct s; done).
  destruct n as [|n], m as [|m]; [lia..|]. cbn [segments]. rewrite E.
  destruct (segment s) as [|[v r]] eqn:Es; [done|]. apply segment_shorter in Es.
  cbv zeta. destruct (2 ^ 63 <? _); [done|]. apply IH; lia.
Qed.

End Fuel.

(** ** What a duration means *)

Section Meaning.
Import Time.

(** A duration as one writes it: numbers, each with its unit. *)
Definition written (l : list (Z * string)) : string :=
  foldr (fun nu r => Itoa nu.1 +:+ nu.2 +:+ r) "" l.

Definition unit_of (u : string) : Z := default 0 (unitMap u).

Definition nanoseconds (l : list (Z * string)) : Z :=
  foldr (fun nu t => nu.1 * unit_of nu.2 + t) 0 l.

Definition writable (nu : Z * string) : Prop := 0 <= nu.1 /\ is_Some (unitMap nu.2).

(** A unit is positive, not empty, and free of digits and points. *)
Lemma unitMap_spec u k : unitMap u = Some k ->
  0 < k /\ u <> "" /\ str_forallb in_unit u = true.
Proof.
  unfold unitMap. intros H.
  repeat match goal with
  | H : (if ?u =?s ?n then _ else _) = _ |- _ =>
    destruct (String.eqb_spec u n) as [->|_]; [injection H as <-; by vm_compute|]
  end. done.
Qed.

(** [r] is empty or goes on with a number. *)
Definition next_number (r : string) : Prop :=
  match r with String c _ => in_unit c = false | EmptyString => True end.

Lemma span_unit u : forall r, str_forallb in_unit u = true -> next_number r -> span in_unit (u +:+ r) = (u, r).
Proof.
  induction u as [|c u IH]; intros r Hu Hr.
  { rewrite str_app_nil_l. destruct r as [|c r]; [done|]. cbn in *. by rewrite Hr. }
  simpl in Hu. apply andb_true_iff in Hu as [Hc Hu]. rewrite str_app_cons. cbn [span]. by rewrite Hc, IH.
Qed.

Lemma Itoa_starts n : 0 <= n -> exists c r, Itoa n = String c r /\ is_digit c = true.
Proof.
  intros Hn. pose proof (Itoa_nonneg_digits n Hn) as Hd. rewrite Itoa_nonneg in * by done.
  destruct (NilZero_string_nonempty (N.to_uint (Z.to_N n))) as (c & r & E). rewrite E in *.
  simpl in Hd. apply andb_true_iff in Hd as [Hc _]. eauto.
Qed.

Lemma in_unit_after u r : u <> "" -> str_forallb in_unit u = true -> after_number (u +:+ r).
Proof.
  destruct u as [|c u]; [done|]. intros _. simpl. unfold in_unit.
  intros [Hc _]%andb_true_iff. rewrite negb_orb in Hc. apply andb_true_iff in Hc as [Hp Hd].
  by apply negb_true_iff in Hp, Hd.
Qed.

(** One number with its unit, up to [2^63] nanoseconds *)
Lemma segment_written n u k r :
  0 <= n -> unitMap u = Some k -> next_number r ->
  segment (Itoa n +:+ u +:+ r) = if 2 ^ 63 / k <? n then inl Invalid else inr (n * k, r).
Proof.
  intros Hn Hu Hr. destruct (unitMap_spec u k Hu) as (Hk & Hne & Hin).
  pose proof (Itoa_nonneg_digits n Hn) as Hd. pose proof (in_unit_after u r Hne Hin) as Ha.
  pose proof (dec_Itoa n Hn) as Hv. destruct (Itoa_starts n Hn) as (c & t & E & Hc).
  unfold segment. rewrite E at 1. rewrite str_app_cons, Hc, orb_true_r. cbn [negb].
  destruct (Z.le_gt_cases n (2 ^ 63)) as [Hle|Hgt].
  - rewrite leadingInt_dec by (done || lia). rewrite Hv.
    assert (Hlen : (len (u +:+ r) =? len (Itoa n +:+ u +:+ r)) = false).
    { apply Z.eqb_neq. unfold len. rewrite E, str_app_cons. simpl.
      rewrite !str_length_app. lia. }
    rewrite Hlen. assert (Hp : point (u +:+ r) = (0, 1, false, u +:+ r)).
    { destruct u as [|b u]; [done|]. rewrite str_app_cons in *. cbn [point]. by destruct Ha as [_ ->]. }
    rewrite Hp. cbv zeta. cbn [negb andb]. rewrite span_unit by done.
    rewrite (proj2 (String.eqb_neq u "")) by done. by rewrite Hu.
  - rewrite leadingInt_overflow; [|lia|done|by rewrite Hv].
    rewrite (proj2 (Z.ltb_lt _ _)); [done|]. apply Z.div_lt_upper_bound; [done|].
    assert (n <= k * n) by nia. lia.
Qed.

Lemma written_next l : Forall writable l -> next_number (written l).
Proof.
  intros [|[n u] l' [Hn _] _]; [done|]. simpl in *. destruct (Itoa_starts n Hn) as (c & r & -> & Hc).
  rewrite str_app_cons. simpl. unfold in_unit. by rewrite Hc, orb_true_r.
Qed.

Lemma nanoseconds_nonneg l : Forall writable l -> 0 <= nanoseconds l.
Proof.
  induction 1 as [|[n u] l [Hn [k Hk]] Hl IH]; simpl in *; [lia|].
  unfold unit_of. rewrite Hk. simpl. destruct (unitMap_spec u k Hk). nia.
Qed.

Lemma segments_written l : forall fuel d,
  Forall writable l -> 0 <= d -> d + nanoseconds l <= 2 ^ 63 ->
  (String.length (written l) <= fuel)%nat -> segments fuel d (written l) = inr (d + nanoseconds l).
Proof.
  induction l as [|[n u] l IH]; intros fuel d Hl Hd Hs Hf.
  { simpl. rewrite Z.add_0_r. by destruct fuel. }
  inversion_clear Hl as [|? ? [Hn [k Hk]] Hl']. simpl in Hn, Hk.
  pose proof (nanoseconds_nonneg l Hl'). pose proof (written_next l Hl').
  destruct (unitMap_spec u k Hk) as (Hk0 & Hu & _). destruct (Itoa_starts n Hn) as (c & r & E & _).
  cbn [written foldr nanoseconds fst snd] in *. fold (written l) in *. fold (nanoseconds l) in *.
  unfold unit_of in *. rewrite Hk in *. cbn [default from_option id] in *.
  assert (0 <= n * k) by nia.
  rewrite E in *. rewrite str_app_cons in Hf |- *. destruct fuel as [|fuel]; [simpl in Hf; lia|].
  cbn [segments]. rewrite (proj2 (String.eqb_neq _ _)) by done.
  rewrite <- str_app_cons, <- E, segment_written with (k := k) by done.
  rewrite (proj2 (Z.ltb_ge _ _)) by (apply Z.div_le_lower_bound; lia).
  unfold uint64_wrap. rewrite Z.mod_small by lia. cbv zeta.
  rewrite (proj2 (Z.ltb_ge _ _)) by lia.
  rewrite IH; [f_equal; lia|done|lia..|].
  simpl in Hf. rewrite !str_length_app in Hf. lia.
Qed.

(** With at least one number, neither a sign nor the special case ["0"]. *)
Lemma written_shape l : l <> [] -> Forall writable l ->
  exists c r, written l = String c r /\ is_digit c = true /\ r <> "".
Proof.
  intros Hne Hl. destruct l as [|[n u] l]; [done|]. inversion_clear Hl as [|? ? [Hn [k Hk]] Hl'].
  simpl in *. destruct (Itoa_starts n Hn) as (c & r & -> & Hc). destruct (unitMap_spec u k Hk) as (_ & Hu & _).
  exists c, (r +:+ u +:+ written l). rewrite str_app_cons. split_and!; [done|done|].
  intros E%(f_equal String.length). rewrite !str_length_app in E. destruct u; simpl in E; [done|lia].
Qed.

End Meaning.

(** A duration written as whole numbers with units is their sum, exactly, up to
    the largest [time.Duration], and the YAML methods of both packages store it;
    with a minus sign it is negative, down to the smallest one. *)
Theorem ParseDuration_sums l :
  l <> [] -> Forall writable l ->
  (nanoseconds l <= max_int64 ->
     Time.ParseDuration (written l) = inr (nanoseconds l) /\
     forall d, Duration_UnmarshalYAML (inr (written l)) d = (None, nanoseconds l) /\
               yamlDuration_UnmarshalYAML (inr (written l)) d = (None, nanoseconds l)) /\
  (nanoseconds l <= - min_int64 -> Time.ParseDuration ("-" +:+ written l) = inr (- nanoseconds l)).
Proof.
  intros Hne Hl. destruct (written_shape l Hne Hl) as (c & r & E & Hc & Hr).
  pose proof (nanoseconds_nonneg l Hl) as H0.
  assert (Hz : (written l =?s "0") = false /\ (written l =?s "") = false).
  { rewrite E. split; [|done]. apply String.eqb_neq. by intros [= -> ->]. }
  destruct Hz as [Hz He]. unfold min_int64, max_int64 in *. split.
  - intros Hb. assert (HP : Time.ParseDuration (written l) = inr (nanoseconds l)).
    { unfold Time.ParseDuration.
      assert (Hs : (match written l with String "-" r => (true, r) | String "+" r => (false, r)
                    | _ => (false, written l) end) = (false, written l)).
      { rewrite E. by destruct c as [[][][][][][][][]]. }
      rewrite Hs, Hz, He, segments_written by (done || lia).
      rewrite (proj2 (Z.ltb_ge _ _)) by lia. done. }
    split; [done|]. intros d. unfold Duration_UnmarshalYAML, yamlDuration_UnmarshalYAML. by rewrite HP, He.
  - intros Hb. unfold Time.ParseDuration.
    change (match "-" +:+ written l with String "-" r => (true, r) | String "+" r => (false, r)
            | _ => (false, "-" +:+ written l) end) with (true, written l).
    cbv beta iota. rewrite Hz, He, segments_written by (done || lia).
    f_equal. unfold int64_wrap. rewrite Z.add_0_l.
    destruct (decide (nanoseconds l = 2 ^ 63)) as [->|]; [done|].
    rewrite (Z.mod_small (nanoseconds l + _)) by lia. rewrite Z.mod_small; lia.
Qed.

(** What is accepted is a [time.Duration]: no text yields a number outside 64
    bits. *)
Lemma ParseDuration_in_range s d : Time.ParseDuration s = inr d -> is_int64 d.
Proof.
  unfold Time.ParseDuration. intros H.
  assert (Hseg : forall fuel d s v, 0 <= d -> Time.segments fuel d s = inr v -> 0 <= v).
  { clear. intros fuel. induction fuel as [|n IH]; intros d s v Hd; cbn [Time.segments];
      destruct (s =?s ""); try done; try (by intros [= <-]).
    destruct (Time.segment s) as [|[w r]]; [done|]. cbv zeta. destruct (_ <? _); [done|].
    apply IH. apply Z.mod_pos_bound. lia. }
  destruct (match s with String "-" r => _ | _ => _ end) as [neg t].
  destruct (t =?s "0"); [injection H as <-; unfold is_int64, min_int64, max_int64; lia|].
  destruct (t =?s ""); [done|]. destruct (Time.segments _ 0 t) as [|v] eqn:Ev; [done|].
  apply Hseg in Ev; [|lia]. destruct neg.
  - injection H as <-. apply int64_wrap_range.
  - unfold is_int64, min_int64, max_int64. destruct (_ <? v) eqn:E; [done|]. injection H as <-. lia.
Qed.

(** The empty text: an error in the configuration, no duration in a template. *)
Lemma empty_duration d :
  Duration_UnmarshalYAML (inr "") d = (Some (EInvalidDuration "" Time.Invalid), d) /\
  yamlDuration_UnmarshalYAML (inr "") d = (None, 0).
Proof. done. Qed.

Module DurationExamples.

Lemma ParseDuration_sums_witness :
  Time.ParseDuration "1h30m" = inr (90 * Minute) /\
  Time.ParseDuration "-2562047h47m16s854ms775us808ns" = inr min_int64.
Proof.
  assert (W : forall l, l = [(1, "h"); (30, "m")] \/
      l = [(2562047, "h"); (47, "m"); (16, "s"); (854, "ms"); (775, "us"); (808, "ns")] ->
      l <> [] /\ Forall writable l).
  { intros l [-> | ->]; (split; [done|]); repeat constructor; simpl; (lia || (eexists; reflexivity)). }
  split.
  - destruct (W _ (or_introl eq_refl)) as [Hn Hw].
    destruct (ParseDuration_sums _ Hn Hw) as [H _].
    destruct H as [H _]; [vm_compute; discriminate|exact H].
  - destruct (W _ (or_intror eq_refl)) as [Hn Hw].
    destruct (ParseDuration_sums _ Hn Hw) as [_ H].
    apply H. vm_compute. discriminate.
Defined.

End DurationExamples.
