(* ===== verification/Solver.v ===== *)
(** * The client's side of a challenge ([powSolverJS] in [internal/challenge/challenge.go])

    The script of the challenge page, which the browser runs: it reads token and
    difficulty from the form, searches a nonce and submits the form.  The loop
    has no bound in the source; here it has fuel, and [solve_finds_least] shows
    that it ends, with the least nonce, exactly if there is one.  Integers up to
    [2^53] are exact in JavaScript, and so are the nonces that are reached. *)

From S2P Require Export Challenge Duration.

(** ** The script *)

(** The inner loop of [lz]; the boolean is [true] if it has returned. *)
Fixpoint lz_bits (turns : nat) (m x n : Z) : bool * Z :=
  match turns with
  | O => (false, n)
  | S turns =>
      if m >? 0 then
        if Z.land x m =? 0 then lz_bits turns (Z.shiftr m 1) x (n + 1) else (true, n)
      else (false, n)
  end.

(** [lz] on the array from index [i] on, with the count so far *)
Fixpoint lz (u : list Z) (n : Z) : Z :=
  match u with
  | [] => n
  | x :: u => if x =? 0 then lz u (n + 8) else (lz_bits 9 128 x n).2
  end.

(** [crypto.subtle.digest('SHA-256', enc.encode(token+':'+nonce))] *)
Definition digest (token : string) (nonce : Z) : list Z :=
  string_bytes (Sum256 (token +:+ ":" +:+ Itoa nonce)).

(** The endless loop of the script from [nonce] on *)
Fixpoint solve (fuel : nat) (token : string) (bits nonce : Z) : option Z :=
  match fuel with
  | O => None
  | S fuel =>
      if bits <=? lz (digest token nonce) 0 then Some nonce else solve fuel token bits (nonce + 1)
  end.

(** [parseInt(s,10)||0], on a text without leading space *)
Definition parseInt_or_0 (s : string) : Z :=
  let '(neg, s) :=
    match s with
    | String "-" r => (true, r)
    | String "+" r => (false, r)
    | _ => (false, s)
    end in
  let n := dec 0 (Time.span is_digit s).1 in
  if neg : bool then - n else n.

(** The fields of the page's form, and what the script makes of them.  [subtle]
    says whether the browser offers [crypto.subtle]. *)
Record form := { f_token : string; f_nonce : string; f_bits : string; f_return : string }.

Definition form_of (vars : gmap string string) : form :=
  {| f_token := var vars "TOKEN"; f_nonce := ""; f_bits := var vars "POW_BITS"; f_return := var vars "RETURN_URL" |}.

Definition script (fuel : nat) (subtle : bool) (f : form) : option form :=
  let bits := parseInt_or_0 (f_bits f) in
  nonce ← (if (0 <? bits) && subtle then solve fuel (f_token f) bits 0 else Some 0);
  Some {| f_token := f_token f; f_nonce := Itoa nonce; f_bits := f_bits f; f_return := f_return f |}.

(** ** Script and server agree *)

Lemma lz_bits_mask turns : forall m x n, lz_bits turns m x n = ((mask_loop turns m x n).2, (mask_loop turns m x n).1).
Proof.
  induction turns as [|k IH]; intros m x n; [done|]. cbn [lz_bits mask_loop].
  rewrite Z.gtb_ltb. destruct (0 <? m); [|done]. destruct (Z.land x m =? 0); [|done]. apply IH.
Qed.

Lemma lz_leadingZeroBits u : forall n, lz u n = leadingZeroBits u n.
Proof.
  induction u as [|x u IH]; intros n; [done|]. cbn [lz leadingZeroBits].
  destruct (x =? 0); [apply IH|]. by rewrite lz_bits_mask.
Qed.

Lemma Itoa_nonempty n : 0 <= n -> Itoa n <> "".
Proof. intros Hn E. destruct (Itoa_starts n Hn) as (c & r & E' & _). by rewrite E in E'. Qed.

(** The script's test of a nonce is the server's. *)
Lemma solve_test token bits nonce : 0 < bits -> 0 <= nonce ->
  (bits <=? lz (digest token nonce) 0) = verifyPoW token (Itoa nonce) bits.
Proof.
  intros Hb Hn. unfold verifyPoW. rewrite (proj2 (Z.leb_gt bits 0)) by done.
  rewrite (proj2 (String.eqb_neq _ _)) by (by apply Itoa_nonempty). by rewrite lz_leadingZeroBits.
Qed.

Lemma solve_spec fuel token bits : forall nonce, 0 < bits -> 0 <= nonce ->
  match solve fuel token bits nonce with
  | Some n => nonce <= n < nonce + Z.of_nat fuel /\ verifyPoW token (Itoa n) bits = true /\
      forall k, nonce <= k < n -> verifyPoW token (Itoa k) bits = false
  | None => forall k, nonce <= k < nonce + Z.of_nat fuel -> verifyPoW token (Itoa k) bits = false
  end.
Proof.
  induction fuel as [|fuel IH]; intros nonce Hb Hn; [intros k ?; lia|]. cbn [solve].
  rewrite solve_test by done. destruct (verifyPoW token (Itoa nonce) bits) eqn:E.
  - split; [lia|]. split; [done|]. intros k ?. lia.
  - specialize (IH (nonce + 1) Hb ltac:(lia)). destruct (solve fuel token bits (nonce + 1)) as [n|].
    + destruct IH as (? & ? & Hk). split; [lia|]. split; [done|]. intros k ?.
      destruct (decide (k = nonce)) as [->|]; [done|]. apply Hk. lia.
    + intros k ?. destruct (decide (k = nonce)) as [->|]; [done|]. apply IH. lia.
Qed.

(** (C14) The search for a nonce ends exactly when the server would accept some nonce,
    and then with the least one: for a positive difficulty the loop stops at
    [n] if and only if the server accepts [n] and no smaller number, and with a
    solution at [k] it stops within [k + 1] turns. *)
Theorem solve_finds_least token bits :
  0 < bits ->
  (forall n, (exists fuel, solve fuel token bits 0 = Some n) <->
     0 <= n /\ verifyPoW token (Itoa n) bits = true /\
     forall k, 0 <= k < n -> verifyPoW token (Itoa k) bits = false) /\
  (forall k, 0 <= k -> verifyPoW token (Itoa k) bits = true ->
     is_Some (solve (Z.to_nat k + 1) token bits 0)).
Proof.
  intros Hb. split.
  - intros n. split.
    + intros [fuel E]. pose proof (solve_spec fuel token bits 0 Hb ltac:(lia)) as Hs. rewrite E in Hs.
      destruct Hs as (? & ? & ?). by split; [lia|].
    + intros (Hn & Hv & Hk). exists (Z.to_nat n + 1)%nat.
      pose proof (solve_spec (Z.to_nat n + 1) token bits 0 Hb ltac:(lia)) as Hs.
      destruct (solve _ _ _ _) as [n'|].
      * destruct Hs as (? & Hv' & Hk'). f_equal. destruct (Z.lt_trichotomy n n') as [Hc|[Hc|Hc]]; [|done|].
        -- rewrite (Hk' n) in Hv by lia. done.
        -- rewrite (Hk n') in Hv' by lia. done.
      * rewrite (Hs n) in Hv by lia. done.
  - intros k Hk Hv. pose proof (solve_spec (Z.to_nat k + 1) token bits 0 Hb ltac:(lia)) as Hs.
    destruct (solve _ _ _ _); [done|]. rewrite (Hs k) in Hv by lia. done.
Qed.

(** ** A challenge, solved *)

Lemma span_digits s : str_forallb is_digit s = true -> Time.span is_digit s = (s, "").
Proof.
  induction s as [|c s IH]; [done|]. simpl. intros [Hc Hs]%andb_true_iff. by rewrite Hc, (IH Hs).
Qed.

Lemma parseInt_Itoa n : 0 <= n -> parseInt_or_0 (Itoa n) = n.
Proof.
  intros Hn. unfold parseInt_or_0. pose proof (Itoa_nonneg_digits n Hn) as Hd.
  destruct (Itoa_starts n Hn) as (c & r & E & Hc).
  assert (Hs : (match Itoa n with String "-" r => (true, r) | String "+" r => (false, r)
                | _ => (false, Itoa n) end) = (false, Itoa n)).
  { rewrite E. by destruct c as [[][][][][][][][]]. }
  rewrite Hs, span_digits by done. by apply dec_Itoa.
Qed.

(** The target of a page's form is safe already. *)
Lemma safeReturn_idem ret : safeReturn (safeReturn ret) = safeReturn ret.
Proof.
  destruct ret as [|c rest]; [done|]. cbn [safeReturn].
  destruct (c =?c "/") eqn:E; [|done]. cbn [negb].
  destruct rest as [|d r]; [cbn [safeReturn]; by rewrite E|].
  destruct ((d =?c "/") || (d =?c "\")) eqn:Ed; [done|]. cbn [safeReturn]. by rewrite E, Ed.
Qed.

Section Challenge.
Context `{MapIter}.

Lemma form_of_challenge m r ip reqID now : form_of (challenge_vars m r ip reqID now) =
  let bits := if r_TLS r then powBits m else 0 in
  let ret := if FormValue r "return" =?s "" then r_RequestURI r else FormValue r "return" in
  {| f_token := issueToken m bits now; f_nonce := ""; f_bits := Itoa bits; f_return := safeReturn ret |}.
Proof.
  unfold form_of, challenge_vars, var. cbv zeta. f_equal; by simplify_map_eq.
Qed.

(** (C13) An honest client gets through.  A browser that is served a challenge for [r0]
    runs the script and submits the form, from whatever address and under
    whatever session; if the token's time is not over, the address is marked
    clean, the session as having passed, and the client is sent back to where it
    wanted to go.  The script may need [crypto.subtle], which a browser offers on
    a page over TLS; on a page without TLS none is needed. *)
Theorem honest_client_passes m r0 ip0 reqID0 t0 subtle fuel f w r ip reqID key now :
  (r_TLS r0 = true -> subtle = true) ->
  0 <= powBits m <= max_int64 -> 0 <= Time.Unix (Time.Add t0 (ttl m)) <= max_int64 ->
  Time.Unix now <= Time.Unix (Time.Add t0 (ttl m)) -> cleaner m = true ->
  script fuel subtle (form_of (challenge_vars m r0 ip0 reqID0 t0)) = Some f ->
  r_Path r = VerifyPath -> FormValue r "token" = f_token f -> FormValue r "nonce" = f_nonce f ->
  FormValue r "return" = f_return f ->
  HandleVerify m w r ip reqID key now =
    (true, MarkIPClean ip "challenge passed" :: (if key =?s "" then [] else [MarkSessionPassed key]),
     Redirect w r (safeReturn (if FormValue r0 "return" =?s "" then r_RequestURI r0 else FormValue r0 "return"))
       StatusFound).
Proof.
  rewrite form_of_challenge. intros Hsub Hp He Hn Hc Hs Hpath Ht Hnonce Hret.
  set (bits := if r_TLS r0 then powBits m else 0) in *.
  assert (Hb : 0 <= bits <= max_int64) by (unfold bits; destruct (r_TLS r0); [done|unfold max_int64; lia]).
  unfold script in Hs. cbn [f_bits f_token f_return] in Hs. rewrite parseInt_Itoa in Hs by lia.
  assert (Hv : verifyPoW (f_token f) (f_nonce f) bits = true /\ f_token f = issueToken m bits t0 /\
    f_return f = safeReturn (if FormValue r0 "return" =?s "" then r_RequestURI r0 else FormValue r0 "return")).
  { destruct (0 <? bits) eqn:Eb; cbn [andb] in Hs.
    - assert (Et : r_TLS r0 = true) by (unfold bits in Eb; by destruct (r_TLS r0)).
      rewrite (Hsub Et) in Hs. pose proof (solve_spec fuel (issueToken m bits t0) bits 0 ltac:(lia) ltac:(lia)) as Hsp.
      destruct (solve _ _ _ _) as [n|]; [|done]. injection Hs as <-. split; [|done]. apply Hsp.
    - injection Hs as <-. split; [|done]. unfold verifyPoW. by rewrite (proj2 (Z.leb_le bits 0)) by lia. }
  destruct Hv as (Hv & Etok & Eret).
  assert (Hval : validateToken m (FormValue r "token") now = Some bits).
  { rewrite Ht, Etok, token_roundtrip by done. by rewrite (proj2 (Z.leb_le _ _)). }
  unfold HandleVerify. rewrite Hpath, Hval, Ht, Hnonce, Hv, Hc, Hret, Eret. cbn [String.eqb Ascii.eqb Bool.eqb negb VerifyPath].
  rewrite safeReturn_idem. by destruct (key =?s "").
Qed.

End Challenge.

(** ** Witnesses *)

Module SolverExamples.

#[local] Instance listed : MapIter := map_to_list.

Lemma solve_finds_least_witness :
  is_Some (solve 5 "token" 2 0) /\
  exists n, solve 5 "token" 2 0 = Some n /\ verifyPoW "token" (Itoa n) 2 = true.
Proof.
  destruct (solve_finds_least "token" 2 eq_refl) as [Hl Hf].
  assert (Hs : is_Some (solve 5 "token" 2 0)).
  { apply (Hf 4); [discriminate|]. vm_compute. reflexivity. }
  split; [exact Hs|]. destruct Hs as [n E]. exists n. split; [exact E|].
  apply (proj1 (Hl n)). exists 5%nat. exact E.
Defined.

Definition m2 : Manager := New (fun _ => None) "secret" Hour 1 true.
Definition asked : Request := ChallengeExamples.req "/cart" [].

Definition answered_in (fuel : nat) (vars : gmap string string) : bool :=
  match script fuel true (form_of vars) with Some _ => true | None => false end.

Lemma honest_client_passes_witness :
  exists f, script 3 true (form_of (challenge_vars m2 asked "192.0.2.1" "id" ChallengeExamples.t0)) = Some f /\
    (HandleVerify m2 new_writer
       (ChallengeExamples.req VerifyPath [("token", f_token f); ("nonce", f_nonce f); ("return", f_return f)])
       "192.0.2.9" "id2" "sid:a" (ChallengeExamples.t0 + Minute)).1.2 =
    [MarkIPClean "192.0.2.9" "challenge passed"; MarkSessionPassed "sid:a"].
Proof.
  assert (Ha : answered_in 3 (challenge_vars m2 asked "192.0.2.1" "id" ChallengeExamples.t0) = true)
    by (vm_compute; reflexivity).
  unfold answered_in in Ha. destruct (script _ _ _) as [f|] eqn:E; [|discriminate].
  exists f. split; [reflexivity|].
  rewrite (honest_client_passes m2 asked "192.0.2.1" "id" ChallengeExamples.t0 true 3 f new_writer
    (ChallengeExamples.req VerifyPath [("token", f_token f); ("nonce", f_nonce f); ("return", f_return f)])
    "192.0.2.9" "id2" "sid:a" (ChallengeExamples.t0 + Minute)); try reflexivity; try exact E.
  - vm_compute. split; discriminate.
  - vm_compute. split; discriminate.
  - vm_compute. discriminate.
Defined.

End SolverExamples.
