(* ===== verification/Protect.v ===== *)
(** * Proactive protection ([internal/protect/protect.go])

    The per-IP token bucket, the anomaly score and their combination in
    [Assess].  Buckets live in the LRU library; the code mutates a bucket in
    place after [Get] or [Add] moved it to the front, which is what storing the
    updated bucket with [Add] does.  [g.now()] is an argument. *)

From S2P Require Export Float64 Lru Http Engine.

(** ** Options *)

(** [RateOptions] *)
Record RateOptions := {
  ro_Enabled : bool;
  ro_Window : duration;
  ro_Burst : Z;
  ro_SensitiveWeight : Z;
  ro_SensitivePaths : list string;
  ro_Action : Action;
  ro_RespCode : Z;
}.

(** [AnomalyOptions] *)
Record AnomalyOptions := {
  ao_Enabled : bool;
  ao_Threshold : Z;
  ao_Action : Action;
  ao_RespCode : Z;
}.

(** [Options] *)
Record Options := { opt_Rate : RateOptions; opt_Anomaly : AnomalyOptions }.

Definition matchPrefix (path : string) (prefixes : list string) : bool :=
  existsb (fun p => negb (p =?s "") && HasPrefix path p) prefixes.

Definition decision (id reason : string) (act : Action) (code : Z) : Engine.Decision :=
  let act := if act =?s "" then ActionChallenge else act in
  let code := if code =? 0 then 403 else code in
  {| d_Matched := true; d_Action := act; d_RespCode := code;
     d_Incident := Some {| in_TemplateID := id; in_Severity := SevMedium; in_CVE := []; in_Tags := [];
       in_Action := act; in_RespCode := code; in_Source := "protection"; in_Reason := reason |} |}.

(** ** Anomaly scoring *)

Definition scoreOffensiveUA : Z := 100.
Definition scoreBadMethod : Z := 100.
Definition scoreScannerPath : Z := 55.
Definition scoreInjection : Z := 55.
Definition scoreEmptyUA : Z := 35.
Definition scoreScriptUA : Z := 25.
Definition scoreNoAccept : Z := 20.
Definition scoreNoAccLang : Z := 10.
Definition scoreOverlong : Z := 20.

Definition offensiveUA : list string := [
  "sqlmap"; "nikto"; "nessus"; "masscan"; "nmap"; "zgrab"; "wpscan";
  "dirbuster"; "gobuster"; "feroxbuster"; "ffuf"; "hydra"; "nuclei";
  "acunetix"; "netsparker"; "arachni"; "w3af"; "openvas"; "havij";
  "whatweb"; "wfuzz"; "commix"; "xsstrike"].

Definition scriptUA : list string := [
  "python-requests"; "python-urllib"; "go-http-client"; "curl/"; "wget/";
  "libwww-perl"; "java/"; "okhttp"; "scrapy"; "httpclient"; "aiohttp";
  "guzzlehttp"; "node-fetch"; "axios/"].

Definition scannerPaths : list string := [
  "/.env"; "/.git/"; "/.svn/"; "/.hg/"; "/.aws/"; "/.ssh/";
  "/phpmyadmin"; "/pma/"; "/adminer"; "/dbadmin"; "/mysql";
  "/server-status"; "/server-info"; "/actuator"; "/.docker";
  "/vendor/phpunit"; "/cgi-bin/"; "/wp-config.php."; "/config.php.";
  "/.well-known/../"; "/backup"; "/.vscode"; "/.idea"].

Definition injectionMarkers : list string := [
  "../"; "..%2f"; "..\"; "%2e%2e"; "/etc/passwd"; "/proc/self/";
  "<script"; "union select"; "union%20select"; "${jndi:"; "${env:";
  "/bin/sh"; "; rm "; "|| "; "&&curl"; "phpinfo("].

Definition badMethods : list string := ["TRACE"; "TRACK"; "DEBUG"; "CONNECT"].

Definition containsAny (hay : string) (needles : list string) : bool :=
  existsb (fun n => Contains hay n) needles.

Section Anomaly.
Context `{Unicode}.

(** The signals in the order of the code: points and reason, when they fire. *)
Definition method_signal (r : Request) : list (Z * string) :=
  if existsb (String.eqb (ToUpper (r_Method r))) badMethods
  then [(scoreBadMethod, "method:" +:+ r_Method r)] else [].

Definition ua_signal (r : Request) : list (Z * string) :=
  let ua := ToLower (UserAgent r) in
  if ua =?s "" then [(scoreEmptyUA, "empty-ua")]
  else if containsAny ua offensiveUA then [(scoreOffensiveUA, "offensive-ua")]
  else if containsAny ua scriptUA then [(scoreScriptUA, "script-ua")]
  else [].

Definition header_signals (r : Request) : list (Z * string) :=
  if r_Method r =?s "GET" then
    (if Header.Get (r_Header r) "Accept" =?s "" then [(scoreNoAccept, "no-accept")] else []) ++
    (if Header.Get (r_Header r) "Accept-Language" =?s "" then [(scoreNoAccLang, "no-accept-language")] else [])
  else [].

Definition pathLower (r : Request) : string := ToLower (r_Path r).

Definition path_signal (r : Request) : list (Z * string) :=
  if containsAny (pathLower r) scannerPaths then [(scoreScannerPath, "scanner-path")] else [].

Definition injection_signal (r : Request) : list (Z * string) :=
  let decodedQuery := default (r_RawQuery r) (QueryUnescape (r_RawQuery r)) in
  let full := ToLower (pathLower r +:+ "?" +:+ decodedQuery) in
  if containsAny full injectionMarkers then [(scoreInjection, "injection-marker")] else [].

Definition length_signal (r : Request) : list (Z * string) :=
  if (1024 <? len (r_RawQuery r)) || (512 <? len (r_Path r)) then [(scoreOverlong, "overlong-uri")] else [].

Definition signals (r : Request) : list (Z * string) :=
  method_signal r ++ ua_signal r ++ header_signals r ++ path_signal r ++ injection_signal r ++ length_signal r.

Definition total (l : list (Z * string)) : Z := foldr (fun s n => s.1 + n) 0 l.

Definition anomalyScore (r : Request) : Z * string :=
  (total (signals r), Join ((signals r).*2) ",").

End Anomaly.

(** ** The rate governor *)

Section Guard.
Context `{Unicode} `{Float64}.

(** [bucket] *)
Record bucket := { tokens : f64; last_ : time }.

Context `{LRU bucket}.

(** [Guard] *)
Definition Guard : Type := lru_t bucket.

Definition New (maxIPs : Z) : option Guard :=
  let maxIPs := if maxIPs <=? 0 then 65536 else maxIPs in
  lru_new maxIPs.

Definition Len (g : Guard) : Z := lru_len g.

Definition burst (opt : RateOptions) : f64 := f_of_Z (ro_Burst opt).

Definition refillPerSec (opt : RateOptions) : f64 :=
  let win := Seconds (ro_Window opt) in
  let win := if f_leb win f_zero then f_of_Z 60 else win in
  f_div (burst opt) win.

Definition cost (path : string) (opt : RateOptions) : f64 :=
  if (1 <? ro_SensitiveWeight opt) && matchPrefix path (ro_SensitivePaths opt)
  then f_of_Z (ro_SensitiveWeight opt) else f_of_Z 1.

Definition refill (b : bucket) (opt : RateOptions) (now : time) : bucket :=
  let elapsed := Seconds (Time.Sub now (last_ b)) in
  if f_ltb f_zero elapsed then
    let t := f_add (tokens b) (f_mul elapsed (refillPerSec opt)) in
    {| tokens := if f_ltb (burst opt) t then burst opt else t; last_ := now |}
  else b.

Definition charge (b : bucket) (c : f64) : bool * bucket :=
  if f_leb c (tokens b) then (true, {| tokens := f_sub (tokens b) c; last_ := last_ b |})
  else (false, b).

Definition allow (g : Guard) (ip path : string) (opt : RateOptions) (now : time) : bool * Guard :=
  if f_leb (burst opt) f_zero then (true, g) else
  let '(o, g) := lru_get ip g in
  let b := match o with Some b => b | None => {| tokens := burst opt; last_ := now |} end in
  let '(ok, b) := charge (refill b opt now) (cost path opt) in
  (ok, lru_add ip b g).

(** [Assess]; [None] is [ok = false]. *)
Definition Assess (g : Guard) (r : Request) (ip : string) (opt : Options) (now : time) :
    option Engine.Decision * Guard :=
  let ao := opt_Anomaly opt in
  let ro := opt_Rate opt in
  let '(score, reason) := anomalyScore r in
  if ao_Enabled ao && (ao_Threshold ao <=? score)
  then (Some (decision "protect:anomaly" reason (ao_Action ao) (ao_RespCode ao)), g)
  else if ro_Enabled ro then
    match allow g ip (r_Path r) ro now with
    | (false, g) => (Some (decision "protect:rate-governor" "per-IP request budget exceeded"
                              (ro_Action ro) (ro_RespCode ro)), g)
    | (true, g) => (None, g)
    end
  else (None, g).

End Guard.
Arguments Guard {_ _}.

(** ** Theorems: the anomaly score *)

Section AnomalyFacts.
Context `{Unicode}.
Implicit Types r : Request.

Lemma total_app l k : total (l ++ k) = total l + total k.
Proof.
  induction l as [|s l IH]; [done|]. change (s.1 + total (l ++ k) = s.1 + total l + total k). lia.
Qed.

Definition bad_method r : Prop := method_signal r <> [].
Definition offensive r : Prop :=
  ToLower (UserAgent r) <> "" /\ containsAny (ToLower (UserAgent r)) offensiveUA = true.

Lemma method_total r : total (method_signal r) = 100 /\ bad_method r \/ total (method_signal r) = 0 /\ ~ bad_method r.
Proof. unfold bad_method, method_signal. case_match; [left|right]; split; try done. naive_solver. Qed.

Lemma ua_total r :
  total (ua_signal r) = 100 /\ offensive r \/ 0 <= total (ua_signal r) <= 35 /\ ~ offensive r.
Proof.
  unfold ua_signal, offensive. destruct (String.eqb_spec (ToLower (UserAgent r)) "") as [E|E].
  - right. cbn. split; [unfold scoreEmptyUA; lia|]. by intros [? _].
  - destruct (containsAny (ToLower (UserAgent r)) offensiveUA); [left; done|right].
    split; [|by intros [_ ?]]. unfold scoreScriptUA. case_match; cbn; lia.
Qed.

Lemma header_total r : 0 <= total (header_signals r) <= 30.
Proof. unfold header_signals, scoreNoAccept, scoreNoAccLang. repeat case_match; cbn; lia. Qed.

Lemma path_total r : total (path_signal r) = if containsAny (pathLower r) scannerPaths then 55 else 0.
Proof. unfold path_signal. by case_match. Qed.

Lemma injection_total r : total (injection_signal r) = 55 /\ injection_signal r <> [] \/ injection_signal r = [].
Proof. unfold injection_signal. case_match; [left|right]; done. Qed.

Lemma length_total r : 0 <= total (length_signal r) <= 20.
Proof. unfold length_signal, scoreOverlong. case_match; cbn; lia. Qed.

(** The anomaly score against the default threshold of 100: an offensive
    User-Agent or an abusive method reaches it alone; without those, the header
    and length signals all together stay at or below 85 unless the path or the
    query looks like an attack; and for a request with an ordinary User-Agent
    and browser headers it takes both content signals, a scanner path and an
    injection marker.  The score is never negative and never above 360. *)
Theorem anomaly_score_combines r :
  let score := (anomalyScore r).1 in
  (bad_method r \/ offensive r -> 100 <= score) /\
  (~ bad_method r -> ~ offensive r ->
     containsAny (pathLower r) scannerPaths = false -> injection_signal r = [] -> score <= 85) /\
  (~ bad_method r -> ~ offensive r -> ua_signal r = [] -> header_signals r = [] ->
     100 <= score -> containsAny (pathLower r) scannerPaths = true /\ injection_signal r <> []) /\
  0 <= score <= 360.
Proof.
  cbn zeta. unfold anomalyScore. cbn [fst]. unfold signals. rewrite !total_app, path_total.
  pose proof (method_total r) as Hm. pose proof (ua_total r) as Hu. pose proof (header_total r) as Hh.
  pose proof (injection_total r) as Hi. pose proof (length_total r) as Hl.
  assert (Hi' : total (injection_signal r) = 55 \/ total (injection_signal r) = 0)
    by (destruct Hi as [[? _]| ->]; auto).
  split_and!.
  - intros Hb. case_match; destruct Hm as [[? ?]|[? ?]], Hu as [[? ?]|[? ?]]; try tauto; lia.
  - intros Hnb Hno -> ->. cbn [total foldr].
    destruct Hm as [[? ?]|[? ?]]; [done|]. destruct Hu as [[? ?]|[? ?]]; [done|]. lia.
  - intros Hnb _ -> ->. cbn [total foldr]. destruct Hm as [[? ?]|[-> _]]; [done|].
    intros Hs. destruct (containsAny _ scannerPaths); destruct Hi as [[Hi0 ?]|Hi0]; rewrite Hi0 in *;
      cbn [total foldr] in *; (split; done || lia).
  - case_match; destruct Hm as [[? ?]|[? ?]], Hu as [[? ?]|[? ?]]; lia.
  - case_match; destruct Hm as [[? ?]|[? ?]], Hu as [[? ?]|[? ?]]; lia.
Qed.

End AnomalyFacts.

(** ** Theorems: the bucket *)

Section GuardFacts.
Context `{Unicode} `{Float64Laws} `{!LRU bucket} `{!LRULaws bucket}.
Implicit Types (g : Guard) (b : bucket) (opt : RateOptions).

Definition burst_ok opt : Prop := 0 < ro_Burst opt <= max_exact.
Definition weight_ok opt : Prop := ro_SensitiveWeight opt <= max_exact.

(** The integer cost of a path. *)
Definition costZ (path : string) opt : Z :=
  if (1 <? ro_SensitiveWeight opt) && matchPrefix path (ro_SensitivePaths opt)
  then ro_SensitiveWeight opt else 1.

Lemma cost_costZ path opt : cost path opt = f_of_Z (costZ path opt).
Proof. unfold cost, costZ. by case_match. Qed.

Lemma costZ_range path opt : weight_ok opt -> 1 <= costZ path opt <= max_exact.
Proof. unfold weight_ok, costZ, max_exact. intros. case_match; [|lia]. bool_to_prop. lia. Qed.

Lemma burst_pos opt : burst_ok opt -> f_leb (burst opt) f_zero = false.
Proof.
  unfold burst_ok, max_exact. intros. unfold burst, f_zero.
  rewrite f_of_Z_leb by (unfold max_exact; lia). lia.
Qed.

(** The budget of a bucket is between nothing and the burst. *)
Record bucket_wf opt b : Prop := {
  wf_fin : f_fin (tokens b);
  wf_nonneg : f_leb f_zero (tokens b) = true;
  wf_capped : f_leb (tokens b) (burst opt) = true;
}.

Lemma burst_nonneg opt : burst_ok opt -> f_leb f_zero (burst opt) = true.
Proof. unfold burst_ok, max_exact. intros. unfold burst, f_zero. rewrite f_of_Z_leb by (unfold max_exact; lia). lia. Qed.

Lemma burst_fin opt : burst_ok opt -> f_fin (burst opt).
Proof. unfold burst_ok. intros. apply f_of_Z_fin. lia. Qed.

Lemma full_wf opt now : burst_ok opt -> bucket_wf opt {| tokens := burst opt; last_ := now |}.
Proof. intros Hb. split; cbn; [by apply burst_fin|by apply burst_nonneg|by apply f_leb_refl, burst_fin]. Qed.

Lemma Sub_is_int64 t u : is_int64 (Time.Sub t u).
Proof. unfold is_int64, Time.Sub, min_int64, max_int64. lia. Qed.

Lemma refill_rate_nonneg opt :
  burst_ok opt -> is_int64 (ro_Window opt) -> f_leb f_zero (refillPerSec opt) = true.
Proof.
  intros Hb Hw. unfold refillPerSec.
  apply f_div_nonneg; [by apply burst_fin|by apply burst_nonneg|].
  assert (Hz : f_fin f_zero) by (apply f_of_Z_fin; unfold max_exact; lia).
  destruct (f_leb (Seconds (ro_Window opt)) f_zero) eqn:E.
  - apply f_ltb_not_leb; [apply f_of_Z_fin; unfold max_exact; lia|done|].
    unfold f_zero. rewrite f_of_Z_leb by (unfold max_exact; lia). done.
  - apply f_ltb_not_leb; [by apply f_Seconds_fin|done|done].
Qed.

Lemma refill_wf opt b now :
  burst_ok opt -> is_int64 (ro_Window opt) -> bucket_wf opt b -> bucket_wf opt (refill b opt now).
Proof.
  intros Hb Hw [Hf Hn Hc]. unfold refill.
  destruct (f_ltb f_zero (Seconds (Time.Sub now (last_ b)))) eqn:E; [|done].
  destruct (f_ltb (burst opt) _) eqn:Ec; [by apply full_wf|].
  apply f_add_capped in Ec as (? & ? & ?); [by split|done|by apply burst_fin|done|].
  apply f_mul_nonneg; [apply f_Seconds_fin, Sub_is_int64|done|by apply refill_rate_nonneg].
Qed.

Lemma charge_wf opt b path :
  weight_ok opt -> bucket_wf opt b -> bucket_wf opt (charge b (cost path opt)).2.
Proof.
  intros Hw Hb. destruct Hb as [Hf Hn Hc]. unfold charge.
  destruct (f_leb (cost path opt) (tokens b)) eqn:E; [|by split]. cbn [snd].
  pose proof (costZ_range path opt Hw). rewrite cost_costZ in *.
  destruct (f_sub_range (tokens b) (f_of_Z (costZ path opt))) as (? & ? & ?);
    [done|apply f_of_Z_fin; lia| |done|].
  - unfold f_zero. rewrite f_of_Z_leb by (unfold max_exact in *; lia). lia.
  - split; cbn; [done|done|]. by eapply f_leb_trans.
Qed.

Definition guard_wf opt g : Prop := Forall (fun kb => bucket_wf opt kb.2) (lru_items g).

Lemma allow_eq g ip path opt now :
  burst_ok opt ->
  allow g ip path opt now =
    let b := default {| tokens := burst opt; last_ := now |} (lru_peek ip g) in
    let ob := charge (refill b opt now) (cost path opt) in
    (ob.1, lru_add ip ob.2 (lru_get ip g).2).
Proof.
  intros Hb. unfold allow. rewrite (burst_pos opt Hb), (lru_get_eq ip g). cbn zeta.
  destruct (lru_peek ip g) as [b|]; cbn [default from_option id];
    destruct (charge _ _) as [ok b']; done.
Qed.

Lemma bucket_of_wf opt g ip now :
  burst_ok opt -> guard_wf opt g ->
  bucket_wf opt (default {| tokens := burst opt; last_ := now |} (lru_peek ip g)).
Proof.
  intros Hb Hg. destruct (lru_peek ip g) as [b|] eqn:E; [|by apply full_wf].
  unfold lru_peek in E. exact (assoc_Forall (bucket_wf opt) ip _ b Hg E).
Qed.

Lemma allow_wf g ip path opt now :
  burst_ok opt -> weight_ok opt -> is_int64 (ro_Window opt) -> guard_wf opt g ->
  guard_wf opt (allow g ip path opt now).2.
Proof.
  intros Hb Hw Hi Hg. rewrite allow_eq by done. cbn zeta. cbn [snd].
  apply (items_add_Forall (fun kb => bucket_wf opt kb.2)); [|by apply items_get_Forall].
  cbn [snd]. apply charge_wf; [done|]. apply refill_wf; [done|done|]. by apply bucket_of_wf.
Qed.

(** A run of the governor: addresses, paths and clock readings. *)
Definition allow_run opt g (rs : list (string * string * time)) : Guard :=
  fold_left (fun g r => (allow g r.1.1 r.1.2 opt r.2).2) rs g.

Lemma allow_run_wf opt g rs :
  burst_ok opt -> weight_ok opt -> is_int64 (ro_Window opt) -> guard_wf opt g ->
  guard_wf opt (allow_run opt g rs).
Proof.
  intros Hb Hw Hi. unfold allow_run. revert g. induction rs as [|r rs IH]; intros g Hg; [done|].
  cbn [fold_left]. by apply IH, allow_wf.
Qed.

(** (C31) The budget of an address stays within its bounds: through any requests of
    any addresses at any clock readings, the tokens of every bucket stay
    between zero and the burst -- never negative, never saved up beyond it. *)
Theorem budget_stays_bounded opt n g rs ip b :
  New n = Some g -> burst_ok opt -> weight_ok opt -> is_int64 (ro_Window opt) ->
  lru_peek ip (allow_run opt g rs) = Some b ->
  f_leb f_zero (tokens b) = true /\ f_leb (tokens b) (burst opt) = true.
Proof.
  intros Hn Hb Hw Hi E.
  assert (Hg : guard_wf opt g).
  { unfold guard_wf. unfold New in Hn. destruct (Z.leb_spec n 0) as [Hle|Hlt].
    - destruct (lru_new_ok 65536) as (c & Ec & Ei & _); [lia|]. rewrite Ec in Hn. injection Hn as <-.
      rewrite Ei. constructor.
    - destruct (lru_new_ok n) as (c & Ec & Ei & _); [lia|]. rewrite Ec in Hn. injection Hn as <-.
      rewrite Ei. constructor. }
  pose proof (allow_run_wf opt g rs Hb Hw Hi Hg) as Hr.
  destruct (assoc_Forall (bucket_wf opt) ip _ b Hr E). done.
Qed.

(** A path that costs more than the burst is closed: with a sensitive weight
    above the burst, every request to a sensitive path is denied, from any
    address, whatever went before. *)
Theorem overweight_path_always_denied opt g rs ip path now :
  guard_wf opt g -> burst_ok opt -> weight_ok opt -> is_int64 (ro_Window opt) ->
  ro_Burst opt < ro_SensitiveWeight opt -> matchPrefix path (ro_SensitivePaths opt) = true ->
  (allow (allow_run opt g rs) ip path opt now).1 = false.
Proof.
  intros Hg Hb Hw Hi Hlt Hp. pose proof (allow_run_wf opt g rs Hb Hw Hi Hg) as Hr.
  rewrite allow_eq by done. cbn zeta. cbn [fst].
  pose proof (refill_wf opt _ now Hb Hi (bucket_of_wf opt _ ip now Hb Hr)) as [_ _ Hc].
  unfold charge. rewrite cost_costZ. unfold costZ. rewrite Hp, andb_true_r.
  unfold burst_ok, weight_ok in *. replace (1 <? ro_SensitiveWeight opt) with true by lia.
  destruct (f_leb (f_of_Z (ro_SensitiveWeight opt)) _) eqn:E; [|done]. exfalso.
  pose proof (f_leb_trans _ _ _ E Hc) as Ht. unfold burst in Ht.
  rewrite f_of_Z_leb in Ht by lia. lia.
Qed.

(** [n] requests of one address for one path, all at the same time. *)
Fixpoint allow_n (n : nat) g (ip path : string) opt (now : time) : list bool :=
  match n with
  | O => []
  | S n => let '(ok, g) := allow g ip path opt now in ok :: allow_n n g ip path opt now
  end.

Lemma refill_same b opt now : last_ b = now -> refill b opt now = b.
Proof.
  intros Hl. unfold refill. replace (Time.Sub now (last_ b)) with 0.
  - by rewrite f_Seconds_zero.
  - rewrite Hl. unfold Time.Sub, min_int64, max_int64. lia.
Qed.

Lemma allow_n_spec n g ip path opt now t :
  burst_ok opt -> weight_ok opt -> (0 < lru_cap g)%nat -> 0 <= t <= max_exact ->
  default {| tokens := burst opt; last_ := now |} (lru_peek ip g) = {| tokens := f_of_Z t; last_ := now |} ->
  allow_n n g ip path opt now =
    map (fun i => (Z.of_nat i + 1) * costZ path opt <=? t) (List.seq 0 n).
Proof.
  intros Hb Hw. pose proof (costZ_range path opt Hw) as Hc. set (c := costZ path opt) in *.
  revert g t. induction n as [|n IH]; intros g t Hg Ht Hp; [done|].
  cbn [allow_n]. rewrite allow_eq, Hp by done. cbn zeta. rewrite refill_same by done.
  cbn [List.seq map]. unfold charge. rewrite cost_costZ. fold c. cbn [tokens].
  rewrite f_of_Z_leb by lia. rewrite <- List.seq_shift, List.map_map.
  set (g' := fun b => lru_add ip b (lru_get ip g).2).
  assert (Hg' : forall b, (0 < lru_cap (g' b))%nat /\ lru_peek ip (g' b) = Some b).
  { intros b. unfold g'. rewrite lru_add_cap, lru_get_cap. split; [done|].
    apply peek_add_eq. by rewrite lru_get_cap. }
  destruct (Z.leb_spec c t) as [Hle|Hgt]; cbn [fst snd].
  - f_equal; [symmetry; apply Z.leb_le; cbn; lia|].
    destruct (Hg' {| tokens := f_sub (f_of_Z t) (f_of_Z c); last_ := now |}) as [Hcap Hpk].
    etrans; [apply (IH _ (t - c) Hcap); [lia|by rewrite Hpk, f_of_Z_sub by lia]|].
    apply List.map_ext. intros i. apply eq_true_iff_eq. rewrite !Z.leb_le. lia.
  - f_equal; [symmetry; apply Z.leb_gt; cbn; lia|].
    destruct (Hg' {| tokens := f_of_Z t; last_ := now |}) as [Hcap Hpk].
    etrans; [apply (IH _ t Hcap); [lia|by rewrite Hpk]|].
    apply List.map_ext. intros i. transitivity false; [|symmetry]; apply Z.leb_gt; nia.
Qed.

(** The burst is exact: of [n] simultaneous requests of an address the
    governor has not seen, exactly the first [burst / cost] pass -- the burst
    itself for an ordinary path, and [burst / sensitive_weight] for a sensitive
    one -- and the rest are denied. *)
Theorem burst_is_exact n g ip path opt now i :
  burst_ok opt -> weight_ok opt -> (0 < lru_cap g)%nat -> lru_peek ip g = None -> (i < n)%nat ->
  allow_n n g ip path opt now !! i = Some (Z.of_nat i <? ro_Burst opt / costZ path opt).
Proof.
  intros Hb Hw Hg Hp Hi. pose proof (costZ_range path opt Hw) as Hc. unfold burst_ok in Hb.
  rewrite (allow_n_spec n g ip path opt now (ro_Burst opt)); [|done|done|done|lia|by rewrite Hp].
  set (f := fun i : nat => _). change (map f (List.seq 0 n)) with (f <$> seq 0 n).
  rewrite list_lookup_fmap, lookup_seq_lt by done. cbn [fmap option_fmap option_map]. unfold f.
  f_equal. apply eq_true_iff_eq. rewrite Z.leb_le, Z.ltb_lt, Nat.add_0_l. split; intros Hx.
  - assert (Z.of_nat i + 1 <= ro_Burst opt / costZ path opt); [|lia].
    apply Z.div_le_lower_bound; lia.
  - pose proof (Z.mul_div_le (ro_Burst opt) (costZ path opt) ltac:(lia)). nia.
Qed.

(** Addresses do not share a budget: a request of [ip] changes the verdict on
    no other address -- as long as the governor tracks [ip] already, so that
    nothing is evicted, and unless [j]'s own bucket was evicted a request of
    [ip] leaves it as it is. *)
Theorem budgets_are_independent opt g ip j path path' now now' :
  burst_ok opt -> (length (lru_items g) <= lru_cap g)%nat -> j <> ip ->
  is_Some (lru_peek ip g) ->
  (allow (allow g ip path opt now).2 j path' opt now').1 = (allow g j path' opt now').1 /\
  lru_peek j (allow g ip path opt now).2 = lru_peek j g.
Proof.
  intros Hb Hl Hne [b E].
  assert (Hj : lru_peek j (allow g ip path opt now).2 = lru_peek j g).
  { rewrite allow_eq by done. cbn zeta. cbn [snd].
    rewrite (peek_add_present ip j _ b); [apply peek_get| |by rewrite peek_get|done].
    rewrite lru_get_cap. etrans; [apply items_get_length|done]. }
  split; [|done]. rewrite (allow_eq _ j), (allow_eq g j), Hj by done. done.
Qed.

(** [Assess] decides in the order of the code: an anomalous request is acted
    on without touching the rate budget; otherwise a request over budget is
    acted on; otherwise it passes.  A decision is always a match with an
    incident, an action and a response code. *)
Theorem Assess_order g r ip opts now :
  let anomalous := ao_Enabled (opt_Anomaly opts) && (ao_Threshold (opt_Anomaly opts) <=? (anomalyScore r).1) in
  let over := ro_Enabled (opt_Rate opts) && negb (allow g ip (r_Path r) (opt_Rate opts) now).1 in
  (is_Some (Assess g r ip opts now).1 <-> anomalous || over = true) /\
  (Assess g r ip opts now).2 =
    (if anomalous || negb (ro_Enabled (opt_Rate opts)) then g
     else (allow g ip (r_Path r) (opt_Rate opts) now).2) /\
  (forall d, (Assess g r ip opts now).1 = Some d ->
     d_Matched d = true /\ d_Action d <> "" /\ d_RespCode d <> 0 /\
     exists inc, d_Incident d = Some inc /\ in_Action inc = d_Action d /\
       in_TemplateID inc = if anomalous then "protect:anomaly" else "protect:rate-governor").
Proof.
  assert (Hd : forall id reason act code, let d := decision id reason act code in
    d_Matched d = true /\ d_Action d <> "" /\ d_RespCode d <> 0 /\
    exists inc, d_Incident d = Some inc /\ in_Action inc = d_Action d /\ in_TemplateID inc = id).
  { intros. unfold d, decision. cbn. split_and!; [done| | |by eexists].
    - destruct (String.eqb_spec act ""); done.
    - destruct (Z.eqb_spec code 0); done. }
  cbn zeta. unfold Assess. destruct (anomalyScore r) as [score reason]. cbn [fst].
  destruct (ao_Enabled (opt_Anomaly opts) && (ao_Threshold (opt_Anomaly opts) <=? score)); cbn [orb negb].
  - split_and!; [by split|done|]. intros d [= <-]. apply Hd.
  - destruct (ro_Enabled (opt_Rate opts)); cbn [negb andb].
    + destruct (allow g ip (r_Path r) (opt_Rate opts) now) as [[] g']; cbn.
      * split_and!; [split; [by intros []|done]|done|done].
      * split_and!; [by split|done|]. intros d [= <-]. apply Hd.
    + cbn. split_and!; [split; [by intros []|done]|done|done].
Qed.

End GuardFacts.

(** ** Examples and witnesses *)

Module ProtectExamples.

#[local] Existing Instance ascii_only.
#[local] Existing Instance ListLru.list_lru.
#[local] Existing Instance ListLru.list_lru_laws.

(** The defaults of the configuration. *)
Definition default_rate : RateOptions := {|
  ro_Enabled := true; ro_Window := Minute; ro_Burst := 300; ro_SensitiveWeight := 20;
  ro_SensitivePaths := ["/xmlrpc.php"; "/wp-login.php"; "/wp-cron.php"; "/wp-comments-post.php"];
  ro_Action := ActionRateLimit; ro_RespCode := 429 |}.

Definition t0 : time := 63838540800 * Second.

Definition repeated (n : nat) (t : time) : list (string * string * time) :=
  replicate n ("192.0.2.1", "/", t).

Module InBinary64.
#[local] Existing Instance Binary64.binary64.

(** In binary64 arithmetic and with the default options, one address gets 450
    requests through within half a window: the burst of 300 at once, and 150
    more half a minute later, when half of the budget has flowed back -- the
    burst bounds what can be saved up, not the requests per window. *)
Theorem window_admits_more_than_burst :
  let g0 : Guard := ListLru.Lru 8 [] in
  let g1 := allow_run default_rate g0 (repeated 300 t0) in
  allow_n 301 g0 "192.0.2.1" "/" default_rate t0
    = replicate 300 true ++ [false] /\
  allow_n 151 g1 "192.0.2.1" "/" default_rate (t0 + 30 * Second)
    = replicate 150 true ++ [false].
Proof. split; vm_compute; reflexivity. Qed.

End InBinary64.

#[local] Existing Instance Rationals.rationals.
#[local] Existing Instance Rationals.laws.

Definition g0 : Guard := ListLru.Lru 8 [].

Lemma budget_stays_bounded_witness :
  exists b, lru_peek "192.0.2.1" (allow_run default_rate g0 (repeated 3 t0)) = Some b /\
    f_leb f_zero (tokens b) = true /\ f_leb (tokens b) (burst default_rate) = true.
Proof.
  eexists. split; [vm_compute; reflexivity|].
  eapply (budget_stays_bounded default_rate 8 g0 (repeated 3 t0) "192.0.2.1").
  - reflexivity.
  - vm_compute. split; [reflexivity|discriminate].
  - vm_compute. discriminate.
  - vm_compute. split; discriminate.
  - vm_compute. reflexivity.
Defined.

Lemma overweight_path_always_denied_witness :
  let opt := {| ro_Enabled := true; ro_Window := Minute; ro_Burst := 10; ro_SensitiveWeight := 20;
                ro_SensitivePaths := ["/wp-login.php"]; ro_Action := ""; ro_RespCode := 0 |} in
  (allow (allow_run opt g0 []) "192.0.2.1" "/wp-login.php" opt t0).1 = false.
Proof.
  intros opt. apply (overweight_path_always_denied opt g0 [] "192.0.2.1" "/wp-login.php" t0).
  - constructor.
  - vm_compute. split; [reflexivity|discriminate].
  - vm_compute. discriminate.
  - vm_compute. split; discriminate.
  - reflexivity.
  - reflexivity.
Defined.

Lemma burst_is_exact_witness :
  allow_n 400 g0 "192.0.2.1" "/wp-login.php" default_rate t0 !! 14%nat = Some true /\
  allow_n 400 g0 "192.0.2.1" "/wp-login.php" default_rate t0 !! 15%nat = Some false.
Proof.
  assert (Hb : burst_ok default_rate) by (vm_compute; split; [reflexivity|discriminate]).
  assert (Hw : weight_ok default_rate) by (vm_compute; discriminate).
  split.
  - rewrite (burst_is_exact 400 g0 "192.0.2.1" "/wp-login.php" default_rate t0 14 Hb Hw);
      [reflexivity|cbn; lia|reflexivity|lia].
  - rewrite (burst_is_exact 400 g0 "192.0.2.1" "/wp-login.php" default_rate t0 15 Hb Hw);
      [reflexivity|cbn; lia|reflexivity|lia].
Defined.

Lemma budgets_are_independent_witness :
  let g := (allow g0 "192.0.2.1" "/" default_rate t0).2 in
  (allow (allow g "192.0.2.1" "/" default_rate t0).2 "192.0.2.2" "/" default_rate t0).1 =
  (allow g "192.0.2.2" "/" default_rate t0).1.
Proof.
  intros g. apply (budgets_are_independent default_rate g "192.0.2.1" "192.0.2.2" "/" "/" t0 t0).
  - vm_compute. split; [reflexivity|discriminate].
  - vm_compute. lia.
  - discriminate.
  - eexists. vm_compute. reflexivity.
Defined.

Definition curl : Request := {|
  r_Method := "GET"; r_Host := "shop.test"; r_RemoteAddr := "192.0.2.1:1"; r_TLS := false;
  r_Path := "/.env"; r_RawQuery := "q=%3Cscript"; r_RequestURI := "/.env?q=%3Cscript";
  r_Header := {["User-Agent" := ["curl/8.0"]]}; r_Form := []; r_Cookies := []; r_Body := None;
  r_GetBody := None; r_ContentLength := 0 |}.

Example curl_score : anomalyScore curl =
  (165, "script-ua,no-accept,no-accept-language,scanner-path,injection-marker").
Proof. vm_compute. reflexivity. Qed.

End ProtectExamples.
