(* ===== verification/Netip.v ===== *)
(** * IP addresses and prefixes

    Package [net/netip] as smoker uses it: [ParseAddr], [Addr.String],
    [Addr.Unmap], [ParsePrefix], [PrefixFrom], [Prefix.Masked] and
    [Prefix.Contains]; and [net.SplitHostPort].  An address is a 32-bit or a
    128-bit integer, the latter with a zone. *)

From Stdlib Require DecimalString.
From S2P Require Export GoPath.

Inductive Addr :=
| IP4 (z : Z)
| IP6 (z : Z) (zone : string).

#[export] Instance Addr_eq_dec : EqDecision Addr.
Proof. solve_decision. Defined.

(** ** Parsing *)

(** One field of a dotted quad: one to three digits, at most 255, no leading
    zero. *)
Definition parse_octet (s : string) : option Z :=
  if negb (str_forallb is_digit s) || (s =?s "") || (3 <? len s)
     || ((1 <? len s) && HasPrefix s "0") then None
  else n ← ParseInt s; if n <=? 255 then Some n else None.

Definition parseIPv4 (s : string) : option Z :=
  match mapM parse_octet (Split s ".") with
  | Some [a; b; c; d] => Some (((a * 256 + b) * 256 + c) * 256 + d)
  | _ => None
  end.

Definition hex_value (c : byte) : option Z :=
  let n := Z.of_N (byte_N c) in
  if is_digit c then Some (n - 48)
  else if (97 <=? n) && (n <=? 102) then Some (n - 87)
  else if (65 <=? n) && (n <=? 70) then Some (n - 55)
  else None.

(** The leading hex digits: their value, their number, the rest. *)
Fixpoint hex_run (s : string) (acc : Z) (n : nat) : Z * nat * string :=
  match s with
  | String c s' =>
      match hex_value c with
      | Some v => hex_run s' (acc * 16 + v) (S n)
      | None => (acc, n, s)
      end
  | EmptyString => (acc, n, s)
  end.

(** The loop of [parseIPv6]: the 16-bit groups so far (latest first), where the
    ellipsis is, and what is left; [fuel] bounds the groups (at most eight). *)
Fixpoint parseIPv6_loop (fuel : nat) (gs : list Z) (ellipsis : option nat) (s : string) :
    option (list Z * option nat) :=
  match fuel with
  | O => None
  | S fuel =>
      if (8 <=? length gs)%nat then None (* trailing garbage *) else
      let '(acc, n, rest) := hex_run s 0 0 in
      if (n =? 0)%nat || (4 <? n)%nat then None else
      match rest with
      | EmptyString => Some (acc :: gs, ellipsis)
      | String "." _ =>
          if (if ellipsis then false else negb (length gs =? 6)%nat) then None
          else if (6 <? length gs)%nat then None
          else v ← parseIPv4 s; Some (v mod 65536 :: v / 65536 :: gs, ellipsis)
      | String ":" EmptyString => None
      | String ":" (String ":" rest) =>
          match ellipsis with
          | Some _ => None
          | None =>
              let gs := acc :: gs in
              match rest with
              | EmptyString => Some (gs, Some (length gs))
              | _ => parseIPv6_loop fuel gs (Some (length gs)) rest
              end
          end
      | String ":" rest => parseIPv6_loop fuel (acc :: gs) ellipsis rest
      | _ => None
      end
  end.

(** Zero groups in place of the ellipsis. *)
Definition expand (gs : list Z) (ellipsis : option nat) : option (list Z) :=
  let n := length gs in
  match ellipsis with
  | None => if (n =? 8)%nat then Some gs else None
  | Some e => if (n <? 8)%nat then Some (take e gs ++ replicate (8 - n) 0 ++ drop e gs) else None
  end.

Definition groups_Z (gs : list Z) : Z := fold_left (fun z g => z * 65536 + g) gs 0.

Definition parseIPv6 (s : string) : option Addr :=
  let '(s, zone, has_zone) := Cut s "%" in
  if (has_zone : bool) && (zone =?s "") then None else
  let start :=
    match s with
    | String ":" (String ":" EmptyString) => Some ([], Some 0%nat)
    | String ":" (String ":" rest) => parseIPv6_loop 9 [] (Some 0%nat) rest
    | _ => parseIPv6_loop 9 [] None s
    end in
  '(gs, ellipsis) ← start;
  gs ← expand (rev gs) ellipsis;
  Some (IP6 (groups_Z gs) zone).

(** The first of [.], [:] and [%] decides. *)
Fixpoint first_sep (s : string) : option byte :=
  match s with
  | EmptyString => None
  | String c s => if (c =?c ".") || (c =?c ":") || (c =?c "%") then Some c else first_sep s
  end.

Definition ParseAddr (s : string) : option Addr :=
  match first_sep s with
  | Some "."%char => IP4 <$> parseIPv4 s
  | Some ":"%char => parseIPv6 s
  | _ => None
  end.

(** ** Printing *)

Definition string4 (z : Z) : string :=
  Join (map Itoa [z / 2 ^ 24 mod 256; z / 2 ^ 16 mod 256; z / 2 ^ 8 mod 256; z mod 256]) ".".

Definition hex_digit (n : Z) : byte := default "0"%char (String.get (Z.to_nat n) "0123456789abcdef").

(** A group in hex without leading zeros. *)
Definition hex_group (g : Z) : string :=
  let ds := [g / 4096; g / 256 mod 16; g / 16 mod 16; g mod 16] in
  let fix strip ds := match ds with
    | [d] => [d]
    | d :: ds => if d =? 0 then strip ds else d :: ds
    | [] => [] end in
  String.string_of_list_ascii (hex_digit <$> strip ds).

Definition Z_groups (z : Z) : list Z := map (fun i => z / 2 ^ (16 * i) mod 65536) [7; 6; 5; 4; 3; 2; 1; 0].

Fixpoint zero_run (gs : list Z) : nat :=
  match gs with 0 :: gs => S (zero_run gs) | _ => O end.

(** The first longest run of at least two zero groups: its start and length. *)
Fixpoint longest_run (i : nat) (gs : list Z) (best : nat * nat) : nat * nat :=
  match gs with
  | [] => best
  | _ :: gs' =>
      let n := zero_run gs in
      longest_run (S i) gs' (if (2 <=? n)%nat && (best.2 <? n)%nat then (i, n) else best)
  end.

Definition string6 (z : Z) : string :=
  let gs := Z_groups z in
  let '(start, n) := longest_run 0 gs (0%nat, 0%nat) in
  if (n =? 0)%nat then Join (hex_group <$> gs) ":"
  else Join (hex_group <$> take start gs) ":" +:+ "::" +:+ Join (hex_group <$> drop (start + n) gs) ":".

Definition Is4In6 (z : Z) : bool := z / 2 ^ 32 =? 65535.

Definition String_ (a : Addr) : string :=
  match a with
  | IP4 z => string4 z
  | IP6 z zone =>
      (if Is4In6 z then "::ffff:" +:+ string4 (z mod 2 ^ 32) else string6 z) +:+
      (if zone =?s "" then "" else "%" +:+ zone)
  end.

Definition Unmap (a : Addr) : Addr :=
  match a with
  | IP6 z _ => if Is4In6 z then IP4 (z mod 2 ^ 32) else a
  | _ => a
  end.

(** ** Prefixes *)

Record Prefix := { p_addr : Addr; p_bits : Z }.

Definition BitLen (a : Addr) : Z := match a with IP4 _ => 32 | IP6 _ _ => 128 end.
Definition addr_Z (a : Addr) : Z := match a with IP4 z | IP6 z _ => z end.
Definition has_zone (a : Addr) : bool := match a with IP4 _ => false | IP6 _ zone => negb (zone =?s "") end.

Definition withoutZone (a : Addr) : Addr := match a with IP4 z => IP4 z | IP6 z _ => IP6 z "" end.

Definition PrefixFrom (a : Addr) (bits : Z) : Prefix := {| p_addr := withoutZone a; p_bits := bits |}.

Definition ParsePrefix (s : string) : option Prefix :=
  i ← LastIndexByte s "/";
  a ← ParseAddr (str_take i s);
  if has_zone a then None else
  let bits := str_drop (S i) s in
  if negb (str_forallb is_digit bits) || ((1 <? len bits) && HasPrefix bits "0") then None else
  n ← Atoi bits;
  if n <=? BitLen a then Some {| p_addr := a; p_bits := n |} else None.

(** The network part of an address of a family. *)
Definition mask (w bits z : Z) : Z := z / 2 ^ (w - bits) * 2 ^ (w - bits).

Definition Masked (p : Prefix) : Prefix :=
  let w := BitLen (p_addr p) in
  {| p_addr := match p_addr p with
               | IP4 z => IP4 (mask w (p_bits p) z)
               | IP6 z _ => IP6 (mask w (p_bits p) z) ""
               end;
     p_bits := p_bits p |}.

Definition Contains_ (p : Prefix) (a : Addr) : bool :=
  negb (has_zone a) && (BitLen (p_addr p) =? BitLen a) &&
  (let s := BitLen a - p_bits p in addr_Z a / 2 ^ s =? addr_Z (p_addr p) / 2 ^ s).

(** ** net.SplitHostPort *)

(** The host; [None] is an error. *)
Definition SplitHostPort (hostport : string) : option string :=
  match LastIndexByte hostport ":" with
  | None => None
  | Some i =>
      match hostport with
      | String "[" rest =>
          match IndexByte hostport "]" with
          | None => None
          | Some end_ =>
              if negb (S end_ =? i)%nat then None else
              let host := str_take (end_ - 1) rest in
              if str_existsb (fun c => c =?c "[") (str_drop 1 hostport) ||
                 str_existsb (fun c => c =?c "]") (str_drop (S end_) hostport)
              then None else Some host
          end
      | _ =>
          let host := str_take i hostport in
          if str_existsb (fun c => c =?c ":") host || str_existsb (fun c => c =?c "[") hostport ||
             str_existsb (fun c => c =?c "]") hostport
          then None else Some host
      end
  end.

Example parse4 : ParseAddr "192.0.2.1" = Some (IP4 3221225985). Proof. reflexivity. Qed.
Example parse4_zero : ParseAddr "192.0.02.1" = None. Proof. reflexivity. Qed.
Example parse4_short : ParseAddr "192.0.2" = None. Proof. reflexivity. Qed.
Example parse6 : String_ <$> ParseAddr "2001:DB8:0:0:1::1" = Some "2001:db8::1:0:0:1". Proof. vm_compute. reflexivity. Qed.
Example parse6_any : String_ <$> ParseAddr "::" = Some "::". Proof. vm_compute. reflexivity. Qed.
Example parse6_v4 : Unmap <$> ParseAddr "::ffff:192.0.2.1" = Some (IP4 3221225985). Proof. vm_compute. reflexivity. Qed.
Example parse6_zone : String_ <$> ParseAddr "fe80::1%eth0" = Some "fe80::1%eth0". Proof. vm_compute. reflexivity. Qed.
Example parse6_full : ParseAddr "1:2:3:4:5:6:7::8" = None /\ ParseAddr "1:2:3:4:5:6:7:8:9" = None.
Proof. split; vm_compute; reflexivity. Qed.
Example prefix_ex : Contains_ (default (PrefixFrom (IP4 0) 0) (ParsePrefix "10.0.0.0/8")) (IP4 (10 * 2 ^ 24 + 5)) = true.
Proof. vm_compute. reflexivity. Qed.
Example host_ex : SplitHostPort "[::1]:80" = Some "::1" /\ SplitHostPort "1.2.3.4:5" = Some "1.2.3.4" /\
  SplitHostPort "::1:80" = None /\ SplitHostPort "host" = None.
Proof. repeat split. Qed.

(** ** Lemmas *)

(** The prefix length fits the family. *)
Definition prefix_ok (p : Prefix) : Prop := 0 <= p_bits p <= BitLen (p_addr p).

(** A prefix contains exactly the addresses of its family, without zone, in the
    block of [2 ^ (w - bits)] addresses that its own address lies in. *)
Lemma Prefix_Contains_spec p a :
  prefix_ok p ->
  Contains_ p a = true <->
  has_zone a = false /\ BitLen (p_addr p) = BitLen a /\
  let size := 2 ^ (BitLen a - p_bits p) in
  let base := addr_Z (p_addr p) / size * size in base <= addr_Z a < base + size.
Proof.
  intros [Hb0 Hb1]. unfold Contains_. cbn zeta.
  rewrite !andb_true_iff, negb_true_iff, !Z.eqb_eq. split.
  - intros [[Hz Hw] E]. split_and!; try done; rewrite <- E;
      pose proof (Z.pow_pos_nonneg 2 (BitLen a - p_bits p) ltac:(lia) ltac:(lia));
      pose proof (Z.div_mod (addr_Z a) (2 ^ (BitLen a - p_bits p)) ltac:(lia));
      pose proof (Z.mod_pos_bound (addr_Z a) (2 ^ (BitLen a - p_bits p)) ltac:(lia)); lia.
  - intros (Hz & Hw & Hr). split; [done|].
    pose proof (Z.pow_pos_nonneg 2 (BitLen a - p_bits p) ltac:(lia) ltac:(lia)).
    symmetry. apply Z.div_unique with (r := addr_Z a - addr_Z (p_addr p) / 2 ^ (BitLen a - p_bits p) * 2 ^ (BitLen a - p_bits p)).
    + left. lia.
    + lia.
Qed.

Lemma ParsePrefix_ok s p : ParsePrefix s = Some p -> prefix_ok p /\ has_zone (p_addr p) = false.
Proof.
  unfold ParsePrefix, prefix_ok. destruct (LastIndexByte s "/") as [i|]; [|done]. cbn [mbind option_bind].
  destruct (ParseAddr (str_take i s)) as [a|]; [|done]. cbn [mbind option_bind].
  destruct (has_zone a) eqn:Hz; [done|]. cbv zeta.
  destruct (negb (str_forallb is_digit (str_drop (S i) s)) || _) eqn:Eb; [done|].
  destruct (Atoi (str_drop (S i) s)) as [n|] eqn:En; [|done]. cbn [mbind option_bind].
  destruct (Z.leb_spec n (BitLen a)); [|done]. intros [= <-]. cbn [p_addr p_bits].
  apply orb_false_iff in Eb as [Ed%negb_false_iff _]. split; [|done]. split; [|done].
  destruct (str_drop (S i) s) as [|c r]; [done|]. cbn [str_forallb] in Ed.
  apply andb_true_iff in Ed as [Hc _]. unfold Atoi in En. rewrite ParseInt_digits_cons in En by done.
  destruct (DecimalString.NilZero.uint_of_string (String c r)); [|done]. cbn in En. case_match; [|done].
  injection En as <-. lia.
Qed.

Lemma octet_roundtrip n : 0 <= n <= 255 -> parse_octet (Itoa n) = Some n.
Proof.
  intros Hn.
  assert (Hall : forallb (fun k => bool_decide (parse_octet (Itoa (Z.of_nat k)) = Some (Z.of_nat k))) (seq 0 256) = true)
    by (vm_compute; reflexivity).
  rewrite forallb_forall in Hall. specialize (Hall (Z.to_nat n)).
  rewrite Z2Nat.id in Hall by lia. apply (bool_decide_eq_true_1 _), Hall.
  apply list_elem_of_In, elem_of_seq. lia.
Qed.

(** Printing an IPv4 address and parsing it gives it back. *)
Lemma ParseAddr_String4 z : 0 <= z < 2 ^ 32 -> ParseAddr (string4 z) = Some (IP4 z).
Proof.
  intros Hz. unfold string4.
  set (a := z / 2 ^ 24 mod 256). set (b := z / 2 ^ 16 mod 256). set (c := z / 2 ^ 8 mod 256). set (d := z mod 256).
  assert (Ha : 0 <= a <= 255) by (unfold a; pose proof (Z.mod_pos_bound (z / 2 ^ 24) 256); lia).
  assert (Hb : 0 <= b <= 255) by (unfold b; pose proof (Z.mod_pos_bound (z / 2 ^ 16) 256); lia).
  assert (Hc : 0 <= c <= 255) by (unfold c; pose proof (Z.mod_pos_bound (z / 2 ^ 8) 256); lia).
  assert (Hd : 0 <= d <= 255) by (unfold d; pose proof (Z.mod_pos_bound z 256); lia).
  assert (Hnd : forall n, 0 <= n -> str_forallb (fun x => negb (x =?c ".")) (Itoa n) = true).
  { intros n Hn. pose proof (Itoa_nonneg_digits n Hn) as Hx. revert Hx. generalize (Itoa n).
    induction s as [|x s IH]; [done|]. cbn. rewrite !andb_true_iff. intros [Hx Hs].
    split; [|by apply IH]. by destruct (Ascii.eqb_spec x "."%char) as [->|]. }
  assert (Hs : Split (Join (map Itoa [a; b; c; d]) ".") "." = map Itoa [a; b; c; d]).
  { apply Split_Join; [done|]. repeat constructor; apply Hnd; lia. }
  assert (Hf : first_sep (Join (map Itoa [a; b; c; d]) ".") = Some "."%char).
  { pose proof (Itoa_nonneg_digits a ltac:(lia)) as Hx. cbn [map Join]. revert Hx.
    generalize (Itoa a). induction s as [|x s IH]; [done|]. cbn [str_forallb]. rewrite andb_true_iff.
    intros [Hx Hs']. rewrite str_app_cons. cbn [first_sep].
    replace ((x =?c ".") || (x =?c ":") || (x =?c "%")) with false; [by apply IH|].
    revert Hx. clear. by destruct x as [[][][][][][][][]]. }
  unfold ParseAddr. rewrite Hf. unfold parseIPv4. rewrite Hs. cbn [map mapM].
  cbn [mbind option_bind]. rewrite !octet_roundtrip by done. cbn. do 2 f_equal.
  unfold a, b, c, d. clear -Hz.
  change (2 ^ 24) with 16777216. change (2 ^ 16) with 65536. change (2 ^ 8) with 256.
  change (2 ^ 32) with 4294967296 in Hz. Z.to_euclidean_division_equations. lia.
Qed.
