(* ===== verification/OrigDst.v ===== *)
(** * The original destination ([internal/proxy/origdst_linux.go])

    [OriginalDst] and [ConnContext], on what the socket calls return.  The
    address is captured for each connection; no handler reads it. *)

From S2P Require Export Netip.

(** A connection after unwrapping TLS: whether it is a TCP connection, the
    error of [SyscallConn], the error of [Control], and the answer of
    [getsockopt(SO_ORIGINAL_DST)]. *)
Inductive sock_error := ENOENT | ENOPROTOOPT | OtherErrno (e : string).

Record net_conn := {
  nc_tcp : bool;
  nc_raw : option string;
  nc_control : option string;
  nc_dst : sock_error + list Z;
}.

Inductive dst_error := NotTCP | SysError (e : string) | SockError (e : sock_error) | ErrNoOriginalDst.

(** [netip.AddrPort] *)
Record AddrPort := { ap_addr : Addr; ap_port : Z }.

(** [netip.AddrFrom4] *)
Definition AddrFrom4 (a b c d : Z) : Addr := IP4 (((a * 256 + b) * 256 + c) * 256 + d).

(** The address in the bytes of a [sockaddr_in]; the port is
    [uint16(b[2])<<8 | uint16(b[3])]. *)
Definition decode_sockaddr (b : list Z) : AddrPort :=
  let at_ i := nth i b 0 in
  {| ap_addr := AddrFrom4 (at_ 4%nat) (at_ 5%nat) (at_ 6%nat) (at_ 7%nat);
     ap_port := Z.lor (Z.shiftl (at_ 2%nat) 8) (at_ 3%nat) |}.

Definition OriginalDst (c : net_conn) : dst_error + AddrPort :=
  if negb (nc_tcp c) then inl NotTCP else
  match nc_raw c with Some e => inl (SysError e) | None =>
  match nc_control c with Some e => inl (SysError e) | None =>
  match nc_dst c with
  | inl ENOENT | inl ENOPROTOOPT => inl ErrNoOriginalDst
  | inl e => inl (SockError e)
  | inr b => inr (decode_sockaddr b)
  end end end.

(** [ConnContext]: the value stored under [ctxOrigDst], if any *)
Definition ConnContext (c : net_conn) : option AddrPort :=
  match OriginalDst c with inr dst => Some dst | inl _ => None end.

(** Off Linux *)
Definition OriginalDst_other (c : net_conn) : dst_error + AddrPort := inl ErrNoOriginalDst.

(** What the kernel writes for an IPv4 address and port: the family, then both
    in network byte order. *)
Definition sockaddr_in (family : Z) (z port : Z) : list Z :=
  [family mod 256; family / 256; port / 256; port mod 256;
   z / 2 ^ 24; z / 2 ^ 16 mod 256; z / 2 ^ 8 mod 256; z mod 256] ++ replicate 8 0.

Lemma shift_or hi lo : 0 <= hi -> 0 <= lo < 256 -> Z.lor (Z.shiftl hi 8) lo = hi * 256 + lo.
Proof.
  intros Hh Hl. assert (E : Z.land (Z.shiftl hi 8) lo = 0).
  { apply Z.bits_inj'. intros n Hn. rewrite Z.land_spec, Z.bits_0.
    destruct (decide (n < 8)) as [Hlt|Hge].
    - rewrite Z.shiftl_spec_low by done. done.
    - replace (Z.testbit lo n) with false; [apply andb_false_r|]. symmetry.
      destruct (decide (lo = 0)) as [->|]; [apply Z.bits_0|].
      apply Z.bits_above_log2; [lia|]. apply Z.log2_lt_pow2; [lia|].
      assert (2 ^ 8 <= 2 ^ n) by (apply Z.pow_le_mono_r; lia). lia. }
  rewrite <- (Z.lxor_lor _ _ E), <- Z.add_nocarry_lxor by done. rewrite Z.shiftl_mul_pow2 by lia. lia.
Qed.

(** The destination a redirected client connected to is recovered exactly:
    decoding what the kernel encodes gives back the address and the port. *)
Theorem OriginalDst_recovers family z port :
  0 <= z < 2 ^ 32 -> 0 <= port < 2 ^ 16 ->
  ConnContext {| nc_tcp := true; nc_raw := None; nc_control := None; nc_dst := inr (sockaddr_in family z port) |} =
    Some {| ap_addr := IP4 z; ap_port := port |}.
Proof.
  intros Hz Hp. unfold ConnContext, OriginalDst, decode_sockaddr. cbn [negb nc_tcp nc_raw nc_control nc_dst].
  unfold sockaddr_in. cbn [app nth]. f_equal. f_equal.
  - unfold AddrFrom4. f_equal.
    change (2 ^ 24) with (256 * 65536). change (2 ^ 16) with (256 * 256). change (2 ^ 8) with 256.
    pose proof (Z.div_mod z 256 ltac:(lia)) as E1.
    pose proof (Z.div_mod (z / 256) 256 ltac:(lia)) as E2. rewrite Z.div_div in E2 by lia.
    pose proof (Z.div_mod (z / (256 * 256)) 256 ltac:(lia)) as E3. rewrite Z.div_div in E3 by lia.
    change (256 * 256 * 256) with (256 * 65536) in E3. lia.
  - rewrite shift_or; [|apply Z.div_pos; lia|apply Z.mod_pos_bound; lia].
    pose proof (Z.div_mod port 256 ltac:(lia)). lia.
Qed.

Lemma OriginalDst_recovers_witness :
  ConnContext {| nc_tcp := true; nc_raw := None; nc_control := None; nc_dst := inr (sockaddr_in 2 3221225985 443) |} =
    Some {| ap_addr := IP4 3221225985; ap_port := 443 |}.
Proof. apply (OriginalDst_recovers 2 3221225985 443); lia. Defined.
