(* ===== verification/Config.v ===== *)
(** * Configuration ([internal/config/config.go])

    The configuration record and its defaults, loading (defaults, YAML,
    validation, access-list files, compiled lists), the questions the proxy
    asks of it, and the manager with its reload.  The YAML decoder is the
    parameter [yaml_Unmarshal], which layers a document over a configuration;
    the file system is the record [world]. *)

From S2P Require Export FileTree Netip.

(** [AccessList] *)
Record AccessList := {
  al_Dir : string;
  al_IPs : list string;
  al_SyncInterval : duration;
  al_GitURL : string;
  al_GitBranch : string;
}.

(** The sections of [Config], in the order of the code. *)
Record ListenConfig := { ln_HTTP : string; ln_HTTPS : string; ln_HTTP3 : bool }.

Record BackendConfig := {
  be_HTTP : string; be_HTTPS : string; be_UseTLS : bool; be_InsecureSkipVerify : bool }.

Record FirewallConfig := {
  fw_Enabled : bool; fw_PublicHTTPPort : Z; fw_PublicHTTPSPort : Z;
  fw_InternalHTTPPort : Z; fw_InternalHTTPSPort : Z; fw_FailOpen : bool }.

Record TLSConfig := {
  tls_NginxSitesGlob : list string; tls_ApacheSitesGlob : list string;
  tls_AutocertEnabled : bool; tls_AutocertCacheDir : string; tls_AutocertEmail : string;
  tls_AutocertDomains : list string }.

Record TemplatesConfig := {
  tp_Dir : string; tp_SyncInterval : duration; tp_GitURL : string; tp_GitBranch : string }.

Record ReputationConfig := {
  rp_DBPath : string; rp_BlockThreshold : Z; rp_Window : duration; rp_GreylistTTL : duration;
  rp_BlockTTL : duration; rp_CleanTTL : duration }.

Record ChallengeConfig := {
  chal_Enabled : bool; chal_AssetsDir : string; chal_TTL : duration; chal_Secret : string; chal_POWBits : Z }.

Record SessionConfig := { ss_CookieName : string; ss_TTL : duration; ss_MaxEntries : Z }.

Record CompressionConfig := { cp_Zstd : bool; cp_MinSize : Z }.

Record RateLimitConfig := {
  rl_Enabled : bool; rl_Window : duration; rl_Burst : Z; rl_SensitiveWeight : Z;
  rl_SensitivePaths : list string; rl_Action : string; rl_ResponseCode : Z }.

Record AnomalyConfig := {
  an_Enabled : bool; an_Threshold : Z; an_Action : string; an_ResponseCode : Z }.

Record ProtectionConfig := {
  pr_Enabled : bool; pr_RateLimit : RateLimitConfig; pr_Anomaly : AnomalyConfig; pr_MaxTrackedIPs : Z }.

Record CacheConfig := {
  ca_Enabled : bool; ca_TTL : duration; ca_Extensions : list string; ca_MaxObjectSize : Z; ca_MaxEntries : Z }.

(** [Config]; the last five fields are compiled by [Load]. *)
Record Config := {
  Listen : ListenConfig;
  Backend : BackendConfig;
  Firewall : FirewallConfig;
  TLS : TLSConfig;
  Templates : TemplatesConfig;
  Reputation : ReputationConfig;
  Challenge : ChallengeConfig;
  Session : SessionConfig;
  Compression : CompressionConfig;
  Protection : ProtectionConfig;
  CacheC : CacheConfig;
  Whitelist : AccessList;
  Blocklist : AccessList;
  TrustedProxies : AccessList;
  LoggingDir : string;
  FailOpen : bool;
  whitelistNets : list Prefix;
  blocklistNets : list Prefix;
  trustedProxyNets : list Prefix;
  accessWarns : list string;
  cacheExts : gset string;
}.

(** [Default]; the paths are those of [internal/paths/paths.go]. *)
Definition Default : Config := {|
  Listen := {| ln_HTTP := "0.0.0.0:18080"; ln_HTTPS := "0.0.0.0:18443"; ln_HTTP3 := false |};
  Backend := {| be_HTTP := "127.0.0.1:80"; be_HTTPS := "127.0.0.1:443"; be_UseTLS := false;
                be_InsecureSkipVerify := false |};
  Firewall := {| fw_Enabled := true; fw_PublicHTTPPort := 80; fw_PublicHTTPSPort := 443;
                 fw_InternalHTTPPort := 18080; fw_InternalHTTPSPort := 18443; fw_FailOpen := true |};
  TLS := {| tls_NginxSitesGlob := ["/etc/nginx/sites-enabled/*"];
            tls_ApacheSitesGlob := ["/etc/apache2/sites-enabled/*"];
            tls_AutocertEnabled := false; tls_AutocertCacheDir := ""; tls_AutocertEmail := "";
            tls_AutocertDomains := [] |};
  Templates := {| tp_Dir := "/etc/smoker/templates"; tp_SyncInterval := 6 * Hour;
                  tp_GitURL := "https://codeberg.org/ostap-mykhaylyak/templates"; tp_GitBranch := "main" |};
  Reputation := {| rp_DBPath := "/var/log/smoker/reputation.db"; rp_BlockThreshold := 5;
                   rp_Window := 10 * Minute; rp_GreylistTTL := 30 * Minute; rp_BlockTTL := 24 * Hour;
                   rp_CleanTTL := 1 * Hour |};
  Challenge := {| chal_Enabled := true; chal_AssetsDir := "/var/www/smoker"; chal_TTL := 1 * Hour;
                  chal_Secret := ""; chal_POWBits := 16 |};
  Session := {| ss_CookieName := "smoker_sid"; ss_TTL := 30 * Minute; ss_MaxEntries := 100000 |};
  Compression := {| cp_Zstd := false; cp_MinSize := 1024 |};
  Protection := {|
    pr_Enabled := false;
    pr_RateLimit := {| rl_Enabled := true; rl_Window := 1 * Minute; rl_Burst := 300; rl_SensitiveWeight := 20;
      rl_SensitivePaths := ["/xmlrpc.php"; "/wp-login.php"; "/wp-cron.php"; "/wp-comments-post.php"];
      rl_Action := "rate-limit"; rl_ResponseCode := 429 |};
    pr_Anomaly := {| an_Enabled := true; an_Threshold := 100; an_Action := "challenge"; an_ResponseCode := 403 |};
    pr_MaxTrackedIPs := 65536 |};
  CacheC := {| ca_Enabled := false; ca_TTL := 1 * Hour;
    ca_Extensions := [".jpg"; ".jpeg"; ".png"; ".gif"; ".webp"; ".avif"; ".svg"; ".ico";
                      ".woff"; ".woff2"; ".ttf"; ".otf"; ".css"; ".js"; ".mp4"; ".webm"];
    ca_MaxObjectSize := Z.shiftl 10 20; ca_MaxEntries := 4096 |};
  Whitelist := {| al_Dir := "/etc/smoker/whitelist"; al_IPs := []; al_SyncInterval := 1 * Hour;
                  al_GitURL := "https://codeberg.org/ostap-mykhaylyak/whitelist"; al_GitBranch := "main" |};
  Blocklist := {| al_Dir := "/etc/smoker/blocklist"; al_IPs := []; al_SyncInterval := 1 * Hour;
                  al_GitURL := "https://codeberg.org/ostap-mykhaylyak/blocklist"; al_GitBranch := "main" |};
  TrustedProxies := {| al_Dir := "/etc/smoker/trusted-proxies"; al_IPs := []; al_SyncInterval := 12 * Hour;
                  al_GitURL := "https://codeberg.org/ostap-mykhaylyak/trusted-proxies"; al_GitBranch := "main" |};
  LoggingDir := "/var/log/smoker";
  FailOpen := false;
  whitelistNets := []; blocklistNets := []; trustedProxyNets := []; accessWarns := []; cacheExts := ∅ |}.

Definition set_lists (c : Config) (wl bl tp : AccessList) : Config := {|
  Listen := Listen c; Backend := Backend c; Firewall := Firewall c; TLS := TLS c; Templates := Templates c;
  Reputation := Reputation c; Challenge := Challenge c; Session := Session c; Compression := Compression c;
  Protection := Protection c; CacheC := CacheC c; Whitelist := wl; Blocklist := bl; TrustedProxies := tp;
  LoggingDir := LoggingDir c; FailOpen := FailOpen c; whitelistNets := whitelistNets c;
  blocklistNets := blocklistNets c; trustedProxyNets := trustedProxyNets c; accessWarns := accessWarns c;
  cacheExts := cacheExts c |}.

Definition set_compiled (c : Config) (wl bl tp : list Prefix) (warns : list string) (exts : gset string) : Config := {|
  Listen := Listen c; Backend := Backend c; Firewall := Firewall c; TLS := TLS c; Templates := Templates c;
  Reputation := Reputation c; Challenge := Challenge c; Session := Session c; Compression := Compression c;
  Protection := Protection c; CacheC := CacheC c; Whitelist := Whitelist c; Blocklist := Blocklist c;
  TrustedProxies := TrustedProxies c; LoggingDir := LoggingDir c; FailOpen := FailOpen c;
  whitelistNets := wl; blocklistNets := bl; trustedProxyNets := tp; accessWarns := warns; cacheExts := exts |}.

Section Config.
Context `{Unicode}.

(** ** Access lists *)

(** One entry of a list: a comment or blank line, a prefix, or an invalid
    entry. *)
Inductive list_entry := Ignored | Net (p : Prefix) | Invalid (s : string).

Definition parse_entry (s : string) : list_entry :=
  let s := TrimSpace s in
  if (s =?s "") || HasPrefix s "#" then Ignored
  else if Contains s "/" then
    match ParsePrefix s with None => Invalid s | Some p => Net (Masked p) end
  else
    match ParseAddr s with None => Invalid s | Some a => Net (PrefixFrom a (BitLen a)) end.

(** [parsePrefixes]: the prefixes and the warnings added. *)
Fixpoint parsePrefixes (name : string) (entries : list string) : list Prefix * list string :=
  match entries with
  | [] => ([], [])
  | s :: entries =>
      let '(out, warns) := parsePrefixes name entries in
      match parse_entry s with
      | Ignored => (out, warns)
      | Net p => (p :: out, warns)
      | Invalid s => (out, (name +:+ ": " +:+ s) :: warns)
      end
  end.

Definition compileAccessLists (c : Config) : Config :=
  let '(wl, w1) := parsePrefixes "whitelist" (al_IPs (Whitelist c)) in
  let '(bl, w2) := parsePrefixes "blocklist" (al_IPs (Blocklist c)) in
  let '(tp, w3) := parsePrefixes "trusted_proxies" (al_IPs (TrustedProxies c)) in
  set_compiled c wl bl tp (w1 ++ w2 ++ w3) (cacheExts c).

Definition AccessListWarnings (c : Config) : list string := accessWarns c.

Definition matchAny (nets : list Prefix) (ip : string) : bool :=
  match nets with
  | [] => false
  | _ =>
      match ParseAddr ip with
      | None => false
      | Some a => let a := Unmap a in existsb (fun p => Contains_ p a) nets
      end
  end.

Definition Whitelisted (c : Config) (ip : string) : bool := matchAny (whitelistNets c) ip.
Definition Blocklisted (c : Config) (ip : string) : bool := matchAny (blocklistNets c) ip.
Definition TrustedProxy (c : Config) (ip : string) : bool := matchAny (trustedProxyNets c) ip.

(** ** Cache extensions *)

Definition cache_ext (e : string) : string :=
  let e := ToLower (TrimSpace e) in
  if e =?s "" then "" else if negb (HasPrefix e ".") then "." +:+ e else e.

Definition compileCache (c : Config) : Config :=
  let exts := List.filter (fun e => negb (e =?s "")) (cache_ext <$> ca_Extensions (CacheC c)) in
  set_compiled c (whitelistNets c) (blocklistNets c) (trustedProxyNets c) (accessWarns c) (list_to_set exts).

Definition CacheableExt (c : Config) (urlPath : string) : bool :=
  if negb (ca_Enabled (CacheC c)) || bool_decide (cacheExts c = ∅) then false
  else bool_decide (ToLower (Ext urlPath) ∈ cacheExts c).

(** ** Loading *)

(** One line of a list file, without its comment. *)
Definition list_line (line : string) : string :=
  TrimSpace (match IndexByte line "#" with Some i => str_take i line | None => line end).

Definition readListFile (data : string) : list string :=
  List.filter (fun l => negb (l =?s "")) (list_line <$> Split data (ascii_of_N 10)).

(** [readListDir] on the tree at [dir] ([None]: it does not exist or cannot be
    inspected); unreadable entries are passed over, so it never fails. *)
Definition readListDir (dir : string) (tree : option fsnode) : list string :=
  if dir =?s "" then [] else
  match tree with
  | None => []
  | Some n =>
      flat_map (fun f => if EqualFold (Ext f.1) ".ips"
                         then match f.2 with Some data => readListFile data | None => [] end else [])
        (walk_files dir n)
  end.

(** The file system: the content of a file ([None]: unreadable) and the tree
    at a directory. *)
Record world := { file : string -> option string; tree : string -> option fsnode }.

Definition add_ips (w : world) (a : AccessList) : AccessList := {|
  al_Dir := al_Dir a; al_IPs := al_IPs a ++ readListDir (al_Dir a) (tree w (al_Dir a));
  al_SyncInterval := al_SyncInterval a; al_GitURL := al_GitURL a; al_GitBranch := al_GitBranch a |}.

Definition loadAccessListFiles (w : world) (c : Config) : Config :=
  set_lists c (add_ips w (Whitelist c)) (add_ips w (Blocklist c)) (add_ips w (TrustedProxies c)).

Inductive load_error :=
| ReadConfig | ParseConfig (e : string) | NoListener | NoBackend | BadThreshold.

Definition validate (c : Config) : option load_error :=
  if (ln_HTTP (Listen c) =?s "") && (ln_HTTPS (Listen c) =?s "") then Some NoListener
  else if be_HTTP (Backend c) =?s "" then Some NoBackend
  else if rp_BlockThreshold (Reputation c) <=? 0 then Some BadThreshold
  else None.

Context (yaml_Unmarshal : string -> Config -> string + Config).

Definition Load (w : world) (path : string) : load_error + Config :=
  match file w path with
  | None => inl ReadConfig
  | Some data =>
      match yaml_Unmarshal data Default with
      | inl e => inl (ParseConfig e)
      | inr c =>
          match validate c with
          | Some e => inl e
          | None => inr (compileCache (compileAccessLists (loadAccessListFiles w c)))
          end
      end
  end.

(** ** The manager *)

(** [Manager]; a listener is its index in the order of [OnReload]. *)
Record Manager := { mg_path : string; current : Config; listeners : nat }.

Definition NewManager (w : world) (path : string) : load_error + Manager :=
  match Load w path with
  | inl e => inl e
  | inr c => inr {| mg_path := path; current := c; listeners := 0 |}
  end.

Definition Get (m : Manager) : Config := current m.

Definition OnReload (m : Manager) : Manager :=
  {| mg_path := mg_path m; current := current m; listeners := S (listeners m) |}.

(** [Reload]: the error, the new state, and the calls to the listeners. *)
Definition Reload (w : world) (m : Manager) : option load_error * Manager * list (nat * Config) :=
  match Load w (mg_path m) with
  | inl e => (Some e, m, [])
  | inr c =>
      (None, {| mg_path := mg_path m; current := c; listeners := listeners m |},
       map (fun i => (i, c)) (List.seq 0 (listeners m)))
  end.

End Config.

(** ** Theorems: access lists *)

Section ListFacts.
Context `{Unicode}.

Definition entry_net (s : string) : option Prefix := match parse_entry s with Net p => Some p | _ => None end.
Definition entry_invalid (s : string) : option string := match parse_entry s with Invalid s => Some s | _ => None end.

Lemma parsePrefixes_spec name es :
  parsePrefixes name es = (omap entry_net es, (fun s => name +:+ ": " +:+ s) <$> omap entry_invalid es).
Proof.
  induction es as [|s es IH]; [done|]. cbn [parsePrefixes omap list_omap]. rewrite IH.
  unfold entry_net, entry_invalid. by destruct (parse_entry s).
Qed.

Lemma entry_net_ok s p : entry_net s = Some p -> prefix_ok p.
Proof.
  unfold entry_net, parse_entry. destruct (_ || _); [done|].
  destruct (Contains (TrimSpace s) "/").
  - destruct (ParsePrefix (TrimSpace s)) as [q|] eqn:E; [|done]. intros [= <-].
    apply ParsePrefix_ok in E as [Hq _]. unfold prefix_ok in *. cbn. by destruct (p_addr q).
  - destruct (ParseAddr (TrimSpace s)) as [a|]; [|done]. intros [= <-].
    unfold prefix_ok. cbn. by destruct a.
Qed.

(** The addresses in the block of a prefix. *)
Definition in_block (p : Prefix) (a : Addr) : Prop :=
  has_zone a = false /\ BitLen (p_addr p) = BitLen a /\
  let size := 2 ^ (BitLen a - p_bits p) in
  let base := addr_Z (p_addr p) / size * size in base <= addr_Z a < base + size.

Lemma matchAny_spec name es ip :
  matchAny (parsePrefixes name es).1 ip = true <->
  exists a s p, ParseAddr ip = Some a /\ s ∈ es /\ entry_net s = Some p /\ in_block p (Unmap a).
Proof.
  rewrite parsePrefixes_spec. cbn [fst].
  assert (Hm : matchAny (omap entry_net es) ip = true <->
    exists a, ParseAddr ip = Some a /\ existsb (fun p => Contains_ p (Unmap a)) (omap entry_net es) = true).
  { unfold matchAny. destruct (omap entry_net es) eqn:E; [|destruct (ParseAddr ip)]; naive_solver. }
  rewrite Hm. split.
  - intros (a & Ha & (p & Hp%list_elem_of_In & Hc)%existsb_exists).
    apply list_elem_of_omap in Hp as (s & Hs & Ep). exists a, s, p. split_and!; try done.
    by apply Prefix_Contains_spec; [eapply entry_net_ok|].
  - intros (a & s & p & Ha & Hs & Ep & Hb). exists a. split; [done|].
    apply existsb_exists. exists p. split.
    + apply list_elem_of_In, list_elem_of_omap. by exists s.
    + by apply Prefix_Contains_spec; [eapply entry_net_ok|].
Qed.

(** An access list means its valid entries: an address matches exactly when it
    parses and, with IPv4-mapped IPv6 unwrapped, lies in the block of some
    entry that is an address or a CIDR prefix; comments, blanks and invalid
    lines count for nothing, and the invalid ones are exactly the warnings. *)
Theorem access_list_meaning name es ip :
  (matchAny (parsePrefixes name es).1 ip = true <->
   exists a s p, ParseAddr ip = Some a /\ s ∈ es /\ entry_net s = Some p /\ in_block p (Unmap a)) /\
  (parsePrefixes name es).2 = (fun s => name +:+ ": " +:+ s) <$> omap entry_invalid es.
Proof. split; [apply matchAny_spec|by rewrite parsePrefixes_spec]. Qed.

(** An IPv4-mapped entry matches nobody: the client's address is unwrapped
    before the comparison but the list's is not, so an entry inside
    [::ffff:0:0/96] matches no address in any spelling. *)
Theorem mapped_entry_never_matches s p ip z zone :
  entry_net s = Some p -> p_addr p = IP6 z zone -> Is4In6 z = true -> 96 <= p_bits p ->
  matchAny [p] ip = false.
Proof.
  intros Es Ep Hz Hb. pose proof (entry_net_ok _ _ Es) as Hok. unfold matchAny.
  destruct (ParseAddr ip) as [a|]; [|done]. cbn [existsb]. rewrite orb_false_r.
  destruct (Contains_ p (Unmap a)) eqn:Ec; [|done]. exfalso. revert Ec. unfold Contains_. rewrite Ep.
  unfold prefix_ok in Hok. rewrite Ep in Hok. cbn in Hok.
  destruct (Unmap a) as [y|y yz] eqn:Eu; [by rewrite !andb_false_r|].
  cbn [BitLen addr_Z]. rewrite !andb_true_iff, !Z.eqb_eq. intros [_ Hq].
  unfold Unmap in Eu. destruct a as [x|x xz]; [done|]. destruct (Is4In6 x) eqn:Ex; [done|].
  injection Eu as -> ->. unfold Is4In6 in *. apply Z.eqb_eq in Hz. apply Z.eqb_neq in Ex. apply Ex.
  rewrite <- Hz. replace 32 with ((128 - p_bits p) + (32 - (128 - p_bits p))) by lia.
  rewrite Z.pow_add_r, <- !Z.div_div by lia. by rewrite Hq.
Qed.

(** ** Theorems: cache extensions *)

(** The cache takes exactly the configured extensions: after compilation a
    path is cacheable if and only if caching is on and the extension of its
    last element is one of the configured ones, up to letter case and a
    missing leading dot; blank entries select nothing. *)
Theorem cacheable_extensions c path :
  CacheableExt (compileCache c) path = true <->
  ca_Enabled (CacheC c) = true /\
  exists e, e ∈ ca_Extensions (CacheC c) /\ cache_ext e <> "" /\ ToLower (Ext path) = cache_ext e.
Proof.
  unfold CacheableExt, compileCache. cbn [CacheC cacheExts set_compiled].
  set (exts := List.filter _ _).
  assert (Hin : forall x, x ∈ (list_to_set exts : gset string) <->
    exists e, e ∈ ca_Extensions (CacheC c) /\ cache_ext e <> "" /\ x = cache_ext e).
  { intros x. rewrite elem_of_list_to_set. unfold exts. rewrite list_elem_of_In, filter_In, <- list_elem_of_In.
    rewrite list_elem_of_fmap, negb_true_iff, String.eqb_neq. naive_solver. }
  destruct (ca_Enabled (CacheC c)); cbn [negb orb]; [|naive_solver].
  case_bool_decide as E.
  - split; [done|]. intros (_ & e & He & Hne & _). exfalso.
    assert (Hx : cache_ext e ∈ (list_to_set exts : gset string)) by (apply Hin; eauto). set_solver.
  - rewrite bool_decide_eq_true, Hin. naive_solver.
Qed.

Context (yaml_Unmarshal : string -> Config -> string + Config).

(** Reloading is all or nothing: when the file cannot be read, parsed or
    validated, the manager keeps its configuration and calls nobody; otherwise
    it swaps in exactly the newly loaded configuration, which is valid, and
    calls every registered listener once, in order, with that configuration. *)
Theorem reload_all_or_nothing w m :
  match Reload yaml_Unmarshal w m with
  | (Some e, m', calls) => Load yaml_Unmarshal w (mg_path m) = inl e /\ m' = m /\ calls = []
  | (None, m', calls) =>
      Load yaml_Unmarshal w (mg_path m) = inr (current m') /\ validate (current m') = None /\
      listeners m' = listeners m /\ calls = map (fun i => (i, current m')) (List.seq 0 (listeners m))
  end.
Proof.
  unfold Reload. destruct (Load yaml_Unmarshal w (mg_path m)) as [e|c] eqn:E; [done|].
  split_and!; try done. cbn [current]. unfold Load in E.
  destruct (file w (mg_path m)) as [data|]; [|done].
  destruct (yaml_Unmarshal data Default) as [e|c0]; [done|].
  destruct (validate c0) eqn:Ev; [done|]. injection E as <-.
  unfold compileAccessLists. rewrite !parsePrefixes_spec. exact Ev.
Qed.

(** What the rest of smoker may rely on of a configuration in force: there is a
    listener, a backend and a positive block threshold, the compiled access
    lists are those of the entries and made of prefixes that fit their family,
    and every cacheable extension starts with a dot. *)
Record well_formed (c : Config) : Prop := {
  wf_listener : ln_HTTP (Listen c) <> "" \/ ln_HTTPS (Listen c) <> "";
  wf_backend : be_HTTP (Backend c) <> "";
  wf_threshold : 0 < rp_BlockThreshold (Reputation c);
  wf_whitelist : whitelistNets c = omap entry_net (al_IPs (Whitelist c));
  wf_blocklist : blocklistNets c = omap entry_net (al_IPs (Blocklist c));
  wf_proxies : trustedProxyNets c = omap entry_net (al_IPs (TrustedProxies c));
  wf_nets : Forall prefix_ok (whitelistNets c ++ blocklistNets c ++ trustedProxyNets c);
  wf_exts e : e ∈ cacheExts c -> HasPrefix e "." = true;
}.

Lemma entry_nets_ok es : Forall prefix_ok (omap entry_net es).
Proof.
  apply Forall_forall. intros p (s & _ & Hp)%list_elem_of_omap. by eapply entry_net_ok.
Qed.

Lemma cache_ext_dot e : cache_ext e <> "" -> HasPrefix (cache_ext e) "." = true.
Proof.
  unfold cache_ext. destruct (ToLower (TrimSpace e) =?s ""); [done|].
  destruct (HasPrefix (ToLower (TrimSpace e)) ".") eqn:E; [done|]. intros _.
  apply HasPrefix_spec. eauto.
Qed.

Lemma Load_well_formed w path c : Load yaml_Unmarshal w path = inr c -> well_formed c.
Proof.
  unfold Load. destruct (file w path) as [data|]; [|done].
  destruct (yaml_Unmarshal data Default) as [e|c0]; [done|].
  destruct (validate c0) eqn:Ev; [done|]. intros [= <-].
  unfold compileAccessLists. rewrite !parsePrefixes_spec.
  unfold validate in Ev. destruct ((ln_HTTP (Listen c0) =?s "") && (ln_HTTPS (Listen c0) =?s "")) eqn:E1; [done|].
  destruct (be_HTTP (Backend c0) =?s "") eqn:E2; [done|].
  destruct (rp_BlockThreshold (Reputation c0) <=? 0) eqn:E3; [done|]. bool_to_prop.
  split; cbn; try done.
  - apply andb_false_iff in E1 as [E1|E1]; bool_to_prop; auto.
  - rewrite !Forall_app. auto using entry_nets_ok.
  - intros e He. apply elem_of_list_to_set, list_elem_of_In, filter_In in He as [He Hn].
    apply list_elem_of_In, list_elem_of_fmap in He as (x & -> & _). apply cache_ext_dot.
    apply negb_true_iff in Hn. by apply String.eqb_neq.
Qed.

(** (C32) The configuration in force is always well-formed: from the start, and
    through any reloads, whatever the files hold at each of them. *)
Theorem config_always_well_formed w path m ws :
  NewManager yaml_Unmarshal w path = inr m ->
  well_formed (Get (fold_left (fun m w => (Reload yaml_Unmarshal w m).1.2) ws m)).
Proof.
  intros Hm. assert (H0 : well_formed (current m)).
  { unfold NewManager in Hm. destruct (Load yaml_Unmarshal w path) as [e|c] eqn:E; [done|].
    injection Hm as <-. by eapply Load_well_formed. }
  clear Hm. revert m H0. induction ws as [|w1 ws IH]; intros m H0; [done|]. cbn [fold_left]. apply IH.
  unfold Reload. destruct (Load yaml_Unmarshal w1 (mg_path m)) as [e|c] eqn:E; [done|].
  by eapply Load_well_formed.
Qed.

End ListFacts.

(** ** Witnesses *)

Module ConfigExamples.

#[local] Existing Instance ascii_only.

Lemma mapped_entry_never_matches_witness :
  exists p, entry_net "::ffff:192.0.2.1" = Some p /\
    matchAny [p] "::ffff:192.0.2.1" = false /\ matchAny [p] "192.0.2.1" = false.
Proof.
  destruct (entry_net "::ffff:192.0.2.1") as [p|] eqn:E; [|discriminate].
  exists p. split; [reflexivity|]. assert (Ep : p = PrefixFrom (IP6 281473902969345 "") 128).
  { vm_compute in E. injection E as <-. vm_compute. reflexivity. }
  split; (eapply (mapped_entry_never_matches "::ffff:192.0.2.1" p);
    [exact E|rewrite Ep; reflexivity|reflexivity|rewrite Ep; vm_compute; discriminate]).
Defined.

Lemma config_always_well_formed_witness :
  let w : world := {| file p := Some ""; tree d := None |} in
  let gone : world := {| file p := None; tree d := None |} in
  exists m, NewManager (fun _ d => inr d) w "/etc/smoker/config.yaml" = inr m /\
    well_formed (Get (fold_left (fun m w => (Reload (fun _ d => inr d) w m).1.2) [gone; w] m)).
Proof.
  intros w gone.
  destruct (NewManager (fun _ d => inr d) w "/etc/smoker/config.yaml") as [e|m] eqn:E; [discriminate|].
  exists m. split; [reflexivity|]. exact (config_always_well_formed (fun _ d => inr d) w _ m [gone; w] E).
Defined.

Example list_ex :
  matchAny (parsePrefixes "whitelist" ["# office"; "10.0.0.0/8"; "junk"; "2001:db8::/32"]).1 "2001:db8::7" = true.
Proof. vm_compute. reflexivity. Qed.
Example list_v4in6 :
  matchAny (parsePrefixes "whitelist" ["10.0.0.0/8"]).1 "::ffff:10.1.2.3" = true.
Proof. vm_compute. reflexivity. Qed.
Example ext_ex : CacheableExt (compileCache Default) "/a.PNG" = false.
Proof. vm_compute. reflexivity. Qed.
Example default_valid : validate Default = None. Proof. reflexivity. Qed.
Example list_file_ex : readListFile "10.0.0.1 # gw

# only a comment
10.0.0.2" = ["10.0.0.1"; "10.0.0.2"].
Proof. vm_compute. reflexivity. Qed.

End ConfigExamples.
