(* ===== verification/Watch.v ===== *)
(** * Watching files ([internal/detect/watch.go], [internal/config/config.go])

    The goroutines that reload templates, access lists and the configuration
    when files change: the body of each [select] as a function of the message
    received, and the loop as a step relation over timed messages.  The two
    debounced loops share an interface, [Debouncer], against which their
    properties are proved: no change is lost, nothing is reloaded before it has
    settled, and under a prompt scheduler the reloads are exactly the settled
    changes. *)

From S2P Require Export Loader Config.

(** ** Messages

    [fsnotify.Event], with the flags of its [Op]. *)
Record Op := { Create : bool; Write : bool; Remove : bool; Rename : bool; Chmod : bool }.
Record Event := { ev_Name : string; ev_Op : Op }.

(** What a [select] receives: [stop] closed, an event, a value on [timerC], an
    error, or one of the two channels of the watcher closed. *)
Inductive message :=
| Stopped
| Received (ev : Event)
| EventsClosed
| Fired
| Failed (err : string)
| ErrorsClosed.

(** What the goroutine calls. *)
Inductive call :=
| Add (path : string)
| OnChange
| OnReload
| OnListener (i : nat) (c : Config.Config)
| OnError (err : Config.load_error + string).

(** [debounceFor] and [debounce] *)
Definition debounce : duration := 400 * 1000000.

(** The locals of a debounced goroutine: the time at which the channel
    [timerC] has a value ([None]: [timerC] is nil).  [arm] replaces the timer,
    and with it the channel, so a value of the old one is never received. *)
Record loop := { timerC : option time }.

Definition arm (now : time) : loop := {| timerC := Some (now + debounce) |}.

(** [ev.Op&(Write|Create|Remove|Rename) != 0] *)
Definition modifies (op : Op) : bool := Write op || Create op || Remove op || Rename op.

(** ** addTree *)

(** The directories [addTree] adds to the watcher ([WalkDir] in lexical order,
    without the trees named [.git]). *)
Fixpoint addTree (path : string) (n : fsnode) : list string :=
  match n with
  | File _ _ => []
  | Dir name children =>
      if name =?s ".git" then []
      else path :: match children with
                   | None => []
                   | Some cs => flat_map (fun c => addTree (filepath_Join path (node_name c)) c) cs
                   end
  end.

(** ** WatchTemplates *)

Section Templates.
Context `{Unicode} {S : Type} (onChange : time -> S -> S) (hasOnError : bool).

Definition isTemplateEvent (ev : Event) : bool :=
  if negb (modifies (ev_Op ev)) then false
  else let ext := ToLower (Ext (ev_Name ev)) in
       (ext =?s ".yaml") || (ext =?s ".yml") || (ext =?s "").

(** The body of the [select]; [stat] is the file system at that time, [s] the
    state [onChange] acts on.  The loop returns on [None]. *)
Definition templates_select (stat : string -> option fsnode) (now : time) (m : message)
    (l : loop) (s : S) : option loop * S * list call :=
  match m with
  | Stopped | EventsClosed | ErrorsClosed => (None, s, [])
  | Received ev =>
      let adds :=
        if Create (ev_Op ev) then
          match stat (ev_Name ev) with
          | Some (Dir name cs) => Add <$> addTree (ev_Name ev) (Dir name cs)
          | _ => []
          end
        else [] in
      (Some (if isTemplateEvent ev then arm now else l), s, adds)
  | Fired => (Some {| timerC := None |}, onChange now s, [OnChange])
  | Failed err => (Some l, s, if hasOnError then [OnError (inr err)] else [])
  end.

(** [WatchTemplates]: the watched directories and the loop's locals, or the
    error of [fsnotify.NewWatcher]. *)
Definition WatchTemplates (newWatcher : option string) (dir : string) (root : option fsnode) :
    string + (list string * loop) :=
  match newWatcher with
  | Some err => inl err
  | None => inr (match root with Some n => addTree dir n | None => [] end, {| timerC := None |})
  end.

End Templates.

(** ** The configuration *)

Section Lists.
Context `{Unicode} (yaml_Unmarshal : string -> Config.Config -> string + Config.Config).
Context (hasOnReload hasOnError : bool).

Definition onError (err : Config.load_error + string) : list call :=
  if hasOnError then [OnError err] else [].
Definition onReload : list call := if hasOnReload then [OnReload] else [].

(** The body of the [select] of [Watch]; [None]: the loop returns. *)
Definition config_select (w : world) (m : message) (mgr : Config.Manager) :
    option Config.Manager * list call :=
  match m with
  | Stopped | EventsClosed | ErrorsClosed => (None, [])
  | Received ev =>
      if negb (ev_Name ev =?s mg_path mgr) then (Some mgr, [])
      else if negb (modifies (ev_Op ev)) then (Some mgr, [])
      else match Load yaml_Unmarshal w (mg_path mgr) with
           | inl err => (Some mgr, onError (inl err))
           | inr cfg =>
               (Some {| mg_path := mg_path mgr; current := cfg; listeners := listeners mgr |},
                map (fun i => OnListener i cfg) (List.seq 0 (listeners mgr)) ++ onReload)
           end
  | Fired => (Some mgr, [])
  | Failed err => (Some mgr, onError (inr err))
  end.

(** The directories [WatchAccessLists] watches; [add] tells whether
    [Watcher.Add] succeeds.  [inr []]: nothing to watch, no goroutine. *)
Definition WatchAccessLists (newWatcher : option string) (add : string -> bool) (cfg : Config.Config) :
    string + list string :=
  match newWatcher with
  | Some err => inl err
  | None => inr (List.filter (fun d => negb (d =?s "") && add d)
                   [al_Dir (Whitelist cfg); al_Dir (Blocklist cfg); al_Dir (TrustedProxies cfg)])
  end.

Definition isListEvent (ev : Event) : bool :=
  modifies (ev_Op ev) && EqualFold (Ext (ev_Name ev)) ".ips".

(** The body of its [select]; [w] is the file system at each time. *)
Definition lists_select (w : time -> world) (now : time) (m : message) (l : loop) (mgr : Config.Manager) :
    option loop * Config.Manager * list call :=
  match m with
  | Stopped | EventsClosed | ErrorsClosed => (None, mgr, [])
  | Received ev => (Some (if isListEvent ev then arm now else l), mgr, [])
  | Fired =>
      match Config.Reload yaml_Unmarshal (w now) mgr with
      | (Some err, mgr', _) => (Some {| timerC := None |}, mgr', OnChange :: onError (inl err))
      | (None, mgr', calls) =>
          (Some {| timerC := None |}, mgr',
           OnChange :: map (fun x => OnListener x.1 x.2) calls ++ onReload)
      end
  | Failed err => (Some l, mgr, onError (inr err))
  end.

End Lists.

(** ** The debounced loop

    What the two loops have in common: an accepted event arms the timer, a
    value on [timerC] clears it and runs the callback, and nothing else touches
    either. *)

Definition refreshes (c : call) : bool := match c with OnChange => true | _ => false end.

Definition quiet_calls (cs : list call) : Prop := existsb refreshes cs = false.

Class Debouncer {S} (select : time -> message -> loop -> S -> option loop * S * list call)
    (accepts : Event -> bool) (callback : time -> S -> S) : Prop := {
  deb_event t ev l s : exists cs,
    select t (Received ev) l s = (Some (if accepts ev then arm t else l), s, cs) /\ quiet_calls cs;
  deb_fired t l s : exists cs,
    select t Fired l s = (Some {| timerC := None |}, callback t s, OnChange :: cs) /\ quiet_calls cs;
  deb_failed t err l s : exists cs, select t (Failed err) l s = (Some l, s, cs) /\ quiet_calls cs;
  deb_return t m l s : m = Stopped \/ m = EventsClosed \/ m = ErrorsClosed ->
    select t m l s = (None, s, []);
}.

Lemma quiet_add ps : quiet_calls (Add <$> ps).
Proof. unfold quiet_calls. induction ps as [|p ps IH]; [done|]. exact IH. Qed.

Lemma quiet_listeners (ks : list (nat * Config.Config)) r :
  quiet_calls (map (fun x => OnListener x.1 x.2) ks ++ onReload r).
Proof. unfold quiet_calls. induction ks as [|k ks IH]; [by destruct r|]. exact IH. Qed.

Lemma quiet_error b err : quiet_calls (onError b err).
Proof. by destruct b. Qed.

#[export] Instance templates_debouncer `{Unicode} {S} (onChange : time -> S -> S) hasOnError stat :
  Debouncer (fun t => templates_select onChange hasOnError (stat t) t) isTemplateEvent onChange.
Proof.
  split; intros.
  - eexists. split; [reflexivity|]. destruct (Create _); [|done].
    destruct (stat t _) as [[]|]; try done. apply quiet_add.
  - by eexists.
  - eexists. split; [reflexivity|]. by destruct hasOnError.
  - by destruct H0 as [->|[->| ->]].
Qed.

#[export] Instance lists_debouncer `{Unicode} yaml hasOnReload hasOnError w :
  Debouncer (lists_select yaml hasOnReload hasOnError w) isListEvent
    (fun t mgr => (Config.Reload yaml (w t) mgr).1.2).
Proof.
  split; intros.
  - by eexists.
  - cbn [lists_select]. destruct (Config.Reload yaml (w t) s) as [[[err|] mgr'] calls];
      eexists; (split; [reflexivity|]); [apply quiet_error|apply quiet_listeners].
  - eexists. split; [reflexivity|]. apply quiet_error.
  - by destruct H0 as [->|[->| ->]].
Qed.

Section Runs.
Context {S : Type} (select : time -> message -> loop -> S -> option loop * S * list call).
Context (accepts : Event -> bool) (callback : time -> S -> S).

(** A running goroutine: the clock, its locals ([None]: it has returned), the
    state its callback acts on, and its timed calls so far. *)
Record state := { clock : time; running : option loop; shared : S; history : list (time * call) }.

Definition start (t : time) (s : S) : state :=
  {| clock := t; running := Some {| timerC := None |}; shared := s; history := [] |}.

(** The channel of a message can be received from at [t]; the environment
    decides about all channels but [timerC]. *)
Definition ready (t : time) (m : message) (l : loop) : Prop :=
  match m with Fired => exists d, timerC l = Some d /\ d <= t | _ => True end.

Definition after (c : state) (t : time) (r : option loop * S * list call) : state :=
  {| clock := t; running := r.1.1; shared := r.1.2; history := history c ++ map (pair t) r.2 |}.

Inductive step : state -> time * message -> state -> Prop :=
| step_select c t m l :
    running c = Some l -> clock c <= t -> ready t m l ->
    step c (t, m) (after c t (select t m l (shared c))).

Inductive steps : state -> list (time * message) -> state -> Prop :=
| steps_refl c : steps c [] c
| steps_cons c1 m c2 ms c3 : step c1 m c2 -> steps c2 ms c3 -> steps c1 (m :: ms) c3.

Definition refresh_times (h : list (time * call)) : list time :=
  omap (fun x : time * call => if refreshes x.2 then Some x.1 else None) h.

Lemma refresh_times_app h k : refresh_times (h ++ k) = refresh_times h ++ refresh_times k.
Proof. apply omap_app. Qed.

Lemma quiet_refresh_times t cs : quiet_calls cs -> refresh_times (map (pair t) cs) = [].
Proof.
  unfold quiet_calls. induction cs as [|c cs IH]; [done|]. cbn. intros [-> ?]%orb_false_iff. by apply IH.
Qed.

Lemma steps_snoc c1 ms c2 m c3 : steps c1 ms c2 -> step c2 m c3 -> steps c1 (ms ++ [m]) c3.
Proof. induction 1; intros; cbn; econstructor; eauto; constructor. Qed.

Lemma steps_app c1 ms c2 ns c3 : steps c1 ms c2 -> steps c2 ns c3 -> steps c1 (ms ++ ns) c3.
Proof. induction 1; cbn; [done|]. intros. econstructor; eauto. Qed.

Context `{!Debouncer select accepts callback}.

(** The cases of a step. *)
Lemma step_cases c t m c' : step c (t, m) c' ->
  clock c <= t /\ clock c' = t /\ exists l, running c = Some l /\
  match m with
  | Received ev => running c' = Some (if accepts ev then arm t else l) /\ shared c' = shared c /\
                   refresh_times (history c') = refresh_times (history c)
  | Fired => (exists d, timerC l = Some d /\ d <= t) /\ running c' = Some {| timerC := None |} /\
             shared c' = callback t (shared c) /\
             refresh_times (history c') = refresh_times (history c) ++ [t]
  | Failed _ => running c' = Some l /\ shared c' = shared c /\
                refresh_times (history c') = refresh_times (history c)
  | _ => running c' = None /\ shared c' = shared c /\
         refresh_times (history c') = refresh_times (history c)
  end.
Proof.
  inversion 1 as [c0 t0 m0 l Hr Hc Hrd]; subst. split; [done|]. split; [done|]. exists l.
  split; [done|]. unfold after. cbn [running shared history].
  destruct m as [|ev| | |err|].
  1,3,6: rewrite (deb_return t) by tauto; cbn; rewrite app_nil_r; done.
  - destruct (deb_event t ev l (shared c)) as (cs & -> & Hq). cbn.
    rewrite refresh_times_app, quiet_refresh_times, app_nil_r by done. done.
  - destruct (deb_fired t l (shared c)) as (cs & -> & Hq). cbn.
    rewrite refresh_times_app. cbn. fold (refresh_times (map (pair t) cs)).
    rewrite quiet_refresh_times by done. done.
  - destruct (deb_failed t err l (shared c)) as (cs & -> & Hq). cbn.
    rewrite refresh_times_app, quiet_refresh_times, app_nil_r by done. done.
Qed.

(** *** What a run has done

    The times of the accepted events of a run. *)
Definition accepted (ms : list (time * message)) : list time :=
  omap (fun x : time * message =>
          match x.2 with Received ev => if accepts ev then Some x.1 else None | _ => None end) ms.

Lemma accepted_app ms ns : accepted (ms ++ ns) = accepted ms ++ accepted ns.
Proof. apply omap_app. Qed.

Lemma accepted_elem te ev ms : accepts ev = true -> (te, Received ev) ∈ ms -> te ∈ accepted ms.
Proof. intros Ha Hin. apply list_elem_of_omap. exists (te, Received ev). cbn. by rewrite Ha. Qed.

(** While the loop runs, either the timer is set for the last accepted event,
    or the callback ran after that event had settled, and last. *)
Record run_inv (s0 : S) (ms : list (time * message)) (c : state) : Prop := {
  ri_clock : Forall (fun te => te <= clock c) (accepted ms);
  ri_last te : last (accepted ms) = Some te -> Forall (fun x => x <= te) (accepted ms);
  ri_loop l : running c = Some l ->
    match timerC l with
    | Some d => exists te, last (accepted ms) = Some te /\ d = te + debounce
    | None => match last (accepted ms) with
              | None => shared c = s0
              | Some te => exists tr s, te + debounce <= tr <= clock c /\ shared c = callback tr s
              end
    end;
  ri_count : (length (refresh_times (history c)) +
    match running c with Some {| timerC := Some _ |} => 1 | _ => 0 end <= length (accepted ms))%nat;
}.

Lemma run_inv_start t s : run_inv s [] (start t s).
Proof. split; cbn; try done. by intros l [= <-]. Qed.

(** A message that is not an accepted event leaves what was accepted alone. *)
Lemma accepted_skip ms t m :
  match m with Received ev => accepts ev = false | _ => True end ->
  accepted (ms ++ [(t, m)]) = accepted ms.
Proof. rewrite accepted_app. intros Hm. destruct m; cbn; rewrite ?Hm; apply app_nil_r. Qed.

Lemma run_inv_keep s0 ms c t m c' :
  run_inv s0 ms c -> step c (t, m) c' ->
  match m with Received ev => accepts ev = false | _ => True end ->
  run_inv s0 (ms ++ [(t, m)]) c'.
Proof.
  intros [Hc Hl Hp Hn] Hs Hm. destruct (step_cases _ _ _ _ Hs) as (Ht & Ht' & l & Hr & Hcase).
  assert (Hc' : Forall (fun te => te <= clock c') (accepted ms)).
  { eapply Forall_impl; [exact Hc|]. cbn. intros. lia. }
  specialize (Hp l Hr). rewrite Hr in Hn.
  split; rewrite ?accepted_skip by done; [done|done|..].
  - intros l' Hl'. destruct m as [|ev| | |err|].
    1,3,6: destruct Hcase as (E & _); congruence.
    + rewrite Hm in Hcase. destruct Hcase as (E & Es & _). assert (l' = l) as -> by congruence.
      rewrite Es. destruct (timerC l); [done|]. destruct (last (accepted ms)); [|done].
      destruct Hp as (tr & s & ? & ?). exists tr, s. split; [lia|done].
    + destruct Hcase as ((d & Hd & Hdt) & E & Es & _). assert (l' = {| timerC := None |}) as -> by congruence.
      rewrite Hd in Hp. destruct Hp as (te & -> & ->). cbn. exists t, (shared c). split; [lia|done].
    + destruct Hcase as (E & Es & _). assert (l' = l) as -> by congruence.
      rewrite Es. destruct (timerC l); [done|]. destruct (last (accepted ms)); [|done].
      destruct Hp as (tr & s & ? & ?). exists tr, s. split; [lia|done].
  - destruct m as [|ev| | |err|].
    1,3,6: destruct Hcase as (E & _ & Eh); rewrite E, Eh; lia.
    + rewrite Hm in Hcase. destruct Hcase as (E & _ & Eh). by rewrite E, Eh.
    + destruct Hcase as ((d & Hd & _) & E & _ & Eh). rewrite E, Eh, length_app.
      destruct l as [[d'|]]; [|done]. cbn in *. lia.
    + destruct Hcase as (E & _ & Eh). by rewrite E, Eh.
Qed.

Lemma run_inv_accept s0 ms c t ev c' :
  run_inv s0 ms c -> step c (t, Received ev) c' -> accepts ev = true ->
  run_inv s0 (ms ++ [(t, Received ev)]) c'.
Proof.
  intros [Hc Hl Hp Hn] Hs Hm. destruct (step_cases _ _ _ _ Hs) as (Ht & Ht' & l & Hr & Hcase).
  rewrite Hm in Hcase. destruct Hcase as (E & Es & Eh).
  assert (Ea : accepted (ms ++ [(t, Received ev)]) = accepted ms ++ [t]).
  { rewrite accepted_app. cbn. by rewrite Hm. }
  assert (Hle : Forall (fun x => x <= t) (accepted ms ++ [t])).
  { apply Forall_app. split; [|by constructor]. eapply Forall_impl; [exact Hc|]. cbn. lia. }
  split; rewrite Ea.
  - by rewrite Ht'.
  - intros te. rewrite last_snoc. by intros [= <-].
  - intros l'. rewrite E. intros [= <-]. cbn. exists t. by rewrite last_snoc.
  - rewrite E, Eh, length_app. cbn. lia.
Qed.

Lemma run_inv_step s0 ms c tm c' : run_inv s0 ms c -> step c tm c' -> run_inv s0 (ms ++ [tm]) c'.
Proof.
  intros Hi Hs. destruct tm as [t m]. destruct m as [|ev| | |err|]; try by eapply run_inv_keep.
  destruct (accepts ev) eqn:Ha; [by eapply run_inv_accept|by eapply run_inv_keep].
Qed.

Lemma run_inv_steps s0 ms1 c1 ms2 c2 :
  steps c1 ms2 c2 -> run_inv s0 ms1 c1 -> run_inv s0 (ms1 ++ ms2) c2.
Proof.
  intros Hs. revert ms1. induction Hs as [c|c1 m c2 ms c3 H1 H2 IH]; intros ms1 Hi.
  - by rewrite app_nil_r.
  - replace (ms1 ++ m :: ms) with ((ms1 ++ [m]) ++ ms) by by rewrite <- app_assoc.
    apply IH. by eapply run_inv_step.
Qed.

Lemma run_inv_of t s ms c : steps (start t s) ms c -> run_inv s ms c.
Proof. intros Hs. apply (run_inv_steps s [] (start t s)); [done|apply run_inv_start]. Qed.

(** *** Properties of the loop *)

Lemma steps_split c1 ms ns c3 : steps c1 (ms ++ ns) c3 -> exists c2, steps c1 ms c2 /\ steps c2 ns c3.
Proof.
  revert c1. induction ms as [|m ms IH]; intros c1 H; [by exists c1; split; [constructor|]|].
  inversion H as [|? ? c ? ? H1 H2]; subst. destruct (IH c H2) as (c2 & ? & ?).
  exists c2. split; [econstructor; eauto|done].
Qed.

(** Nothing is refreshed before it has settled, and there are at most as many
    refreshes as accepted events: a value on [timerC] is received only at least
    [debounce] after every event accepted before it. *)
Lemma refresh_is_settled t0 s0 ms tr ns c :
  steps (start t0 s0) (ms ++ (tr, Fired) :: ns) c ->
  accepted ms <> [] /\ Forall (fun te => te + debounce <= tr) (accepted ms) /\
  (length (refresh_times (history c)) <= length (accepted (ms ++ (tr, Fired) :: ns)))%nat.
Proof.
  intros Hs. pose proof (ri_count _ _ _ (run_inv_of _ _ _ _ Hs)) as Hn.
  destruct (steps_split _ _ _ _ Hs) as (c1 & H1 & H2).
  inversion H2 as [|? ? c2 ? ? Hst _]; subst.
  destruct (step_cases _ _ _ _ Hst) as (_ & _ & l & Hr & (d & Hd & Hdt) & _).
  pose proof (run_inv_of _ _ _ _ H1) as [_ Hl Hp _]. specialize (Hp l Hr). rewrite Hd in Hp.
  destruct Hp as (te & Ht & ->). split_and!; [|  |lia].
  - intros E. by rewrite E in Ht.
  - eapply Forall_impl; [exact (Hl te Ht)|]. cbn. lia.
Qed.

(** No accepted change is lost: as long as the goroutine runs, either its timer
    is set, to fire at least [debounce] after the change, or the callback has
    run since, that long after the change, and made the state what it is; and
    in the first case the timer can fire with nothing else happening. *)
Lemma no_change_is_lost t0 s0 ms c l te ev :
  steps (start t0 s0) ms c -> running c = Some l -> (te, Received ev) ∈ ms -> accepts ev = true ->
  (timerC l = None /\ exists tr s, te + debounce <= tr <= clock c /\ shared c = callback tr s) \/
  (exists d, timerC l = Some d /\ te + debounce <= d /\
     forall t, clock c <= t -> d <= t -> exists c', step c (t, Fired) c' /\
       running c' = Some {| timerC := None |} /\ shared c' = callback t (shared c)).
Proof.
  intros Hs Hr Hin Ha. pose proof (run_inv_of _ _ _ _ Hs) as [_ Hl Hp _]. specialize (Hp l Hr).
  pose proof (accepted_elem te ev ms Ha Hin) as Hte.
  assert (Hlast : exists tl, last (accepted ms) = Some tl /\ te <= tl).
  { destruct (last (accepted ms)) as [tl|] eqn:E.
    - exists tl. split; [done|]. pose proof (Hl tl eq_refl) as HF. rewrite Forall_forall in HF. by apply HF.
    - apply last_None in E. rewrite E in Hte. by apply elem_of_nil in Hte. }
  destruct Hlast as (tl & Etl & Hle). destruct (timerC l) as [d|] eqn:Ed.
  - right. exists d. destruct Hp as (te' & Ht' & ->). rewrite Etl in Ht'. injection Ht' as <-.
    split_and!; [done|lia|]. intros t Hc Hd.
    assert (Hst : step c (t, Fired) (after c t (select t Fired l (shared c)))).
    { constructor; [done..|]. exists (tl + debounce). by split. }
    eexists. split; [exact Hst|]. destruct (step_cases _ _ _ _ Hst) as (_ & _ & l' & _ & _ & E & Es & _).
    by split.
  - left. split; [done|]. rewrite Etl in Hp. destruct Hp as (tr & s & ? & ?). exists tr, s. split; [lia|done].
Qed.

(** Once one of the channels is closed the goroutine is over: it does nothing
    and receives nothing any more. *)
Lemma closing_terminates c t m c' :
  m = Stopped \/ m = EventsClosed \/ m = ErrorsClosed -> step c (t, m) c' ->
  history c' = history c /\ shared c' = shared c /\ forall tm c'', ~ step c' tm c''.
Proof.
  intros Hm Hs. inversion Hs as [c0 t0 m0 l Hr Hc Hrd]; subst. unfold after. rewrite deb_return by done.
  cbn. rewrite app_nil_r. split_and!; [done..|]. intros tm c''. inversion 1; subst. done.
Qed.

(** *** A prompt scheduler

    Go receives the value of a due timer before a message that comes later.
    [prompt] runs the goroutine on the messages [env] of the environment, in the
    order of their times, in that way: the timer is the one the goroutine itself
    has set. *)
Definition due (c : state) : option time := l ← running c; timerC l.

Definition receive (c : state) (t : time) (m : message) : state :=
  match running c with
  | Some l => after c t (select t m l (shared c))
  | None => c
  end.

(** The timer runs out before [limit], if it is set. *)
Definition expire (limit : option time) (c : state) : state :=
  match due c with
  | Some d => if match limit with Some t => d <? t | None => true end then receive c d Fired else c
  | None => c
  end.

Fixpoint prompt (c : state) (env : list (time * message)) : state :=
  match env with
  | [] => expire None c
  | (t, m) :: env => prompt (receive (expire (Some t) c) t m) env
  end.

(** The changes that settle: accepted events that no further accepted event
    and no closing follows within [pause]. *)
Definition disturbs (m : message) : bool :=
  match m with Received ev => accepts ev | Fired | Failed _ => false | _ => true end.

Definition undisturbed (d : time) (env : list (time * message)) : bool :=
  forallb (fun x : time * message => negb (disturbs x.2) || (d <? x.1)) env.

Fixpoint settled (pause : duration) (env : list (time * message)) : list time :=
  match env with
  | [] => []
  | (t, m) :: env =>
      match m with
      | Received ev =>
          (if accepts ev && undisturbed (t + pause) env then [t] else []) ++ settled pause env
      | Fired | Failed _ => settled pause env
      | Stopped | EventsClosed | ErrorsClosed => []
      end
  end.

(** An environment: times that do not decrease from [t0] on, and no value of
    [timerC], which is the goroutine's own. *)
Fixpoint environment (t0 : time) (env : list (time * message)) : Prop :=
  match env with
  | [] => True
  | (t, m) :: env => t0 <= t /\ m <> Fired /\ environment t env
  end.

Lemma environment_le t t' env : t <= t' -> environment t' env -> environment t env.
Proof. destruct env as [|[u m] env]; [done|]. intros ? (? & ? & ?). cbn. split_and!; [lia|done..]. Qed.

Lemma environment_undisturbed t d env : environment t env -> d < t -> undisturbed d env = true.
Proof.
  revert t. induction env as [|[t' m] env IH]; intros t He Hd; [done|]. destruct He as (? & _ & He).
  cbn. rewrite (proj2 (Z.ltb_lt d t')) by lia. rewrite orb_true_r. cbn. apply (IH t'); [done|lia].
Qed.

Definition fire_times (ms : list (time * message)) : list time :=
  omap (fun x : time * message => match x.2 with Fired => Some x.1 | _ => None end) ms.

(** The refreshes of a run are its timer values, and its callback has run at
    each of them, and only then. *)
Lemma steps_refreshes c ms c' : steps c ms c' ->
  refresh_times (history c') = refresh_times (history c) ++ fire_times ms /\
  shared c' = fold_left (fun s t => callback t s) (fire_times ms) (shared c).
Proof.
  induction 1 as [c|c1 [t m] c2 ms c3 H1 H2 [IH1 IH2]]; [by rewrite app_nil_r|].
  rewrite IH1, IH2. destruct (step_cases _ _ _ _ H1) as (_ & _ & l & _ & Hcase).
  change ((t, m) :: ms) with ([(t, m)] ++ ms). unfold fire_times. rewrite omap_app, fold_left_app, app_assoc.
  destruct m; cbn; rewrite ?app_nil_r;
    [destruct Hcase as (_ & -> & ->)|destruct Hcase as (_ & -> & ->)|destruct Hcase as (_ & -> & ->)
    |destruct Hcase as (_ & _ & -> & ->)|destruct Hcase as (_ & -> & ->)|destruct Hcase as (_ & -> & ->)]; done.
Qed.

Definition in_order (c : state) : Prop := forall d, due c = Some d -> clock c <= d.

(** The goroutine receives a message that is ready. *)
Lemma receive_step c t m l :
  running c = Some l -> clock c <= t -> ready t m l -> step c (t, m) (receive c t m).
Proof. intros Hr Hc Hm. unfold receive. rewrite Hr. by constructor. Qed.

(** What [receive] and [expire] make of the timer and the refreshes *)
Lemma receive_spec c t m l :
  running c = Some l -> clock c <= t -> m <> Fired -> in_order c ->
  let c' := receive c t m in
  step c (t, m) c' /\ clock c' = t /\ refresh_times (history c') = refresh_times (history c) /\
  match m with
  | Received ev => due c' = (if accepts ev then Some (t + debounce) else due c) /\ running c' <> None
  | Failed _ => due c' = due c /\ running c' <> None
  | _ => running c' = None
  end.
Proof.
  intros Hr Hc Hm Ho c'. assert (Hst : step c (t, m) c') by (eapply receive_step; [done..|by destruct m]).
  destruct (step_cases _ _ _ _ Hst) as (_ & Hcl & l' & Hr' & Hcase). assert (l' = l) as -> by congruence.
  split; [done|]. split; [done|]. unfold due in *. rewrite Hr. cbn.
  destruct m as [|ev| | |err|]; try (by destruct Hcase as (? & _ & ?)); try done.
  - destruct Hcase as (-> & _ & ->). split; [done|]. cbn. by destruct (accepts ev).
  - destruct Hcase as (-> & _ & ->). by cbn.
Qed.

Lemma expire_spec limit c l :
  running c = Some l -> in_order c ->
  let c' := expire limit c in
  (exists ms, steps c ms c') /\ running c' <> None /\ clock c <= clock c' /\ in_order c' /\
  (forall t, limit = Some t -> clock c <= t -> clock c' <= t /\ forall d, due c' = Some d -> t <= d) /\
  match due c with
  | Some d => if match limit with Some t => d <? t | None => true end
              then due c' = None /\ refresh_times (history c') = refresh_times (history c) ++ [d]
              else due c' = Some d /\ refresh_times (history c') = refresh_times (history c)
  | None => due c' = None /\ refresh_times (history c') = refresh_times (history c)
  end.
Proof.
  intros Hr Ho c'. unfold c', expire. destruct (due c) as [d|] eqn:Ed.
  2: { split_and!; [exists []; constructor|by rewrite Hr|lia|by intros d; rewrite Ed| |done..].
       intros t -> Ht. split; [done|]. by rewrite Ed. }
  destruct (match limit with Some t => d <? t | None => true end) eqn:El.
  2: { split_and!; [exists []; constructor|by rewrite Hr|lia|done| |done..].
       intros t -> Ht. split; [done|]. rewrite Ed. intros ? [= <-]. lia. }
  assert (Hst : step c (d, Fired) (receive c d Fired)).
  { eapply receive_step; [done|by apply Ho|]. exists d. split; [|lia]. unfold due in Ed. rewrite Hr in Ed. exact Ed. }
  destruct (step_cases _ _ _ _ Hst) as (Hc & Hcl & l' & _ & _ & Hrun & _ & Hh). unfold in_order, due.
  rewrite Hrun, Hcl, Hh. split_and!; [|done|by apply Ho|intros ? E; discriminate E| |done|done].
  - exists [(d, Fired)]. eapply steps_cons; [exact Hst|constructor].
  - intros t -> _. split; [lia|done].
Qed.

Lemma prompt_over env : forall c, running c = None -> prompt c env = c.
Proof.
  induction env as [|[t m] env IH]; intros c Hr; cbn [prompt]; unfold expire, due; rewrite Hr; cbn; [done|].
  unfold receive. rewrite Hr. by apply IH.
Qed.

(** The prompt schedule is a run of the goroutine, and refreshes once for each
    change that settles, [debounce] later, and never else. *)
Lemma prompt_spec env : forall c l,
  running c = Some l -> in_order c -> environment (clock c) env ->
  (exists ms, steps c ms (prompt c env)) /\
  refresh_times (history (prompt c env)) = refresh_times (history c) ++
    match due c with Some d => if undisturbed d env then [d] else [] | None => [] end ++
    map (fun t => t + debounce) (settled debounce env).
Proof.
  induction env as [|[t m] env IH]; intros c l Hr Ho He; cbn [prompt].
  { destruct (expire_spec None c l Hr Ho) as (Hs & _ & _ & _ & _ & Hd). split; [done|]. cbn.
    rewrite app_nil_r. destruct (due c) as [d|]; destruct Hd as [_ ->]; [done|by rewrite app_nil_r]. }
  destruct He as (Ht & Hm & He). destruct (expire_spec (Some t) c l Hr Ho) as ((ms1 & Hs1) & Hr1 & _ & Ho1 & Hcl & Hd).
  destruct (Hcl t eq_refl Ht) as [Hcl1 Hdue]. set (c1 := expire (Some t) c) in *. destruct (running c1) as [l1|] eqn:El1; [|done].
  destruct (receive_spec c1 t m l1 El1 Hcl1 Hm Ho1) as (Hs2 & Hcl2 & Hh2 & Hcase). set (c2 := receive c1 t m) in *.
  assert (Hfirst : refresh_times (history c1) ++
      match due c1 with Some d => if negb (disturbs m) && undisturbed d env then [d] else [] | None => [] end =
    refresh_times (history c) ++
      match due c with Some d => if undisturbed d ((t, m) :: env) then [d] else [] | None => [] end).
  { destruct (due c) as [d|]; [|by destruct Hd as [-> ->]]. cbn [undisturbed forallb fst snd]. destruct (d <? t) eqn:Edt.
    - destruct Hd as [-> ->]. rewrite orb_true_r. cbn [andb]. fold (undisturbed d env).
      rewrite (environment_undisturbed t) by (done || lia). by rewrite app_nil_r.
    - destruct Hd as [-> ->]. by rewrite orb_false_r. }
  assert (Hstep : forall l2, running c2 = Some l2 -> in_order c2 ->
    (exists ms, steps c ms (prompt c2 env)) /\
    refresh_times (history (prompt c2 env)) = refresh_times (history c1) ++
      match due c2 with Some d => if undisturbed d env then [d] else [] | None => [] end ++
      map (fun t => t + debounce) (settled debounce env)).
  { intros l2 Hl2 Ho2. destruct (IH c2 l2 Hl2 Ho2) as [(ms & Hs) Hh]; [by rewrite Hcl2|]. rewrite Hh, Hh2. split; [|done].
    eexists. eapply steps_app; [exact Hs1|]. eapply steps_cons; [exact Hs2|exact Hs]. }
  assert (Hend : running c2 = None -> (exists ms, steps c ms (prompt c2 env)) /\
    refresh_times (history (prompt c2 env)) = refresh_times (history c1)).
  { intros Hn. rewrite prompt_over by done. rewrite Hh2. split; [|done].
    eexists. eapply steps_app; [exact Hs1|]. eapply steps_cons; [exact Hs2|constructor]. }
  rewrite app_assoc, <- Hfirst. destruct m as [|ev| | |err|]; cbn [settled disturbs negb andb] in *; try done.
  1,3,5: destruct (Hend Hcase) as [? ->]; (split; [done|]); destruct (due c1); by rewrite !app_nil_r.
  - destruct Hcase as [Hd2 Hr2]. destruct (running c2) as [l2|] eqn:El2; [|done].
    destruct (Hstep l2 eq_refl) as [Hs Hh].
    { intros d. rewrite Hd2, Hcl2. destruct (accepts ev); [intros [= <-]; unfold debounce; lia|apply Hdue]. }
    split; [done|]. rewrite Hh, Hd2. destruct (accepts ev); cbn [negb andb].
    + rewrite <- app_assoc. f_equal. destruct (due c1); cbn [app]; [by destruct (undisturbed (t + debounce) env)|].
      by destruct (undisturbed (t + debounce) env).
    + rewrite <- app_assoc. by destruct (due c1).
  - destruct Hcase as [Hd2 Hr2]. destruct (running c2) as [l2|] eqn:El2; [|done].
    destruct (Hstep l2 eq_refl) as [Hs Hh].
    { intros d. rewrite Hd2, Hcl2. apply Hdue. }
    split; [done|]. rewrite Hh, Hd2, <- app_assoc. done.
Qed.

(** A stream of changes that never pauses for longer than [debounce] is
    refreshed only once, after its end. *)
Fixpoint relentless (t0 : time) (ts : list time) : Prop :=
  match ts with
  | [] => True
  | t :: ts => t0 <= t <= t0 + debounce /\ relentless t ts
  end.

Lemma settled_relentless ev t ts :
  accepts ev = true -> relentless t ts ->
  settled debounce (map (fun t => (t, Received ev)) (t :: ts)) = [List.last ts t].
Proof.
  intros Ha. revert t. induction ts as [|t' ts IH]; intros t Hr.
  - cbn. by rewrite Ha.
  - destruct Hr as [Ht Hr]. specialize (IH t' Hr). cbn [map settled] in IH |- *. rewrite Ha in IH |- *.
    rewrite IH. cbn [andb undisturbed forallb disturbs fst snd]. rewrite Ha.
    rewrite (proj2 (Z.ltb_ge (t + debounce) t')) by lia. cbn.
    clear. revert t'. induction ts as [|x ts IH]; intros t'; [done|]. cbn [List.last]. destruct ts; [done|apply IH].
Qed.

End Runs.

(** ** What is watched *)

(** Every template file that a load reads lies directly in a directory that
    [addTree] watches, so the watcher hears of its changes. *)
Lemma addTree_covers n : forall path p content,
  (p, content) ∈ walk_files path n ->
  match n with
  | File _ _ => p = path
  | Dir _ _ => exists d name, d ∈ addTree path n /\ p = filepath_Join d name
  end.
Proof.
  revert n. fix IH 1. intros [name c|name children] path p content Hin; cbn [walk_files addTree] in *.
  - apply list_elem_of_singleton in Hin. by injection Hin as -> ->.
  - destruct (name =?s ".git"); [by apply elem_of_nil in Hin|].
    destruct children as [cs|]; [|by apply elem_of_nil in Hin].
    assert (Hgo : exists d x, (d = path \/ d ∈ flat_map (fun c => addTree (filepath_Join path (node_name c)) c) cs) /\
      p = filepath_Join d x).
    { induction cs as [|c cs IHcs]; cbn [flat_map] in *; [by apply elem_of_nil in Hin|].
      apply elem_of_app in Hin as [Hin|Hin].
      - pose proof (IH c _ _ _ Hin) as Hc. destruct c as [nm ct|nm ct].
        + exists path, (node_name (File nm ct)). split; [by left|done].
        + destruct Hc as (d & x & Hd & ->). exists d, x. split; [|done]. right. apply elem_of_app. by left.
      - destruct (IHcs Hin) as (d & x & [->|Hd] & ->); exists d, x || exists path, x;
          (split; [|done]); [by left|right; apply elem_of_app; by right]. }
    destruct Hgo as (d & x & Hd & ->). exists d, x. split; [|done]. apply elem_of_cons. tauto.
Qed.

(** The templates of a load are the YAML files of the walk. *)
Lemma yaml_files_walk `{Unicode} n : forall path f,
  f ∈ yaml_files path n -> f ∈ walk_files path n /\ is_yaml f.1 = true.
Proof.
  revert n. fix IH 1. intros [name c|name children] path f; cbn [yaml_files walk_files].
  - destruct (is_yaml path) eqn:E; [|by intros ?%elem_of_nil].
    intros Hin. split; [done|]. by apply list_elem_of_singleton in Hin as ->.
  - destruct (name =?s ".git"); [by intros ?%elem_of_nil|].
    destruct children as [cs|]; [|by intros ?%elem_of_nil].
    induction cs as [|c cs IHcs]; [by intros ?%elem_of_nil|]. cbn [flat_map].
    intros [Hin|Hin]%elem_of_app; rewrite elem_of_app.
    + destruct (IH c _ _ Hin). tauto.
    + destruct (IHcs Hin). tauto.
Qed.

Section Specs.
Context `{Unicode} (yaml_Unmarshal : string -> Config.Config -> string + Config.Config).
Context (hasOnReload hasOnError : bool).

(** Every template that [LoadDir] reads from a directory lies directly in a
    directory that [WatchTemplates] watches, and a write to it there is an
    event that sets the timer, so editing a loaded template is always noticed,
    however deep it lies. *)
Theorem loaded_templates_are_watched dir name children p content :
  (p, content) ∈ yaml_files dir (Dir name children) ->
  exists watched l, WatchTemplates None dir (Some (Dir name children)) = inr (watched, l) /\
    (exists d base, d ∈ watched /\ p = filepath_Join d base) /\
    forall op, Write op = true -> isTemplateEvent {| ev_Name := p; ev_Op := op |} = true.
Proof.
  intros [Hw Hy]%yaml_files_walk. eexists _, _. split; [reflexivity|]. split.
  - exact (addTree_covers _ _ _ _ Hw).
  - intros op Hop. unfold isTemplateEvent, modifies. cbn [ev_Op ev_Name]. rewrite Hop.
    unfold is_yaml in Hy. cbn [fst] in Hy. cbn [orb negb]. by rewrite Hy.
Qed.

(** A directory whose name has a dot does not set the timer when it appears,
    and its files are not reported either: templates that arrive with it (moved
    in, or unpacked before the directory is watched) are not loaded until
    something else changes. *)
Theorem dotted_directory_not_noticed {S} (onChange : time -> S -> S) stat t l s path op name cs :
  Create op = true -> stat path = Some (Dir name cs) ->
  ToLower (Ext path) <> "" -> is_yaml path = false ->
  templates_select onChange hasOnError stat t (Received {| ev_Name := path; ev_Op := op |}) l s =
    (Some l, s, Add <$> addTree path (Dir name cs)).
Proof.
  intros Hop Hst He Hy. unfold templates_select, isTemplateEvent, modifies. cbn [ev_Op ev_Name].
  rewrite Hop, Hst, orb_true_r. unfold is_yaml in Hy. cbn [orb negb]. rewrite Hy. cbn [orb].
  by rewrite (proj2 (String.eqb_neq _ _)).
Qed.

(** *** The configuration file *)

(** What [Watch] does on an event: nothing unless it modifies the file itself,
    and then just what [Reload] does, followed by a call of [onReload], or of
    [onError] with its error. *)
Theorem Watch_reloads w ev mgr :
  config_select yaml_Unmarshal hasOnReload hasOnError w (Received ev) mgr =
    if (ev_Name ev =?s mg_path mgr) && modifies (ev_Op ev) then
      match Config.Reload yaml_Unmarshal w mgr with
      | (Some err, mgr', _) => (Some mgr', onError hasOnError (inl err))
      | (None, mgr', calls) =>
          (Some mgr', map (fun x => OnListener x.1 x.2) calls ++ onReload hasOnReload)
      end
    else (Some mgr, []).
Proof.
  cbn [config_select]. destruct (ev_Name ev =?s mg_path mgr); cbn [negb andb]; [|done].
  destruct (modifies (ev_Op ev)); cbn [negb]; [|done]. unfold Config.Reload.
  destruct (Load yaml_Unmarshal w (mg_path mgr)); [done|]. by rewrite map_map.
Qed.

(** An editor that truncates the file before it writes it makes [Watch] load an
    empty file: that is no error, and the configuration in force is the default
    one until the write is seen. *)
Theorem truncated_config_is_default w ev mgr :
  (forall d, yaml_Unmarshal "" d = inr d) ->
  ev_Name ev = mg_path mgr -> Write (ev_Op ev) = true -> file w (mg_path mgr) = Some "" ->
  exists mgr' calls, config_select yaml_Unmarshal hasOnReload hasOnError w (Received ev) mgr = (Some mgr', calls) /\
    current mgr' = compileCache (compileAccessLists (loadAccessListFiles w Default)).
Proof.
  intros Hy Hn Hop Hf. eexists _, _. cbn [config_select]. rewrite Hn, String.eqb_refl.
  unfold modifies. rewrite Hop. cbn [negb orb]. unfold Load. rewrite Hf, Hy. cbn [validate].
  split; reflexivity.
Qed.

(** *** The access lists *)

Lemma Reload_path w mgr : mg_path (Config.Reload yaml_Unmarshal w mgr).1.2 = mg_path mgr.
Proof. unfold Config.Reload. by destruct (Load _ _ _). Qed.

Lemma lists_path w t0 m0 ms c :
  steps (lists_select yaml_Unmarshal hasOnReload hasOnError w) (start t0 m0) ms c ->
  mg_path (shared c) = mg_path m0.
Proof.
  intros Hs. remember (start t0 m0) as c0 eqn:E. replace m0 with (shared c0) by by rewrite E.
  clear E. induction Hs as [|c1 [t m] c2 ms c3 H1 H2 IH]; [done|]. rewrite IH.
  destruct (step_cases _ _ _ c1 t m c2 H1) as (_ & _ & l & _ & Hc).
  destruct m; destruct Hc as (? & Hc); try (destruct Hc as (Hc & _); by rewrite Hc).
  destruct Hc as (? & -> & _). apply Reload_path.
Qed.

(** The access lists in force are those on disk: once an event of a list file
    has been received and the goroutine is idle, its last reload read the disk
    at least [debounce] after the event; if the disk has not changed since the
    event and holds a valid configuration, that is the one in force. *)
Theorem access_lists_follow_the_disk w t0 m0 ms c te ev w1 cfg :
  steps (lists_select yaml_Unmarshal hasOnReload hasOnError w) (start t0 m0) ms c ->
  running c = Some {| timerC := None |} ->
  (te, Received ev) ∈ ms -> isListEvent ev = true ->
  (forall t, te <= t -> w t = w1) -> Load yaml_Unmarshal w1 (mg_path m0) = inr cfg ->
  current (shared c) = cfg.
Proof.
  intros Hs Hr Hin Ha Hw Hl.
  destruct (no_change_is_lost _ _ _ _ _ _ _ _ _ _ Hs Hr Hin Ha) as [(_ & tr & s & Htr & E)|(d & Hd & _)];
    [|done].
  pose proof (lists_path _ _ _ _ _ Hs) as Hp. rewrite E, Reload_path in Hp.
  rewrite E. unfold Config.Reload. rewrite Hw by (unfold debounce in Htr; lia).
  by rewrite Hp, Hl.
Qed.

Lemma watched_lists add cfg dirs : WatchAccessLists None add cfg = inr dirs ->
  forall d, d ∈ dirs -> d ∈ [al_Dir (Whitelist cfg); al_Dir (Blocklist cfg); al_Dir (TrustedProxies cfg)].
Proof.
  clear yaml_Unmarshal hasOnReload hasOnError. cbn [WatchAccessLists]. intros E d Hin. injection E as E. rewrite <- E in Hin. clear E.
  repeat case_match; set_solver.
Qed.

(** A list file in a subdirectory is loaded, but [WatchAccessLists] watches
    only the three directories themselves, so its changes go unnoticed. *)
Theorem nested_lists_are_loaded_not_watched add cfg dirs w d name sub base data :
  WatchAccessLists None add cfg = inr dirs -> d <> "" -> name <> ".git" -> sub <> ".git" ->
  tree w d = Some (Dir name (Some [Dir sub (Some [File base (Some data)])])) ->
  EqualFold (Ext (filepath_Join (filepath_Join d sub) base)) ".ips" = true ->
  filepath_Join d sub ∉ [al_Dir (Whitelist cfg); al_Dir (Blocklist cfg); al_Dir (TrustedProxies cfg)] ->
  readListDir d (tree w d) = readListFile data /\ filepath_Join d sub ∉ dirs.
Proof.
  intros Hd Hne Hg Hsg Ht He Hn. split.
  - unfold readListDir. rewrite (proj2 (String.eqb_neq d "") Hne), Ht.
    cbn [walk_files flat_map node_name]. rewrite !(proj2 (String.eqb_neq _ _)) by done.
    cbn [app flat_map fst snd]. rewrite He. by rewrite !app_nil_r.
  - intros Hin. by eapply Hn, watched_lists.
Qed.

(** What counts as a change of a list file. *)
Definition list_change (ev : Event) : Prop :=
  (Write (ev_Op ev) = true \/ Create (ev_Op ev) = true \/ Remove (ev_Op ev) = true \/ Rename (ev_Op ev) = true) /\
  exists base ext, ev_Name ev = base +:+ "." +:+ ext /\ extension ext /\ EqualFold ("." +:+ ext) ".ips" = true.

Lemma isListEvent_spec ev : isListEvent ev = true <-> list_change ev.
Proof.
  unfold isListEvent, list_change, modifies. rewrite andb_true_iff, !orb_true_iff.
  assert (He : EqualFold (Ext (ev_Name ev)) ".ips" = true <->
    exists base ext, ev_Name ev = base +:+ "." +:+ ext /\ extension ext /\ EqualFold ("." +:+ ext) ".ips" = true).
  { split.
    - intros Hf. destruct (Ext_spec (ev_Name ev)) as [E|(base & ext & En & Hx & E)]; rewrite E in Hf; [done|].
      by exists base, ext.
    - intros (base & ext & -> & Hx & Hf). by rewrite Ext_app. }
  rewrite He. tauto.
Qed.

(** (C35) Under a prompt scheduler the access lists are reloaded once for each change
    of a list file that settles, 400 ms after it, and never else: a burst of
    events is one reload, and while changes keep coming closer together there is
    none.  The goroutine runs on its own timer ([prompt]); a change is a write,
    creation, removal or renaming of a file with the extension [.ips]; it
    settles if no further change follows within 400 ms.  The configuration at
    the end is what [Reload] makes of it at those times, from the disk of each. *)
Theorem list_reloads_are_settled_changes w t0 m0 env :
  environment t0 env ->
  let c := prompt (lists_select yaml_Unmarshal hasOnReload hasOnError w) (start t0 m0) env in
  let times := map (fun t => t + 400 * 1000000) (settled isListEvent (400 * 1000000) env) in
  (forall ev, isListEvent ev = true <-> list_change ev) /\
  (exists ms, steps (lists_select yaml_Unmarshal hasOnReload hasOnError w) (start t0 m0) ms c) /\
  refresh_times (history c) = times /\
  shared c = fold_left (fun m t => (Config.Reload yaml_Unmarshal (w t) m).1.2) times m0.
Proof.
  intros He c times. split; [exact isListEvent_spec|].
  destruct (prompt_spec (lists_select yaml_Unmarshal hasOnReload hasOnError w) isListEvent
    (fun t m => (Config.Reload yaml_Unmarshal (w t) m).1.2) env (start t0 m0) {| timerC := None |}) as [(ms & Hs) Hr];
    [done|by intros d [=]|done|].
  fold c in Hs, Hr. destruct (steps_refreshes _ _ _ _ _ _ Hs) as [Hf Hsh]. cbn in Hr, Hf, Hsh.
  split; [by exists ms|]. split; [exact Hr|]. rewrite Hsh, <- Hf, Hr. done.
Qed.

(** Closing [stop] (or a channel of the watcher) ends the goroutine: from any
    running state it returns at once, calls nothing, leaves the configuration
    alone, and takes no further step, even with its timer set. *)
Theorem stop_ends_the_watch w c t m l :
  running c = Some l -> clock c <= t -> m = Stopped \/ m = EventsClosed \/ m = ErrorsClosed ->
  exists c', step (lists_select yaml_Unmarshal hasOnReload hasOnError w) c (t, m) c' /\
    running c' = None /\ history c' = history c /\ shared c' = shared c /\
    forall tm c'', ~ step (lists_select yaml_Unmarshal hasOnReload hasOnError w) c' tm c''.
Proof.
  intros Hr Hc Hm.
  assert (Hst : step (lists_select yaml_Unmarshal hasOnReload hasOnError w) c (t, m)
    (after c t (lists_select yaml_Unmarshal hasOnReload hasOnError w t m l (shared c)))).
  { constructor; [done..|]. by destruct Hm as [->|[->| ->]]. }
  eexists. split; [exact Hst|].
  destruct (closing_terminates _ _ _ c t m _ Hm Hst) as (? & ? & ?). split_and!; try done.
  by destruct Hm as [->|[->| ->]].
Qed.

End Specs.

(** ** Examples and witnesses *)

Module WatchExamples.

#[local] Existing Instance ascii_only.

Definition write_op : Op := {| Create := false; Write := true; Remove := false; Rename := false; Chmod := false |}.
Definition create_op : Op := {| Create := true; Write := false; Remove := false; Rename := false; Chmod := false |}.
Definition on (name : string) (op : Op) : message := Received {| ev_Name := name; ev_Op := op |}.
Definition ms (n : Z) : time := n * 1000000.

Definition yaml (s : string) (d : Config.Config) : string + Config.Config := inr d.
Definition list_dir (data : string) : fsnode :=
  Dir "whitelist" (Some [File "README" (Some "x"); Dir "more" (Some [File "b.ips" (Some data)])]).
Definition disk : world := {|
  file p := if p =?s "/etc/smoker/config.yaml" then Some "" else None;
  tree d := if d =?s "/etc/smoker/whitelist" then Some (list_dir "192.0.2.1") else None |}.
Definition mgr0 : Config.Manager :=
  {| mg_path := "/etc/smoker/config.yaml"; current := Default; listeners := 1 |}.

(** A burst, a pause, and a last change before the end. *)
Definition burst : list (time * message) :=
  [(ms 0, on "/w/a.ips" write_op); (ms 100, on "/w/b.ips" write_op); (ms 200, on "/w/README" write_op);
   (ms 900, on "/w/a.ips" create_op); (ms 1500, on "/w/c.IPS" write_op); (ms 1700, Stopped)].

Example settled_ex : settled isListEvent debounce burst = [ms 100; ms 900].
Proof. vm_compute. reflexivity. Qed.

Lemma list_reloads_are_settled_changes_witness :
  refresh_times (history (prompt (lists_select yaml true true (fun _ => disk)) (start 0 mgr0) burst)) = [ms 500; ms 1300].
Proof.
  destruct (list_reloads_are_settled_changes yaml true true (fun _ => disk) 0 mgr0 burst) as (_ & _ & E & _).
  - cbn. repeat split; try done; vm_compute; discriminate.
  - rewrite E. vm_compute. reflexivity.
Defined.

Definition edit : list (time * message) := [(ms 0, on "/w/a.ips" write_op); (ms 400, Fired)].

Lemma edit_run : exists c, steps (lists_select yaml true true (fun _ => disk)) (start 0 mgr0) edit c /\
  running c = Some {| timerC := None |}.
Proof.
  eexists. split.
  - eapply steps_cons; [|eapply steps_cons; [|apply steps_refl]].
    + eapply step_select; [reflexivity|vm_compute; discriminate|exact I].
    + eapply step_select; [reflexivity|vm_compute; discriminate|]. exists (ms 400). split; [reflexivity|].
      vm_compute. discriminate.
  - reflexivity.
Qed.

Lemma access_lists_follow_the_disk_witness :
  exists c cfg, Load yaml disk "/etc/smoker/config.yaml" = inr cfg /\ current (shared c) = cfg /\
    steps (lists_select yaml true true (fun _ => disk)) (start 0 mgr0) edit c.
Proof.
  destruct edit_run as (c & Hs & Hr).
  destruct (Load yaml disk "/etc/smoker/config.yaml") as [e|cfg] eqn:El; [discriminate|].
  exists c, cfg. split; [reflexivity|]. split; [|exact Hs].
  apply (access_lists_follow_the_disk yaml true true (fun _ => disk) 0 mgr0 edit c (ms 0)
    {| ev_Name := "/w/a.ips"; ev_Op := write_op |} disk cfg Hs Hr); [left|reflexivity|done|exact El].
Defined.

Lemma stop_ends_the_watch_witness :
  exists c', step (lists_select yaml true true (fun _ => disk)) (start 0 mgr0) (ms 1, Stopped) c' /\
    running c' = None.
Proof.
  destruct (stop_ends_the_watch yaml true true (fun _ => disk) (start 0 mgr0) (ms 1) Stopped {| timerC := None |})
    as (c' & H & Hr & _); [reflexivity|vm_compute; discriminate|by left|].
  exists c'. split; [exact H|exact Hr].
Defined.

Definition template_dir : fsnode :=
  Dir "templates" (Some [Dir "cves" (Some [File "x.yaml" (Some "id: x")]); Dir ".git" (Some [])]).

Lemma loaded_templates_are_watched_witness :
  exists watched l, WatchTemplates None "/t" (Some template_dir) = inr (watched, l) /\
    exists d base, d ∈ watched /\ "/t/cves/x.yaml" = filepath_Join d base.
Proof.
  destruct (loaded_templates_are_watched "/t" "templates"
    (Some [Dir "cves" (Some [File "x.yaml" (Some "id: x")]); Dir ".git" (Some [])]) "/t/cves/x.yaml" (Some "id: x"))
    as (watched & l & E & Hd & _); [vm_compute; left|].
  exists watched, l. split; [exact E|exact Hd].
Defined.

Lemma nested_lists_are_loaded_not_watched_witness :
  exists dirs, WatchAccessLists None (fun _ => true) Default = inr dirs /\
    "/etc/smoker/whitelist/more" ∉ dirs.
Proof.
  eexists. split; [reflexivity|].
  eapply (nested_lists_are_loaded_not_watched (fun _ => true) Default _
    {| file _ := None; tree _ := Some (Dir "whitelist" (Some [Dir "more" (Some [File "b.ips" (Some "192.0.2.1")])])) |}
    "/etc/smoker/whitelist" "whitelist" "more" "b.ips" "192.0.2.1");
    try reflexivity; try discriminate.
  vm_compute. intros Hin. repeat (apply elem_of_cons in Hin as [Hin|Hin]; [discriminate|]).
  by apply elem_of_nil in Hin.
Defined.

Lemma dotted_directory_not_noticed_witness :
  let d := Dir "v1.2" (Some [File "x.yaml" (Some "id: x")]) in
  templates_select (fun _ (n : nat) => S n) true (fun _ => Some d) 0 (on "/t/v1.2" create_op)
    {| timerC := None |} O = (Some {| timerC := None |}, O, [Add "/t/v1.2"]).
Proof.
  intros d.
  apply (dotted_directory_not_noticed true (fun _ (n : nat) => S n) (fun _ => Some d) 0 {| timerC := None |} O
    "/t/v1.2" create_op "v1.2" (Some [File "x.yaml" (Some "id: x")])); try reflexivity.
  vm_compute. discriminate.
Defined.

Lemma truncated_config_is_default_witness :
  exists mgr' calls, config_select yaml true true disk (on "/etc/smoker/config.yaml" write_op)
    {| mg_path := "/etc/smoker/config.yaml"; current := Default; listeners := 0 |} = (Some mgr', calls).
Proof.
  destruct (truncated_config_is_default yaml true true disk {| ev_Name := "/etc/smoker/config.yaml"; ev_Op := write_op |}
    {| mg_path := "/etc/smoker/config.yaml"; current := Default; listeners := 0 |}) as (m & cs & E & _);
    try reflexivity.
  exists m, cs. exact E.
Defined.

End WatchExamples.
