(* ===== verification/Store.v ===== *)
(** * The proxy's collaborators as interfaces

    [reputation.Store] and [session.Tracker], the interfaces the proxy is
    written against, with what it relies on; the reputation manager and the
    session tracker are instances.  A panic of the tracker's [Evaluate] reaches
    the proxy through the engine. *)

From S2P Require Export Reputation SessionEval.

(** [reputation.Store] *)
Class Store (R : Type) := {
  st_Lookup : R -> string -> time -> State * R;
  st_RegisterViolation : R -> string -> string -> time -> Transition * R;
  st_MarkClean : R -> string -> string -> time -> Transition * R;
  st_Block : R -> string -> string -> time -> Transition * R;
}.

(** [st_banned r ip u]: a ban of [ip] that holds up to [u].  No lookup, no
    violation and nothing that is done to another address ends it. *)
Class StoreBans (R : Type) `{Store R} := {
  st_banned : R -> string -> time -> Prop;
  st_banned_lookup r ip u now :
    st_banned r ip u -> now <= u -> (st_Lookup r ip now).1 = StateBlocked;
  st_banned_Lookup r ip u j now :
    st_banned r ip u -> now <= u -> st_banned (st_Lookup r j now).2 ip u;
  st_banned_RegisterViolation r ip u j reason now :
    st_banned r ip u -> now <= u -> st_banned (st_RegisterViolation r j reason now).2 ip u;
  st_banned_other r ip u j reason now :
    st_banned r ip u -> j <> ip ->
    st_banned (st_MarkClean r j reason now).2 ip u /\ st_banned (st_Block r j reason now).2 ip u;
}.

(** [Block] bans for the store's term. *)
Class StoreLaws (R : Type) `{Store R} := {
  st_bans :: StoreBans R;
  st_ttl : R -> duration;
  st_Block_bans r ip reason now : st_banned (st_Block r ip reason now).2 ip (now + st_ttl r);
}.

(** [session.Tracker] without [Len]; the engine uses its [Evaluate] through
    [SessionEvaluator]. *)
Class Tracker (T : Type) := {
  tk_at : T -> time -> T;
  tk_Record : T -> string -> RequestView -> T;
  tk_MarkChallengePassed : T -> string -> T;
  tk_ChallengePassed : T -> string -> bool * T;
}.

(** A session marked as having passed a challenge counts as such right away,
    and as long as nothing but the engine looks at it. *)
Class TrackerLaws (T : Type) `{Tracker T} `{SessionEvaluator T} := {
  tk_ok : T -> Prop;
  tk_passed : T -> string -> Prop;
  tk_passed_value t key : tk_passed t key -> (tk_ChallengePassed t key).1 = true;
  tk_Mark_passes t key : tk_ok t -> key <> "" -> tk_passed (tk_MarkChallengePassed t key) key;
  tk_Evaluate_passed t sm key k view : tk_passed t key -> tk_passed (se_Evaluate t sm k view).2 key;
}.

(** ** The reputation manager *)

Section ManagerStore.
Context `{BoltDB} `{EntryJSON}.

#[export] Instance manager_store : Store Manager := {
  st_Lookup := Reputation.Lookup;
  st_RegisterViolation := Reputation.RegisterViolation;
  st_MarkClean := Reputation.MarkClean;
  st_Block := Reputation.Block;
}.

#[export] Program Instance manager_bans : StoreBans Manager := {
  st_banned m ip u := blocks_until u (entries m !! ip);
}.
Next Obligation.
  intros m ip u now Hb Hle. cbn. rewrite Lookup_status, (blocks_until_fresh _ _ _ Hb) by done.
  by destruct Hb as (e & -> & ? & _).
Qed.
Next Obligation.
  intros m ip u j now Hb Hle.
  change (blocks_until u (entries (Reputation.Lookup m j now).2 !! ip)). rewrite Lookup_entry. case_decide as E; [subst j|done].
  by rewrite (blocks_until_fresh u).
Qed.
Next Obligation.
  intros m ip u j reason now Hb Hle.
  change (blocks_until u (entries (Reputation.RegisterViolation m j reason now).2 !! ip)).
  rewrite RegisterViolation_entries. cbv zeta. case_bool_decide as E; [done|].
  destruct (decide (ip = j)) as [->|]; [|by rewrite lookup_insert_ne].
  destruct Hb as (e & He & Hbl & _). by rewrite He in E.
Qed.
Next Obligation.
  intros m ip u j reason now Hb Hne.
  change (blocks_until u (entries (Reputation.MarkClean m j reason now).2 !! ip) /\
          blocks_until u (entries (Reputation.Block m j reason now).2 !! ip)).
  unfold Reputation.MarkClean, Reputation.Block. rewrite !force_entries.
  by rewrite !lookup_insert_ne by done.
Qed.

#[export] Program Instance manager_laws : StoreLaws Manager := {
  st_ttl m := BlockTTL (cfg m);
}.
Next Obligation.
  intros m ip reason now.
  change (blocks_until (now + BlockTTL (cfg m)) (entries (Reputation.Block m ip reason now).2 !! ip)).
  unfold Reputation.Block. rewrite force_entries, lookup_insert_eq.
  eexists. split; [done|]. split; [done|]. by right.
Qed.

End ManagerStore.

(** ** The session tracker *)

Section TrackerInstance.
Context `{LRULaws record}.

#[export] Instance clocked_tracker : Tracker clocked := {
  tk_at s now := Clocked (ct_tracker s) now;
  tk_Record s key view := Clocked (Record_ (ct_tracker s) key (v_Path view) (ct_now s) (ct_now s)) (ct_now s);
  tk_MarkChallengePassed s key :=
    Clocked (MarkChallengePassed (ct_tracker s) key (ct_now s) (ct_now s) (ct_now s)) (ct_now s);
  tk_ChallengePassed s key :=
    let '(b, t) := ChallengePassed (ct_tracker s) key (ct_now s) in (b, Clocked t (ct_now s));
}.

(** A tracker that holds something and does not expire sessions at once. *)
Definition clocked_ok (s : clocked) : Prop :=
  (0 < lru_cap (t_cache (ct_tracker s)))%nat /\ 0 <= t_ttl (ct_tracker s).

Definition clocked_passed (s : clocked) (key : string) : Prop :=
  key <> "" /\ exists r, live (ct_tracker s) key (ct_now s) = Some r /\ challengePassed r = true.

Lemma Evaluate_other_live t sm k vp key now :
  live (Evaluate t (Some sm) k vp now now).2 key now = live t key now.
Proof.
  destruct (decide (key = k)) as [->|Hne]; [apply Evaluate_live|].
  unfold Evaluate. destruct (sm_Checks sm); [done|]. rewrite get_pair. cbn [snd].
  unfold live. by rewrite get_peek_ne, get_ttl.
Qed.

#[export] Program Instance clocked_tracker_laws : TrackerLaws clocked := {
  tk_ok := clocked_ok;
  tk_passed := clocked_passed;
}.
Next Obligation.
  intros s key (Hk & r & Hl & Hp). unfold tk_ChallengePassed, clocked_tracker.
  pose proof (ChallengePassed_live (ct_tracker s) key (ct_now s) Hk) as E. rewrite Hl in E.
  destruct (ChallengePassed _ _ _) as [b t]. cbn in *. congruence.
Qed.
Next Obligation.
  intros s key [Hc Ht] Hk. split; [done|].
  destruct (MarkChallengePassed_peek (ct_tracker s) key (ct_now s) (ct_now s) (ct_now s) Hc Hk)
    as (r & Hp & Hch & Hl).
  exists r. split; [|done]. unfold live, tk_MarkChallengePassed, clocked_tracker. cbn [ct_tracker ct_now].
  rewrite Hp. cbn [mbind option_bind]. rewrite Hl.
  replace (t_ttl _ <? Time.Sub (ct_now s) (ct_now s)) with false; [done|].
  symmetry. apply Z.ltb_ge. unfold Time.Sub, min_int64, max_int64. rewrite Z.sub_diag. 
  unfold MarkChallengePassed. rewrite (proj2 (String.eqb_neq _ _) Hk), get_pair.
  cbn [with_cache t_ttl]. rewrite get_ttl. lia.
Qed.
Next Obligation.
  intros s sm key k view (Hk & r & Hl & Hp). split; [done|]. exists r. split; [|done].
  unfold se_Evaluate, clocked_evaluator.
  pose proof (Evaluate_other_live (ct_tracker s) sm k (Some (v_Path view)) key (ct_now s)) as E.
  destruct (Evaluate _ _ _ _ _ _) as [v t]. cbn in *. by rewrite E.
Qed.

End TrackerInstance.
