(* ===== verification/Forward.v ===== *)
(** * Forwarding to the backend ([internal/proxy/proxy.go])

    The state a request is handled in, the monad of the handlers, the rewrite
    of the outgoing request, the treatment of the backend's response (session
    cookie, cache, compression) and the copy to the client.

    [httputil.ReverseProxy] is modelled as far as the code relies on it; the
    backend is a function from the outgoing request to what comes back.  All
    clock readings of one request are the same instant. *)

From S2P Require Import Float64 Http Netip Engine Store.
From S2P Require Config RespCache Challenge Sid Protect.

(** ** Requests on their way *)

(** [backendTarget] *)
Record backendTarget := { bt_scheme : string; bt_addr : string }.

Definition chooseBackend (r : Request) (cfg : Config.Config) : backendTarget :=
  if r_TLS r && Config.be_UseTLS (Config.Backend cfg)
  then {| bt_scheme := "https"; bt_addr := Config.be_HTTPS (Config.Backend cfg) |}
  else {| bt_scheme := "http"; bt_addr := Config.be_HTTP (Config.Backend cfg) |}.

(** The request context: the values under the keys [ctxSetCookie] (the client's
    address), [ctxBackend], [ctxClientTLS], [ctxReqID], [ctxCookieSet],
    [ctxCacheStore] and [ctxCacheState]. *)
Record ctx := {
  c_ip : option string;
  c_backend : option backendTarget;
  c_clientTLS : option bool;
  c_reqID : option string;
  c_cookieSet : bool;
  c_cacheStore : option string;
  c_cacheState : string;
}.

Definition no_ctx : ctx := {|
  c_ip := None; c_backend := None; c_clientTLS := None; c_reqID := None; c_cookieSet := false;
  c_cacheStore := None; c_cacheState := "" |}.

(** A request with its context. *)
Record req := { rq : Request; rc : ctx }.

Definition with_forward (r : req) (ip : string) (bt : backendTarget) : req :=
  let c := rc r in
  {| rq := rq r; rc := {| c_ip := Some ip; c_backend := Some bt; c_clientTLS := Some (r_TLS (rq r));
       c_reqID := c_reqID c; c_cookieSet := c_cookieSet c; c_cacheStore := c_cacheStore c;
       c_cacheState := c_cacheState c |} |}.

Definition with_reqID (r : req) (id : string) : req :=
  let c := rc r in
  {| rq := rq r; rc := {| c_ip := c_ip c; c_backend := c_backend c; c_clientTLS := c_clientTLS c;
       c_reqID := Some id; c_cookieSet := c_cookieSet c; c_cacheStore := c_cacheStore c;
       c_cacheState := c_cacheState c |} |}.

Definition with_cookieSet (r : req) : req :=
  let c := rc r in
  {| rq := rq r; rc := {| c_ip := c_ip c; c_backend := c_backend c; c_clientTLS := c_clientTLS c;
       c_reqID := c_reqID c; c_cookieSet := true; c_cacheStore := c_cacheStore c;
       c_cacheState := c_cacheState c |} |}.

Definition with_cache (r : req) (store : option string) (state : string) : req :=
  let c := rc r in
  {| rq := rq r; rc := {| c_ip := c_ip c; c_backend := c_backend c; c_clientTLS := c_clientTLS c;
       c_reqID := c_reqID c; c_cookieSet := c_cookieSet c;
       c_cacheStore := match store with Some k => Some k | None => c_cacheStore c end;
       c_cacheState := state |} |}.

Definition reqIDFrom (r : req) : string := default "" (c_reqID (rc r)).
Definition clientIPFrom (r : req) : string := default "" (c_ip (rc r)).

(** What is handed to the transport, which sends it to the backend, and may
    send it again if [o_GetBody] gives the body anew. *)
Record OutRequest := {
  o_scheme : string;
  o_dial : string;
  o_host : string;
  o_method : string;
  o_uri : string;
  o_header : gmap string (list string);
  o_body : option reader;
  o_GetBody : option string;
  o_length : Z;
}.

(** What comes back: a transport error (is it the client's cancellation?), or a
    response with the reads of its body and, if the client goes away, the
    number of the chunk whose write fails. *)
Inductive backend_result :=
| BackendError (canceled : bool)
| BackendResponse (resp : RespCache.Response) (chunks : list (string * RespCache.read_err)) (gone : option nat).

(** ** Logs

    The lines of the four logs, without the timings and the texts of library
    errors. *)

Inductive log_event :=
| AccessLog (req_id ip method host path query : string) (status bytes : Z) (ua cache : string)
| BlockedLog (req_id ip method host path : string) (status : Z) (template_id severity action reason : string)
| BackendLog (req_id ip method host path : string) (status : Z) (reason : string)
| ServiceLog (ip path : string).

(** ** The state and the monad *)

Section Proxy.
Context `{Unicode} `{Regexp} `{MapIter} `{Float64} `{LRU RespCache.Entry} `{LRU Protect.bucket}.
Context {R T : Type} `{Store R} `{Tracker T} `{SessionEvaluator T}.
Context (zstd : list (string * RespCache.read_err) -> list (string * RespCache.read_err)).

(** What one request finds in the world: the clock, the random bytes of the
    request id and of the session ids minted in [ensureSession] and in
    [modifyResponse], and the backend. *)
Record env := {
  e_now : time;
  e_randReq : option string;
  e_randSID : option string;
  e_randSID' : option string;
  e_backend : OutRequest -> backend_result;
}.

(** The fixed part of [Proxy]: the configuration snapshot, the active
    signatures, the challenge manager and the cookie secret. *)
Record Proxy := {
  p_cfg : Config.Config;
  p_sigs : list CompiledSignature;
  p_challenge : Challenge.Manager;
  p_secret : string;
}.

(** The mutable part, with the response writer, the variable [r] of
    [ServeHTTP], the requests sent to the backend and the log so far. *)
Record pstate := {
  ps_rep : R;
  ps_tracker : T;
  ps_cache : option RespCache.Cache;
  ps_guard : option Protect.Guard;
  ps_w : writer;
  ps_r : req;
  ps_out : list OutRequest;
  ps_log : list log_event;
}.

(** Handlers thread the state and may panic; a panic keeps the state. *)
Definition M (A : Type) : Type := pstate -> go A * pstate.

#[global] Instance M_ret : MRet M := fun A a s => (Ret a, s).
#[global] Instance M_bind : MBind M := fun A B f m s =>
  match m s with
  | (Ret a, s) => f a s
  | (Panic p, s) => (Panic p, s)
  end.

Definition gets {A} (f : pstate -> A) : M A := fun s => (Ret (f s), s).
Definition throw {A} (p : panic) : M A := fun s => (Panic p, s).

Definition upd (f : pstate -> pstate) : M unit := fun s => (Ret tt, f s).

Definition set_rep (x : R) (s : pstate) : pstate := {|
  ps_rep := x; ps_tracker := ps_tracker s; ps_cache := ps_cache s; ps_guard := ps_guard s; ps_w := ps_w s;
  ps_r := ps_r s; ps_out := ps_out s; ps_log := ps_log s |}.
Definition set_tracker (x : T) (s : pstate) : pstate := {|
  ps_rep := ps_rep s; ps_tracker := x; ps_cache := ps_cache s; ps_guard := ps_guard s; ps_w := ps_w s;
  ps_r := ps_r s; ps_out := ps_out s; ps_log := ps_log s |}.
Definition set_cache (x : option RespCache.Cache) (s : pstate) : pstate := {|
  ps_rep := ps_rep s; ps_tracker := ps_tracker s; ps_cache := x; ps_guard := ps_guard s; ps_w := ps_w s;
  ps_r := ps_r s; ps_out := ps_out s; ps_log := ps_log s |}.
Definition set_guard (x : option Protect.Guard) (s : pstate) : pstate := {|
  ps_rep := ps_rep s; ps_tracker := ps_tracker s; ps_cache := ps_cache s; ps_guard := x; ps_w := ps_w s;
  ps_r := ps_r s; ps_out := ps_out s; ps_log := ps_log s |}.
Definition set_w (x : writer) (s : pstate) : pstate := {|
  ps_rep := ps_rep s; ps_tracker := ps_tracker s; ps_cache := ps_cache s; ps_guard := ps_guard s; ps_w := x;
  ps_r := ps_r s; ps_out := ps_out s; ps_log := ps_log s |}.
Definition set_r (x : req) (s : pstate) : pstate := {|
  ps_rep := ps_rep s; ps_tracker := ps_tracker s; ps_cache := ps_cache s; ps_guard := ps_guard s; ps_w := ps_w s;
  ps_r := x; ps_out := ps_out s; ps_log := ps_log s |}.
Definition add_out (x : OutRequest) (s : pstate) : pstate := {|
  ps_rep := ps_rep s; ps_tracker := ps_tracker s; ps_cache := ps_cache s; ps_guard := ps_guard s; ps_w := ps_w s;
  ps_r := ps_r s; ps_out := ps_out s ++ [x]; ps_log := ps_log s |}.
Definition add_log (x : log_event) (s : pstate) : pstate := {|
  ps_rep := ps_rep s; ps_tracker := ps_tracker s; ps_cache := ps_cache s; ps_guard := ps_guard s; ps_w := ps_w s;
  ps_r := ps_r s; ps_out := ps_out s; ps_log := ps_log s ++ [x] |}.

Definition on_w (f : writer -> writer) : M unit := upd (fun s => set_w (f (ps_w s)) s).
Definition log (x : log_event) : M unit := upd (add_log x).

(** [statusInfo] of the wrapped writer. *)
Definition statusInfo (w : writer) : Z * Z :=
  (match w_sent w with Some (code, _) => code | None => StatusOK end, len (w_body w)).

Context (e : env) (p : Proxy).

Definition logAccess (ip : string) (r : req) (status bytes : Z) : M unit :=
  log (AccessLog (reqIDFrom r) ip (r_Method (rq r)) (r_Host (rq r)) (r_Path (rq r)) (r_RawQuery (rq r))
         status bytes (UserAgent (rq r)) (c_cacheState (rc r))).

Definition logBlocked (ip : string) (r : req) (templateID reason action severity : string) (status : Z) : M unit :=
  log (BlockedLog (reqIDFrom r) ip (r_Method (rq r)) (r_Host (rq r)) (r_Path (rq r)) status
         templateID severity action reason).

Definition logBackend (r : req) (status : Z) (reason : string) : M unit :=
  log (BackendLog (reqIDFrom r) (clientIPFrom r) (r_Method (rq r)) (r_Host (rq r)) (r_Path (rq r)) status reason).

(** ** The outgoing request *)

(** The hop-by-hop headers the reverse proxy removes, the ones [Connection]
    lists included, and the inbound forwarding headers it removes before
    [Rewrite] runs. *)
Definition hop_headers : list string :=
  ["Connection"; "Proxy-Connection"; "Keep-Alive"; "Proxy-Authenticate"; "Proxy-Authorization"; "Te";
   "Trailer"; "Transfer-Encoding"; "Upgrade"].

Definition removeHopByHop (h : gmap string (list string)) : gmap string (list string) :=
  let listed := flat_map (fun v => TrimSpace <$> Split v ",") (Header.Values h "Connection") in
  fold_left Header.Del (listed ++ hop_headers) h.

Definition forwarding_headers : list string :=
  ["Forwarded"; "X-Forwarded-For"; "X-Forwarded-Host"; "X-Forwarded-Proto"].

(** [rewrite], after the header clean-up of the reverse proxy; [SetXForwarded]
    sets the three [X-Forwarded] headers from the inbound request. *)
Definition rewrite_ (r : req) : OutRequest :=
  let scheme := match c_backend (rc r) with
                | Some bt => if bt_scheme bt =?s "" then "http" else bt_scheme bt
                | None => "http" end in
  let h := fold_left Header.Del forwarding_headers (removeHopByHop (r_Header (rq r))) in
  let h := match SplitHostPort (r_RemoteAddr (rq r)) with
           | Some host => Header.Set_ h "X-Forwarded-For" host
           | None => h end in
  let h := Header.Set_ h "X-Forwarded-Host" (r_Host (rq r)) in
  let h := Header.Set_ h "X-Forwarded-Proto" (if r_TLS (rq r) then "https" else "http") in
  let h := match c_ip (rc r) with
           | Some ip =>
               if negb (ip =?s "")
               then Header.Set_ (Header.Set_ h "X-Real-IP" ip) "X-Forwarded-For" ip else h
           | None => h end in
  {| o_scheme := scheme;
     o_dial := match c_backend (rc r) with
               | Some bt => if bt_addr bt =?s "" then
                   (if Config.be_UseTLS (Config.Backend (p_cfg p))
                    then Config.be_HTTPS (Config.Backend (p_cfg p)) else Config.be_HTTP (Config.Backend (p_cfg p)))
                   else bt_addr bt
               | None => if Config.be_UseTLS (Config.Backend (p_cfg p))
                         then Config.be_HTTPS (Config.Backend (p_cfg p)) else Config.be_HTTP (Config.Backend (p_cfg p))
               end;
     o_host := r_Host (rq r); o_method := r_Method (rq r); o_uri := r_RequestURI (rq r);
     o_header := h; o_body := r_Body (rq r); o_GetBody := r_GetBody (rq r); o_length := r_ContentLength (rq r) |}.

(** ** The response *)

Definition session_cookie (val : string) (secure : bool) : cookie := {|
  ck_Name := Config.ss_CookieName (Config.Session (p_cfg p)); ck_Value := val; ck_Path := "/";
  ck_Secure := secure; ck_MaxAge := Z.quot (Config.ss_TTL (Config.Session (p_cfg p))) Second |}.

(** The session cookie [modifyResponse] adds, unless [ensureSession] did. *)
Definition response_cookie (r : req) (h : gmap string (list string)) : gmap string (list string) :=
  if c_cookieSet (rc r) then h
  else
    let needSet :=
      match Cookie (rq r) (Config.ss_CookieName (Config.Session (p_cfg p))) with
      | Some v => match Sid.verifySID (p_secret p) v with Some _ => false | None => true end
      | None => true
      end in
    if needSet then
      let val := Sid.newSignedSID (p_secret p) (e_randSID' e) in
      if negb (val =?s "")
      then Header.Add h "Set-Cookie" (cookie_String (session_cookie val (default false (c_clientTLS (rc r)))))
      else h
    else h.

(** What becomes of the body: streamed, teed into the cache, or compressed. *)
Inductive body_plan := Plain | Teed (b : RespCache.cachingBody) | Zstd.

(** The rest of [modifyResponse]: the header to send and the plan for the body. *)
Definition response_plan (r : req) (has_cache : bool) (resp : RespCache.Response) :
    gmap string (list string) * body_plan :=
  let cfg := p_cfg p in
  let h := response_cookie r (RespCache.resp_Header resp) in
  let resp' := {| RespCache.resp_Status := RespCache.resp_Status resp; RespCache.resp_Header := h;
                  RespCache.resp_ContentLength := RespCache.resp_ContentLength resp |} in
  let store := match c_cacheStore (rc r) with
               | Some key => if negb (key =?s "") && has_cache
                               && RespCache.storable resp' (Config.ca_MaxObjectSize (Config.CacheC cfg))
                             then Some key else None
               | None => None end in
  match store with
  | Some key =>
      (Header.Set_ h "X-Cache" "MISS",
       Teed {| RespCache.cb_buf := ""; RespCache.cb_key := key;
               RespCache.cb_status := RespCache.resp_Status resp;
               RespCache.cb_header := RespCache.cacheHeaders h;
               RespCache.cb_maxSize := Config.ca_MaxObjectSize (Config.CacheC cfg);
               RespCache.cb_ttl := Config.ca_TTL (Config.CacheC cfg);
               RespCache.cb_tooBig := false; RespCache.cb_committed := false |})
  | None =>
      if Config.cp_Zstd (Config.Compression cfg)
         && RespCache.shouldCompress (rq r) resp' (Config.cp_MinSize (Config.Compression cfg))
      then (Header.Add (Header.Del (Header.Set_ h "Content-Encoding" "zstd") "Content-Length")
              "Vary" "Accept-Encoding", Zstd)
      else (h, Plain)
  end.

(** [modifyResponse] *)
Definition modifyResponse (r : req) (resp : RespCache.Response) : M (gmap string (list string) * body_plan) :=
  _ ← (if 500 <=? RespCache.resp_Status resp
       then logBackend r (RespCache.resp_Status resp) "backend 5xx response" else mret tt);
  has_cache ← gets (fun s => bool_decide (is_Some (ps_cache s)));
  mret (response_plan r has_cache resp).

(** One read of the body, through the tee if there is one. *)
Definition read_through (b : option RespCache.cachingBody) (data : string) (err : RespCache.read_err) :
    M (option RespCache.cachingBody) := fun s =>
  match b, ps_cache s with
  | Some b, Some c =>
      let '(b, c) := RespCache.Read b c data err (e_now e) in (Ret (Some b), set_cache (Some c) s)
  | _, _ => (Ret b, s)
  end.

(** The copy to the client: a failed read or write aborts the handler. *)
Fixpoint copy_body (b : option RespCache.cachingBody) (chunks : list (string * RespCache.read_err))
    (gone : option nat) : M unit :=
  match chunks with
  | [] => throw AbortHandler
  | (data, err) :: chunks =>
      b ← read_through b data err;
      if negb (data =?s "") && bool_decide (gone = Some 0%nat) then throw AbortHandler
      else
        _ ← (if negb (data =?s "") then on_w (fun w => Write w data) else mret tt);
        match err with
        | RespCache.EOF => mret tt
        | RespCache.Failed => throw AbortHandler
        | RespCache.NoErr => copy_body b chunks (Nat.pred <$> gone)
        end
  end.

Definition copyHeader (w : writer) (h : gmap string (list string)) : writer :=
  {| w_Header := union_with (fun a b => Some (a ++ b)) (w_Header w) h; w_sent := w_sent w; w_body := w_body w |}.

Definition backendError (r : req) (canceled : bool) : M unit :=
  if canceled then mret tt
  else
    _ ← logBackend r StatusBadGateway "backend unreachable";
    on_w (fun w => Write (WriteHeader w StatusBadGateway) "502 Bad Gateway").

(** [p.rp.ServeHTTP] *)
Definition rp_ServeHTTP (r : req) : M unit :=
  let out := rewrite_ r in
  _ ← upd (add_out out);
  match e_backend e out with
  | BackendError canceled => backendError r canceled
  | BackendResponse resp chunks gone =>
      let resp := {| RespCache.resp_Status := RespCache.resp_Status resp;
                     RespCache.resp_Header := removeHopByHop (RespCache.resp_Header resp);
                     RespCache.resp_ContentLength := RespCache.resp_ContentLength resp |} in
      '(h, plan) ← modifyResponse r resp;
      _ ← on_w (fun w => WriteHeader (copyHeader w h) (RespCache.resp_Status resp));
      match plan with
      | Plain => copy_body None chunks gone
      | Teed b => copy_body (Some b) chunks gone
      | Zstd => copy_body None (zstd chunks) gone
      end
  end.

Definition forward (r : req) (ip : string) : M unit :=
  _ ← rp_ServeHTTP (with_forward r ip (chooseBackend (rq r) (p_cfg p)));
  '(status, n) ← gets (fun s => statusInfo (ps_w s));
  logAccess ip r status n.

End Proxy.
