(* ===== verification/View.v ===== *)
(** * What the pipeline sees of a request ([internal/proxy/proxy.go])

    The pure helpers of the pipeline: the client's address, the bounded view of
    a request for the engine, the cache key and the options of the proactive
    layer. *)

From S2P Require Export Http Netip Engine Protect.
From S2P Require Config.

(** ** The client's address *)

Section Address.
Context `{Unicode}.

(** [ClientIP] of the challenge package, which leaves the spelling alone *)
Definition ClientIP (remoteAddr : string) : string := default remoteAddr (SplitHostPort remoteAddr).

Definition hostOnly (remoteAddr : string) : string :=
  let host := default remoteAddr (SplitHostPort remoteAddr) in
  match ParseAddr host with
  | Some ap => String_ ap
  | None => host
  end.

Definition forwardedClientIP (r : Request) : string :=
  let cf := TrimSpace (Header.Get (r_Header r) "CF-Connecting-IP") in
  match (if negb (cf =?s "") then ParseAddr cf else None) with
  | Some ap => String_ ap
  | None =>
      let xff := Header.Get (r_Header r) "X-Forwarded-For" in
      let first := match IndexByte xff "," with Some i => str_take i xff | None => xff end in
      match (if negb (xff =?s "") then ParseAddr (TrimSpace first) else None) with
      | Some ap => String_ ap
      | None =>
          let v := TrimSpace (Header.Get (r_Header r) "X-Real-IP") in
          match (if negb (v =?s "") then ParseAddr v else None) with
          | Some ap => String_ ap
          | None => ""
          end
      end
  end.

Definition realClientIP (r : Request) (cfg : Config.Config) : string :=
  let host := hostOnly (r_RemoteAddr r) in
  if Config.TrustedProxy cfg host then
    let fwd := forwardedClientIP r in
    if negb (fwd =?s "") then fwd else host
  else host.

End Address.

(** ** The view *)

Definition joinValues (v : list string) : string :=
  match v with
  | [] => ""
  | [x] => x
  | x :: l => fold_left (fun out s => out +:+ "," +:+ s) l x
  end.

Definition maxInspectBody : Z := Z.shiftl 1 20.

(** The first [n] bytes: [io.LimitReader]. *)
Fixpoint limit (n : Z) (s : string) : string :=
  match s with
  | EmptyString => ""
  | String c s => if n <=? 0 then "" else String c (limit (n - 1) s)
  end.

Definition with_body (r : Request) (body : reader) (again : option string) (length : Z) : Request := {|
  r_Method := r_Method r; r_Host := r_Host r; r_RemoteAddr := r_RemoteAddr r; r_TLS := r_TLS r;
  r_Path := r_Path r; r_RawQuery := r_RawQuery r; r_RequestURI := r_RequestURI r;
  r_Header := r_Header r; r_Form := r_Form r; r_Cookies := r_Cookies r;
  r_Body := Some body; r_GetBody := again; r_ContentLength := length |}.

(** The body part of [buildView]: the inspected bytes, and the request with its
    body rebuilt.  [ReadAll] stops at the limit, at the end or at an error, and
    the error is dropped.  A body below the limit can be had again from
    [GetBody], so the transport may retry the request; one that reached the
    limit is the prefix followed by what the stream still holds, and cannot. *)
Definition inspect_body (r : Request) : string * Request :=
  match r_Body r with
  | None => ("", r)
  | Some b =>
      let body := limit maxInspectBody (rd_data b) in
      if len body <? maxInspectBody
      then (body, with_body r {| rd_data := body; rd_fails := false |} (Some body) (len body))
      else (body, with_body r {| rd_data := body +:+ str_drop (String.length body) (rd_data b);
                                 rd_fails := rd_fails b |} None (r_ContentLength r))
  end.

(** [buildView]: the view, and the request as it is left behind. *)
Definition buildView (r : Request) : RequestView * Request :=
  let '(body, r') := inspect_body r in
  let decodedQuery := default (r_RawQuery r) (QueryUnescape (r_RawQuery r)) in
  let pathNorm := NormalizePath (r_Path r) in
  let full := if negb (decodedQuery =?s "") then r_Path r +:+ "?" +:+ decodedQuery else r_Path r in
  let fullNorm := if negb (decodedQuery =?s "") then pathNorm +:+ "?" +:+ decodedQuery else pathNorm in
  ({| v_Method := r_Method r; v_Path := r_Path r; v_PathNorm := pathNorm; v_RawQuery := r_RawQuery r;
      v_FullURI := full; v_FullURINorm := fullNorm; v_Headers := fmap joinValues (r_Header r : gmap string (list string));
      v_Body := body |}, r').

(** ** Cache key and options *)

Definition cacheKey (r : Request) : string :=
  r_Method r +:+ " " +:+ r_Host r +:+ " " +:+ r_RequestURI r.

Section Options.
Context `{Unicode}.

Definition actionOf (s : string) (def : Action) : Action :=
  let s := ToLower (TrimSpace s) in
  if s =?s "block" then ActionBlock
  else if s =?s "challenge" then ActionChallenge
  else if s =?s "rate-limit" then ActionRateLimit
  else if s =?s "ban" then ActionBan
  else if s =?s "log-only" then ActionLogOnly
  else def.

Definition guardOptions (cfg : Config.Config) : Protect.Options :=
  let rl := Config.pr_RateLimit (Config.Protection cfg) in
  let an := Config.pr_Anomaly (Config.Protection cfg) in
  {| opt_Rate := {|
       ro_Enabled := Config.rl_Enabled rl; ro_Window := Config.rl_Window rl;
       ro_Burst := Config.rl_Burst rl; ro_SensitiveWeight := Config.rl_SensitiveWeight rl;
       ro_SensitivePaths := Config.rl_SensitivePaths rl;
       ro_Action := actionOf (Config.rl_Action rl) ActionRateLimit;
       ro_RespCode := Config.rl_ResponseCode rl |};
     opt_Anomaly := {|
       ao_Enabled := Config.an_Enabled an; ao_Threshold := Config.an_Threshold an;
       ao_Action := actionOf (Config.an_Action an) ActionChallenge;
       ao_RespCode := Config.an_ResponseCode an |} |}.

End Options.

(** ** Lemmas *)

Lemma limit_take n s : limit n s = str_take (Z.to_nat n) s.
Proof.
  revert n; induction s as [|c s IH]; intros n; [by destruct (Z.to_nat n)|]. cbn [limit].
  destruct (Z.leb_spec n 0).
  - by replace (Z.to_nat n) with 0%nat by lia.
  - replace (Z.to_nat n) with (S (Z.to_nat (n - 1))) by lia. cbn [str_take]. by rewrite IH.
Qed.

Lemma limit_length n s : 0 <= n -> len (limit n s) = Z.min n (len s).
Proof. intros. rewrite limit_take. unfold len. rewrite str_take_length. lia. Qed.

Lemma limit_all n s : len s <= n -> limit n s = s.
Proof. intros. rewrite limit_take. apply str_take_full. unfold len in *. lia. Qed.

Lemma limit_drop n s : limit n s +:+ str_drop (String.length (limit n s)) s = s.
Proof.
  revert n; induction s as [|c s IH]; intros n; [done|]. cbn [limit].
  destruct (n <=? 0); [done|].
  change (String c (limit (n - 1) s +:+ str_drop (String.length (limit (n - 1) s)) s) = String c s).
  by rewrite IH.
Qed.

Lemma inspect_body_inspected r b :
  r_Body r = Some b -> (inspect_body r).1 = limit maxInspectBody (rd_data b).
Proof. intros E. unfold inspect_body. rewrite E. by case_match. Qed.

(** ** Theorems *)

(** Inspection does not change what is forwarded: for every request whose
    body can be read, whatever its length, the request left behind carries the
    same body, failing or not where the original does; the engine sees exactly
    the first [maxInspectBody] bytes of it; if the whole body fits, the
    declared length is its length and a retry sends the same bytes; if it does
    not, the request cannot be retried. *)
Theorem buildView_preserves_body r b :
  r_Body r = Some b -> rd_fails b = false \/ maxInspectBody <= len (rd_data b) ->
  let '(view, r') := buildView r in
  r_Body r' = Some b /\ v_Body view = limit maxInspectBody (rd_data b) /\
  r_Header r' = r_Header r /\ r_RequestURI r' = r_RequestURI r /\
  r_ContentLength r' = (if len (rd_data b) <? maxInspectBody then len (rd_data b) else r_ContentLength r) /\
  r_GetBody r' = if len (rd_data b) <? maxInspectBody then Some (rd_data b) else None.
Proof.
  intros E Hok. unfold buildView, inspect_body. rewrite E. cbv zeta.
  rewrite limit_length by done.
  destruct (Z.ltb_spec (len (rd_data b)) maxInspectBody) as [Hlt|Hge].
  - rewrite (proj2 (Z.ltb_lt (Z.min _ _) _)) by lia. cbn.
    rewrite limit_all by lia. split_and!; try done; [|lia].
    destruct Hok as [Hf|]; [|lia]. destruct b; cbn in *. by subst.
  - rewrite (proj2 (Z.ltb_ge (Z.min _ _) _)) by lia. cbn. rewrite limit_drop. by destruct b.
Qed.

(** A body whose read fails before the inspection limit (the client goes
    away, or its framing breaks) is forwarded as a complete one: the bytes that
    arrived, with their number as the declared length and no sign of the
    error. *)
Theorem buildView_hides_read_errors r data :
  r_Body r = Some {| rd_data := data; rd_fails := true |} -> len data < maxInspectBody ->
  let r' := (buildView r).2 in
  r_Body r' = Some {| rd_data := data; rd_fails := false |} /\ r_ContentLength r' = len data.
Proof.
  intros E Hlt. unfold buildView, inspect_body. rewrite E. cbv zeta. cbn [rd_data].
  rewrite limit_all, (proj2 (Z.ltb_lt _ _) Hlt) by lia. done.
Qed.

(** (C16) A client cannot choose its address: when the connection does not come
    from a trusted proxy, the address everything is keyed on -- access lists,
    reputation, budgets, logs -- depends on the connection alone, whatever
    headers are sent; and from a trusted proxy it is either the connection's
    or a valid address in canonical form. *)
Theorem client_address_not_spoofable `{Unicode} r r' cfg :
  (r_RemoteAddr r = r_RemoteAddr r' -> Config.TrustedProxy cfg (hostOnly (r_RemoteAddr r)) = false ->
   realClientIP r cfg = realClientIP r' cfg) /\
  (realClientIP r cfg = hostOnly (r_RemoteAddr r) \/
   exists s a, ParseAddr s = Some a /\ realClientIP r cfg = String_ a).
Proof.
  unfold realClientIP. split.
  - intros E Ht. by rewrite <- E, Ht.
  - destruct (Config.TrustedProxy _ _); [|by left].
    destruct (String.eqb_spec (forwardedClientIP r) "") as [|Hne]; [by left|]. right. cbn [negb].
    revert Hne. unfold forwardedClientIP. repeat case_match; intros; try done; simplify_eq; eauto.
Qed.

Example maxInspectBody_ex : maxInspectBody = 1048576. Proof. reflexivity. Qed.
Example host_only_ex : hostOnly "[2001:DB8:0::1]:4431" = "2001:db8::1" /\ hostOnly "unix" = "unix".
Proof. split; vm_compute; reflexivity. Qed.
Example join_ex : joinValues ["a"; "b"; "c"] = "a,b,c". Proof. reflexivity. Qed.
