(* ===== verification/Proxy.v ===== *)
(** * The request pipeline ([internal/proxy/proxy.go])

    [ServeHTTP] from the access lists to the backend: the session identity, the
    reputation check, the challenge, the engine, the proactive layer, the cache
    and the enforcement of a decision, under the recovery that fails open or
    closed.  The cleaner is the adapter of [cmd/smoker/main.go]. *)

From S2P Require Export Float64 Http Netip Engine Store View Forward.
From S2P Require Config RespCache Challenge Sid Protect.

Section Proxy.
Context `{Unicode} `{Regexp} `{MapIter} `{Float64} `{LRU RespCache.Entry} `{LRU Protect.bucket}.
Context {R T : Type} `{Store R} `{Tracker T} `{SessionEvaluator T}.
Context (zstd : list (string * RespCache.read_err) -> list (string * RespCache.read_err)).
Context (e : env) (p : Proxy).

#[local] Abbreviation M := (M (R := R) (T := T)).

(** ** Calls into the collaborators *)

Definition lookup_ip (ip : string) : M State := fun s =>
  let '(st, r) := st_Lookup (ps_rep s) ip (e_now e) in (Ret st, set_rep r s).

Definition register_violation (ip reason : string) : M unit := fun s =>
  (Ret tt, set_rep (st_RegisterViolation (ps_rep s) ip reason (e_now e)).2 s).

Definition block_ip (ip reason : string) : M unit := fun s =>
  (Ret tt, set_rep (st_Block (ps_rep s) ip reason (e_now e)).2 s).

Definition record (sessionKey : string) (view : RequestView) : M unit :=
  upd (fun s => set_tracker (tk_Record (ps_tracker s) sessionKey view) s).

Definition challenge_passed (sessionKey : string) : M bool := fun s =>
  let '(b, t) := tk_ChallengePassed (ps_tracker s) sessionKey in (Ret b, set_tracker t s).

(** [cleanerAdapter] *)
Definition clean (c : Challenge.cleaner_call) : M unit :=
  match c with
  | Challenge.MarkIPClean ip reason =>
      upd (fun s => set_rep (st_MarkClean (ps_rep s) ip reason (e_now e)).2 s)
  | Challenge.MarkSessionPassed key =>
      upd (fun s => set_tracker (tk_MarkChallengePassed (ps_tracker s) key) s)
  end.

Fixpoint cleans (l : list Challenge.cleaner_call) : M unit :=
  match l with
  | [] => mret tt
  | c :: l => _ ← clean c; cleans l
  end.

Definition handle_verify (r : req) (ip reqID sessionKey : string) : M bool := fun s =>
  let '(handled, calls, w) :=
    Challenge.HandleVerify (p_challenge p) (ps_w s) (rq r) ip reqID sessionKey (e_now e) in
  (_ ← cleans calls; _ ← on_w (fun _ => w); mret handled) s.

Definition serve_challenge (r : req) (ip reqID : string) : M unit :=
  on_w (fun w => Challenge.ServeChallenge (p_challenge p) w (rq r) ip reqID (e_now e)).

Definition serve_blocked (ip reqID : string) (code : Z) (reason : string) : M unit :=
  on_w (fun w => Challenge.ServeBlocked (p_challenge p) w ip reqID code reason).

(** [p.engine.Inspect] *)
Definition inspect (view : RequestView) (sessionKey : string) : M Decision := fun s =>
  let '(dec, eng) := Inspect {| sigs := p_sigs p; session := Some (ps_tracker s) |} view sessionKey in
  (dec, set_tracker (default (ps_tracker s) (session eng)) s).

(** [p.guard.Assess], behind the nil check and the switch. *)
Definition assess (r : req) (ip : string) : M (option Decision) := fun s =>
  match ps_guard s with
  | Some g =>
      if Config.pr_Enabled (Config.Protection (p_cfg p)) then
        let '(dec, g) := Protect.Assess g (rq r) ip (guardOptions (p_cfg p)) (e_now e) in
        (Ret dec, set_guard (Some g) s)
      else (Ret None, s)
  | None => (Ret None, s)
  end.

(** The dereference of [dec.Incident]. *)
Definition incident (dec : Decision) : M Incident :=
  match d_Incident dec with Some inc => mret inc | None => throw RuntimePanic end.

(** ** Handlers *)

(** [ensureSession]: the key, and whether a cookie was set. *)
Definition ensureSession (r : req) (ip : string) : M (string * bool) := fun s =>
  let cfg := p_cfg p in
  let mint :=
    let key := "ip:" +:+ ip in
    let val := Sid.newSignedSID (p_secret p) (e_randSID e) in
    if negb (val =?s "") && match IndexByte val "." with Some (S _) => true | _ => false end then
      let c := cookie_String (session_cookie p val (r_TLS (rq r))) in
      (Ret (key, true), set_w (add_header (ps_w s) "Set-Cookie" c) s)
    else (Ret (key, false), s) in
  match Cookie (rq r) (Config.ss_CookieName (Config.Session cfg)) with
  | Some v =>
      if negb (v =?s "") then
        match Sid.verifySID (p_secret p) v with
        | Some id => (Ret ("sid:" +:+ id, false), s)
        | None => mint
        end
      else mint
  | None => mint
  end.

Definition block (r : req) (ip : string) (code : Z) (reason : string) : M unit :=
  serve_blocked ip (reqIDFrom r) code reason.

Definition detect_ (inc : Incident) : string := "detect:" +:+ in_TemplateID inc.

Definition applyAction (r : req) (ip sessionKey : string) (dec : Decision) (view : RequestView) : M unit :=
  let reqID := reqIDFrom r in
  let act := d_Action dec in
  if act =?s ActionLogOnly then
    _ ← forward zstd e p r ip;
    '(status, _) ← gets (fun s => statusInfo (ps_w s));
    inc ← incident dec;
    logBlocked ip r (in_TemplateID inc) (in_Reason inc) "log-only" (in_Severity inc) status
  else if act =?s ActionChallenge then
    passed ← challenge_passed sessionKey;
    if (passed : bool) then
      _ ← forward zstd e p r ip;
      record sessionKey view
    else
      inc ← incident dec;
      _ ← register_violation ip (detect_ inc);
      _ ← serve_challenge r ip reqID;
      logBlocked ip r (in_TemplateID inc) (in_Reason inc) "challenge" (in_Severity inc) StatusServiceUnavailable
  else if act =?s ActionRateLimit then
    inc ← incident dec;
    _ ← register_violation ip (detect_ inc);
    _ ← on_w (fun w => set_header w "Retry-After" "10");
    _ ← serve_blocked ip reqID StatusTooManyRequests "rate limited";
    logBlocked ip r (in_TemplateID inc) (in_Reason inc) "rate-limit" (in_Severity inc) StatusTooManyRequests
  else if act =?s ActionBan then
    inc ← incident dec;
    _ ← block_ip ip (detect_ inc);
    _ ← block r ip (d_RespCode dec) (in_Reason inc);
    logBlocked ip r (in_TemplateID inc) (in_Reason inc) "ban" (in_Severity inc) (d_RespCode dec)
  else
    inc ← incident dec;
    _ ← register_violation ip (detect_ inc);
    _ ← block r ip (d_RespCode dec) (in_Reason inc);
    logBlocked ip r (in_TemplateID inc) (in_Reason inc) "block" (in_Severity inc) (d_RespCode dec).

Definition cacheable (r : req) (has_cache : bool) : bool :=
  has_cache && (r_Method (rq r) =?s "GET") && (Header.Get (r_Header (rq r)) "Range" =?s "") &&
  Config.CacheableExt (p_cfg p) (r_Path (rq r)).

Definition serveCacheHit (r : req) (ip : string) (en : RespCache.Entry) : M unit :=
  _ ← on_w (fun w =>
    let h := RespCache.e_Header en ∪ w_Header w in
    let h := Header.Set_ h "X-Cache" "HIT" in
    let h := Header.Set_ h "Age" (Itoa (RespCache.Age en (e_now e))) in
    let w := WriteHeader {| w_Header := h; w_sent := w_sent w; w_body := w_body w |} (RespCache.e_Status en) in
    if negb (r_Method (rq r) =?s "HEAD") then Write w (RespCache.e_Body en) else w);
  logAccess ip (with_cache r None "HIT") (RespCache.e_Status en) (len (RespCache.e_Body en)).

Definition cache_get (key : string) : M (option RespCache.Entry) := fun s =>
  match ps_cache s with
  | Some c => let '(en, c) := RespCache.Get c key (e_now e) in (Ret en, set_cache (Some c) s)
  | None => (Ret None, s)
  end.

(** Step (6) of [ServeHTTP]: the clean passthrough. *)
Definition passthrough (ip sessionKey : string) (view : RequestView) : M unit :=
  r ← gets ps_r;
  has_cache ← gets (fun s => bool_decide (is_Some (ps_cache s)));
  if cacheable r has_cache then
    let key := cacheKey (rq r) in
    hit ← cache_get key;
    match hit with
    | Some en =>
        _ ← serveCacheHit r ip en;
        record sessionKey view
    | None =>
        let r := with_cache r (Some key) "MISS" in
        _ ← upd (set_r r);
        _ ← forward zstd e p r ip;
        record sessionKey view
    end
  else
    _ ← forward zstd e p r ip;
    record sessionKey view.

(** Steps (4), (5) and (5b): the view, the engine, the proactive layer. *)
Definition inspection (ip sessionKey : string) : M unit :=
  r ← gets ps_r;
  let '(view, rq') := buildView (rq r) in
  let r := {| rq := rq'; rc := rc r |} in
  _ ← upd (set_r r);
  dec ← inspect view sessionKey;
  if d_Matched dec then applyAction r ip sessionKey dec view
  else
    gdec ← assess r ip;
    match gdec with
    | Some gdec => applyAction r ip sessionKey gdec view
    | None => passthrough ip sessionKey view
    end.

(** Steps (1) to (3): the reputation and the challenge. *)
Definition admission (ip reqID sessionKey : string) : M unit :=
  r ← gets ps_r;
  st ← lookup_ip ip;
  match st with
  | StateBlocked =>
      _ ← serve_blocked ip reqID StatusForbidden "your address is temporarily blocked";
      logBlocked ip r "" "reputation:blocked" "block" "blocked" StatusForbidden
  | StateGreylisted =>
      handled ← handle_verify r ip reqID sessionKey;
      if (handled : bool) then mret tt
      else if Config.chal_Enabled (Config.Challenge (p_cfg p)) then
        passed ← challenge_passed sessionKey;
        if negb passed then serve_challenge r ip reqID
        else inspection ip sessionKey
      else inspection ip sessionKey
  | StateClean =>
      if r_Path (rq r) =?s Challenge.VerifyPath then
        handled ← handle_verify r ip reqID sessionKey;
        if (handled : bool) then mret tt else inspection ip sessionKey
      else inspection ip sessionKey
  end.

(** The body of [ServeHTTP] under the deferred recovery. *)
Definition pipeline (ip reqID : string) : M unit :=
  let cfg := p_cfg p in
  r ← gets ps_r;
  if Config.Whitelisted cfg ip then forward zstd e p r ip
  else if Config.Blocklisted cfg ip then
    _ ← serve_blocked ip reqID StatusForbidden "your address is blocked";
    logBlocked ip r "" "static-blocklist" "block" "high" StatusForbidden
  else
    '(sessionKey, cookieSet) ← ensureSession r ip;
    _ ← (if (cookieSet : bool) then upd (set_r (with_cookieSet r)) else mret tt);
    admission ip reqID sessionKey.

Definition recover {A} (m : M A) (handler : panic -> M A) : M A := fun s =>
  match m s with
  | (Panic pan, s) => handler pan s
  | x => x
  end.

Definition on_panic (ip : string) (pan : panic) : M unit :=
  match pan with
  | AbortHandler => throw AbortHandler
  | RuntimePanic =>
      r ← gets ps_r;
      _ ← log (ServiceLog ip (r_Path (rq r)));
      if Config.FailOpen (p_cfg p) then forward zstd e p r ip
      else block r ip StatusServiceUnavailable "internal error"
  end.

Definition ServeHTTP (r : Request) : M unit :=
  let clientIP := realClientIP r (p_cfg p) in
  let reqID := Sid.newRequestID (e_randReq e) in
  _ ← on_w (fun w => set_header w "X-Request-Id" reqID);
  _ ← upd (set_r (with_reqID {| rq := r; rc := no_ctx |} reqID));
  recover (pipeline clientIP reqID) (on_panic clientIP).

End Proxy.

(** ** The server

    The state that outlives a request; [net/http] gives every request a
    writer of its own and swallows a panic. *)
Section Server.
Context `{Unicode} `{Regexp} `{MapIter} `{Float64} `{LRU RespCache.Entry} `{LRU Protect.bucket}.
Context {R T : Type} `{Store R} `{Tracker T} `{SessionEvaluator T}.
Context (zstd : list (string * RespCache.read_err) -> list (string * RespCache.read_err)).

Record server := {
  sv_rep : R;
  sv_tracker : T;
  sv_cache : option RespCache.Cache;
  sv_guard : option Protect.Guard;
}.

(** What a request leaves behind for the world. *)
Record served := { sd_result : go unit; sd_writer : writer; sd_out : list OutRequest; sd_log : list log_event }.

Definition start (now : time) (sv : server) (r : Request) : pstate := {|
  ps_rep := sv_rep sv; ps_tracker := tk_at (sv_tracker sv) now; ps_cache := sv_cache sv;
  ps_guard := sv_guard sv; ps_w := new_writer; ps_r := {| rq := r; rc := no_ctx |};
  ps_out := []; ps_log := [] |}.

Definition serve (e : env) (p : Proxy) (sv : server) (r : Request) : served * server :=
  let '(res, s) := ServeHTTP zstd e p r (start (e_now e) sv r) in
  ({| sd_result := res; sd_writer := ps_w s; sd_out := ps_out s; sd_log := ps_log s |},
   {| sv_rep := ps_rep s; sv_tracker := ps_tracker s; sv_cache := ps_cache s; sv_guard := ps_guard s |}).

(** Requests one after the other, each with its environment. *)
Fixpoint serves (p : Proxy) (sv : server) (l : list (env * Request)) : list served * server :=
  match l with
  | [] => ([], sv)
  | (e, r) :: l =>
      let '(d, sv) := serve e p sv r in
      let '(ds, sv) := serves p sv l in (d :: ds, sv)
  end.

End Server.
