(* ===== verification/ProxyFacts.v ===== *)
(** * Correctness of the request pipeline

    A small Hoare logic for the handlers, the frame of each handler (which
    parts of the state it leaves alone), and the theorems about [ServeHTTP] as
    [serve] and [serves] run it. *)

From S2P Require Export Proxy.

Section Facts.
Context `{Unicode} `{Regexp} `{MapIter} `{Float64} `{LRU RespCache.Entry} `{LRU Protect.bucket}.
Context {R T : Type} `{Store R} `{Tracker T} `{SessionEvaluator T}.

#[local] Abbreviation pstate := (pstate (R := R) (T := T)).
#[local] Abbreviation M := (M (R := R) (T := T)).
#[local] Abbreviation server := (server (R := R) (T := T)).

(** ** Frames *)

(** [m] leaves [f] alone. *)
Definition keeps {X A} (f : pstate -> X) (m : M A) : Prop := forall s, f (m s).2 = f s.

(** [m] does not panic. *)
Definition calm {A} (m : M A) : Prop := forall s, exists a, (m s).1 = Ret a.

Lemma keeps_ret {X A} (f : pstate -> X) (a : A) : keeps f (mret a).
Proof. done. Qed.
Lemma keeps_gets {X A} (f : pstate -> X) (g : pstate -> A) : keeps f (gets g).
Proof. done. Qed.
Lemma keeps_throw {X A} (f : pstate -> X) q : keeps f (throw q : M A).
Proof. done. Qed.
Lemma keeps_upd {X} (f : pstate -> X) g : (forall s, f (g s) = f s) -> keeps f (upd g).
Proof. done. Qed.
Lemma keeps_bind {X A B} (f : pstate -> X) (m : M A) (k : A -> M B) :
  keeps f m -> (forall a, keeps f (k a)) -> keeps f (m ≫= k).
Proof.
  intros Hm Hk s. specialize (Hm s). unfold mbind, M_bind. destruct (m s) as [[a|q] s']; cbn in *; [|done].
  by rewrite Hk.
Qed.

Lemma calm_ret {A} (a : A) : calm (mret a).
Proof. intros s. by exists a. Qed.
Lemma calm_gets {A} (g : pstate -> A) : calm (gets g).
Proof. intros s. by eexists. Qed.
Lemma calm_upd g : calm (upd g).
Proof. intros s. by eexists. Qed.
Lemma calm_bind {A B} (m : M A) (k : A -> M B) : calm m -> (forall a, calm (k a)) -> calm (m ≫= k).
Proof.
  intros Hm Hk s. destruct (Hm s) as [a Ha]. unfold mbind, M_bind.
  destruct (m s) as [[a'|q] s']; cbn in *; [|done]. apply Hk.
Qed.

End Facts.

Create HintDb frame discriminated.
#[export] Hint Resolve keeps_ret keeps_gets keeps_throw calm_ret calm_gets calm_upd : frame.
#[export] Hint Extern 1 (keeps _ (upd _)) => (apply keeps_upd; intros; reflexivity) : frame.
#[export] Hint Unfold on_w log logAccess logBlocked logBackend : frame.

(** Walk through a handler. *)
Ltac frame_step :=
  match goal with
  | |- keeps _ (_ ≫= _) => apply keeps_bind; [|intros ?]
  | |- calm (_ ≫= _) => apply calm_bind; [|intros ?]
  | |- context [match ?x with _ => _ end] => destruct x
  end.
Ltac frame :=
  autounfold with frame;
  repeat first [solve [auto with frame nocore] | frame_step].

Section Forwarding.
Context `{Unicode} `{Regexp} `{MapIter} `{Float64} `{LRU RespCache.Entry} `{LRU Protect.bucket}.
Context {R T : Type} `{Store R} `{Tracker T} `{SessionEvaluator T}.
Context (zstd : list (string * RespCache.read_err) -> list (string * RespCache.read_err)).
Context (e : env) (p : Proxy).

#[local] Abbreviation pstate := (pstate (R := R) (T := T)).
#[local] Abbreviation M := (M (R := R) (T := T)).

(** The components that forwarding leaves alone. *)
Definition kept (s : pstate) : R * T * option Protect.Guard * req := (ps_rep s, ps_tracker s, ps_guard s, ps_r s).

(** What the copy to the client may change: the cache and the response. *)
Lemma read_through_keeps {X} (f : pstate -> X) b data err :
  (forall c s, f (set_cache c s) = f s) -> keeps f (read_through e b data err : M _).
Proof.
  intros Hf s. unfold read_through. destruct b, (ps_cache s); try done.
  destruct (RespCache.Read _ _ _ _ _). apply Hf.
Qed.

Lemma copy_body_keeps {X} (f : pstate -> X) b chunks gone :
  (forall c s, f (set_cache c s) = f s) -> (forall w s, f (set_w w s) = f s) ->
  keeps f (copy_body e b chunks gone : M _).
Proof.
  intros Hc Hw. revert b gone. induction chunks as [|[data err] chunks IH]; intros b gone; [done|].
  cbn [copy_body]. apply keeps_bind; [by apply read_through_keeps|]. intros b'.
  destruct (negb (data =?s "") && _); [done|]. apply keeps_bind.
  - destruct (negb _); [|done]. apply keeps_upd. intros. apply Hw.
  - intros _. destruct err; [apply IH|done|done].
Qed.

(** A panic of [m], if any, is the abort of a handler. *)
Definition aborts_only {A} (m : M A) : Prop := forall s, (m s).1 <> Panic RuntimePanic.

Lemma aborts_calm {A} (m : M A) : calm m -> aborts_only m.
Proof. intros Hm s. by destruct (Hm s) as [a ->]. Qed.

Lemma aborts_bind {A B} (m : M A) (k : A -> M B) :
  aborts_only m -> (forall a, aborts_only (k a)) -> aborts_only (m ≫= k).
Proof.
  intros Hm Hk s. specialize (Hm s). unfold mbind, M_bind.
  destruct (m s) as [[a|q] s']; cbn in *; [apply Hk|congruence].
Qed.

Lemma read_through_calm b data err : calm (read_through e b data err : M _).
Proof.
  intros s. unfold read_through. destruct b, (ps_cache s); try by eexists.
  destruct (RespCache.Read _ _ _ _ _). by eexists.
Qed.

Lemma copy_body_aborts b chunks gone : aborts_only (copy_body e b chunks gone : M _).
Proof.
  revert b gone. induction chunks as [|[data err] chunks IH]; intros b gone; [done|].
  cbn [copy_body]. apply aborts_bind; [apply aborts_calm, read_through_calm|]. intros b'.
  destruct (negb (data =?s "") && _); [done|]. apply aborts_bind.
  - apply aborts_calm. destruct (negb _); frame.
  - intros _. destruct err; [apply IH|done|done].
Qed.

Lemma modifyResponse_keeps {X} (f : pstate -> X) r resp :
  (forall x s, f (add_log x s) = f s) -> keeps f (modifyResponse e p r resp : M _).
Proof.
  intros Hl. apply keeps_bind; [|intros _; by apply keeps_bind].
  destruct (500 <=? _); [|done]. apply keeps_upd. intros. apply Hl.
Qed.

Lemma modifyResponse_calm r resp : calm (modifyResponse e p r resp : M _).
Proof. unfold modifyResponse. frame. Qed.

(** The request that [forward] sends. *)
Definition out_of (r : req) (ip : string) : OutRequest :=
  rewrite_ p (with_forward r ip (chooseBackend (rq r) (p_cfg p))).

(** What [rp_ServeHTTP] does once the request is out. *)
Definition answer (r : req) (res : backend_result) : M unit :=
  match res with
  | BackendError canceled => backendError r canceled
  | BackendResponse resp chunks gone =>
      let resp := {| RespCache.resp_Status := RespCache.resp_Status resp;
                     RespCache.resp_Header := removeHopByHop (RespCache.resp_Header resp);
                     RespCache.resp_ContentLength := RespCache.resp_ContentLength resp |} in
      '(h, plan) ← modifyResponse e p r resp;
      _ ← on_w (fun w => WriteHeader (copyHeader w h) (RespCache.resp_Status resp));
      match plan with
      | Plain => copy_body e None chunks gone
      | Teed b => copy_body e (Some b) chunks gone
      | Zstd => copy_body e None (zstd chunks) gone
      end
  end.

Lemma rp_ServeHTTP_answer r :
  rp_ServeHTTP zstd e p r =
  (_ ← upd (add_out (rewrite_ p r)); answer r (e_backend e (rewrite_ p r)) : M unit).
Proof. done. Qed.

Lemma answer_keeps {X} (f : pstate -> X) r res :
  (forall c s, f (set_cache c s) = f s) -> (forall w s, f (set_w w s) = f s) ->
  (forall x s, f (add_log x s) = f s) -> keeps f (answer r res).
Proof.
  intros Hc Hw Hl. destruct res as [[]|resp chunks gone]; cbn [answer backendError]; [done| |].
  - apply keeps_bind; [|intros _]; apply keeps_upd; intros; [apply Hl|apply Hw].
  - apply keeps_bind; [by apply modifyResponse_keeps|]. intros [h plan].
    apply keeps_bind; [apply keeps_upd; intros; apply Hw|]. intros _.
    destruct plan; by apply copy_body_keeps.
Qed.

Lemma answer_aborts r res : aborts_only (answer r res).
Proof.
  destruct res as [[]|resp chunks gone]; cbn [answer backendError]; [done|done|].
  apply aborts_bind; [apply aborts_calm, modifyResponse_calm|]. intros [h plan].
  apply aborts_bind; [apply aborts_calm; frame|]. intros _. destruct plan; apply copy_body_aborts.
Qed.

(** *** What the client gets

    The chunks of a body that is read to its end, and whether the client is
    still there for the last of them that is not empty. *)
Fixpoint body_of (chunks : list (string * RespCache.read_err)) : option (list string) :=
  match chunks with
  | [] => None
  | (data, RespCache.NoErr) :: chunks => cons data <$> body_of chunks
  | (data, RespCache.EOF) :: _ => Some [data]
  | (_, RespCache.Failed) :: _ => None
  end.

Definition spared (gone : option nat) (ds : list string) : bool :=
  match gone with Some n => forallb (fun d => d =?s "") (drop n ds) | None => true end.

Lemma spared_cons gone data ds :
  negb (data =?s "") && bool_decide (gone = Some 0%nat) = false ->
  spared gone (data :: ds) = spared (Nat.pred <$> gone) ds.
Proof.
  intros Hd. destruct gone as [[|n]|]; [|done|done]. rewrite bool_decide_eq_true_2, andb_true_r in Hd by done.
  apply negb_false_iff in Hd. cbn. by rewrite Hd, drop_0.
Qed.

Lemma spared_gone data ds :
  negb (data =?s "") && bool_decide (Some 0%nat = Some 0%nat) = true -> spared (Some 0%nat) (data :: ds) = false.
Proof. rewrite andb_true_iff, negb_true_iff. intros [Hd _]. cbn. by rewrite Hd. Qed.

Lemma body_of_nil chunks : body_of chunks <> Some [].
Proof. destruct chunks as [|[data []] chunks]; cbn; [done| |done|done]. by destruct (body_of chunks). Qed.

Lemma read_through_w b data err (s : pstate) :
  exists b' s', read_through e b data err s = (Ret b', s') /\ ps_w s' = ps_w s.
Proof.
  destruct (read_through_calm b data err s) as [b' E].
  pose proof (read_through_keeps ps_w b data err (fun _ _ => eq_refl) s) as Hk.
  destruct (read_through e b data err s) as [res s']. cbn in E, Hk. subst res. by exists b', s'.
Qed.

(** The copy returns if the body ends and the client stays, and then the client
    has all of it; else it aborts. *)
Lemma copy_body_delivers chunks : forall b gone (s : pstate), w_sent (ps_w s) <> None ->
  let '(res, s') := copy_body e b chunks gone s in
  w_sent (ps_w s') = w_sent (ps_w s) /\
  match body_of chunks with
  | Some ds =>
      if spared gone ds
      then res = Ret tt /\ w_body (ps_w s') = w_body (ps_w s) +:+ RespCache.str_concat ds
      else res = Panic AbortHandler
  | None => res = Panic AbortHandler
  end.
Proof.
  induction chunks as [|[data err] chunks IH]; intros b gone s Hs; [done|]. cbn [copy_body body_of].
  destruct (read_through_w b data err s) as (b' & s1 & E & Ew). unfold mbind at 1, M_bind at 1. rewrite E, <- Ew in *.
  clear s b E Ew. destruct (negb (data =?s "") && bool_decide (gone = Some 0%nat)) eqn:Eg.
  - cbn [throw]. split; [done|]. assert (gone = Some 0%nat) as ->.
    { apply andb_true_iff in Eg as [_ Eg]. by apply bool_decide_eq_true in Eg. }
    destruct err; [|by rewrite spared_gone|done]. destruct (body_of chunks); [cbn [fmap option_fmap option_map]|done].
    by rewrite spared_gone.
  - set (s2 := if negb (data =?s "") then set_w (Write (ps_w s1) data) s1 else s1).
    assert (Es2 : (if negb (data =?s "") then on_w (fun w => Write w data) else mret tt) s1 = (Ret tt, s2))
      by (unfold s2; by destruct (negb _)).
    assert (Hs2 : w_sent (ps_w s2) = w_sent (ps_w s1) /\ w_body (ps_w s2) = w_body (ps_w s1) +:+ data).
    { unfold s2. destruct (data =?s "") eqn:Ed; cbn [negb].
      - apply String.eqb_eq in Ed as ->. by rewrite str_app_nil_r.
      - cbn. unfold WriteHeader. by destruct (w_sent (ps_w s1)) eqn:Ew. }
    unfold mbind, M_bind. rewrite Es2. destruct Hs2 as [Hsent Hbody]. destruct err.
    + specialize (IH b' (Nat.pred <$> gone) s2 ltac:(by rewrite Hsent)).
      destruct (copy_body e b' chunks (Nat.pred <$> gone) s2) as [res s3]. destruct IH as [IH1 IH2].
      split; [by rewrite IH1|]. destruct (body_of chunks) as [ds|]; [|done]. cbn [fmap option_fmap option_map].
      rewrite spared_cons by done. destruct (spared _ ds); [|done]. destruct IH2 as [-> ->]. split; [done|].
      by rewrite Hbody, str_app_assoc.
    + cbn [mret M_ret]. split; [done|]. rewrite spared_cons by done.
      assert (spared (Nat.pred <$> gone) [] = true) as -> by (destruct gone as [[|[]]|]; done).
      split; [done|]. rewrite Hbody. cbn. by rewrite str_app_nil_r.
    + cbn [throw]. done.
Qed.

(** What has become of a request once [answer] is done with the backend's
    result: the client has nothing, a 502, or the response, and then all of it
    if the handler returns. *)
Definition answered_ (res : backend_result) (s : pstate) (ret : go unit) (w : writer) : Prop :=
  match res with
  | BackendError true => ret = Ret tt /\ w = ps_w s
  | BackendError false => ret = Ret tt /\ fst <$> w_sent w = Some StatusBadGateway
  | BackendResponse resp chunks gone =>
      fst <$> w_sent w = Some (RespCache.resp_Status resp) /\
      exists stream, (stream = chunks \/ stream = zstd chunks) /\
      match body_of stream with
      | Some ds => if spared gone ds then ret = Ret tt /\ w_body w = w_body (ps_w s) +:+ RespCache.str_concat ds
                   else ret = Panic AbortHandler
      | None => ret = Panic AbortHandler
      end
  end.

Lemma answer_answered r res (s : pstate) : w_sent (ps_w s) = None ->
  let '(ret, s') := answer r res s in answered_ res s ret (ps_w s').
Proof.
  intros Hs. destruct res as [[]|resp chunks gone]; cbn [answer backendError answered_].
  - done.
  - unfold mbind, M_bind. cbn. split; [done|]. unfold WriteHeader. by rewrite Hs.
  - set (resp' := {| RespCache.resp_Status := _ |}). unfold mbind at 1, M_bind at 1.
    pose proof (modifyResponse_keeps ps_w r resp' (fun _ _ => eq_refl) s) as Hk.
    destruct (modifyResponse_calm r resp' s) as [[h plan] Em].
    destruct (modifyResponse e p r resp' s) as [x s1]. cbn in Em, Hk. subst x.
    unfold mbind, M_bind. cbn [on_w upd].
    set (s2 := set_w _ s1).
    assert (Hs2 : w_sent (ps_w s2) <> None /\ fst <$> w_sent (ps_w s2) = Some (RespCache.resp_Status resp) /\
        w_body (ps_w s2) = w_body (ps_w s)).
    { unfold s2, copyHeader, WriteHeader. cbn. rewrite Hk, Hs. done. }
    destruct Hs2 as (Hn & Hst & Hb). rewrite <- Hb.
    assert (Hc : forall b stream, (stream = chunks \/ stream = zstd chunks) ->
      let '(ret, s') := copy_body e b stream gone s2 in
      fst <$> w_sent (ps_w s') = Some (RespCache.resp_Status resp) /\
      exists stream, (stream = chunks \/ stream = zstd chunks) /\
      match body_of stream with
      | Some ds => if spared gone ds then ret = Ret tt /\ w_body (ps_w s') = w_body (ps_w s2) +:+ RespCache.str_concat ds
                   else ret = Panic AbortHandler
      | None => ret = Panic AbortHandler
      end).
    { intros b stream Hor. pose proof (copy_body_delivers stream b gone s2 Hn) as Hd.
      destruct (copy_body e b stream gone s2) as [ret s']. destruct Hd as [-> Hd]. split; [done|]. by exists stream. }
    destruct plan; apply Hc; auto.
Qed.

(** The log only grows. *)
Definition logs {A} (m : M A) : Prop := forall s, exists l, ps_log (m s).2 = ps_log s ++ l.

Lemma keeps_logs {A} (m : M A) : keeps ps_log m -> logs m.
Proof. intros Hm s. exists []. by rewrite Hm, app_nil_r. Qed.

Lemma logs_log x : logs (log x).
Proof. intros s. by exists [x]. Qed.

Lemma logs_bind {A B} (m : M A) (k : A -> M B) : logs m -> (forall a, logs (k a)) -> logs (m ≫= k).
Proof.
  intros Hm Hk s. destruct (Hm s) as [l El]. unfold mbind, M_bind.
  destruct (m s) as [[a|q] s1]; cbn in *; [|by exists l].
  destruct (Hk a s1) as [l' El']. exists (l ++ l'). by rewrite El', El, app_assoc.
Qed.

Lemma answer_logs r res : logs (answer r res).
Proof.
  destruct res as [[]|resp chunks gone]; cbn [answer backendError].
  - by apply keeps_logs.
  - apply logs_bind; [apply logs_log|intros _]. by apply keeps_logs.
  - apply logs_bind; [|intros [h plan]].
    { apply logs_bind; [destruct (500 <=? _); [apply logs_log|by apply keeps_logs]|intros _].
      apply logs_bind; [by apply keeps_logs|]. intros has. by apply keeps_logs. }
    apply logs_bind; [by apply keeps_logs|]. intros _.
    destruct plan; apply keeps_logs; by apply copy_body_keeps.
Qed.

Lemma forward_logs r ip : logs (forward zstd e p r ip).
Proof.
  unfold forward. rewrite rp_ServeHTTP_answer. apply logs_bind; [apply logs_bind; [by apply keeps_logs|]|].
  - intros _. apply answer_logs.
  - intros _. apply logs_bind; [by apply keeps_logs|]. intros [st n]. apply logs_log.
Qed.

(** Forwarding sends one request, never fails at run time, and touches neither
    the reputation nor the sessions nor the budgets. *)
Lemma forward_spec r ip (s : pstate) :
  let '(res, s') := forward zstd e p r ip s in
  kept s' = kept s /\ ps_out s' = ps_out s ++ [out_of r ip] /\ res <> Panic RuntimePanic.
Proof.
  set (r' := with_forward r ip (chooseBackend (rq r) (p_cfg p))).
  pose proof (answer_keeps kept r' (e_backend e (out_of r ip)) (fun _ _ => eq_refl) (fun _ _ => eq_refl)
    (fun _ _ => eq_refl) (add_out (out_of r ip) s)) as Hk.
  pose proof (answer_keeps ps_out r' (e_backend e (out_of r ip)) (fun _ _ => eq_refl) (fun _ _ => eq_refl)
    (fun _ _ => eq_refl) (add_out (out_of r ip) s)) as Ho.
  pose proof (answer_aborts r' (e_backend e (out_of r ip)) (add_out (out_of r ip) s)) as Ha.
  unfold forward. fold r'. rewrite rp_ServeHTTP_answer. fold (out_of r ip).
  unfold mbind, M_bind. cbn [upd].
  destruct (answer r' _ _) as [[[]|q] s1]; cbn in Hk, Ho, Ha; [|done].
  cbn. destruct (statusInfo (ps_w s1)) as [st n]. done.
Qed.

Lemma forward_answered r ip (s : pstate) : w_sent (ps_w s) = None ->
  let '(ret, s') := forward zstd e p r ip s in answered_ (e_backend e (out_of r ip)) s ret (ps_w s').
Proof.
  intros Hs. set (r' := with_forward r ip (chooseBackend (rq r) (p_cfg p))).
  pose proof (answer_answered r' (e_backend e (out_of r ip)) (add_out (out_of r ip) s) Hs) as Ha.
  unfold forward. fold r'. rewrite rp_ServeHTTP_answer. fold (out_of r ip).
  unfold mbind, M_bind. cbn [upd].
  destruct (answer r' _ _) as [[[]|q] s1]; [|exact Ha].
  cbn. by destruct (statusInfo (ps_w s1)).
Qed.

End Forwarding.

(** ** The frames of the handlers *)

Section Handlers.
Context `{Unicode} `{Regexp} `{MapIter} `{Float64} `{LRU RespCache.Entry} `{LRU Protect.bucket}.
Context {R T : Type} `{Store R} `{Tracker T} `{SessionEvaluator T}.
Context (zstd : list (string * RespCache.read_err) -> list (string * RespCache.read_err)).
Context (e : env) (p : Proxy).

#[local] Abbreviation pstate := (pstate (R := R) (T := T)).
#[local] Abbreviation M := (M (R := R) (T := T)).

(** A handler that neither sends anything nor replaces the request. *)
Definition quiet {A} (m : M A) : Prop := keeps (fun s => (ps_out s, ps_r s)) m.

Lemma quiet_bind {A B} (m : M A) (k : A -> M B) : quiet m -> (forall a, quiet (k a)) -> quiet (m ≫= k).
Proof. apply keeps_bind. Qed.

Lemma lookup_ip_quiet ip : quiet (lookup_ip e ip).
Proof. intros s. unfold lookup_ip. by destruct (st_Lookup _ _ _). Qed.
Lemma register_violation_quiet ip reason : quiet (register_violation e ip reason).
Proof. done. Qed.
Lemma block_ip_quiet ip reason : quiet (block_ip e ip reason).
Proof. done. Qed.
Lemma record_quiet key view : quiet (record key view).
Proof. done. Qed.
Lemma challenge_passed_quiet key : quiet (challenge_passed key).
Proof. intros s. unfold challenge_passed. by destruct (tk_ChallengePassed _ _). Qed.
Lemma cleans_quiet l : quiet (cleans e l).
Proof. induction l as [|[] l IH]; [done| |]; by apply quiet_bind. Qed.
Lemma handle_verify_quiet r ip reqID key : quiet (handle_verify e p r ip reqID key).
Proof.
  intros s. unfold handle_verify. destruct (Challenge.HandleVerify _ _ _ _ _ _ _) as [[h calls] w].
  apply (quiet_bind (cleans e calls)); [apply cleans_quiet|]. intros _. by apply quiet_bind.
Qed.
Lemma serve_blocked_quiet ip reqID code reason : quiet (serve_blocked p ip reqID code reason).
Proof. done. Qed.
Lemma serve_challenge_quiet r ip reqID : quiet (serve_challenge e p r ip reqID).
Proof. done. Qed.
Lemma inspect_quiet view key : quiet (inspect p view key).
Proof. intros s. unfold inspect. by destruct (Inspect _ _ _). Qed.
Lemma assess_quiet r ip : quiet (assess e p r ip).
Proof.
  intros s. unfold assess. destruct (ps_guard s); [|done]. destruct (Config.pr_Enabled _); [|done].
  by destruct (Protect.Assess _ _ _ _ _).
Qed.
Lemma ensureSession_quiet r ip : quiet (ensureSession e p r ip).
Proof. intros s. unfold ensureSession. by repeat case_match. Qed.
Lemma incident_quiet dec : quiet (incident dec).
Proof. intros s. unfold incident. by destruct (d_Incident dec). Qed.
Lemma cache_get_quiet key : quiet (cache_get e key).
Proof. intros s. unfold cache_get. destruct (ps_cache s); [|done]. by destruct (RespCache.Get _ _ _). Qed.
Lemma log_quiet x : quiet (log x).
Proof. done. Qed.
Lemma on_w_quiet f : quiet (on_w f).
Proof. done. Qed.

(** The requests that the client's request [r0] turns into on its way. *)
Definition same_line (r0 r : Request) : Prop :=
  r_Host r = r_Host r0 /\ r_Method r = r_Method r0 /\ r_RequestURI r = r_RequestURI r0 /\
  r_TLS r = r_TLS r0 /\ r_Header r = r_Header r0.

Lemma buildView_same r : same_line r (buildView r).2.
Proof.
  unfold buildView, inspect_body. destruct (r_Body r) as [b|]; [|done]. cbv zeta. by destruct (len _ <? _).
Qed.

Lemma same_trans r0 r1 r2 : same_line r0 r1 -> same_line r1 r2 -> same_line r0 r2.
Proof. unfold same_line. intros (? & ? & ? & ? & ?) (? & ? & ? & ? & ?). split_and!; congruence. Qed.

(** [m] sends at most one request, for [ip] and of [r0]'s making, and if it
    sends one it does not fail at run time afterwards. *)
Definition at_most_one (r0 : Request) (ip : string) {A} (m : M A) : Prop := forall s,
  same_line r0 (rq (ps_r s)) ->
  let '(res, s') := m s in
  same_line r0 (rq (ps_r s')) /\
  (ps_out s' = ps_out s \/
   exists r, same_line r0 (rq r) /\ ps_out s' = ps_out s ++ [out_of p r ip] /\ res <> Panic RuntimePanic).

Lemma quiet_at_most r0 ip {A} (m : M A) : quiet m -> at_most_one r0 ip m.
Proof.
  intros Hq s Hs. specialize (Hq s). destruct (m s) as [res s']. cbn in Hq. injection Hq as Ho Hr.
  rewrite Hr. auto.
Qed.

Lemma at_most_bind r0 ip {A B} (m : M A) (k : A -> M B) :
  quiet m -> (forall a s, (m s).1 = Ret a -> at_most_one r0 ip (k a)) -> at_most_one r0 ip (m ≫= k).
Proof.
  intros Hq Hk s Hs. specialize (Hq s). pose proof (fun a => Hk a s) as Hk'. unfold mbind, M_bind.
  destruct (m s) as [[a|q] s1]; cbn in *; injection Hq as Ho Hr.
  - rewrite <- Ho. apply (Hk' a eq_refl). by rewrite Hr.
  - rewrite Hr. auto.
Qed.

Lemma at_most_bind' r0 ip {A B} (m : M A) (k : A -> M B) :
  quiet m -> (forall a, at_most_one r0 ip (k a)) -> at_most_one r0 ip (m ≫= k).
Proof. intros ? Hk. apply at_most_bind; [done|]. intros. apply Hk. Qed.

Lemma at_most_then r0 ip {A B} (m : M A) (k : A -> M B) :
  at_most_one r0 ip m -> (forall a, quiet (k a) /\ aborts_only (k a)) -> at_most_one r0 ip (m ≫= k).
Proof.
  intros Hm Hk s Hs. specialize (Hm s Hs). unfold mbind, M_bind.
  destruct (m s) as [[a|q] s1]; destruct Hm as [Hr Hm].
  - destruct (Hk a) as [Hq Ha]. specialize (Hq s1). specialize (Ha s1).
    destruct (k a s1) as [res s2]. cbn in *. injection Hq as -> ->. split; [done|].
    destruct Hm as [Ho|(r & ? & Ho & _)]; eauto.
  - split; [done|]. destruct Hm as [Ho|(r & ? & Ho & Hp)]; [by left|]. right. exists r.
    split_and!; try done. congruence.
Qed.

Lemma at_most_set_r r0 ip r : same_line r0 (rq r) -> at_most_one r0 ip (upd (set_r r)).
Proof. intros Hr s Hs. split; [done|]. by left. Qed.

Lemma forward_at_most r0 ip r : same_line r0 (rq r) -> at_most_one r0 ip (forward zstd e p r ip).
Proof.
  intros Hr s Hs. pose proof (forward_spec zstd e p r ip s) as Hf.
  destruct (forward _ _ _ _ _ _) as [res s']. destruct Hf as (Hk & Ho & Hp).
  injection Hk as _ _ _ ->. split; [done|]. right. by exists r.
Qed.

End Handlers.
#[export] Hint Resolve lookup_ip_quiet register_violation_quiet block_ip_quiet record_quiet challenge_passed_quiet
  handle_verify_quiet serve_blocked_quiet serve_challenge_quiet inspect_quiet assess_quiet
  ensureSession_quiet incident_quiet cache_get_quiet log_quiet on_w_quiet : frame.

(** ** At most one request to the backend *)

Section AtMost.
Context `{Unicode} `{Regexp} `{MapIter} `{Float64} `{LRU RespCache.Entry} `{LRU Protect.bucket}.
Context {R T : Type} `{Store R} `{Tracker T} `{SessionEvaluator T}.
Context (zstd : list (string * RespCache.read_err) -> list (string * RespCache.read_err)).
Context (e : env) (p : Proxy) (r0 : Request) (ip : string).

#[local] Abbreviation pstate := (pstate (R := R) (T := T)).
#[local] Abbreviation M := (M (R := R) (T := T)).
#[local] Abbreviation at_most := (at_most_one (R := R) (T := T) p r0 ip).

Lemma log_aborts x : aborts_only (log x : M unit).
Proof. done. Qed.

Lemma incident_Some dec : is_Some (d_Incident dec) -> calm (incident dec : M _).
Proof. intros [inc E] s. unfold incident. rewrite E. by eexists. Qed.

Lemma applyAction_at_most r key dec view :
  same_line r0 (rq r) -> is_Some (d_Incident dec) -> at_most (applyAction zstd e p r ip key dec view).
Proof.
  intros Hr Hi. unfold applyAction.
  destruct (d_Action dec =?s ActionLogOnly).
  { apply at_most_then; [by apply forward_at_most|]. intros _. split.
    - apply quiet_bind; [done|]. intros [st n]. apply quiet_bind; [apply incident_quiet|]. done.
    - apply aborts_bind; [done|]. intros [st n].
      apply aborts_bind; [by apply aborts_calm, incident_Some|]. done. }
  destruct (d_Action dec =?s ActionChallenge).
  { apply at_most_bind'; [apply challenge_passed_quiet|]. intros [].
    - apply at_most_then; [by apply forward_at_most|]. done.
    - apply quiet_at_most. repeat (apply quiet_bind; [auto with frame|intros ?]). done. }
  destruct (d_Action dec =?s ActionRateLimit), (d_Action dec =?s ActionBan); apply quiet_at_most;
    repeat (apply quiet_bind; [auto with frame|intros ?]); done.
Qed.

Lemma passthrough_at_most key view : at_most (passthrough zstd e p ip key view).
Proof.
  intros s Hs. unfold passthrough. unfold mbind at 1, M_bind at 1. cbn [gets].
  unfold mbind at 1, M_bind at 1. cbn [gets].
  match goal with |- let '(_, _) := ?m s in _ => enough (Hm : at_most m) by (apply (Hm s Hs)) end.
  destruct (cacheable _ _ _).
  - apply at_most_bind'; [apply cache_get_quiet|]. intros [en|].
    + apply quiet_at_most. unfold serveCacheHit. repeat (apply quiet_bind; [done|intros ?]). done.
    + intros s1 Hs1. unfold mbind at 1, M_bind. cbn [upd].
      match goal with |- let '(_, _) := ?m ?s' in _ => enough (Hm : at_most m) by (apply (Hm s' Hs)) end.
      apply at_most_then; [by apply forward_at_most|]. done.
  - apply at_most_then; [by apply forward_at_most|]. done.
Qed.

Lemma Inspect_incident eng view key dec :
  (Inspect (S := T) eng view key).1 = Ret dec -> d_Matched dec = true -> is_Some (d_Incident dec).
Proof.
  unfold Inspect. destruct (inspect_loop _ _ _ _ _ _) as [[[best|]|q] st]; cbn; intros [= <-]; cbn; try done; eauto.
Qed.

Lemma Assess_incident g r opt now dec :
  (Protect.Assess g r ip opt now).1 = Some dec -> is_Some (d_Incident dec).
Proof.
  unfold Protect.Assess. destruct (Protect.anomalyScore r) as [score reason].
  destruct (_ && _); [intros [= <-]; cbn; eauto|]. destruct (ro_Enabled _); [|done].
  destruct (Protect.allow _ _ _ _ _) as [[] g']; intros [= <-]. cbn. eauto.
Qed.

Lemma inspection_at_most key : at_most (inspection zstd e p ip key).
Proof.
  intros s Hs. unfold inspection. unfold mbind at 1, M_bind at 1. cbn [gets].
  pose proof (buildView_same (rq (ps_r s))) as Hb.
  destruct (buildView (rq (ps_r s))) as [view rq'] eqn:Eb. cbn [snd] in Hb.
  unfold mbind at 1, M_bind at 1. cbn [upd].
  assert (Hr : same_line r0 rq') by (eapply same_trans; [exact Hs|exact Hb]).
  match goal with |- let '(_, _) := ?m ?s' in _ => enough (Hm : at_most m) by (apply (Hm s' Hr)) end.
  apply at_most_bind; [apply inspect_quiet|]. intros dec s1 Hd.
  destruct (d_Matched dec) eqn:Em.
  - apply applyAction_at_most; [done|]. unfold inspect in Hd.
    pose proof (fun eng => Inspect_incident eng view key dec) as Hi.
    specialize (Hi {| sigs := p_sigs p; session := Some (ps_tracker s1) |}).
    destruct (Inspect _ _ _) as [dec' eng]. cbn in *. subst dec'. by apply Hi.
  - apply at_most_bind; [apply assess_quiet|]. intros [gdec|] s2 Hg; [|apply passthrough_at_most].
    apply applyAction_at_most; [done|]. unfold assess in Hg.
    destruct (ps_guard s2) as [g|]; [|done]. destruct (Config.pr_Enabled _); [|done].
    pose proof (Assess_incident g (rq {| rq := rq'; rc := rc (ps_r s) |}) (guardOptions (p_cfg p)) (e_now e) gdec) as Hi.
    destruct (Protect.Assess _ _ _ _ _) as [dec' g']. cbn in *. apply Hi. congruence.
Qed.

Lemma admission_at_most reqID key : at_most (admission zstd e p ip reqID key).
Proof.
  unfold admission. apply at_most_bind'; [done|]. intros r.
  apply at_most_bind'; [apply lookup_ip_quiet|]. intros [].
  - destruct (_ =?s _); [|apply inspection_at_most].
    apply at_most_bind'; [apply handle_verify_quiet|]. intros []; [by apply quiet_at_most|apply inspection_at_most].
  - apply at_most_bind'; [apply handle_verify_quiet|]. intros []; [by apply quiet_at_most|].
    destruct (Config.chal_Enabled _); [|apply inspection_at_most].
    apply at_most_bind'; [apply challenge_passed_quiet|]. intros []; [apply inspection_at_most|by apply quiet_at_most].
  - apply quiet_at_most. by apply quiet_bind.
Qed.

Lemma pipeline_at_most reqID : at_most (pipeline zstd e p ip reqID).
Proof.
  intros s Hs. unfold pipeline. unfold mbind at 1, M_bind at 1. cbn [gets].
  match goal with |- let '(_, _) := ?m s in _ => enough (Hm : at_most m) by (apply (Hm s Hs)) end.
  destruct (Config.Whitelisted _ _); [by apply forward_at_most|].
  destruct (Config.Blocklisted _ _); [apply quiet_at_most; by apply quiet_bind|].
  apply at_most_bind'; [apply ensureSession_quiet|]. intros [key []]; [|apply admission_at_most].
  intros s1 Hs1. unfold mbind at 1, M_bind. cbn [upd].
  match goal with |- let '(_, _) := ?m ?s' in _ => enough (Hm : at_most m) by (apply (Hm s' Hs)) end.
  apply admission_at_most.
Qed.

End AtMost.

(** Running [ServeHTTP]: the pipeline, then the recovery. *)
Section Serve.
Context `{Unicode} `{Regexp} `{MapIter} `{Float64} `{LRU RespCache.Entry} `{LRU Protect.bucket}.
Context {R T : Type} `{Store R} `{Tracker T} `{SessionEvaluator T}.
Context (zstd : list (string * RespCache.read_err) -> list (string * RespCache.read_err)).
Context (e : env) (p : Proxy) (sv : server (R := R) (T := T)) (r : Request).

(** The state the pipeline starts in. *)
Definition begun : pstate (R := R) (T := T) := {|
  ps_rep := sv_rep sv; ps_tracker := tk_at (sv_tracker sv) (e_now e); ps_cache := sv_cache sv;
  ps_guard := sv_guard sv;
  ps_w := set_header new_writer "X-Request-Id" (Sid.newRequestID (e_randReq e));
  ps_r := with_reqID {| rq := r; rc := no_ctx |} (Sid.newRequestID (e_randReq e));
  ps_out := []; ps_log := [] |}.

Definition client : string := realClientIP r (p_cfg p).

(** The result of the pipeline, recovered. *)
Definition finish (x : go unit * pstate (R := R) (T := T)) : go unit * pstate (R := R) (T := T) :=
  match x with
  | (Panic pan, s) => on_panic zstd e p client pan s
  | x => x
  end.

Definition collect (x : go unit * pstate (R := R) (T := T)) : served * server (R := R) (T := T) :=
  let '(res, s) := x in
  ({| sd_result := res; sd_writer := ps_w s; sd_out := ps_out s; sd_log := ps_log s |},
   {| sv_rep := ps_rep s; sv_tracker := ps_tracker s; sv_cache := ps_cache s; sv_guard := ps_guard s |}).

Lemma serve_pipeline :
  serve zstd e p sv r =
  collect (finish (pipeline zstd e p client (Sid.newRequestID (e_randReq e)) begun)).
Proof.
  change (serve zstd e p sv r) with
    (collect (recover (pipeline zstd e p client (Sid.newRequestID (e_randReq e))) (on_panic zstd e p client) begun)).
  unfold recover. by destruct (pipeline _ _ _ _ _ begun) as [[] s].
Qed.

Definition service_logged (s : pstate (R := R) (T := T)) : pstate (R := R) (T := T) :=
  add_log (ServiceLog client (r_Path (rq (ps_r s)))) s.

Lemma on_panic_runtime (s : pstate (R := R) (T := T)) :
  on_panic zstd e p client RuntimePanic s =
  (if Config.FailOpen (p_cfg p) then forward zstd e p (ps_r s) client
   else block p (ps_r s) client StatusServiceUnavailable "internal error") (service_logged s).
Proof. cbn [on_panic]. unfold mbind, M_bind. cbn. by destruct (Config.FailOpen (p_cfg p)). Qed.

Lemma finish_at_most (x : go unit * pstate (R := R) (T := T)) (s : pstate (R := R) (T := T)) :
  same_line r (rq (ps_r s)) ->
  (let '(res, s') := x in same_line r (rq (ps_r s')) /\
   (ps_out s' = ps_out s \/
    exists r', same_line r (rq r') /\ ps_out s' = ps_out s ++ [out_of p r' client] /\ res <> Panic RuntimePanic)) ->
  ps_out (finish x).2 = ps_out s \/
  exists r', same_line r (rq r') /\ ps_out (finish x).2 = ps_out s ++ [out_of p r' client].
Proof.
  intros Hs Hx. destruct x as [[[]|[]] s']; destruct Hx as [Hr Hx];
    [cbn [finish]; naive_solver| |cbn; naive_solver].
  destruct Hx as [Ho|(r' & _ & _ & Hn)]; [|done]. cbn [finish]. rewrite on_panic_runtime.
  destruct (Config.FailOpen (p_cfg p)); [|by left].
  pose proof (forward_spec zstd e p (ps_r s') client (service_logged s')) as Hf.
  destruct (forward _ _ _ _ _ _) as [res s2]. destruct Hf as (_ & Ho2 & _). right.
  exists (ps_r s'). split; [done|]. cbn [snd]. rewrite Ho2.
  change (ps_out (service_logged s')) with (ps_out s'). by rewrite Ho.
Qed.

Lemma serve_sends :
  sd_out (serve zstd e p sv r).1 = [] \/
  exists r', same_line r (rq r') /\ sd_out (serve zstd e p sv r).1 = [out_of p r' client].
Proof.
  rewrite serve_pipeline.
  assert (Hs : same_line r (rq (ps_r begun))) by done.
  pose proof (pipeline_at_most zstd e p r client (Sid.newRequestID (e_randReq e)) begun Hs) as Hp.
  pose proof (finish_at_most (pipeline zstd e p client (Sid.newRequestID (e_randReq e)) begun) begun Hs) as Hf.
  destruct (pipeline _ _ _ _ _ _) as [res s']. specialize (Hf Hp).
  destruct (finish (res, s')) as [res' s'']. exact Hf.
Qed.

End Serve.
