(* ===== verification/ProxySpec.v ===== *)
(** * What the pipeline promises

    The theorems about a request from the client's connection to the backend
    and back: who is let through, who is not, what the backend is told, what
    happens when the inspection fails, and what a ban is worth. *)

From S2P Require Export ProxyFacts.

(** ** The outgoing request *)

Lemma Del_other h k j : j <> CanonicalHeaderKey k -> Header.Del h k !! j = h !! j.
Proof. intros. unfold Header.Del. by rewrite lookup_delete_ne. Qed.

Lemma Del_all_lookup ks h k : k ∈ CanonicalHeaderKey <$> ks -> fold_left Header.Del ks h !! k = None.
Proof.
  revert h. induction ks as [|j ks IH]; intros h Hk; [by apply elem_of_nil in Hk|]. cbn [fold_left].
  destruct (decide (k ∈ CanonicalHeaderKey <$> ks)) as [Hin|Hout]; [by apply IH|].
  apply elem_of_cons in Hk as [->|]; [|done]. clear IH.
  assert (Hg : forall h', h' !! CanonicalHeaderKey j = None -> fold_left Header.Del ks h' !! CanonicalHeaderKey j = None).
  { clear h. induction ks as [|i ks IH]; intros h' E; [done|]. cbn [fold_left].
    apply IH; [set_solver|]. rewrite Del_other by set_solver. done. }
  apply Hg. apply lookup_delete_eq.
Qed.

Lemma Set_eq h k v : Header.Set_ h k v !! CanonicalHeaderKey k = Some [v].
Proof. apply lookup_insert_eq. Qed.
Lemma Set_ne h k v j : CanonicalHeaderKey k <> j -> Header.Set_ h k v !! j = h !! j.
Proof. apply lookup_insert_ne. Qed.

Section Outgoing.
Context `{Unicode} `{Regexp}.

(** What the backend is told about the client. *)
Record told (p : Proxy) (r : Request) (ip : string) (o : OutRequest) : Prop := {
  told_real_ip : o_header o !! "X-Real-Ip" = Some [ip];
  told_forwarded_for : o_header o !! "X-Forwarded-For" = Some [ip];
  told_forwarded : o_header o !! "Forwarded" = None;
  told_proto : o_header o !! "X-Forwarded-Proto" = Some [if r_TLS r then "https" else "http"];
  told_line : o_method o = r_Method r /\ o_host o = r_Host r /\ o_uri o = r_RequestURI r;
  told_dial : (o_scheme o, o_dial o) =
    if r_TLS r && Config.be_UseTLS (Config.Backend (p_cfg p))
    then ("https", Config.be_HTTPS (Config.Backend (p_cfg p)))
    else ("http", Config.be_HTTP (Config.Backend (p_cfg p)));
}.

(** The backend's address is set, as [validate] demands. *)
Definition backend_set (p : Proxy) : Prop := Config.be_HTTP (Config.Backend (p_cfg p)) <> "".

Lemma out_of_told p r0 r ip :
  backend_set p -> ip <> "" -> same_line r0 (rq r) -> told p r0 ip (out_of p r ip).
Proof.
  intros Hh Hip (Ehost & Emeth & Euri & Etls & Ehdr).
  apply String.eqb_neq in Hip, Hh.
  unfold out_of, rewrite_, with_forward, chooseBackend. cbn [rq rc c_ip c_backend].
  rewrite Hip, Ehost, Emeth, Euri, Etls. cbn [negb].
  constructor; cbn [o_header o_method o_host o_uri o_scheme o_dial].
  - rewrite Set_ne by discriminate. apply Set_eq.
  - apply Set_eq.
  - do 4 (rewrite Set_ne by discriminate).
    destruct (SplitHostPort _); [rewrite Set_ne by discriminate|]; by apply Del_all_lookup; set_solver.
  - do 2 (rewrite Set_ne by discriminate). apply Set_eq.
  - done.
  - destruct (r_TLS r0 && _) eqn:E; cbn [bt_scheme bt_addr]; rewrite ?Hh; [|done].
    apply andb_true_iff in E as [_ ->]. by destruct (Config.be_HTTPS _ =?s "").
Qed.

End Outgoing.

Section Spec.
Context `{Unicode} `{Regexp} `{MapIter} `{Float64} `{LRU RespCache.Entry} `{LRU Protect.bucket}.
Context {R T : Type} `{Store R} `{Tracker T} `{SessionEvaluator T}.
Context (zstd : list (string * RespCache.read_err) -> list (string * RespCache.read_err)).
Context (e : env) (p : Proxy) (sv : server (R := R) (T := T)) (r : Request).

#[local] Abbreviation pstate := (pstate (R := R) (T := T)).
#[local] Abbreviation M := (M (R := R) (T := T)).
#[local] Abbreviation ip := (client p r).
#[local] Abbreviation reqID := (Sid.newRequestID (e_randReq e)).
#[local] Abbreviation begun := (begun e sv r).

(** ** Responses *)

Definition status (w : writer) : option Z := fst <$> w_sent w.

Lemma write_page_status w code page : w_sent w = None -> status (Challenge.write_page w code page) = Some code.
Proof. intros E. unfold status, Challenge.write_page, Write, WriteHeader. cbn. by rewrite E. Qed.

Lemma serve_blocked_spec q code reason (s : pstate) id : w_sent (ps_w s) = None ->
  exists w, serve_blocked p q id code reason s = (Ret tt, set_w w s) /\ status w = Some code.
Proof. intros E. eexists. split; [reflexivity|]. by apply write_page_status. Qed.

Lemma serve_challenge_spec rr id (s : pstate) : w_sent (ps_w s) = None ->
  exists w, serve_challenge e p rr ip id s = (Ret tt, set_w w s) /\ status w = Some StatusServiceUnavailable.
Proof. intros E. eexists. split; [reflexivity|]. by apply write_page_status. Qed.

(** ** The session identity *)

(** The key [ensureSession] returns. *)
Definition session_key : string :=
  match Cookie r (Config.ss_CookieName (Config.Session (p_cfg p))) with
  | Some v => if v =?s "" then "ip:" +:+ ip
              else match Sid.verifySID (p_secret p) v with Some id => "sid:" +:+ id | None => "ip:" +:+ ip end
  | None => "ip:" +:+ ip
  end.

Lemma ensureSession_spec rr (s : pstate) : rq rr = r ->
  exists set w, ensureSession e p rr ip s = (Ret (session_key, set), set_w w s) /\
    w_sent w = w_sent (ps_w s) /\ w_body w = w_body (ps_w s).
Proof.
  intros Er. unfold ensureSession, session_key. rewrite Er.
  destruct (Cookie r _) as [v|]; [destruct (v =?s ""); cbn [negb]; [|destruct (Sid.verifySID _ _)]|];
    [ | exists false, (ps_w s); by destruct s | | ];
    (destruct (_ && _); [exists true; by eexists|exists false, (ps_w s); by destruct s]).
Qed.

(** ** Admission *)

(** A request that no list names, from a clean address, for the site itself. *)
Record unsuspected : Prop := {
  un_white : Config.Whitelisted (p_cfg p) ip = false;
  un_block : Config.Blocklisted (p_cfg p) ip = false;
  un_clean : (st_Lookup (sv_rep sv) ip (e_now e)).1 = StateClean;
  un_path : r_Path r <> Challenge.VerifyPath;
}.

(** The state before the inspection. *)
Record ready (s : pstate) : Prop := {
  rd_rep : ps_rep s = (st_Lookup (sv_rep sv) ip (e_now e)).2;
  rd_tracker : ps_tracker s = tk_at (sv_tracker sv) (e_now e);
  rd_cache : ps_cache s = sv_cache sv;
  rd_guard : ps_guard s = sv_guard sv;
  rd_out : ps_out s = [];
  rd_log : ps_log s = [];
  rd_rq : rq (ps_r s) = r;
  rd_id : reqIDFrom (ps_r s) = reqID;
  rd_store : c_cacheStore (rc (ps_r s)) = None;
  rd_sent : w_sent (ps_w s) = None;
  rd_body : w_body (ps_w s) = "";
}.

(** What [pipeline] starts its admission with. *)
Lemma pipeline_admits :
  Config.Whitelisted (p_cfg p) ip = false -> Config.Blocklisted (p_cfg p) ip = false ->
  exists w rc', pipeline zstd e p ip reqID begun =
    admission zstd e p ip reqID session_key (set_r {| rq := r; rc := rc' |} (set_w w begun)) /\
    w_sent w = None /\ w_body w = "" /\ c_reqID rc' = Some reqID /\ c_cacheStore rc' = None.
Proof.
  intros Hw Hb. unfold pipeline. unfold mbind at 1, M_bind at 1. cbn [gets]. rewrite Hw, Hb.
  destruct (ensureSession_spec (ps_r begun) begun eq_refl) as (set & w & E & Hs & Hwb).
  unfold mbind at 1, M_bind at 1. rewrite E. destruct set.
  - by eexists w, (rc (with_cookieSet (ps_r begun))).
  - by eexists w, (rc (ps_r begun)).
Qed.

Lemma pipeline_inspects : unsuspected ->
  exists s, pipeline zstd e p ip reqID begun = inspection zstd e p ip session_key s /\ ready s.
Proof.
  intros [Hw Hb Hc Hp]. destruct (pipeline_admits Hw Hb) as (w & rc' & -> & Hs & Hwb & Hid & Hst).
  set (s0 := set_r _ _). unfold admission. unfold mbind at 1, M_bind at 1. cbn [gets].
  unfold mbind at 1, M_bind at 1, lookup_ip.
  change (ps_rep s0) with (sv_rep sv). destruct (st_Lookup (sv_rep sv) ip (e_now e)) as [st rep] eqn:El.
  cbn in Hc. subst st. change (r_Path (rq (ps_r s0))) with (r_Path r).
  apply String.eqb_neq in Hp. rewrite Hp. eexists. split; [reflexivity|].
  constructor; try done; [cbn; by rewrite El|]. unfold reqIDFrom. cbn. by rewrite Hid.
Qed.

(** ** Theorems *)

(** (C1) Whatever happens to a request -- lists, challenge, rules, budgets, cache,
    a crash of the inspection and its recovery, an abort of the connection --
    the backend receives it at most once, and what it receives names the
    client's address, and nothing else, in [X-Real-IP] and [X-Forwarded-For],
    carries no [Forwarded] header of the client's, keeps method, host and
    URI, and goes to the backend of the listener it came in by. *)
Theorem at_most_one_backend_request :
  backend_set p -> ip <> "" ->
  sd_out (serve zstd e p sv r).1 = [] \/
  exists o, sd_out (serve zstd e p sv r).1 = [o] /\ told p r ip o.
Proof.
  intros Hb Hip. destruct (serve_sends zstd e p sv r) as [?|(r' & Hr & ->)]; [by left|right].
  eexists. split; [done|]. by apply out_of_told.
Qed.

Lemma whitelisted_bypasses_lemma :
  Config.Whitelisted (p_cfg p) ip = true ->
  let '(d, sv') := serve zstd e p sv r in
  (exists o, sd_out d = [o] /\ o_body o = r_Body r /\ o_length o = r_ContentLength r) /\
  sv_rep sv' = sv_rep sv /\ sv_tracker sv' = tk_at (sv_tracker sv) (e_now e) /\ sv_guard sv' = sv_guard sv.
Proof.
  intros Hw. rewrite serve_pipeline.
  assert (E : pipeline zstd e p ip reqID begun = forward zstd e p (ps_r begun) ip begun).
  { unfold pipeline. unfold mbind at 1, M_bind at 1. cbn [gets]. by rewrite Hw. }
  rewrite E. pose proof (forward_spec zstd e p (ps_r begun) ip begun) as Hf.
  destruct (forward _ _ _ _ _ _) as [res s]. destruct Hf as (Hk & Ho & Hr). injection Hk as E1 E2 E3 _.
  destruct res as [[]|[]]; [|done|]; cbn; rewrite Ho; (split; [by eexists|done]).
Qed.

(** (C9) A whitelisted client bypasses everything: its request goes to the backend
    with its body as it came, and the reputation, the sessions and the budgets
    are as they were -- unread and unwritten but for the clock. *)
Theorem whitelisted_bypasses :
  Config.Whitelisted (p_cfg p) ip = true ->
  let '(d, sv') := serve zstd e p sv r in
  (exists o, sd_out d = [o] /\ o_body o = r_Body r /\ o_length o = r_ContentLength r) /\
  sv_rep sv' = sv_rep sv /\ sv_tracker sv' = tk_at (sv_tracker sv) (e_now e) /\ sv_guard sv' = sv_guard sv.
Proof. exact whitelisted_bypasses_lemma. Qed.

Lemma refused_lemma :
  Config.Whitelisted (p_cfg p) ip = false ->
  Config.Blocklisted (p_cfg p) ip = true \/ (st_Lookup (sv_rep sv) ip (e_now e)).1 = StateBlocked ->
  let '(d, sv') := serve zstd e p sv r in
  sd_result d = Ret tt /\ sd_out d = [] /\ status (sd_writer d) = Some StatusForbidden /\
  sv_rep sv' = (if Config.Blocklisted (p_cfg p) ip then sv_rep sv else (st_Lookup (sv_rep sv) ip (e_now e)).2) /\
  sv_tracker sv' = tk_at (sv_tracker sv) (e_now e) /\ sv_guard sv' = sv_guard sv /\ sv_cache sv' = sv_cache sv.
Proof.
  intros Hw Hb. rewrite serve_pipeline. destruct (Config.Blocklisted (p_cfg p) ip) eqn:Ebl.
  - unfold pipeline. unfold mbind at 1, M_bind at 1. cbn [gets]. rewrite Hw, Ebl.
    unfold mbind at 1, M_bind at 1. 
    destruct (serve_blocked_spec ip StatusForbidden "your address is blocked" begun reqID eq_refl) as (w & -> & Hs).
    done.
  - destruct Hb as [|Hb]; [done|]. destruct (pipeline_admits Hw Ebl) as (w & rc' & -> & Hs & Hwb & Hid & Hst).
    set (s0 := set_r _ _). unfold admission. unfold mbind at 1, M_bind at 1. cbn [gets].
    unfold mbind at 1, M_bind at 1, lookup_ip. change (ps_rep s0) with (sv_rep sv).
    destruct (st_Lookup (sv_rep sv) ip (e_now e)) as [st rep]. cbn in Hb. subst st.
    unfold mbind at 1, M_bind at 1.
    destruct (serve_blocked_spec ip StatusForbidden "your address is temporarily blocked" (set_rep rep s0) reqID Hs)
      as (w' & -> & Hs'). done.
Qed.

(** (C8) A client on the blocklist, or one the reputation store blocks, is refused
    at the door: it gets a 403, the backend gets nothing, and the sessions, the
    budgets and the cache are not consulted -- a refused request cannot even
    age a budget.  Only the store has seen the lookup. *)
Theorem refused_at_the_door :
  Config.Whitelisted (p_cfg p) ip = false ->
  Config.Blocklisted (p_cfg p) ip = true \/ (st_Lookup (sv_rep sv) ip (e_now e)).1 = StateBlocked ->
  let '(d, sv') := serve zstd e p sv r in
  sd_result d = Ret tt /\ sd_out d = [] /\ status (sd_writer d) = Some StatusForbidden /\
  sv_rep sv' = (if Config.Blocklisted (p_cfg p) ip then sv_rep sv else (st_Lookup (sv_rep sv) ip (e_now e)).2) /\
  sv_tracker sv' = tk_at (sv_tracker sv) (e_now e) /\ sv_guard sv' = sv_guard sv /\ sv_cache sv' = sv_cache sv.
Proof. exact refused_lemma. Qed.

(** ** The verdict of the engine *)

(** The engine's verdict on the request, and the engine it leaves behind. *)
Definition verdict : go Decision * engine (S := T) :=
  Inspect {| sigs := p_sigs p; session := Some (tk_at (sv_tracker sv) (e_now e)) |} (buildView r).1 session_key.

Definition after_verdict : T := default (tk_at (sv_tracker sv) (e_now e)) (session verdict.2).

(** The state after the engine's verdict. *)
Definition judged (s : pstate) : pstate :=
  set_tracker after_verdict (set_r {| rq := (buildView r).2; rc := rc (ps_r s) |} s).

Lemma inspection_verdict s : ready s ->
  inspection zstd e p ip session_key s =
  match verdict.1 with
  | Panic q => (Panic q, judged s)
  | Ret dec =>
      (if d_Matched dec then applyAction zstd e p (ps_r (judged s)) ip session_key dec (buildView r).1
       else
         gdec ← assess e p (ps_r (judged s)) ip;
         match gdec with
         | Some gdec => applyAction zstd e p (ps_r (judged s)) ip session_key gdec (buildView r).1
         | None => passthrough zstd e p ip session_key (buildView r).1
         end) (judged s)
  end.
Proof.
  intros Hs. unfold inspection. unfold mbind at 1, M_bind at 1. cbn [gets].
  rewrite (rd_rq _ Hs). unfold judged, after_verdict, verdict.
  destruct (buildView r) as [view r'] eqn:Ev. cbn [fst snd ps_r set_r set_tracker].
  unfold mbind at 1, M_bind at 1. cbn [upd].
  unfold mbind at 1, M_bind at 1. unfold inspect. cbn [set_r ps_tracker]. rewrite (rd_tracker _ Hs).
  by destruct (Inspect _ _ _) as [[dec|q] eng].
Qed.

(** The action a decision is logged as: any that is not one of the known
    others is a block. *)
Definition enforced_as (act : Action) : string :=
  if act =?s ActionChallenge then "challenge" else if act =?s ActionRateLimit then "rate-limit"
  else if act =?s ActionBan then "ban" else "block".

Definition enforced_status (dec : Decision) : Z :=
  if d_Action dec =?s ActionChallenge then StatusServiceUnavailable
  else if d_Action dec =?s ActionRateLimit then StatusTooManyRequests else d_RespCode dec.

(** A decision that stops the request. *)
Definition stops (dec : Decision) : Prop :=
  d_Action dec <> ActionLogOnly /\
  (d_Action dec = ActionChallenge -> (tk_ChallengePassed after_verdict session_key).1 = false).

Lemma applyAction_stops dec inc (s : pstate) :
  stops dec -> d_Incident dec = Some inc -> w_sent (ps_w s) = None -> ps_tracker s = after_verdict ->
  exists w t, applyAction zstd e p (ps_r s) ip session_key dec (buildView r).1 s =
    (Ret tt, add_log (BlockedLog (reqIDFrom (ps_r s)) ip (r_Method (rq (ps_r s))) (r_Host (rq (ps_r s)))
       (r_Path (rq (ps_r s))) (enforced_status dec) (in_TemplateID inc) (in_Severity inc)
       (enforced_as (d_Action dec)) (in_Reason inc))
     (set_w w (set_rep (if d_Action dec =?s ActionBan
        then (st_Block (ps_rep s) ip (detect_ inc) (e_now e)).2
        else (st_RegisterViolation (ps_rep s) ip (detect_ inc) (e_now e)).2) (set_tracker t s)))) /\
    status w = Some (enforced_status dec).
Proof.
  intros [Hl Hc] Hi Hw Ht. apply String.eqb_neq in Hl. unfold applyAction, enforced_status, enforced_as.
  assert (Ei : incident dec = (mret inc : M _)) by (unfold incident; by rewrite Hi).
  rewrite Hl, Ei. destruct (String.eqb_spec (d_Action dec) ActionChallenge) as [Ea|_].
  - specialize (Hc Ea). unfold mbind at 1, M_bind at 1, challenge_passed. rewrite Ht.
    destruct (tk_ChallengePassed _ _) as [b t]. cbn in Hc. subst b. rewrite Ea.
    eexists _, t. split; [reflexivity|]. by apply write_page_status.
  - assert (Es : set_tracker (ps_tracker s) s = s) by by destruct s.
    destruct (d_Action dec =?s ActionRateLimit) eqn:Er.
    + apply String.eqb_eq in Er. rewrite Er. eexists _, (ps_tracker s). rewrite Es.
      split; [reflexivity|]. by apply write_page_status.
    + destruct (d_Action dec =?s ActionBan); (eexists _, (ps_tracker s); rewrite Es;
        split; [reflexivity|]; by apply write_page_status).
Qed.

(** (C2) An enforced verdict stops the request: when the engine matches a request
    from a clean address with a decision that is neither log-only nor a
    challenge the session has already passed, the backend gets nothing, the
    client gets the status of the decision (503 for a challenge, 429 for a rate
    limit), the store records a ban for a ban and a violation for anything else,
    and exactly one line of the blocked log names rule, action and status. *)
Theorem enforced_verdict_stops dec :
  unsuspected -> verdict.1 = Ret dec -> d_Matched dec = true -> stops dec ->
  exists inc, d_Incident dec = Some inc /\
  let '(d, sv') := serve zstd e p sv r in
  let rep := (st_Lookup (sv_rep sv) ip (e_now e)).2 in
  sd_result d = Ret tt /\ sd_out d = [] /\ status (sd_writer d) = Some (enforced_status dec) /\
  sv_rep sv' = (if d_Action dec =?s ActionBan then (st_Block rep ip (detect_ inc) (e_now e)).2
                else (st_RegisterViolation rep ip (detect_ inc) (e_now e)).2) /\
  sd_log d = [BlockedLog reqID ip (r_Method r) (r_Host r) (r_Path r) (enforced_status dec)
                (in_TemplateID inc) (in_Severity inc) (enforced_as (d_Action dec)) (in_Reason inc)].
Proof.
  intros Hu Hv Hm Hst.
  destruct (Inspect_incident _ _ _ _ Hv Hm) as [inc Hi]. exists inc. split; [done|].
  rewrite serve_pipeline. destruct (pipeline_inspects Hu) as (s & -> & Hs).
  rewrite (inspection_verdict _ Hs), Hv, Hm.
  destruct (applyAction_stops dec inc (judged s) Hst Hi) as (w & t & -> & Hw); [apply Hs|done|].
  pose proof (buildView_same r) as (Eh & Em & _). 
  cbn [finish collect]. cbn. rewrite (rd_out _ Hs), (rd_log _ Hs), (rd_rep _ Hs), Em, Eh.
  split_and!; try done. cbn. f_equal. f_equal.
  - apply Hs.
  - unfold buildView, inspect_body. destruct (r_Body r); [|done]. cbv zeta. by destruct (len _ <? _).
Qed.

(** Forwarding and then recording the page view, as the clean paths end. *)
Lemma forward_record rr key view (s : pstate) :
  let '(res, s') := (_ ← forward zstd e p rr ip; record key view : M unit) s in
  ps_rep s' = ps_rep s /\ ps_guard s' = ps_guard s /\ ps_out s' = ps_out s ++ [out_of p rr ip] /\
  (res = Ret tt /\ ps_tracker s' = tk_Record (ps_tracker s) key view \/
   res = Panic AbortHandler /\ ps_tracker s' = ps_tracker s).
Proof.
  pose proof (forward_spec zstd e p rr ip s) as Hf. unfold mbind, M_bind.
  destruct (forward _ _ _ _ _ _) as [res s1]. destruct Hf as (Hk & Ho & Hr). injection Hk as E1 E2 E3 E4.
  destruct res as [[]|[]]; [|done|].
  - cbn. rewrite E1, E2, E3, Ho. split_and!; auto.
  - rewrite E1, E2, E3, Ho. split_and!; auto.
Qed.

(** No challenge loop: a session that has passed a challenge is not
    challenged again by a challenge rule -- its request goes to the backend and
    nothing is held against its address -- and its page view is recorded unless
    the handler is aborted. *)
Theorem passed_session_not_rechallenged dec :
  unsuspected -> verdict.1 = Ret dec -> d_Matched dec = true -> d_Action dec = ActionChallenge ->
  (tk_ChallengePassed after_verdict session_key).1 = true ->
  let '(d, sv') := serve zstd e p sv r in
  let t := (tk_ChallengePassed after_verdict session_key).2 in
  (exists o, sd_out d = [o]) /\ sv_rep sv' = (st_Lookup (sv_rep sv) ip (e_now e)).2 /\
  (sd_result d = Ret tt /\ sv_tracker sv' = tk_Record t session_key (buildView r).1 \/
   sd_result d = Panic AbortHandler /\ sv_tracker sv' = t).
Proof.
  intros Hu Hv Hm Ha Hp. rewrite serve_pipeline. destruct (pipeline_inspects Hu) as (s & -> & Hs).
  rewrite (inspection_verdict _ Hs), Hv, Hm. unfold applyAction. rewrite Ha.
  cbn [String.eqb Ascii.eqb Bool.eqb ActionChallenge ActionLogOnly].
  unfold mbind at 1, M_bind at 1, challenge_passed. change (ps_tracker (judged s)) with after_verdict.
  destruct (tk_ChallengePassed after_verdict session_key) as [b t]. cbn [fst snd] in *. subst b.
  pose proof (forward_record (ps_r (judged s)) session_key (buildView r).1 (set_tracker t (judged s))) as Hf.
  match type of Hf with let '(_, _) := ?x in _ => destruct x as [res s1] end. destruct Hf as (E1 & E2 & E3 & E4).
  assert (Eo : ps_out s1 = [out_of p (ps_r (judged s)) ip]).
  { rewrite E3. change (ps_out (set_tracker t (judged s))) with (ps_out s). by rewrite (rd_out _ Hs). }
  assert (Er : ps_rep s1 = (st_Lookup (sv_rep sv) ip (e_now e)).2) by (rewrite E1; apply Hs).
  destruct E4 as [[-> Et]|[-> Et]]; cbn; rewrite Eo; (split; [by eexists|split; [done|auto]]).
Qed.

(** What the proactive layer says, and the budgets it leaves. *)
Definition governed : option Decision * option Protect.Guard :=
  match sv_guard sv with
  | Some g =>
      if Config.pr_Enabled (Config.Protection (p_cfg p)) then
        let '(dec, g) := Protect.Assess g (buildView r).2 ip (guardOptions (p_cfg p)) (e_now e) in (dec, Some g)
      else (None, Some g)
  | None => (None, None)
  end.

Lemma assess_governed s : ready s ->
  assess e p (ps_r (judged s)) ip (judged s) = (Ret governed.1, set_guard governed.2 (judged s)).
Proof.
  intros Hs. unfold assess, governed. change (ps_guard (judged s)) with (ps_guard s). rewrite (rd_guard _ Hs).
  destruct (sv_guard sv) as [g|] eqn:Eg.
  - destruct (Config.pr_Enabled _).
    + change (rq (ps_r (judged s))) with (buildView r).2. by destruct (Protect.Assess _ _ _ _ _).
    + cbn. rewrite <- Eg, <- (rd_guard _ Hs). by destruct s.
  - cbn. rewrite <- Eg, <- (rd_guard _ Hs). by destruct s.
Qed.

(** A request that nothing holds against: no rule, no budget. *)
Definition acquitted : Prop :=
  unsuspected /\ (exists dec, verdict.1 = Ret dec /\ d_Matched dec = false) /\ governed.1 = None.

Lemma acquitted_passes : acquitted ->
  exists s, pipeline zstd e p ip reqID begun = passthrough zstd e p ip session_key (buildView r).1
      (set_guard governed.2 (judged s)) /\ ready s.
Proof.
  intros (Hu & (dec & Hv & Hm) & Hg). destruct (pipeline_inspects Hu) as (s & -> & Hs). exists s. split; [|done].
  rewrite (inspection_verdict _ Hs), Hv, Hm. unfold mbind at 1, M_bind at 1. by rewrite (assess_governed _ Hs), Hg.
Qed.

(** What the cache holds for the request. *)
Definition cached : option RespCache.Entry :=
  match sv_cache sv with
  | Some c => if cacheable p {| rq := (buildView r).2; rc := no_ctx |} true
              then (RespCache.Get c (cacheKey (buildView r).2) (e_now e)).1 else None
  | None => None
  end.

Lemma passthrough_eq q key view s :
  passthrough zstd e p q key view s =
  match ps_cache s with
  | Some c =>
      if cacheable p (ps_r s) true then
        match RespCache.Get c (cacheKey (rq (ps_r s))) (e_now e) with
        | (Some en, c) => (_ ← serveCacheHit e (ps_r s) q en; record key view : M unit) (set_cache (Some c) s)
        | (None, c) =>
            let rr := with_cache (ps_r s) (Some (cacheKey (rq (ps_r s)))) "MISS" in
            (_ ← forward zstd e p rr q; record key view : M unit) (set_r rr (set_cache (Some c) s))
        end
      else (_ ← forward zstd e p (ps_r s) q; record key view : M unit) s
  | None => (_ ← forward zstd e p (ps_r s) q; record key view : M unit) s
  end.
Proof.
  unfold passthrough. unfold mbind at 1, M_bind at 1. cbn [gets]. unfold mbind at 1, M_bind at 1. cbn [gets].
  destruct (ps_cache s) as [c|] eqn:Ec.
  - rewrite (bool_decide_eq_true_2 (is_Some (Some c))) by done. destruct (cacheable p (ps_r s) true); [|done].
    unfold mbind at 1, M_bind at 1, cache_get. rewrite Ec. by destruct (RespCache.Get _ _ _) as [[en|] c'].
  - rewrite bool_decide_eq_false_2 by (by intros [? ?]). done.
Qed.

Lemma serveCacheHit_spec rr q en (s : pstate) :
  w_sent (ps_w s) = None -> w_body (ps_w s) = "" -> (r_Method (rq rr) =?s "HEAD") = false ->
  exists w x, serveCacheHit e rr q en s = (Ret tt, add_log x (set_w w s)) /\
    status w = Some (RespCache.e_Status en) /\ w_body w = RespCache.e_Body en.
Proof.
  intros Hs Hb Hm. unfold serveCacheHit. rewrite Hm. eexists _, _. split; [reflexivity|].
  unfold status, Write, WriteHeader. cbn [negb w_sent w_body]. rewrite Hs. cbn. by rewrite Hb.
Qed.

(** A cache hit is served from the cache alone: when nothing is held against
    the request and the cache has a live entry for it, the client gets exactly
    the stored status and body, the backend gets nothing, and the page view
    counts for the session all the same. *)
Theorem cache_hit_skips_backend en :
  acquitted -> cached = Some en ->
  let '(d, sv') := serve zstd e p sv r in
  sd_result d = Ret tt /\ sd_out d = [] /\
  status (sd_writer d) = Some (RespCache.e_Status en) /\ w_body (sd_writer d) = RespCache.e_Body en /\
  sv_rep sv' = (st_Lookup (sv_rep sv) ip (e_now e)).2 /\
  sv_tracker sv' = tk_Record after_verdict session_key (buildView r).1 /\ sv_guard sv' = governed.2.
Proof.
  intros Ha Hc. rewrite serve_pipeline. destruct (acquitted_passes Ha) as (s & -> & Hs).
  rewrite passthrough_eq. cbn [ps_cache ps_r set_guard judged set_tracker set_r]. rewrite (rd_cache _ Hs).
  unfold cached in Hc. destruct (sv_cache sv) as [c|]; [|done].
  change (cacheable p _ true) with (cacheable p {| rq := (buildView r).2; rc := no_ctx |} true) at 1.
  destruct (cacheable p _ true) eqn:Eca; [|done]. cbn [rq].
  destruct (RespCache.Get _ _ _) as [o c']. cbn in Hc. subst o.
  unfold cacheable in Eca. rewrite !andb_true_iff in Eca. destruct Eca as [[[_ Em%String.eqb_eq] _] _].
  assert (Hm : (r_Method (buildView r).2 =?s "HEAD") = false) by (cbn [rq] in Em; by rewrite Em).
  set (s0 := set_cache _ _). unfold mbind, M_bind.
  destruct (serveCacheHit_spec {| rq := (buildView r).2; rc := rc (ps_r s) |} ip en s0 (rd_sent _ Hs) (rd_body _ Hs) Hm) as (w & x & E & Hst & Hb).
  rewrite E. cbn. rewrite (rd_out _ Hs), (rd_rep _ Hs). done.
Qed.

(** A request that nothing is held against and the cache does not have is
    forwarded, and then recorded. *)
Lemma acquitted_forwards : acquitted -> cached = None ->
  exists s rr, pipeline zstd e p ip reqID begun =
      (_ ← forward zstd e p rr ip; record session_key (buildView r).1 : M unit) s /\
    ps_rep s = (st_Lookup (sv_rep sv) ip (e_now e)).2 /\ ps_tracker s = after_verdict /\ ps_guard s = governed.2 /\
    ps_out s = [] /\ w_sent (ps_w s) = None /\ w_body (ps_w s) = "".
Proof.
  intros Ha Hc. destruct (acquitted_passes Ha) as (s & -> & Hs). rewrite passthrough_eq.
  assert (Hst : forall rr c, let s' := set_r rr (set_cache c (set_guard governed.2 (judged s))) in
    ps_rep s' = (st_Lookup (sv_rep sv) ip (e_now e)).2 /\ ps_tracker s' = after_verdict /\ ps_guard s' = governed.2 /\
    ps_out s' = [] /\ w_sent (ps_w s') = None /\ w_body (ps_w s') = "").
  { intros rr c. cbn. rewrite (rd_rep _ Hs), (rd_out _ Hs), (rd_sent _ Hs), (rd_body _ Hs). done. }
  cbn [ps_cache ps_r set_guard judged set_tracker set_r]. rewrite (rd_cache _ Hs).
  unfold cached in Hc. destruct (sv_cache sv) as [c|] eqn:Ec.
  - change (cacheable p _ true) with (cacheable p {| rq := (buildView r).2; rc := no_ctx |} true) at 1.
    destruct (cacheable p _ true).
    + cbn [rq]. destruct (RespCache.Get _ _ _) as [o c']. cbn in Hc. subst o.
      eexists _, _. split; [reflexivity|]. apply (Hst _ (Some c')).
    + eexists _, _. split; [reflexivity|]. specialize (Hst (ps_r (judged s)) (Some c)).
      by rewrite <- Ec, <- (rd_cache _ Hs) in Hst.
  - eexists _, _. split; [reflexivity|]. specialize (Hst (ps_r (judged s)) None).
    by rewrite <- Ec, <- (rd_cache _ Hs) in Hst.
Qed.

Lemma clean_request_lemma :
  acquitted -> cached = None ->
  let '(d, sv') := serve zstd e p sv r in
  (exists o, sd_out d = [o]) /\ sv_rep sv' = (st_Lookup (sv_rep sv) ip (e_now e)).2 /\ sv_guard sv' = governed.2 /\
  (sd_result d = Ret tt /\ sv_tracker sv' = tk_Record after_verdict session_key (buildView r).1 \/
   sd_result d = Panic AbortHandler /\ sv_tracker sv' = after_verdict).
Proof.
  intros Ha Hc. rewrite serve_pipeline. destruct (acquitted_forwards Ha Hc) as (s & rr & -> & Er & Et & Eg & Eo & _).
  pose proof (forward_record rr session_key (buildView r).1 s) as Hf.
  match type of Hf with let '(_, _) := ?x in _ => destruct x as [res s1] end. destruct Hf as (E1 & E2 & E3 & E4). rewrite Eo in E3. rewrite Et in E4.
  destruct E4 as [[-> Ht]|[-> Ht]]; cbn; rewrite E1, E2, E3; (split; [by eexists|split_and!; auto]).
Qed.

(** (C15) A request that nothing is held against and the cache does not have goes to
    the backend, once, and nothing is held against its address.  Its page view
    is recorded for the session in every case but one, the abort of the copy:
    - it is recorded if the client gets the whole response, with its status; if
      the backend cannot be reached, and the client gets a 502; and also if the
      client went away before the backend had answered, and gets nothing;
    - it is not if the body of the response breaks off, or the client goes away
      while the response is copied: the handler is aborted, and the behavioural
      rules never see the request. *)
Theorem clean_request_recorded_unless_aborted :
  acquitted -> cached = None ->
  let '(d, sv') := serve zstd e p sv r in
  let recorded := sd_result d = Ret tt /\ sv_tracker sv' = tk_Record after_verdict session_key (buildView r).1 in
  let aborted := sd_result d = Panic AbortHandler /\ sv_tracker sv' = after_verdict in
  sv_rep sv' = (st_Lookup (sv_rep sv) ip (e_now e)).2 /\ sv_guard sv' = governed.2 /\
  exists o, sd_out d = [o] /\
  match e_backend e o with
  | BackendError true => recorded /\ w_sent (sd_writer d) = None /\ w_body (sd_writer d) = ""
  | BackendError false => recorded /\ status (sd_writer d) = Some StatusBadGateway
  | BackendResponse resp chunks gone =>
      status (sd_writer d) = Some (RespCache.resp_Status resp) /\
      exists stream, (stream = chunks \/ stream = zstd chunks) /\
      match body_of stream with
      | Some ds => if spared gone ds then recorded /\ w_body (sd_writer d) = RespCache.str_concat ds else aborted
      | None => aborted
      end
  end.
Proof.
  intros Ha Hc. rewrite serve_pipeline. destruct (acquitted_forwards Ha Hc) as (s & rr & -> & Er & Et & Eg & Eo & Ew & Eb).
  pose proof (forward_spec zstd e p rr ip s) as Hf. pose proof (forward_answered zstd e p rr ip s Ew) as Hans.
  unfold mbind at 1, M_bind at 1. destruct (forward zstd e p rr ip s) as [res s1]. destruct Hf as (Hk & Ho & Hnr).
  injection Hk as E1 E2 E3 _. rewrite Eo in Ho. cbn [app] in Ho. rewrite Er in E1. rewrite Et in E2. rewrite Eg in E3.
  unfold answered_ in Hans. rewrite Eb in Hans.
  destruct res as [[]|[]]; [|done|]; cbn -[body_of]; rewrite E1, E2, E3, Ho; (split; [done|]); (split; [done|]);
    (eexists; split; [done|]); destruct (e_backend e (out_of p rr ip)) as [[]|resp chunks gone]; try by destruct Hans.
  1: by destruct Hans as [_ ->].
  all: destruct Hans as [Hst (stream & Hor & Hb)]; split; [exact Hst|]; exists stream; split; [exact Hor|];
    destruct (body_of stream) as [ds|]; [|done]; destruct (spared gone ds); [|done]; by destruct Hb as [Hb1 Hb2].
Qed.

(** (C10) When the inspection crashes (a rule's evaluation hits a run-time panic),
    the request fails open or closed as configured: it goes to the backend
    once, or the client gets a 503 and the backend nothing; either way the
    crash is in the service log and no violation is recorded. *)
Theorem inspection_crash_fails_open_or_closed :
  unsuspected -> verdict.1 = Panic RuntimePanic ->
  let '(d, sv') := serve zstd e p sv r in
  (if Config.FailOpen (p_cfg p) then exists o, sd_out d = [o]
   else sd_out d = [] /\ status (sd_writer d) = Some StatusServiceUnavailable) /\
  (exists l, sd_log d = ServiceLog ip (r_Path r) :: l) /\
  sv_rep sv' = (st_Lookup (sv_rep sv) ip (e_now e)).2 /\ sv_tracker sv' = after_verdict.
Proof.
  intros Hu Hv. rewrite serve_pipeline. destruct (pipeline_inspects Hu) as (s & -> & Hs).
  rewrite (inspection_verdict _ Hs), Hv. cbn [finish]. rewrite on_panic_runtime.
  assert (Ep : r_Path (buildView r).2 = r_Path r).
  { unfold buildView, inspect_body. destruct (r_Body r); [|done]. cbv zeta. by destruct (len _ <? _). }
  assert (El : ps_log (service_logged p r (judged s)) = [ServiceLog ip (r_Path r)]).
  { cbn. by rewrite (rd_log _ Hs), Ep. }
  destruct (Config.FailOpen (p_cfg p)).
  - pose proof (forward_logs zstd e p (ps_r (judged s)) ip (service_logged p r (judged s))) as [l Hl].
    pose proof (forward_spec zstd e p (ps_r (judged s)) ip (service_logged p r (judged s))) as Hf.
    destruct (forward _ _ _ _ _ _) as [res s1]. destruct Hf as (Hk & Ho & Hr). injection Hk as E1 E2 E3 _.
    cbn [snd] in Hl. rewrite El in Hl. cbn in *. rewrite Ho, Hl, E1, E2, (rd_out _ Hs), (rd_rep _ Hs).
    split_and!; try done; by eexists.
  - cbn [collect block].
    destruct (serve_blocked_spec ip StatusServiceUnavailable "internal error" (service_logged p r (judged s))
      (reqIDFrom (ps_r (judged s))) (rd_sent _ Hs)) as (w & E & Hst).
    unfold block. rewrite E. cbn in *. rewrite El, (rd_out _ Hs), (rd_rep _ Hs). split_and!; try done. by exists [].
Qed.

(** A log-only verdict only observes: the request goes to the backend, nothing
    is held against the address, and the last line of the log reports what
    would have been enforced with the status actually served.  It also ends the
    inspection: the budgets are not charged, the cache is not used and the page
    view is not recorded. *)
Theorem log_only_observes dec :
  unsuspected -> verdict.1 = Ret dec -> d_Matched dec = true -> d_Action dec = ActionLogOnly ->
  exists inc, d_Incident dec = Some inc /\
  let '(d, sv') := serve zstd e p sv r in
  (exists o, sd_out d = [o]) /\ sv_rep sv' = (st_Lookup (sv_rep sv) ip (e_now e)).2 /\
  sv_tracker sv' = after_verdict /\ sv_guard sv' = sv_guard sv /\
  (sd_result d = Panic AbortHandler \/
   sd_result d = Ret tt /\ exists l, sd_log d = l ++ [BlockedLog reqID ip (r_Method r) (r_Host r) (r_Path r)
     (statusInfo (sd_writer d)).1 (in_TemplateID inc) (in_Severity inc) "log-only" (in_Reason inc)]).
Proof.
  intros Hu Hv Hm Ha. destruct (Inspect_incident _ _ _ _ Hv Hm) as [inc Hi]. exists inc. split; [done|].
  rewrite serve_pipeline. destruct (pipeline_inspects Hu) as (s & -> & Hs).
  rewrite (inspection_verdict _ Hs), Hv, Hm. unfold applyAction. rewrite Ha.
  cbn [String.eqb Ascii.eqb Bool.eqb ActionLogOnly]. unfold incident. rewrite Hi.
  pose proof (forward_spec zstd e p (ps_r (judged s)) ip (judged s)) as Hf.
  unfold mbind at 1, M_bind at 1.
  destruct (forward _ _ _ _ _ _) as [res s1]. destruct Hf as (Hk & Ho & Hr). injection Hk as E1 E2 E3 E4.
  cbn in E1, E2, E3, Ho. rewrite (rd_out _ Hs) in Ho. rewrite (rd_rep _ Hs) in E1. rewrite (rd_guard _ Hs) in E3.
  pose proof (buildView_same r) as (Eh & Em & _).
  assert (Ep : r_Path (buildView r).2 = r_Path r).
  { unfold buildView, inspect_body. destruct (r_Body r); [|done]. cbv zeta. by destruct (len _ <? _). }
  destruct res as [[]|[]]; [|done|].
  - cbn. unfold mbind, M_bind. cbn. destruct (statusInfo (ps_w s1)) as [st n] eqn:Est. cbn.
    rewrite Ho. split_and!; try done; [by eexists|]. right. split; [done|]. exists (ps_log s1).
    unfold reqIDFrom. cbn. rewrite Eh, Em, Ep. do 2 f_equal. rewrite <- (rd_id _ Hs). done.
  - cbn. rewrite Ho. split_and!; try done; [by eexists|]. by left.
Qed.

(** ** The challenge *)

(** (C11) A greylisted client is challenged before anything else: on every path but
    the verification endpoint, with challenges enabled and no passed challenge
    in its session, it gets the challenge page with a 503 and neither the
    engine nor the backend sees the request. *)
Theorem greylisted_needs_challenge :
  Config.Whitelisted (p_cfg p) ip = false -> Config.Blocklisted (p_cfg p) ip = false ->
  (st_Lookup (sv_rep sv) ip (e_now e)).1 = StateGreylisted -> r_Path r <> Challenge.VerifyPath ->
  Config.chal_Enabled (Config.Challenge (p_cfg p)) = true ->
  let '(passed, t) := tk_ChallengePassed (tk_at (sv_tracker sv) (e_now e)) session_key in
  passed = false ->
  let '(d, sv') := serve zstd e p sv r in
  sd_result d = Ret tt /\ sd_out d = [] /\ status (sd_writer d) = Some StatusServiceUnavailable /\
  sv_rep sv' = (st_Lookup (sv_rep sv) ip (e_now e)).2 /\ sv_tracker sv' = t /\ sv_guard sv' = sv_guard sv.
Proof.
  intros Hw Hb Hc Hp He.
  destruct (tk_ChallengePassed (tk_at (sv_tracker sv) (e_now e)) session_key) as [passed t] eqn:Et. intros ->.
  rewrite serve_pipeline. destruct (pipeline_admits Hw Hb) as (w & rc' & -> & Hs & Hwb & Hid & Hst).
  set (s0 := set_r _ _). unfold admission. unfold mbind at 1, M_bind at 1. cbn [gets].
  unfold mbind at 1, M_bind at 1, lookup_ip. change (ps_rep s0) with (sv_rep sv).
  destruct (st_Lookup (sv_rep sv) ip (e_now e)) as [st rep]. cbn in Hc. subst st.
  assert (Hv : handle_verify e p (ps_r s0) ip reqID session_key (set_rep rep s0) = (Ret false, set_rep rep s0)).
  { unfold handle_verify, Challenge.HandleVerify. change (r_Path (rq (ps_r s0))) with (r_Path r).
    apply String.eqb_neq in Hp. by rewrite Hp. }
  unfold mbind at 1, M_bind at 1. rewrite Hv, He. unfold mbind at 1, M_bind at 1, challenge_passed.
  change (ps_tracker (set_rep rep s0)) with (tk_at (sv_tracker sv) (e_now e)). rewrite Et. cbn [negb].
  destruct (serve_challenge_spec (ps_r s0) reqID (set_tracker t (set_rep rep s0)) Hs) as (w' & -> & Hs'). done.
Qed.

Lemma Redirect_status w url : w_sent w = None -> status (Challenge.Redirect w r url StatusFound) = Some StatusFound.
Proof.
  intros E. unfold status, Challenge.Redirect, Write, WriteHeader.
  destruct (negb _ && (_ || _)), (negb _ && _); cbn; rewrite E; done.
Qed.

Lemma session_key_nonempty : session_key <> "".
Proof. unfold session_key. repeat case_match; done. Qed.

(** A request to the verification endpoint with an unexpired token and a nonce
    that solves it. *)
Record solved : Prop := {
  so_path : r_Path r = Challenge.VerifyPath;
  so_token : exists bits, Challenge.validateToken (p_challenge p) (FormValue r "token") (e_now e) = Some bits /\
    Challenge.verifyPoW (FormValue r "token") (FormValue r "nonce") bits = true;
}.

Lemma handle_verify_solved rr (s : pstate) :
  solved -> rq rr = r -> w_sent (ps_w s) = None -> Challenge.cleaner (p_challenge p) = true ->
  exists w, handle_verify e p rr ip reqID session_key s =
    (Ret true, set_w w (set_tracker (tk_MarkChallengePassed (ps_tracker s) session_key)
       (set_rep (st_MarkClean (ps_rep s) ip "challenge passed" (e_now e)).2 s))) /\
    status w = Some StatusFound.
Proof.
  intros [Hp (bits & Ht & Hn)] Hr Hw Hc. unfold handle_verify, Challenge.HandleVerify.
  rewrite Hr, Hp, Ht, Hn, Hc. cbn [String.eqb Ascii.eqb Bool.eqb negb Challenge.VerifyPath].
  pose proof session_key_nonempty as Hk. apply String.eqb_neq in Hk. rewrite Hk.
  eexists. split; [reflexivity|]. by apply Redirect_status.
Qed.

Lemma solved_lemma `{!TrackerLaws T} :
  Config.Whitelisted (p_cfg p) ip = false -> Config.Blocklisted (p_cfg p) ip = false ->
  (st_Lookup (sv_rep sv) ip (e_now e)).1 <> StateBlocked ->
  solved -> Challenge.cleaner (p_challenge p) = true -> tk_ok (tk_at (sv_tracker sv) (e_now e)) ->
  let '(d, sv') := serve zstd e p sv r in
  sd_result d = Ret tt /\ sd_out d = [] /\ status (sd_writer d) = Some StatusFound /\
  sv_rep sv' = (st_MarkClean (st_Lookup (sv_rep sv) ip (e_now e)).2 ip "challenge passed" (e_now e)).2 /\
  tk_passed (sv_tracker sv') session_key.
Proof.
  intros Hw Hb Hc Hso Hcl Hok. rewrite serve_pipeline.
  destruct (pipeline_admits Hw Hb) as (w & rc' & -> & Hs & Hwb & Hid & Hst).
  set (s0 := set_r _ _). unfold admission. unfold mbind at 1, M_bind at 1. cbn [gets].
  unfold mbind at 1, M_bind at 1, lookup_ip. change (ps_rep s0) with (sv_rep sv).
  destruct (st_Lookup (sv_rep sv) ip (e_now e)) as [st rep]. cbn in Hc.
  destruct (handle_verify_solved (ps_r s0) (set_rep rep s0) Hso eq_refl Hs Hcl) as (w' & E & Hw').
  assert (Hpass : tk_passed (tk_MarkChallengePassed (tk_at (sv_tracker sv) (e_now e)) session_key) session_key)
    by (apply tk_Mark_passes; [done|apply session_key_nonempty]).
  destruct st; [|unfold mbind, M_bind; by rewrite E|done].
  change (r_Path (rq (ps_r s0))) with (r_Path r). rewrite (so_path Hso), String.eqb_refl.
  unfold mbind, M_bind. by rewrite E.
Qed.

(** (C12) A solved challenge is remembered: a client that is not blocked and presents
    an unexpired token with a nonce that solves it is redirected, its address
    is marked clean, and its session -- the same one its next request is keyed
    on -- counts as having passed right away. *)
Theorem solved_challenge_is_remembered `{!TrackerLaws T} :
  Config.Whitelisted (p_cfg p) ip = false -> Config.Blocklisted (p_cfg p) ip = false ->
  (st_Lookup (sv_rep sv) ip (e_now e)).1 <> StateBlocked ->
  solved -> Challenge.cleaner (p_challenge p) = true -> tk_ok (tk_at (sv_tracker sv) (e_now e)) ->
  let '(d, sv') := serve zstd e p sv r in
  sd_result d = Ret tt /\ sd_out d = [] /\ status (sd_writer d) = Some StatusFound /\
  sv_rep sv' = (st_MarkClean (st_Lookup (sv_rep sv) ip (e_now e)).2 ip "challenge passed" (e_now e)).2 /\
  tk_passed (sv_tracker sv') session_key.
Proof. exact solved_lemma. Qed.

End Spec.

(** ** Bans *)

Section Bans.
Context `{Unicode} `{Regexp} `{MapIter} `{Float64} `{LRU RespCache.Entry} `{LRU Protect.bucket}.
Context {R T : Type} `{StoreBans R} `{Tracker T} `{SessionEvaluator T}.
Context (zstd : list (string * RespCache.read_err) -> list (string * RespCache.read_err)).

#[local] Abbreviation M := (M (R := R) (T := T)).

(** A property of the store that a handler preserves. *)
Definition rep_inv (J : R -> Prop) {A} (m : M A) : Prop := forall s, J (ps_rep s) -> J (ps_rep (m s).2).

Lemma rep_keeps J {A} (m : M A) : keeps ps_rep m -> rep_inv J m.
Proof. intros Hk s. by rewrite Hk. Qed.

Lemma rep_bind J {A B} (m : M A) (k : A -> M B) :
  rep_inv J m -> (forall a, rep_inv J (k a)) -> rep_inv J (m ≫= k).
Proof.
  intros Hm Hk s Hs. specialize (Hm s Hs). unfold mbind, M_bind.
  destruct (m s) as [[a|q] s1]; [by apply Hk|done].
Qed.

Ltac rdone := first [done | by apply rep_keeps].

Section OneRequest.
Context (e : env) (p : Proxy) (ip : string) (J : R -> Prop).
Context (J_Lookup : forall x, J x -> J (st_Lookup x ip (e_now e)).2).
Context (J_Violation : forall x reason, J x -> J (st_RegisterViolation x ip reason (e_now e)).2).
Context (J_Clean : forall x reason, J x -> J (st_MarkClean x ip reason (e_now e)).2).
Context (J_Block : forall x reason, J x -> J (st_Block x ip reason (e_now e)).2).

#[local] Abbreviation inv := (rep_inv J).

Lemma forward_rep r : inv (forward zstd e p r ip).
Proof.
  intros s Hs. pose proof (forward_spec zstd e p r ip s) as Hf.
  destruct (forward _ _ _ _ _ _) as [res s']. destruct Hf as [Hk _]. injection Hk as Ek _ _ _. cbn. by rewrite Ek.
Qed.

Lemma lookup_rep : inv (lookup_ip e ip).
Proof.
  intros s Hs. unfold lookup_ip. specialize (J_Lookup _ Hs). by destruct (st_Lookup _ _ _).
Qed.

Lemma challenge_passed_rep key : inv (challenge_passed key).
Proof. apply rep_keeps. intros s. unfold challenge_passed. by destruct (tk_ChallengePassed _ _). Qed.

Lemma incident_rep dec : inv (incident dec).
Proof. apply rep_keeps. intros s. unfold incident. by destruct (d_Incident dec). Qed.

Lemma handle_verify_rep r reqID key : inv (handle_verify e p r ip reqID key).
Proof.
  assert (Hc : forall l, Forall (fun c => match c with Challenge.MarkIPClean j _ => j = ip | _ => True end) l ->
    inv (cleans e l)).
  { induction 1 as [|[j reason|k] l Hj _ IH]; [rdone| |]; (apply rep_bind; [|intros _; exact IH]); [|rdone].
    subst j. intros s Hs. by apply J_Clean. }
  assert (Hl : forall w now, Forall (fun c => match c with Challenge.MarkIPClean j _ => j = ip | _ => True end)
    (Challenge.HandleVerify (p_challenge p) w (rq r) ip reqID key now).1.2).
  { intros w now. unfold Challenge.HandleVerify. repeat case_match; cbn; repeat constructor. }
  intros s. specialize (Hl (ps_w s) (e_now e)). unfold handle_verify.
  destruct (Challenge.HandleVerify _ _ _ _ _ _ _) as [[h calls] w]. cbn in Hl.
  apply (rep_bind J (cleans e calls)); [by apply Hc|]. intros _. by apply rep_keeps.
Qed.

Lemma applyAction_rep r key dec view : inv (applyAction zstd e p r ip key dec view).
Proof.
  assert (Hv : forall reason, inv (register_violation e ip reason)) by (intros reason s Hs; by apply J_Violation).
  assert (Hb : forall reason, inv (block_ip e ip reason)) by (intros reason s Hs; by apply J_Block).
  unfold applyAction. repeat case_match;
    repeat (apply rep_bind; [first [apply forward_rep|apply challenge_passed_rep|apply incident_rep|rdone|
      by apply rep_keeps]|intros ?]); repeat case_match; try rdone;
    repeat (apply rep_bind; [first [apply forward_rep|apply incident_rep|rdone|by apply rep_keeps]|intros ?]);
    by apply rep_keeps.
Qed.

Lemma passthrough_rep key view : inv (passthrough zstd e p ip key view).
Proof.
  assert (Hf : forall rr, inv (_ ← forward zstd e p rr ip; record key view : M unit)).
  { intros rr. apply rep_bind; [apply forward_rep|]. intros _. by apply rep_keeps. }
  intros s Hs. rewrite passthrough_eq.
  destruct (ps_cache s); [destruct (cacheable _ _ _); [destruct (RespCache.Get _ _ _) as [[en|] c']|]|];
    try (by apply Hf). rdone.
Qed.

Lemma inspection_rep key : inv (inspection zstd e p ip key).
Proof.
  unfold inspection. apply rep_bind; [rdone|]. intros r. destruct (buildView (rq r)) as [view rq'].
  apply rep_bind; [by apply rep_keeps|]. intros _. apply rep_bind.
  { apply rep_keeps. intros s. unfold inspect. by destruct (Inspect _ _ _). }
  intros dec. destruct (d_Matched dec); [apply applyAction_rep|]. apply rep_bind.
  { apply rep_keeps. intros s. unfold assess. destruct (ps_guard s); [|rdone].
    destruct (Config.pr_Enabled _); [|rdone]. by destruct (Protect.Assess _ _ _ _ _). }
  intros []; [apply applyAction_rep|apply passthrough_rep].
Qed.

Lemma admission_rep reqID key : inv (admission zstd e p ip reqID key).
Proof.
  unfold admission. apply rep_bind; [rdone|]. intros r. apply rep_bind; [apply lookup_rep|]. intros [].
  - destruct (_ =?s _); [|apply inspection_rep].
    apply rep_bind; [apply handle_verify_rep|]. intros []; [rdone|apply inspection_rep].
  - apply rep_bind; [apply handle_verify_rep|]. intros []; [rdone|].
    destruct (Config.chal_Enabled _); [|apply inspection_rep].
    apply rep_bind; [apply challenge_passed_rep|]. intros []; [apply inspection_rep|rdone].
  - apply rep_bind; [rdone|]. intros _. rdone.
Qed.

Lemma pipeline_rep reqID : inv (pipeline zstd e p ip reqID).
Proof.
  unfold pipeline. apply rep_bind; [rdone|]. intros r. destruct (Config.Whitelisted _ _); [apply forward_rep|].
  destruct (Config.Blocklisted _ _); [apply rep_bind; [rdone|intros _; rdone]|].
  apply rep_bind.
  { apply rep_keeps. intros s. unfold ensureSession. by repeat case_match. }
  intros [key []]; (apply rep_bind; [rdone|intros _; apply admission_rep]).
Qed.

Lemma serve_rep (sv : server (R := R) (T := T)) r :
  client p r = ip -> J (sv_rep sv) -> J (sv_rep (serve zstd e p sv r).2).
Proof.
  intros Ec Hs. rewrite serve_pipeline, Ec.
  pose proof (pipeline_rep (Sid.newRequestID (e_randReq e)) (begun e sv r) Hs) as Hp.
  destruct (pipeline _ _ _ _ _ _) as [[[]|q] s]; [rdone|]. cbn [finish snd] in *. rewrite Ec.
  destruct q; [|rdone]. cbn [on_panic].
  match goal with |- J (sv_rep (collect (?m s)).2) => assert (Hm : inv m) end.
  { apply rep_bind; [rdone|]. intros rr. apply rep_bind; [by apply rep_keeps|]. intros _.
    destruct (Config.FailOpen _); [apply forward_rep|by apply rep_keeps]. }
  specialize (Hm s Hp). by match goal with |- J (sv_rep (collect ?x).2) => destruct x end.
Qed.

End OneRequest.

(** One request while [q] is banned. *)
Lemma serve_banned e p (sv : server (R := R) (T := T)) r q u :
  st_banned (sv_rep sv) q u -> e_now e <= u ->
  let '(d, sv') := serve zstd e p sv r in
  st_banned (sv_rep sv') q u /\
  (client p r = q -> Config.Whitelisted (p_cfg p) q = false ->
   sd_out d = [] /\ status (sd_writer d) = Some StatusForbidden).
Proof.
  intros Hb Hn. destruct (decide (client p r = q)) as [Eq|Hne].
  - destruct (Config.Whitelisted (p_cfg p) q) eqn:Ew.
    + pose proof (whitelisted_bypasses_lemma zstd e p sv r) as Hw. rewrite Eq in Hw. specialize (Hw Ew).
      destruct (serve _ _ _ _ _) as [d sv']. destruct Hw as (_ & -> & _). done.
    + pose proof (refused_lemma zstd e p sv r) as Hr. rewrite Eq in Hr.
      specialize (Hr Ew (or_intror (st_banned_lookup _ _ _ _ Hb Hn))).
      destruct (serve _ _ _ _ _) as [d sv']. destruct Hr as (_ & Ho & Hs & Hrep & _). split; [|done].
      rewrite Hrep. destruct (Config.Blocklisted _ _); [done|]. by apply st_banned_Lookup.
  - pose proof (serve_rep e p (client p r) (fun x => st_banned x q u)) as Hr.
    specialize (Hr (fun x Hx => st_banned_Lookup x q u _ _ Hx Hn)
      (fun x reason Hx => st_banned_RegisterViolation x q u _ reason _ Hx Hn)
      (fun x reason Hx => proj1 (st_banned_other x q u _ reason (e_now e) Hx Hne))
      (fun x reason Hx => proj2 (st_banned_other x q u _ reason (e_now e) Hx Hne)) sv r eq_refl Hb).
    by destruct (serve _ _ _ _ _) as [d sv'].
Qed.

(** Requests one after the other, while [q] is banned up to [u]. *)
Lemma serves_banned p q u rs : forall sv : server (R := R) (T := T),
  st_banned (sv_rep sv) q u -> Forall (fun er => e_now er.1 <= u) rs ->
  Config.Whitelisted (p_cfg p) q = false ->
  Forall2 (fun er d => client p er.2 = q -> sd_out d = [] /\ status (sd_writer d) = Some StatusForbidden)
    rs (serves zstd p sv rs).1.
Proof.
  induction rs as [|[e r] rs IH]; intros sv Hb Hn Hw; [constructor|]. apply Forall_cons in Hn as [Hle Hn].
  cbn [serves]. pose proof (serve_banned e p sv r q u Hb Hle) as Hs.
  destruct (serve _ _ _ _ _) as [d sv']. destruct Hs as [Hb' Hd]. specialize (IH sv' Hb' Hn Hw).
  destruct (serves _ _ _ _) as [ds sv'']. constructor; [|exact IH]. cbn. auto.
Qed.

End Bans.

Section BanTerm.
Context `{Unicode} `{Regexp} `{MapIter} `{Float64} `{LRU RespCache.Entry} `{LRU Protect.bucket}.
Context {R T : Type} `{StoreLaws R} `{Tracker T} `{SessionEvaluator T}.
Context (zstd : list (string * RespCache.read_err) -> list (string * RespCache.read_err)).

(** (C3) A ban holds: once a client has been banned, then through any sequence of
    requests -- the client's own and everybody else's, solved challenges, rules,
    crashes -- up to the end of the ban's term, no request of the client's
    reaches the backend and every one is answered with 403, unless the operator
    has whitelisted it. *)
Theorem banned_client_stays_out p (sv : server (R := R) (T := T)) rep q reason t0 rs :
  sv_rep sv = (st_Block rep q reason t0).2 ->
  Forall (fun er => e_now er.1 <= t0 + st_ttl rep) rs ->
  Config.Whitelisted (p_cfg p) q = false ->
  Forall2 (fun er d => client p er.2 = q -> sd_out d = [] /\ status (sd_writer d) = Some StatusForbidden)
    rs (serves zstd p sv rs).1.
Proof.
  intros Es. apply serves_banned. rewrite Es. apply st_Block_bans.
Qed.

End BanTerm.
