(* ===== verification/Visit.v ===== *)
(** * One request as a run of the floor

    The request pipeline of [Forward.v] and the interleavings of [Burst.v] meet
    here: what [serve] does to the tracker for a request that nothing is held
    against is a run of the floor with that request alone. *)

From S2P Require Export ProxySpec Burst.

Section Visit.
Context `{Unicode} `{Regexp} `{MapIter} `{Float64} `{LRU RespCache.Entry} `{LRU Protect.bucket} `{LRULaws Session.record}.
Context {R : Type} `{Store R}.
Context (zstd : list (string * RespCache.read_err) -> list (string * RespCache.read_err)).
Context (e : env) (p : Proxy) (sv : server (R := R) (T := clocked)) (r : Request).

#[local] Abbreviation key := (session_key p r).
#[local] Abbreviation view := (buildView r).1.

(** The moves of a request by itself; [delivered]: its response reached the client. *)
Definition visit_moves (delivered : bool) : list move :=
  [Arrive view; Inspected 0 (e_now e); if delivered then Delivered 0 (e_now e) else HungUp 0].

Lemma Inspect_clock rules t now v k :
  match session (Inspect {| sigs := rules; session := Some (Clocked t now) |} v k).2 with
  | Some t' => ct_now t' = now
  | None => False
  end.
Proof.
  unfold Inspect. cbn [sigs session].
  destruct (inspect_loop_keeps k (fun s => ct_now s = now) v rules) with (st := Clocked t now) (best := @None CompiledSignature) (r := 0)
    as (st' & E & Hst); [|done|].
  - intros st sm <-. unfold se_Evaluate, clocked_evaluator. by destruct (Evaluate _ _ _ _ _ _).
  - destruct (inspect_loop rules v k (Some (Clocked t now)) None 0) as [[b|q] s']; cbn in *; by subst s'.
Qed.

(** (C22) A request that nothing is held against and the cache does not have is a
    visit of the floor: the pipeline inspects it, forwards it and records it, or
    not if the client hangs up, and leaves the tracker as the moves of that
    visit do. *)
Theorem request_is_a_visit :
  acquitted e p sv r -> cached e p sv r = None ->
  let '(d, sv') := serve zstd e p sv r in
  exists delivered f, leads (p_sigs p) key (opened (ct_tracker (sv_tracker sv))) (visit_moves delivered) f /\
    fl_tracker f = ct_tracker (sv_tracker sv') /\ fl_clean f = 1%nat /\
    (sd_result d = Ret tt <-> delivered = true) /\ fl_delivered f = (if delivered then 1 else 0)%nat.
Proof.
  intros Ha Hc. pose proof (clean_request_lemma zstd e p sv r Ha Hc) as Hs.
  destruct (serve zstd e p sv r) as [d sv']. destruct Hs as (_ & _ & _ & Hs).
  destruct Ha as (_ & (dec & Hv & Hm) & _). unfold after_verdict in Hs. unfold verdict in Hv, Hs.
  change (tk_at (sv_tracker sv) (e_now e)) with (Clocked (ct_tracker (sv_tracker sv)) (e_now e)) in Hv, Hs.
  pose proof (Inspect_clock (p_sigs p) (ct_tracker (sv_tracker sv)) (e_now e) view key) as Hn.
  set (x := Inspect _ view key) in *. destruct x as [res eng] eqn:Ex. subst x. cbn [fst snd] in Hv, Hs, Hn. subst res.
  destruct (session eng) as [[t' n']|] eqn:Es; [|done]. cbn in Hn. subst n'. cbn [default from_option id] in Hs.
  exists (bool_decide (sd_result d = Ret tt)). destruct Hs as [[Hr Ht]|[Hr Ht]]; rewrite Hr, Ht.
  - rewrite bool_decide_eq_true_2 by done. eexists. split; [|split; [|split; [|split; [done|]]]].
    + eapply leads_cons; [reflexivity|]. eapply leads_cons; [cbn; rewrite Ex, Es, Hm; reflexivity|].
      eapply leads_cons; [reflexivity|]. apply leads_nil.
    + reflexivity.
    + reflexivity.
    + reflexivity.
  - rewrite bool_decide_eq_false_2 by done. eexists. split; [|split; [|split; [|split; [done|]]]].
    + eapply leads_cons; [reflexivity|]. eapply leads_cons; [cbn; rewrite Ex, Es, Hm; reflexivity|].
      eapply leads_cons; [reflexivity|]. apply leads_nil.
    + reflexivity.
    + reflexivity.
    + reflexivity.
Qed.

End Visit.
