(* ===== verification/ProxyExamples.v ===== *)
(** * Witnesses: a small shop behind the proxy

    The pipeline with every collaborator instantiated by the model of its own
    code -- the reputation manager over an in-memory database, the session
    tracker, the LRU list, the path matcher -- on concrete requests.  Each
    witness applies a theorem of [ProxySpec] or [View] and evaluates its
    hypotheses. *)

From S2P Require Import ProxySpec.

#[local] Existing Instance ascii_only.
#[local] Existing Instance PathRegexp.regexp.
#[local] Existing Instance ListLru.list_lru.
#[local] Existing Instance ListLru.list_lru_laws.
#[local] Existing Instance Rationals.rationals.
#[local] Existing Instance ReputationExamples.MemBolt.
#[local] Existing Instance ReputationExamples.BitsJSON.
#[local] Instance listed : MapIter := map_to_list.

Definition t0 : time := 63838540800 * Second.

Definition listen (wl bl : list string) (fail_open : bool) : Config.Config :=
  let c := Config.set_compiled Config.Default (Config.parsePrefixes "whitelist" wl).1
             (Config.parsePrefixes "blocklist" bl).1 [] [] {[ ".png" ]} in
  {| Config.Listen := Config.Listen c; Config.Backend := Config.Backend c; Config.Firewall := Config.Firewall c;
     Config.TLS := Config.TLS c; Config.Templates := Config.Templates c; Config.Reputation := Config.Reputation c;
     Config.Challenge := Config.Challenge c; Config.Session := Config.Session c;
     Config.Compression := Config.Compression c; Config.Protection := Config.Protection c;
     Config.CacheC := {| Config.ca_Enabled := true; Config.ca_TTL := Hour; Config.ca_Extensions := [".png"];
       Config.ca_MaxObjectSize := 1000; Config.ca_MaxEntries := 4 |};
     Config.Whitelist := Config.Whitelist c; Config.Blocklist := Config.Blocklist c;
     Config.TrustedProxies := Config.TrustedProxies c; Config.LoggingDir := Config.LoggingDir c;
     Config.FailOpen := fail_open; Config.whitelistNets := Config.whitelistNets c;
     Config.blocklistNets := Config.blocklistNets c; Config.trustedProxyNets := [];
     Config.accessWarns := []; Config.cacheExts := Config.cacheExts c |}.

(** A rule on one path. *)
Definition on_path (id action path : string) (sm : option SessionMatchers) : CompiledSignature := {|
  cs_TemplateID := id; cs_Severity := "high"; cs_CVE := []; cs_Tags := []; cs_Action := action;
  cs_RespCode := 403; cs_Session := sm; cs_Source := "";
  blocks := [{| methods := ∅;
                paths := [{| exact := path; prefix := ""; re := None; matchQuery := false |}];
                matchers := []; matchersAnd := false |}] |}.

(** A behavioural rule whose glob makes its evaluation panic. *)
Definition starred : SessionMatchers := {|
  sm_Condition := "and";
  sm_Checks := [{| chk_Type := "last-path-matches"; chk_Negate := false; chk_Value := 0; chk_Window := 0;
                   chk_Match := "*" |}] |}.

Definition rules : list CompiledSignature :=
  [on_path "shell" "ban" "/shell.php" None; on_path "login" "challenge" "/login" None;
   on_path "odd" "log-only" "/odd" None; on_path "broken" "block" "/broken" (Some starred)].

Definition shop (cfg : Config.Config) : Proxy := {|
  p_cfg := cfg; p_sigs := rules;
  p_challenge := Challenge.New (fun _ => None) "secret" Hour 0 true; p_secret := "secret" |}.

Definition p0 : Proxy := shop (listen ["198.51.100.0/24"] ["203.0.113.9"] true).

Definition page : backend_result :=
  BackendResponse {| RespCache.resp_Status := 200; RespCache.resp_Header := {["Content-Type" := ["image/png"]]};
                     RespCache.resp_ContentLength := 4 |} [("data", RespCache.EOF)] None.

Definition e0 : env := {|
  e_now := t0; e_randReq := Some "reqid123"; e_randSID := Some "0123456789abcdef"; e_randSID' := None;
  e_backend := fun _ => page |}.

Definition get (ip path : string) : Request := {|
  r_Method := "GET"; r_Host := "shop.test"; r_RemoteAddr := ip +:+ ":4711"; r_TLS := false; r_Path := path;
  r_RawQuery := ""; r_RequestURI := path;
  r_Header := {["X-Forwarded-For" := ["127.0.0.1"]; "User-Agent" := ["curl/8"]]};
  r_Form := []; r_Cookies := []; r_Body := Some {| rd_data := ""; rd_fails := false |}; r_GetBody := None; r_ContentLength := 0 |}.

Definition sv0 : server (R := Reputation.Manager) (T := clocked) := {|
  sv_rep := ReputationExamples.m0; sv_tracker := Clocked (Session.Tracker (ListLru.Lru 8 []) Hour) t0;
  sv_cache := Some (ListLru.Lru 4 []); sv_guard := None |}.

Definition same (l : list (string * RespCache.read_err)) : list (string * RespCache.read_err) := l.

Ltac run := vm_compute; reflexivity.

Lemma at_most_one_backend_request_witness :
  exists o, sd_out (serve same e0 p0 sv0 (get "192.0.2.1" "/")).1 = [o] /\
    o_header o !! "X-Forwarded-For" = Some ["192.0.2.1"].
Proof.
  destruct (at_most_one_backend_request same e0 p0 sv0 (get "192.0.2.1" "/")) as [E|(o & E & Ht)].
  - discriminate.
  - vm_compute. discriminate.
  - assert (Hl : length (sd_out (serve same e0 p0 sv0 (get "192.0.2.1" "/")).1) = 1%nat) by run.
    rewrite E in Hl. discriminate.
  - exists o. split; [exact E|]. exact (told_forwarded_for _ _ _ _ Ht).
Defined.

Lemma whitelisted_bypasses_witness :
  sv_rep (serve same e0 p0 sv0 (get "198.51.100.7" "/shell.php")).2 = ReputationExamples.m0.
Proof.
  pose proof (whitelisted_bypasses same e0 p0 sv0 (get "198.51.100.7" "/shell.php")) as Hw.
  assert (E : Config.Whitelisted (p_cfg p0) (client p0 (get "198.51.100.7" "/shell.php")) = true) by run.
  specialize (Hw E). destruct (serve _ _ _ _ _) as [d sv']. apply Hw.
Defined.

Lemma refused_at_the_door_witness :
  sd_out (serve same e0 p0 sv0 (get "203.0.113.9" "/")).1 = [] /\
  status (sd_writer (serve same e0 p0 sv0 (get "203.0.113.9" "/")).1) = Some 403.
Proof.
  pose proof (refused_at_the_door same e0 p0 sv0 (get "203.0.113.9" "/")) as Hr.
  assert (E : Config.Whitelisted (p_cfg p0) (client p0 (get "203.0.113.9" "/")) = false) by run.
  assert (E' : Config.Blocklisted (p_cfg p0) (client p0 (get "203.0.113.9" "/")) = true) by run.
  specialize (Hr E (or_introl E')). destruct (serve _ _ _ _ _) as [d sv']. split; apply Hr.
Defined.

(** The requests of the examples are unsuspected. *)
Ltac unsuspected := constructor; vm_compute; congruence.

Lemma enforced_verdict_stops_witness :
  sd_out (serve same e0 p0 sv0 (get "192.0.2.1" "/shell.php")).1 = [] /\
  (Reputation.Lookup (sv_rep (serve same e0 p0 sv0 (get "192.0.2.1" "/shell.php")).2) "192.0.2.1" t0).1 = StateBlocked.
Proof.
  destruct (enforced_verdict_stops same e0 p0 sv0 (get "192.0.2.1" "/shell.php")
    (decision_of (Some (on_path "shell" "ban" "/shell.php" None)))) as (inc & Hi & Hs).
  - unsuspected.
  - run.
  - reflexivity.
  - split; discriminate.
  - injection Hi as <-. split.
    + destruct (serve _ _ _ _ _) as [d sv']. apply Hs.
    + run.
Defined.

Lemma banned_client_stays_out_witness :
  let sv := {| sv_rep := (Reputation.Block ReputationExamples.m0 "192.0.2.1" "detect:shell" t0).2;
               sv_tracker := sv_tracker sv0; sv_cache := None; sv_guard := None |} in
  Forall2 (fun er d => client p0 er.2 = "192.0.2.1" -> sd_out d = [] /\ status (sd_writer d) = Some StatusForbidden)
    [(e0, get "192.0.2.1" "/"); (e0, get "192.0.2.2" "/"); (e0, get "192.0.2.1" "/login")]
    (serves same p0 sv [(e0, get "192.0.2.1" "/"); (e0, get "192.0.2.2" "/"); (e0, get "192.0.2.1" "/login")]).1.
Proof.
  intros sv. eapply (banned_client_stays_out same p0 sv ReputationExamples.m0 "192.0.2.1" "detect:shell" t0).
  - reflexivity.
  - repeat constructor; vm_compute; discriminate.
  - run.
Defined.

(** The same shop after one page view of [192.0.2.1]. *)
Definition sv1 : server (R := Reputation.Manager) (T := clocked) := {|
  sv_rep := sv_rep sv0; sv_tracker := tk_Record (sv_tracker sv0) "ip:192.0.2.1" (buildView (get "192.0.2.1" "/")).1;
  sv_cache := sv_cache sv0; sv_guard := None |}.

Lemma inspection_crash_fails_open_or_closed_witness :
  exists o, sd_out (serve same e0 p0 sv1 (get "192.0.2.1" "/broken")).1 = [o].
Proof.
  assert (Hu : unsuspected e0 p0 sv1 (get "192.0.2.1" "/broken")) by unsuspected.
  assert (Hv : (verdict e0 p0 sv1 (get "192.0.2.1" "/broken")).1 = Panic RuntimePanic) by run.
  pose proof (inspection_crash_fails_open_or_closed same e0 p0 sv1 (get "192.0.2.1" "/broken")) as Hc.
  specialize (Hc Hu Hv). destruct (serve _ _ _ _ _) as [d sv']. apply Hc.
Defined.

(** The same shop once the session of [192.0.2.1] has passed a challenge. *)
Definition sv2 : server (R := Reputation.Manager) (T := clocked) := {|
  sv_rep := sv_rep sv0; sv_tracker := tk_MarkChallengePassed (sv_tracker sv0) "ip:192.0.2.1";
  sv_cache := sv_cache sv0; sv_guard := None |}.

Lemma passed_session_not_rechallenged_witness :
  (exists o, sd_out (serve same e0 p0 sv2 (get "192.0.2.1" "/login")).1 = [o]) /\
  sd_out (serve same e0 p0 sv0 (get "192.0.2.1" "/login")).1 = [].
Proof.
  assert (Hu : unsuspected e0 p0 sv2 (get "192.0.2.1" "/login")) by unsuspected.
  assert (Hv : (verdict e0 p0 sv2 (get "192.0.2.1" "/login")).1 =
    Ret (decision_of (Some (on_path "login" "challenge" "/login" None)))) by run.
  assert (Hp : (tk_ChallengePassed (after_verdict e0 p0 sv2 (get "192.0.2.1" "/login"))
    (session_key p0 (get "192.0.2.1" "/login"))).1 = true) by run.
  split; [|run].
  pose proof (passed_session_not_rechallenged same e0 p0 sv2 (get "192.0.2.1" "/login")
    (decision_of (Some (on_path "login" "challenge" "/login" None))) Hu Hv eq_refl eq_refl Hp) as Hc.
  destruct (serve _ _ _ _ _) as [d sv']. apply Hc.
Defined.

Lemma log_only_observes_witness :
  (exists o, sd_out (serve same e0 p0 sv0 (get "192.0.2.1" "/odd")).1 = [o]) /\
  sd_result (serve same e0 p0 sv0 (get "192.0.2.1" "/odd")).1 = Ret tt.
Proof.
  assert (Hu : unsuspected e0 p0 sv0 (get "192.0.2.1" "/odd")) by unsuspected.
  assert (Hv : (verdict e0 p0 sv0 (get "192.0.2.1" "/odd")).1 =
    Ret (decision_of (Some (on_path "odd" "log-only" "/odd" None)))) by run.
  split; [|run].
  destruct (log_only_observes same e0 p0 sv0 (get "192.0.2.1" "/odd")
    (decision_of (Some (on_path "odd" "log-only" "/odd" None))) Hu Hv eq_refl eq_refl) as (inc & _ & Hl).
  destruct (serve _ _ _ _ _) as [d sv']. apply Hl.
Defined.

(** A cached picture. *)
Definition picture : RespCache.Entry := {|
  RespCache.e_Status := 200; RespCache.e_Header := ∅; RespCache.e_Body := "old";
  RespCache.e_Stored := t0; RespCache.e_Expires := t0 + Hour |}.

Definition sv3 : server (R := Reputation.Manager) (T := clocked) := {|
  sv_rep := sv_rep sv0; sv_tracker := sv_tracker sv0;
  sv_cache := Some (RespCache.Put (ListLru.Lru 4 []) "GET shop.test /a.png" picture); sv_guard := None |}.

(** Nothing is held against the request. *)
Ltac acquitted :=
  split; [unsuspected|split; [eexists; split; [vm_compute; reflexivity|reflexivity]|reflexivity]].

Lemma cache_hit_skips_backend_witness :
  sd_out (serve same e0 p0 sv3 (get "192.0.2.1" "/a.png")).1 = [] /\
  w_body (sd_writer (serve same e0 p0 sv3 (get "192.0.2.1" "/a.png")).1) = "old".
Proof.
  assert (Ha : acquitted e0 p0 sv3 (get "192.0.2.1" "/a.png")) by acquitted.
  assert (Hc : cached e0 p0 sv3 (get "192.0.2.1" "/a.png") = Some picture) by run.
  pose proof (cache_hit_skips_backend same e0 p0 sv3 (get "192.0.2.1" "/a.png") picture Ha Hc) as Hh.
  destruct (serve _ _ _ _ _) as [d sv']. split; apply Hh.
Defined.

(** The client goes away while the response is copied, stays, or has gone
    before the backend answers. *)
Definition served_by (b : backend_result) : env :=
  {| e_now := t0; e_randReq := None; e_randSID := None; e_randSID' := None; e_backend := fun _ => b |}.

Lemma clean_request_recorded_unless_aborted_witness :
  let r := get "192.0.2.1" "/" in
  let gone := served_by (BackendResponse {| RespCache.resp_Status := 200; RespCache.resp_Header := ∅;
      RespCache.resp_ContentLength := 4 |} [("data", RespCache.EOF)] (Some 0%nat)) in
  let away := served_by (BackendError true) in
  sv_tracker (serve same gone p0 sv0 r).2 = after_verdict gone p0 sv0 r /\
  (sv_tracker (serve same e0 p0 sv0 r).2 = tk_Record (after_verdict e0 p0 sv0 r) "ip:192.0.2.1" (buildView r).1 /\
   w_body (sd_writer (serve same e0 p0 sv0 r).1) = "data") /\
  (sv_tracker (serve same away p0 sv0 r).2 = tk_Record (after_verdict away p0 sv0 r) "ip:192.0.2.1" (buildView r).1 /\
   w_sent (sd_writer (serve same away p0 sv0 r).1) = None).
Proof.
  intros r gone away.
  assert (Ha : acquitted gone p0 sv0 r) by acquitted.
  assert (Ha1 : acquitted e0 p0 sv0 r) by acquitted.
  assert (Ha2 : acquitted away p0 sv0 r) by acquitted.
  assert (Hc : cached gone p0 sv0 r = None) by run.
  assert (Hc1 : cached e0 p0 sv0 r = None) by run.
  assert (Hc2 : cached away p0 sv0 r = None) by run.
  split; [|split].
  - pose proof (clean_request_recorded_unless_aborted same gone p0 sv0 r Ha Hc) as Hr.
    destruct (serve same gone p0 sv0 r) as [d sv']. cbn [fst snd]. destruct Hr as (_ & _ & o & _ & _ & stream & Hs & Hr).
    destruct Hs as [->| ->]; apply Hr.
  - pose proof (clean_request_recorded_unless_aborted same e0 p0 sv0 r Ha1 Hc1) as Hr.
    destruct (serve same e0 p0 sv0 r) as [d sv']. cbn [fst snd]. destruct Hr as (_ & _ & o & _ & _ & stream & Hs & Hr).
    destruct Hs as [->| ->]; destruct Hr as [[_ Hr] Hb]; split; [exact Hr|exact Hb|exact Hr|exact Hb].
  - pose proof (clean_request_recorded_unless_aborted same away p0 sv0 r Ha2 Hc2) as Hr.
    destruct (serve same away p0 sv0 r) as [d sv']. cbn [fst snd]. destruct Hr as (_ & _ & o & _ & [_ Hr] & Hw & _).
    split; [exact Hr|exact Hw].
Defined.

(** The same shop after a violation of [192.0.2.1]. *)
Definition sv4 : server (R := Reputation.Manager) (T := clocked) := {|
  sv_rep := (Reputation.RegisterViolation ReputationExamples.m0 "192.0.2.1" "detect:x" t0).2;
  sv_tracker := sv_tracker sv0; sv_cache := None; sv_guard := None |}.

Lemma greylisted_needs_challenge_witness :
  status (sd_writer (serve same e0 p0 sv4 (get "192.0.2.1" "/")).1) = Some 503 /\
  sd_out (serve same e0 p0 sv4 (get "192.0.2.1" "/")).1 = [].
Proof.
  assert (Hw : Config.Whitelisted (p_cfg p0) (client p0 (get "192.0.2.1" "/")) = false) by run.
  assert (Hb : Config.Blocklisted (p_cfg p0) (client p0 (get "192.0.2.1" "/")) = false) by run.
  assert (Hl : (st_Lookup (sv_rep sv4) (client p0 (get "192.0.2.1" "/")) (e_now e0)).1 = StateGreylisted) by run.
  assert (Hp : r_Path (get "192.0.2.1" "/") <> Challenge.VerifyPath) by discriminate.
  assert (Ht : (tk_ChallengePassed (tk_at (sv_tracker sv4) (e_now e0)) (session_key p0 (get "192.0.2.1" "/"))).1 = false) by run.
  pose proof (greylisted_needs_challenge same e0 p0 sv4 (get "192.0.2.1" "/") Hw Hb Hl Hp eq_refl) as Hc.
  destruct (tk_ChallengePassed _ _) as [passed t]. specialize (Hc Ht).
  destruct (serve _ _ _ _ _) as [d sv']. split; apply Hc.
Defined.

(** The solution of a challenge: the shop demands no work. *)
Definition solution : Request :=
  let r := get "192.0.2.1" Challenge.VerifyPath in
  {| r_Method := "POST"; r_Host := r_Host r; r_RemoteAddr := r_RemoteAddr r; r_TLS := false; r_Path := r_Path r;
     r_RawQuery := ""; r_RequestURI := r_RequestURI r; r_Header := ∅;
     r_Form := [("token", Challenge.issueToken (p_challenge p0) 0 t0); ("return", "/login")];
     r_Cookies := []; r_Body := None; r_GetBody := None; r_ContentLength := 0 |}.

Lemma solved_challenge_is_remembered_witness :
  status (sd_writer (serve same e0 p0 sv4 solution).1) = Some 302 /\
  (tk_ChallengePassed (sv_tracker (serve same e0 p0 sv4 solution).2) "ip:192.0.2.1").1 = true.
Proof.
  assert (Hw : Config.Whitelisted (p_cfg p0) (client p0 solution) = false) by run.
  assert (Hb : Config.Blocklisted (p_cfg p0) (client p0 solution) = false) by run.
  assert (Hl : (st_Lookup (sv_rep sv4) (client p0 solution) (e_now e0)).1 <> StateBlocked) by (vm_compute; discriminate).
  assert (Hs : solved e0 p0 solution).
  { split; [reflexivity|]. exists 0. split; run. }
  assert (Hk : session_key p0 solution = "ip:192.0.2.1") by run.
  assert (Ho : tk_ok (tk_at (sv_tracker sv4) (e_now e0))).
  { split; [cbn; lia|discriminate]. }
  pose proof (solved_challenge_is_remembered same e0 p0 sv4 solution Hw Hb Hl Hs eq_refl Ho) as Hr.
  destruct (serve _ _ _ _ _) as [d sv']. rewrite Hk in Hr. split; [apply Hr|].
  apply (tk_passed_value (sv_tracker sv') "ip:192.0.2.1"), Hr.
Defined.

Lemma buildView_preserves_body_witness :
  r_Body (buildView (get "192.0.2.1" "/")).2 = Some {| rd_data := ""; rd_fails := false |}.
Proof.
  pose proof (buildView_preserves_body (get "192.0.2.1" "/") _ eq_refl (or_introl eq_refl)) as Hb.
  destruct (buildView _) as [view r']. apply Hb.
Defined.

Lemma buildView_hides_read_errors_witness :
  let r := with_body (get "192.0.2.1" "/") {| rd_data := "half of"; rd_fails := true |} None 14 in
  r_Body (buildView r).2 = Some {| rd_data := "half of"; rd_fails := false |}.
Proof. intros r. apply (buildView_hides_read_errors r "half of"); reflexivity. Defined.

Lemma client_address_not_spoofable_witness :
  realClientIP (get "192.0.2.1" "/") (p_cfg p0) = realClientIP (with_body (get "192.0.2.1" "/x") {| rd_data := ""; rd_fails := false |} None 0) (p_cfg p0).
Proof. apply client_address_not_spoofable; reflexivity. Defined.
