(* ===== verification/Zstd.v ===== *)
(** * Compressing a response ([zstdReader] in [internal/proxy/compression.go])

    A goroutine copies the backend body into the encoder, whose output the
    reverse proxy reads from a pipe.  The encoder is the library
    [klauspost/compress/zstd]: a class of the operations the code uses, with the
    law that a decoder recovers what was written. *)

From S2P Require Export ProxyFacts.
From S2P Require Import ProxyExamples.

(** An encoder reset onto a new pipe: what [Write] and [Close] send down it. *)
Class Encoder := {
  enc_t : Type;
  enc_reset : enc_t;
  enc_Write : enc_t -> string -> string * enc_t;
  enc_Close : enc_t -> string;
  decode : string -> option string;
}.

Section Zstd.
Context `{Encoder}.

(** What a sequence of writes and the final close send *)
Fixpoint encoded (enc : enc_t) (ws : list string) : string :=
  match ws with
  | [] => enc_Close enc
  | d :: ws => let '(out, enc) := enc_Write enc d in out +:+ encoded enc ws
  end.

(** The output of a closed encoder is a complete frame of what was written. *)
Class EncoderLaws : Prop := {
  decode_encoded ws : decode (encoded enc_reset ws) = Some (Join ws "");
}.

(** [io.Copy(enc, orig)], [enc.Close()], [pw.CloseWithError(copyErr)]: what the
    reader of the pipe sees.  [CloseWithError(nil)] is an end of file.  The
    encoder is closed in any case: also a body that failed ends with a complete
    frame, followed by the error. *)
Fixpoint copy_enc (enc : enc_t) (orig : list (string * RespCache.read_err)) : list (string * RespCache.read_err) :=
  match orig with
  | [] => []
  | (data, err) :: orig =>
      let '(out, enc) := if data =?s "" then ("", enc) else enc_Write enc data in
      (out, RespCache.NoErr) ::
      match err with
      | RespCache.NoErr => copy_enc enc orig
      | err => [(enc_Close enc, RespCache.NoErr); ("", err)]
      end
  end.

Definition zstdReader (orig : list (string * RespCache.read_err)) : list (string * RespCache.read_err) :=
  copy_enc enc_reset orig.

(** ** The body of a response *)

(** The data up to the first error, and the error ([None]: none came) *)
Fixpoint content (l : list (string * RespCache.read_err)) : string * option RespCache.read_err :=
  match l with
  | [] => ("", None)
  | (data, RespCache.NoErr) :: l => let '(d, e) := content l in (data +:+ d, e)
  | (data, err) :: _ => (data, Some err)
  end.

Lemma Join_cons_nil x l : Join (x :: l) "" = x +:+ Join l "".
Proof. destruct l; cbn; [by rewrite str_app_nil_r|done]. Qed.

(** The pipe carries the frame of exactly the data that was read, and ends as
    the body ended. *)
Lemma copy_enc_content orig : forall enc,
  exists ws, Join ws "" = (content orig).1 /\
    (content (copy_enc enc orig)).2 = (content orig).2 /\
    ((content orig).2 <> None -> (content (copy_enc enc orig)).1 = encoded enc ws).
Proof.
  induction orig as [|[data err] orig IH]; intros enc; [by exists []|].
  cbn [copy_enc]. destruct (data =?s "") eqn:Ed.
  - apply String.eqb_eq in Ed as ->. destruct err.
    + destruct (IH enc) as (ws & Hj & He & Hc). exists ws. cbn [content].
      destruct (content orig) as [d e], (content (copy_enc enc orig)) as [d' e']. cbn in *. done.
    + exists []. cbn. by rewrite str_app_nil_r.
    + exists []. cbn. by rewrite str_app_nil_r.
  - destruct (enc_Write enc data) as [out enc'] eqn:Ew. destruct err.
    + destruct (IH enc') as (ws & Hj & He & Hc). exists (data :: ws). cbn [content].
      destruct (content orig) as [d e], (content (copy_enc enc' orig)) as [d' e']. cbn [fst snd] in *.
      split_and!; [by rewrite Join_cons_nil, Hj|done|]. intros Hn. cbn [encoded]. rewrite Ew. by rewrite Hc.
    + exists [data]. cbn. rewrite Ew, str_app_nil_r. by split_and!.
    + exists [data]. cbn. rewrite Ew, str_app_nil_r. by split_and!.
Qed.

End Zstd.

Section Copy.
Context `{Unicode} `{Regexp} `{MapIter} `{Float64} `{LRU RespCache.Entry} `{LRU Protect.bucket}.
Context {R T : Type} `{Store R} `{Tracker T} `{SessionEvaluator T}.
Context (e : env).

(** What the copy to the client does: it returns exactly if the body came to its
    end and the client took it all, and then the client has it all. *)
Lemma copy_body_spec l : forall gone (s : pstate (R := R) (T := T)),
  match copy_body e None l gone s with
  | (Ret _, s') => (content l).2 = Some RespCache.EOF /\ w_body (ps_w s') = w_body (ps_w s) +:+ (content l).1
  | (Panic p, _) => p = AbortHandler /\ ~ ((content l).2 = Some RespCache.EOF /\ gone = None)
  end.
Proof.
  induction l as [|[data err] l IH]; intros gone s; [split; [done|by intros []]|].
  cbn [copy_body]. unfold mbind at 1, M_bind at 1. cbn [read_through].
  destruct (negb (data =?s "") && bool_decide (gone = Some 0%nat)) eqn:Eg.
  { apply andb_true_iff in Eg as [_ Eg%bool_decide_eq_true]. cbn. split; [done|]. intros [_ ?]. congruence. }
  set (w := (if negb (data =?s "") then on_w (fun w => Write w data) else mret tt) : M _).
  assert (Hw : exists s1, w s = (Ret tt, s1) /\ w_body (ps_w s1) = w_body (ps_w s) +:+ data).
  { unfold w. destruct (data =?s "") eqn:Ed; cbn [negb].
    - apply String.eqb_eq in Ed as ->. exists s. by rewrite str_app_nil_r.
    - eexists. split; [reflexivity|]. cbn. unfold Write, WriteHeader. cbn. by destruct (w_sent (ps_w s)). }
  destruct Hw as (s1 & Ew & Hb). unfold mbind, M_bind. rewrite Ew. destruct err.
  - specialize (IH (Nat.pred <$> gone) s1). cbn [content]. destruct (content l) as [d o]. cbn [fst snd] in *.
    destruct (copy_body e None l (Nat.pred <$> gone) s1) as [[[]|q] s2].
    + destruct IH as [-> ->]. by rewrite Hb, str_app_assoc.
    + destruct IH as [-> Hn]. split; [done|]. intros [-> ->]. by apply Hn.
  - by split.
  - split; [done|]. by intros [].
Qed.

Context `{EncoderLaws}.

(** (C30) A compressed response is whole or not a response: the handler returns only if
    the backend's body came to its end, and then what the client has received is
    a complete frame that decodes to exactly that body; a body that fails half-way
    is aborted, although the frame sent by then is complete, so that no client
    takes it for the whole; and a body that comes to its end, for a client that
    stays, is delivered. *)
Theorem compressed_body_is_whole orig gone (s : pstate (R := R) (T := T)) :
  match copy_body e None (zstdReader orig) gone s with
  | (Ret _, s') => (content orig).2 = Some RespCache.EOF /\
      exists frame, w_body (ps_w s') = w_body (ps_w s) +:+ frame /\ decode frame = Some (content orig).1
  | (Panic p, _) => p = AbortHandler /\ ~ ((content orig).2 = Some RespCache.EOF /\ gone = None)
  end.
Proof.
  pose proof (copy_body_spec (zstdReader orig) gone s) as Hs.
  destruct (copy_enc_content orig enc_reset) as (ws & Hj & He & Hc). fold (zstdReader orig) in He, Hc.
  destruct (copy_body _ _ _ _ _) as [[[]|q] s']; rewrite He in Hs; [|done].
  destruct Hs as [Ho Hb]. split; [done|]. rewrite Hc in Hb by (by rewrite Ho).
  eexists. split; [exact Hb|]. by rewrite decode_encoded, Hj.
Qed.

End Copy.

(** ** Witness *)

Module ZstdExamples.

#[local] Existing Instance ascii_only.
#[local] Existing Instance PathRegexp.regexp.
#[local] Existing Instance ListLru.list_lru.
#[local] Existing Instance Rationals.rationals.
#[local] Existing Instance ReputationExamples.MemBolt.
#[local] Existing Instance ReputationExamples.BitsJSON.
#[local] Existing Instance ProxyExamples.listed.

(** An encoder that stores its input behind a magic number. *)
#[local] Instance stored : Encoder := {
  enc_t := bool; enc_reset := false;
  enc_Write started d := ((if started then "" else "Z") +:+ d, true);
  enc_Close started := if started then "" else "Z";
  decode s := match s with String "Z" d => Some d | _ => None end;
}.

#[local] Instance stored_laws : EncoderLaws.
Proof.
  assert (Hw : forall ws, encoded (H := stored) true ws = Join ws "").
  { induction ws as [|d ws IH]; [done|]. rewrite Join_cons_nil, <- IH. cbn. done. }
  split. intros [|d ws]; [done|]. rewrite Join_cons_nil. cbn. by rewrite Hw.
Qed.

Definition fresh : pstate (R := Reputation.Manager) (T := clocked) :=
  start t0 sv0 (get "192.0.2.1" "/").

(** A body in two reads arrives; one cut off after the first does not. *)
Lemma compressed_body_is_whole_witness :
  (exists frame, w_body (ps_w (copy_body e0 None (zstdReader [("ab", RespCache.NoErr); ("c", RespCache.EOF)]) None fresh).2)
      = ("" +:+ frame)%string /\ decode frame = Some "abc"%string) /\
  (copy_body e0 None (zstdReader [("ab", RespCache.NoErr); ("", RespCache.Failed)]) None fresh).1 = Panic AbortHandler.
Proof.
  split.
  - pose proof (compressed_body_is_whole e0 [("ab", RespCache.NoErr); ("c", RespCache.EOF)] None fresh) as Hc.
    destruct (copy_body _ _ _ _ _) as [[[]|p] s'].
    + exact (proj2 Hc).
    + destruct (proj2 Hc (conj eq_refl eq_refl)).
  - pose proof (compressed_body_is_whole e0 [("ab", RespCache.NoErr); ("", RespCache.Failed)] None fresh) as Hc.
    destruct (copy_body _ _ _ _ _) as [[[]|p] s'].
    + destruct Hc as [Hc _]. discriminate.
    + cbn. f_equal. exact (proj1 Hc).
Defined.

End ZstdExamples.
