(* ===== verification/Concurrent.v ===== *)
(** * The pipeline among other goroutines

    A request is handled on one goroutine; between any two atomic sections of
    the reputation manager that it runs, others run theirs.  [shared] is a store
    with that interference, an instance of the interface the pipeline is written
    against: every theorem about the pipeline over an arbitrary [Store] holds of
    it as it is, and this file has those about bans. *)

From S2P Require Export Sections ProxySpec.

Section Shared.
Context `{BoltDB} `{EntryJSON}.
Implicit Types (ip reason : string).

(** The manager, and what the other goroutines run in the gaps before each of
    the next sections; when the list is used up they are idle. *)
Record shared := Shared { sh_rep : Manager; sh_gaps : list (list thread) }.

Definition others (m : Manager) (l : list thread) : Manager := fold_left (fun m th => (section m th).1) l m.

Definition gap (s : shared) : shared :=
  match sh_gaps s with
  | [] => s
  | l :: gaps => Shared (others (sh_rep s) l) gaps
  end.

(** One section of ours *)
Definition run_section (th : thread) (s : shared) : thread * shared :=
  let s := gap s in
  let '(m, th) := section (sh_rep s) th in (th, Shared m (sh_gaps s)).

(** The sections of a method up to its return: four at most. *)
Fixpoint run_sections (fuel : nat) (th : thread) (s : shared) : shared :=
  match fuel with
  | O => s
  | S fuel =>
      match th with
      | Returned => s
      | _ => let '(th, s) := run_section th s in run_sections fuel th s
      end
  end.

(** What the methods return: the state read, and a transition that the proxy
    does not look at. *)
Definition shared_Lookup (s : shared) ip (now : time) : State * shared :=
  let st := match Lookup_read (sh_rep (gap s)) ip now with
            | LookupDone st => st
            | LookupExpired _ => StateClean
            end in
  (st, run_sections 4 (Reading ip now) s).

Definition shared_call (th : thread) (ip : string) (s : shared) : Transition * shared :=
  ({| tr_IP := ip; tr_From := StateClean; tr_To := StateClean; tr_Reason := ""; tr_Changed := false; tr_Expiry := 0 |},
   run_sections 4 th s).

#[export] Instance shared_store : Store shared := {
  st_Lookup := shared_Lookup;
  st_RegisterViolation s ip reason now := shared_call (Violating ip reason now) ip s;
  st_MarkClean s ip reason now := shared_call (Forcing ip reason now StateClean) ip s;
  st_Block s ip reason now := shared_call (Forcing ip reason now StateBlocked) ip s;
}.

(** ** A ban among the sections of others *)

Definition shared_banned (s : shared) (q : string) (u : time) : Prop :=
  blocks_until u (entries (sh_rep s) !! q) /\
  Forall (Forall (harmless (cfg (sh_rep s)) q u)) (sh_gaps s).

Lemma others_banned l m q u :
  blocks_until u (entries m !! q) -> Forall (harmless (cfg m) q u) l ->
  blocks_until u (entries (others m l) !! q) /\ cfg (others m l) = cfg m.
Proof.
  unfold others. revert m. induction l as [|th l IH]; intros m Hb Hl; [done|].
  apply Forall_cons in Hl as [Hh Hl]. cbn [fold_left].
  rewrite <- (section_cfg m th). apply IH; [by apply section_banned|by rewrite section_cfg].
Qed.

Lemma gap_banned s q u : shared_banned s q u -> shared_banned (gap s) q u.
Proof.
  intros [Hb Hg]. unfold gap. destruct (sh_gaps s) as [|l gaps] eqn:E; [by split; rewrite ?E|].
  apply Forall_cons in Hg as [Hl Hg]. destruct (others_banned l (sh_rep s) q u Hb Hl) as [Hb' Hc].
  split; cbn; [done|by rewrite Hc].
Qed.

Lemma run_section_banned th s q u :
  shared_banned s q u -> harmless (cfg (sh_rep s)) q u th ->
  shared_banned (run_section th s).2 q u /\ cfg (sh_rep (run_section th s).2) = cfg (sh_rep s) /\
  (run_section th s).1 = (section (sh_rep (gap s)) th).2.
Proof.
  intros Hs Hh. pose proof (gap_banned s q u Hs) as [Hb Hg]. destruct Hs as [Hb0 Hg0].
  assert (Hc : cfg (sh_rep (gap s)) = cfg (sh_rep s)).
  { unfold gap. destruct (sh_gaps s) as [|l gaps]; [done|]. apply Forall_cons in Hg0 as [Hl _].
    by destruct (others_banned l (sh_rep s) q u Hb0 Hl) as [_ ?]. }
  unfold run_section. pose proof (section_cfg (sh_rep (gap s)) th) as Hc'.
  pose proof (section_banned (sh_rep (gap s)) th q u Hb) as Hb'. rewrite Hc in Hb'. specialize (Hb' Hh).
  destruct (section (sh_rep (gap s)) th) as [m th']. cbn in *. unfold shared_banned. cbn.
  rewrite Hc', Hc in *. done.
Qed.

(** What our own methods go on to is harmless if they are. *)
Lemma section_harmless m th c q u :
  blocks_until u (entries m !! q) -> harmless c q u th ->
  (forall ip now, th = Reading ip now -> now <= u) -> harmless c q u (section m th).2.
Proof.
  intros Hb Hh Hr. destruct th as [ip now|ip e|ip e|ip reason now|ip reason now to|ip e tr|tr|]; try done; cbn.
  - unfold Lookup_read. destruct (entries m !! ip) as [e|] eqn:E; [|done].
    destruct (expired e now) eqn:Ex; [|done]. cbn. intros ->.
    pose proof (blocks_until_fresh u _ now Hb (Hr _ _ eq_refl)) as Hf. rewrite E in Hf. cbn in Hf. by rewrite Ex in Hf.
  - unfold violation_locked. by case_bool_decide.
Qed.

Lemma run_sections_banned fuel : forall th s q u,
  shared_banned s q u -> harmless (cfg (sh_rep s)) q u th ->
  (forall ip now, th = Reading ip now -> now <= u) -> shared_banned (run_sections fuel th s) q u.
Proof.
  induction fuel as [|fuel IH]; intros th s q u Hs Hh Hr; [done|].
  destruct (run_section_banned th s q u Hs Hh) as (Hs' & Hc & E).
  assert (Hn : harmless (cfg (sh_rep s)) q u (run_section th s).1).
  { rewrite E. apply section_harmless; [apply (gap_banned s q u Hs)|done..]. }
  assert (Hr' : forall ip now, (run_section th s).1 = Reading ip now -> now <= u).
  { intros ip now E'. exfalso. rewrite E in E'. clear -E'. destruct th; cbn in E'; try done.
    - by destruct (Lookup_read _ _ _).
    - unfold violation_locked in E'. by case_bool_decide. }
  cbn [run_sections]. destruct (run_section th s) as [th' s']. cbn [fst snd] in *. rewrite <- Hc in Hn.
  specialize (IH th' s' q u Hs' Hn Hr'). by destruct th.
Qed.

#[export] Program Instance shared_bans : StoreBans shared := { st_banned := shared_banned }.
Next Obligation.
  intros s ip u now Hs Hle. cbn. pose proof (gap_banned s ip u Hs) as [Hb _]. unfold Lookup_read.
  pose proof (blocks_until_fresh u _ now Hb Hle) as Hf. destruct Hb as (e & E & Hbl & _). rewrite E in Hf |- *.
  cbn in Hf. by destruct (expired e now).
Qed.
Next Obligation.
  intros s ip u j now Hs Hle. apply run_sections_banned; [done..|]. by intros ? ? [= _ <-].
Qed.
Next Obligation. intros s ip u j reason now Hs Hle. by apply run_sections_banned. Qed.
Next Obligation.
  intros s ip u j reason now Hs Hne. split; (apply run_sections_banned; [done|by left|done]).
Qed.

End Shared.

(** ** Theorems *)

Section Bans.
Context `{Unicode} `{Regexp} `{MapIter} `{Float64} `{LRU RespCache.Entry} `{LRU Protect.bucket}.
Context {T : Type} `{Tracker T} `{SessionEvaluator T} `{BoltDB} `{EntryJSON}.
Context (zstd : list (string * RespCache.read_err) -> list (string * RespCache.read_err)).

(** (C5) A ban holds among goroutines: while a client is banned, whatever sections of
    the reputation manager other goroutines run between those of a request --
    lookups, violations, bans and cleanings of others, stores that are late --
    every request of the client is answered 403 and the backend does not see
    it.  What the other goroutines must not do is clean the client, evict an
    entry of the client that they read before the ban, or ban it for a shorter
    time. *)
Theorem ban_holds_among_goroutines p (sv : server (R := shared) (T := T)) q u rs :
  blocks_until u (entries (sh_rep (sv_rep sv)) !! q) ->
  Forall (Forall (harmless (cfg (sh_rep (sv_rep sv))) q u)) (sh_gaps (sv_rep sv)) ->
  Forall (fun er => e_now er.1 <= u) rs -> Config.Whitelisted (p_cfg p) q = false ->
  Forall2 (fun er d => client p er.2 = q -> sd_out d = [] /\ status (sd_writer d) = Some StatusForbidden)
    rs (serves zstd p sv rs).1.
Proof. intros Hb Hg. by apply serves_banned. Qed.

(** (C23) The cleaning exception is real: a client that is greylisted and has solved
    its challenge sends the solution while another of its requests is being
    banned.  If the ban falls between the lookup and the cleaning of the
    verification, the ban is lifted at once: the client is clean in the store
    right after a ban that was to last for [BlockTTL]. *)
Theorem verification_lifts_concurrent_ban `{!TrackerLaws T} e p (sv : server (R := shared) (T := T)) r m en reason t0 :
  let q := client p r in
  sv_rep sv = Shared m [[]; [Forcing q reason t0 StateBlocked]] ->
  entries m !! q = Some en -> e_State en = StateGreylisted -> expired en (e_now e) = false ->
  Config.Whitelisted (p_cfg p) q = false -> Config.Blocklisted (p_cfg p) q = false ->
  solved e p r -> Challenge.cleaner (p_challenge p) = true -> tk_ok (tk_at (sv_tracker sv) (e_now e)) ->
  let '(d, sv') := serve zstd e p sv r in
  status (sd_writer d) = Some StatusFound /\
  blocks_until (t0 + BlockTTL (cfg m)) (entries (others m [Forcing q reason t0 StateBlocked]) !! q) /\
  forall t, (Reputation.Lookup (sh_rep (sv_rep sv')) q t).1 = StateClean.
Proof.
  intros q Es En Hg Hx Hw Hb Hso Hcl Hok.
  assert (Hread : Lookup_read m q (e_now e) = LookupDone StateGreylisted).
  { unfold Lookup_read. by rewrite En, Hx, Hg. }
  assert (Hl : st_Lookup (sv_rep sv) q (e_now e) = (StateGreylisted, Shared m [[Forcing q reason t0 StateBlocked]])).
  { rewrite Es. cbn. unfold shared_Lookup. cbn. unfold run_section. cbn. by rewrite Hread. }
  pose proof (solved_lemma zstd e p sv r Hw Hb) as Hs. fold q in Hs. rewrite Hl in Hs.
  specialize (Hs ltac:(done) Hso Hcl Hok). destruct (serve zstd e p sv r) as [d sv'].
  destruct Hs as (_ & _ & Hst & Hrep & _). split_and!; [done| |].
  - cbn. rewrite lookup_insert_eq. eexists. split; [done|]. split; [done|]. by right.
  - intros t. rewrite Hrep, Lookup_status. cbn. unfold run_section. cbn.
    rewrite entries_emit, entries_persist. cbn. rewrite lookup_insert_eq. cbn. by destruct (expired _ t).
Qed.

End Bans.
