(* ===== verification/ConcurrentExamples.v ===== *)
(** * Witnesses: the shop among other goroutines

    Requests of the shop of [ProxyExamples] on a store that other goroutines use
    at the same time. *)

From S2P Require Import ProxyExamples Concurrent.

#[local] Existing Instance ascii_only.
#[local] Existing Instance PathRegexp.regexp.
#[local] Existing Instance ListLru.list_lru.
#[local] Existing Instance ListLru.list_lru_laws.
#[local] Existing Instance Rationals.rationals.
#[local] Existing Instance ReputationExamples.MemBolt.
#[local] Existing Instance ReputationExamples.BitsJSON.
#[local] Existing Instance ProxyExamples.listed.

(** The shop on the store [m], with [gaps] run by others *)
Definition among (m : Reputation.Manager) (gaps : list (list thread)) : server (R := shared) (T := clocked) := {|
  sv_rep := Shared m gaps; sv_tracker := sv_tracker sv0; sv_cache := None; sv_guard := None |}.

Definition banned_store : Reputation.Manager :=
  (Reputation.Block ReputationExamples.m0 "192.0.2.1" "detect:shell" ProxyExamples.t0).2.

(** Others strike the client, look it up and clean somebody else. *)
Definition noise : list (list thread) :=
  [[Violating "192.0.2.1" "scan" ProxyExamples.t0; Reading "192.0.2.1" ProxyExamples.t0];
   [Forcing "192.0.2.7" "challenge passed" ProxyExamples.t0 StateClean]].

Lemma ban_holds_among_goroutines_witness :
  Forall2 (fun er d => client p0 er.2 = "192.0.2.1" -> sd_out d = [] /\ status (sd_writer d) = Some StatusForbidden)
    [(e0, ProxyExamples.get "192.0.2.1" "/"); (e0, ProxyExamples.get "192.0.2.1" "/login")]
    (serves same p0 (among banned_store noise)
      [(e0, ProxyExamples.get "192.0.2.1" "/"); (e0, ProxyExamples.get "192.0.2.1" "/login")]).1.
Proof.
  apply (ban_holds_among_goroutines same p0 (among banned_store noise) "192.0.2.1" (ProxyExamples.t0 + Hour)).
  - cbn [among sv_rep sh_rep]. unfold banned_store, Reputation.Block. rewrite force_entries, lookup_insert_eq.
    eexists. split; [reflexivity|]. split; [reflexivity|]. right. vm_compute. discriminate.
  - repeat constructor. discriminate.
  - repeat constructor; vm_compute; discriminate.
  - vm_compute. reflexivity.
Defined.

Definition struck_store : Reputation.Manager :=
  (Reputation.RegisterViolation ReputationExamples.m0 "192.0.2.1" "detect:x" ProxyExamples.t0).2.

Definition greylisted_at (m : Reputation.Manager) (ip : string) (now : time) : bool :=
  match entries m !! ip with
  | Some e => bool_decide (e_State e = StateGreylisted) && negb (expired e now)
  | None => false
  end.

Lemma verification_lifts_concurrent_ban_witness :
  let sv := among struck_store [[]; [Forcing "192.0.2.1" "detect:shell" ProxyExamples.t0 StateBlocked]] in
  status (sd_writer (serve same e0 p0 sv solution).1) = Some 302 /\
  (Reputation.Lookup (sh_rep (sv_rep (serve same e0 p0 sv solution).2)) "192.0.2.1" ProxyExamples.t0).1 = StateClean.
Proof.
  intros sv.
  assert (Hq : client p0 solution = "192.0.2.1") by (vm_compute; reflexivity).
  assert (Hs : solved e0 p0 solution).
  { split; [reflexivity|]. exists 0. split; vm_compute; reflexivity. }
  assert (Ho : tk_ok (tk_at (sv_tracker sv) (e_now e0))) by (split; [cbn; lia|discriminate]).
  assert (Hm : greylisted_at struck_store "192.0.2.1" (e_now e0) = true) by (vm_compute; reflexivity).
  unfold greylisted_at in Hm. destruct (entries struck_store !! "192.0.2.1") as [en|] eqn:En; [|discriminate].
  apply andb_true_iff in Hm as [Hg Hx]. apply bool_decide_eq_true in Hg. apply negb_true_iff in Hx.
  pose proof (verification_lifts_concurrent_ban same e0 p0 sv solution struck_store en "detect:shell" ProxyExamples.t0) as Hv.
  cbv zeta in Hv. rewrite Hq in Hv.
  specialize (Hv eq_refl En Hg Hx). 
  assert (Hw : Config.Whitelisted (p_cfg p0) "192.0.2.1" = false) by (vm_compute; reflexivity).
  assert (Hb : Config.Blocklisted (p_cfg p0) "192.0.2.1" = false) by (vm_compute; reflexivity).
  specialize (Hv Hw Hb Hs eq_refl Ho).
  destruct (serve _ _ _ _ _) as [d sv']. destruct Hv as (Hst & _ & Hcl). split; [exact Hst|apply Hcl].
Defined.
