(* ===== verification/FileSys.v ===== *)
(** * The operating system's files

    The calls of package [os] that install and start smoker, as a state monad
    over a small file system: regular files with their permission bits, and
    directories.  The [n]-th call may fail ([fault]), for a reason outside the
    model: permissions, a full disk, an interrupted system.  A failing call
    changes nothing, except that a failing [WriteFile] may leave a part of the
    data behind.  There are no links. *)

From S2P Require Export GoPath.

(** [os.IsNotExist] holds of [NotExist] only. *)
Inductive oserr := NotExist | Failed (e : string).

Inductive syscall :=
| SysStat (p : string)
| SysMkdirAll (p : string)
| SysReadFile (p : string)
| SysWriteFile (p : string)
| SysRename (p q : string)
| SysRemove (p : string)
| SysExecutable.

Record fsys := {
  files : gmap string (string * Z);
  dirs : gset string;
  calls : nat;
}.

(** The error of a call, and how many bytes a failing write leaves
    ([None]: the file could not be opened). *)
Class Faults := fault : nat -> syscall -> option (string * option nat).

Definition Sys (A : Type) : Type := fsys -> A * fsys.

#[export] Instance Sys_ret : MRet Sys := fun A a fs => (a, fs).
#[export] Instance Sys_bind : MBind Sys := fun A B f m fs => let '(a, fs) := m fs in f a fs.

Definition tick (fs : fsys) : fsys := {| files := files fs; dirs := dirs fs; calls := S (calls fs) |}.
Definition set_files (fs : fsys) (m : gmap string (string * Z)) : fsys :=
  {| files := m; dirs := dirs fs; calls := calls fs |}.

(** [filepath.Dir] *)
Definition filepath_Dir (p : string) : string :=
  match LastIndexByte p "/" with
  | Some i => Clean (str_take (S i) p)
  | None => "."
  end.

(** A directory and those above it. *)
Fixpoint dir_chain (fuel : nat) (p : string) : list string :=
  match fuel with
  | O => []
  | S fuel =>
      let up := filepath_Dir p in
      if up =?s p then [p] else p :: dir_chain fuel up
  end.

Definition parents (p : string) : list string := dir_chain (S (String.length p)) p.

Section Calls.
Context `{Faults}.

Definition Stat (p : string) : Sys (oserr + bool) := fun fs =>
  match fault (calls fs) (SysStat p) with
  | Some (e, _) => (inl (Failed e), tick fs)
  | None =>
      (if bool_decide (p ∈ dirs fs) then inr true
       else match files fs !! p with Some _ => inr false | None => inl NotExist end, tick fs)
  end.

Definition MkdirAll (p : string) : Sys (option oserr) := fun fs =>
  match fault (calls fs) (SysMkdirAll p) with
  | Some (e, _) => (Some (Failed e), tick fs)
  | None =>
      if existsb (fun d => bool_decide (d ∈ dom (files fs))) (parents p)
      then (Some (Failed "not a directory"), tick fs)
      else (None, {| files := files fs; dirs := list_to_set (parents p) ∪ dirs fs; calls := S (calls fs) |})
  end.

Definition ReadFile (p : string) : Sys (oserr + string) := fun fs =>
  match fault (calls fs) (SysReadFile p) with
  | Some (e, _) => (inl (Failed e), tick fs)
  | None =>
      (match files fs !! p with Some f => inr f.1 | None => inl NotExist end, tick fs)
  end.

(** [os.WriteFile]: the mode applies to a new file only. *)
Definition WriteFile (p data : string) (mode : Z) : Sys (option oserr) := fun fs =>
  let put content := <[p := (content, match files fs !! p with Some f => f.2 | None => mode end)]> (files fs) in
  match fault (calls fs) (SysWriteFile p) with
  | Some (e, None) => (Some (Failed e), tick fs)
  | Some (e, Some n) => (Some (Failed e), tick (set_files fs (put (str_take n data))))
  | None =>
      if bool_decide (p ∈ dirs fs) then (Some (Failed "is a directory"), tick fs)
      else if bool_decide (filepath_Dir p ∈ dirs fs) then (None, tick (set_files fs (put data)))
      else (Some NotExist, tick fs)
  end.

Definition Rename (p q : string) : Sys (option oserr) := fun fs =>
  match fault (calls fs) (SysRename p q) with
  | Some (e, _) => (Some (Failed e), tick fs)
  | None =>
      match files fs !! p with
      | None => (Some NotExist, tick fs)
      | Some f =>
          if bool_decide (q ∈ dirs fs) then (Some (Failed "file exists"), tick fs)
          else (None, tick (set_files fs (<[q := f]> (delete p (files fs)))))
      end
  end.

Definition Remove (p : string) : Sys (option oserr) := fun fs =>
  match fault (calls fs) (SysRemove p) with
  | Some (e, _) => (Some (Failed e), tick fs)
  | None => (match files fs !! p with Some _ => None | None => Some NotExist end,
             tick (set_files fs (delete p (files fs))))
  end.

End Calls.

(** ** What the calls keep

    [keeps_files P m]: whatever happens, [m] leaves every file that satisfies
    [P] in place, with its content and mode. *)
Definition keeps_files {A} (P : string -> Prop) (m : Sys A) : Prop :=
  forall fs q f, P q -> files fs !! q = Some f -> files (m fs).2 !! q = Some f.

Lemma keeps_files_ret {A} P (a : A) : keeps_files P (mret a : Sys A).
Proof. by intros fs q f. Qed.

Lemma keeps_files_bind {A B} P (m : Sys A) (k : A -> Sys B) :
  keeps_files P m -> (forall a, keeps_files P (k a)) -> keeps_files P (m ≫= k).
Proof.
  intros Hm Hk fs q f Hq Hf. unfold mbind, Sys_bind. specialize (Hm fs q f Hq Hf).
  destruct (m fs) as [a fs'] eqn:E. by apply Hk.
Qed.

Section Keeps.
Context `{Faults}.

Lemma Stat_files p fs : files (Stat p fs).2 = files fs.
Proof. unfold Stat. by destruct (fault _ _) as [[]|]. Qed.
Lemma ReadFile_files p fs : files (ReadFile p fs).2 = files fs.
Proof. unfold ReadFile. by destruct (fault _ _) as [[]|]. Qed.
Lemma MkdirAll_files p fs : files (MkdirAll p fs).2 = files fs.
Proof. unfold MkdirAll. destruct (fault _ _) as [[]|]; [done|]. by destruct (existsb _ _). Qed.

Lemma keeps_Stat P p : keeps_files P (Stat p).
Proof. intros fs q f _. by rewrite Stat_files. Qed.
Lemma keeps_ReadFile P p : keeps_files P (ReadFile p).
Proof. intros fs q f _. by rewrite ReadFile_files. Qed.
Lemma keeps_MkdirAll P p : keeps_files P (MkdirAll p).
Proof. intros fs q f _. by rewrite MkdirAll_files. Qed.

Lemma WriteFile_other p data mode fs q : q <> p -> files (WriteFile p data mode fs).2 !! q = files fs !! q.
Proof.
  intros Hq. unfold WriteFile. destruct (fault _ _) as [[e [n|]]|]; cbn [snd files tick set_files]; [|done|].
  - by rewrite lookup_insert_ne.
  - case_bool_decide; [done|]. case_bool_decide; [|done]. cbn. by rewrite lookup_insert_ne.
Qed.

Lemma keeps_WriteFile P p data mode : ~ P p -> keeps_files P (WriteFile p data mode).
Proof. intros Hp fs q f Hq Hf. rewrite WriteFile_other; [done|]. by intros ->. Qed.

Lemma keeps_Rename P p q : ~ P p -> ~ P q -> keeps_files P (Rename p q).
Proof.
  intros Hp Hq fs x f Hx Hf. unfold Rename. destruct (fault _ _) as [[]|]; [done|].
  destruct (files fs !! p); [|done]. case_bool_decide; [done|]. cbn.
  rewrite lookup_insert_ne by by intros ->. by rewrite lookup_delete_ne by by intros ->.
Qed.

Lemma keeps_Remove P p : ~ P p -> keeps_files P (Remove p).
Proof.
  intros Hp fs x f Hx Hf. unfold Remove. destruct (fault _ _) as [[]|]; [done|]. cbn.
  by rewrite lookup_delete_ne by by intros ->.
Qed.

End Keeps.

#[export] Hint Resolve keeps_files_ret keeps_files_bind keeps_Stat keeps_ReadFile keeps_MkdirAll keeps_WriteFile
  keeps_Rename keeps_Remove : smoker.

Example dir_ex : filepath_Dir "/etc/smoker/config.yaml" = "/etc/smoker" /\ filepath_Dir "/sbin" = "/".
Proof. split; vm_compute; reflexivity. Qed.
Example parents_ex : parents "/var/log/smoker" = ["/var/log/smoker"; "/var/log"; "/var"; "/"].
Proof. vm_compute. reflexivity. Qed.
