(* ===== verification/Bootstrap.v ===== *)
(** * Provisioning a host ([internal/bootstrap/bootstrap.go], [internal/paths/paths.go])

    [Ensure], [NeedsInit] and [Install] over the file system of [FileSys].  The
    embedded tree [skel] and the embedded unit file are arguments: their paths
    and contents are data. *)

From S2P Require Export FileSys.

(** ** internal/paths *)

Module Paths.
Definition Binary : string := "/sbin/smoker".
Definition ConfigDir : string := "/etc/smoker".
Definition ConfigFile : string := "/etc/smoker/config.yaml".
Definition TemplatesDir : string := "/etc/smoker/templates".
Definition WhitelistDir : string := "/etc/smoker/whitelist".
Definition BlocklistDir : string := "/etc/smoker/blocklist".
Definition TrustedProxiesDir : string := "/etc/smoker/trusted-proxies".
Definition LogDir : string := "/var/log/smoker".
Definition ReputationDB : string := "/var/log/smoker/reputation.db".
Definition AssetsDir : string := "/var/www/smoker".
Definition AccessLog : string := "access.log".
Definition BlockedLog : string := "blocked.log".
Definition ReputationLog : string := "reputation.log".
Definition ServiceLog : string := "smoker.log".
Definition BackendLog : string := "backend.log".
End Paths.

Definition SystemdUnitPath : string := "/etc/systemd/system/smoker.service".

(** [Report] *)
Record Report := { r_Files : list string; r_Binary : string; r_Unit : string; r_UnitWritten : bool }.

Section Bootstrap.
Context `{Faults}.
(** The files of the embedded tree in walk order, as [skel/...] paths with
    their data, and the unit file. *)
Context (skel : list (string * string)) (unitFile : string).

Definition base_dirs : list string :=
  [Paths.ConfigDir; Paths.TemplatesDir; Paths.WhitelistDir; Paths.BlocklistDir;
   Paths.TrustedProxiesDir; Paths.LogDir; Paths.AssetsDir].

(** The loop over the base directories, up to the first error. *)
Fixpoint mkdirs (ds : list string) : Sys (option oserr) :=
  match ds with
  | [] => mret None
  | d :: ds =>
      r ← MkdirAll d;
      match r with Some e => mret (Some e) | None => mkdirs ds end
  end.

(** [strings.TrimPrefix] *)
Definition TrimPrefix (s p : string) : string :=
  if HasPrefix s p then str_drop (String.length p) s else s.

Definition target_of (cfgPath p : string) : string :=
  let rel := TrimPrefix p "skel/" in
  if rel =?s "etc/smoker/config.yaml" then cfgPath else "/" +:+ rel.

Definition file_mode (target : string) : Z := if HasSuffix target "config.yaml" then 416 else 420.

(** The walk's callback on one embedded file: an error, or what it created.
    The modes are octal 0640 and 0644. *)
Definition materialize (cfgPath p data : string) : Sys (oserr + list string) :=
  let target := target_of cfgPath p in
  st ← Stat target;
  match st with
  | inr _ => mret (inr [])
  | inl _ =>
      r ← MkdirAll (filepath_Dir target);
      match r with
      | Some e => mret (inl e)
      | None =>
          r ← WriteFile target data (file_mode target);
          match r with
          | Some e => mret (inl e)
          | None => mret (inr [target])
          end
      end
  end.

(** [fs.WalkDir] over the embedded files; the embedded tree itself never
    fails. *)
Fixpoint walk_skel (cfgPath : string) (l : list (string * string)) (created : list string) :
    Sys (list string * option oserr) :=
  match l with
  | [] => mret (created, None)
  | (p, data) :: l =>
      r ← materialize cfgPath p data;
      match r with
      | inl e => mret (created, Some e)
      | inr new => walk_skel cfgPath l (created ++ new)
      end
  end.

Definition cfg_path (cfgPath : string) : string := if cfgPath =?s "" then Paths.ConfigFile else cfgPath.

Definition Ensure (cfgPath : string) : Sys (list string * option oserr) :=
  r ← mkdirs base_dirs;
  match r with
  | Some e => mret ([], Some e)
  | None => walk_skel (cfg_path cfgPath) skel []
  end.

Definition NeedsInit (cfgPath : string) : Sys bool :=
  st ← Stat cfgPath;
  mret (match st with inl NotExist => true | _ => false end).

(** [os.Executable] with [filepath.EvalSymlinks]: the path of the running
    binary, or an error *)
Definition installBinary (self : oserr + string) : Sys (oserr + string) :=
  match self with
  | inl e => mret (inl e)
  | inr self =>
      let dst := Paths.Binary in
      if self =?s dst then mret (inr "")
      else
        d ← ReadFile self;
        match d with
        | inl e => mret (inl e)
        | inr data =>
            r ← MkdirAll (filepath_Dir dst);
            match r with
            | Some e => mret (inl e)
            | None =>
                let tmp := dst +:+ ".new" in
                r ← WriteFile tmp data 493;
                match r with
                | Some e => mret (inl e)
                | None =>
                    r ← Rename tmp dst;
                    match r with
                    | Some e => _ ← Remove tmp; mret (inl e)
                    | None => mret (inr dst)
                    end
                end
            end
        end
  end.

Definition writeUnit : Sys (string * bool * option oserr) :=
  st ← Stat SystemdUnitPath;
  match st with
  | inr _ => mret (SystemdUnitPath, false, None)
  | inl _ =>
      r ← MkdirAll (filepath_Dir SystemdUnitPath);
      match r with
      | Some e => mret (SystemdUnitPath, false, Some e)
      | None =>
          r ← WriteFile SystemdUnitPath unitFile 420;
          match r with
          | Some e => mret (SystemdUnitPath, false, Some e)
          | None => mret (SystemdUnitPath, true, None)
          end
      end
  end.

Definition Install (cfgPath : string) (self : oserr + string) : Sys (Report * option oserr) :=
  en ← Ensure cfgPath;
  match en with
  | (_, Some e) => mret ({| r_Files := []; r_Binary := ""; r_Unit := ""; r_UnitWritten := false |}, Some e)
  | (created, None) =>
      bin ← installBinary self;
      match bin with
      | inl e => mret ({| r_Files := created; r_Binary := ""; r_Unit := ""; r_UnitWritten := false |}, Some e)
      | inr bin =>
          u ← writeUnit;
          match u with
          | (_, _, Some e) =>
              mret ({| r_Files := created; r_Binary := bin; r_Unit := ""; r_UnitWritten := false |}, Some e)
          | (u, wrote, None) =>
              mret ({| r_Files := created; r_Binary := bin; r_Unit := u; r_UnitWritten := wrote |}, None)
          end
      end
  end.

(** ** Nothing is overwritten

    [Ensure] and [writeUnit] take any error of [os.Stat] for a missing file, so
    what protects a file of the operator is that [Stat] sees it. *)

(** No look at [q] fails, for want of permission or the like; anything else
    may. *)
Definition seen (q : string) : Prop := forall n, fault n (SysStat q) = None.

Lemma Stat_present p fs f : seen p -> files fs !! p = Some f -> exists b, (Stat p fs).1 = inr b.
Proof.
  intros Hs Hf. unfold Stat. rewrite Hs. cbn. case_bool_decide; [eauto|]. rewrite Hf. eauto.
Qed.

Lemma keeps_weaken {A} (P Q : string -> Prop) (m : Sys A) :
  (forall q, Q q -> P q) -> keeps_files P m -> keeps_files Q m.
Proof. intros HPQ Hm fs q f Hq. by apply Hm, HPQ. Qed.

(** Writing a file that [Stat] does not find overwrites nothing that is seen. *)
Lemma keeps_create {A} p data mode (found : bool -> Sys A) (failed : oserr -> Sys A)
    (made : option oserr -> Sys A) :
  (forall b, keeps_files seen (found b)) -> (forall r, keeps_files seen (failed r)) ->
  (forall r, keeps_files seen (made r)) ->
  keeps_files seen (st ← Stat p;
    match st with
    | inr b => found b
    | inl _ =>
        r ← MkdirAll (filepath_Dir p);
        match r with
        | Some e => failed e
        | None => r ← WriteFile p data mode; made r
        end
    end).
Proof.
  intros Hfo Hfa Hma fs q f Hs Hf. unfold mbind at 1, Sys_bind.
  pose proof (Stat_files p fs) as Efs. destruct (Stat p fs) as [st fs1] eqn:E. cbn [snd] in Efs.
  destruct st as [e|b]; [|apply Hfo; by rewrite ?Efs].
  destruct (decide (q = p)) as [->|Hne].
  - exfalso. destruct (Stat_present p fs f Hs Hf) as (b & Hb). by rewrite E in Hb.
  - unfold mbind at 1, Sys_bind. pose proof (MkdirAll_files (filepath_Dir p) fs1) as Em.
    destruct (MkdirAll (filepath_Dir p) fs1) as [r fs2]. cbn [snd] in Em.
    destruct r as [e2|]; [apply Hfa; by rewrite ?Em, ?Efs|].
    unfold mbind, Sys_bind. pose proof (WriteFile_other p data mode fs2 q Hne) as Ew.
    destruct (WriteFile p data mode fs2) as [r fs3]. apply Hma; [done|]. cbn [snd] in Ew. by rewrite Ew, Em, Efs.
Qed.

Lemma materialize_keeps cfgPath p data : keeps_files seen (materialize cfgPath p data).
Proof.
  unfold materialize.
  apply (keeps_create _ data (file_mode (target_of cfgPath p)) (fun _ => mret (inr []))
    (fun e => mret (inl e))
    (fun r => match r with Some e => mret (inl e) | None => mret (inr [target_of cfgPath p]) end));
    intros; try destruct r; apply keeps_files_ret.
Qed.

Lemma writeUnit_keeps : keeps_files seen writeUnit.
Proof.
  unfold writeUnit.
  apply (keeps_create _ unitFile 420 (fun _ => mret (SystemdUnitPath, false, None))
    (fun e => mret (SystemdUnitPath, false, Some e))
    (fun r => match r with Some e => mret (SystemdUnitPath, false, Some e) | None => mret (SystemdUnitPath, true, None) end));
    intros; try destruct r; apply keeps_files_ret.
Qed.

Lemma mkdirs_keeps ds : keeps_files seen (mkdirs ds).
Proof.
  induction ds as [|d ds IH]; [apply keeps_files_ret|]. cbn [mkdirs].
  apply keeps_files_bind; [apply keeps_MkdirAll|]. intros [e|]; [apply keeps_files_ret|done].
Qed.

Lemma walk_skel_keeps cfgPath l created : keeps_files seen (walk_skel cfgPath l created).
Proof.
  revert created. induction l as [|[p data] l IH]; intros created; [apply keeps_files_ret|].
  cbn [walk_skel]. apply keeps_files_bind; [apply materialize_keeps|].
  intros [e|new]; [apply keeps_files_ret|apply IH].
Qed.

Lemma Ensure_keeps cfgPath : keeps_files seen (Ensure cfgPath).
Proof.
  unfold Ensure. apply keeps_files_bind; [apply mkdirs_keeps|].
  intros [e|]; [apply keeps_files_ret|apply walk_skel_keeps].
Qed.

Definition binary_path (q : string) : Prop := q = Paths.Binary \/ q = Paths.Binary +:+ ".new".

Lemma installBinary_keeps self : keeps_files (fun q => ~ binary_path q) (installBinary self).
Proof.
  unfold installBinary. destruct self as [e|self]; [apply keeps_files_ret|].
  destruct (self =?s Paths.Binary); [apply keeps_files_ret|].
  apply keeps_files_bind; [apply keeps_ReadFile|]. intros [e|data]; [apply keeps_files_ret|].
  apply keeps_files_bind; [apply keeps_MkdirAll|]. intros [e|]; [apply keeps_files_ret|].
  apply keeps_files_bind; [apply keeps_WriteFile; unfold binary_path; tauto|]. intros [e|]; [apply keeps_files_ret|].
  apply keeps_files_bind; [apply keeps_Rename; unfold binary_path; tauto|]. intros [e|]; [|apply keeps_files_ret].
  apply keeps_files_bind; [apply keeps_Remove; unfold binary_path; tauto|]. intros _. apply keeps_files_ret.
Qed.

Lemma Install_keeps cfgPath self :
  keeps_files (fun q => seen q /\ ~ binary_path q) (Install cfgPath self).
Proof.
  unfold Install. apply keeps_files_bind.
  { eapply keeps_weaken; [|apply Ensure_keeps]. tauto. }
  intros [created [e|]]; [apply keeps_files_ret|]. apply keeps_files_bind.
  { eapply keeps_weaken; [|apply installBinary_keeps]. cbn. tauto. }
  intros [e|bin]; [apply keeps_files_ret|]. apply keeps_files_bind.
  { eapply keeps_weaken; [|apply writeUnit_keeps]. tauto. }
  intros [[u wrote] [e|]]; apply keeps_files_ret.
Qed.

(** (C40) Installing does not overwrite a file of the operator that it sees: a file
    that was there, and of which no [Stat] fails, is still there with its
    content and mode, whatever other calls fail on the way, the [Stat] of other
    files included, and wherever the installation stops.  The binary
    [/sbin/smoker] and its temporary copy [/sbin/smoker.new] are the only
    exceptions.  (A file whose [Stat] fails is overwritten:
    [unseen_unit_overwritten], [unseen_default_overwritten].) *)
Theorem Install_overwrites_nothing cfgPath self fs q f :
  (forall n, fault n (SysStat q) = None) ->
  files fs !! q = Some f -> q <> Paths.Binary -> q <> Paths.Binary +:+ ".new" ->
  files (Install cfgPath self fs).2 !! q = Some f.
Proof.
  intros Hs Hf Hq1 Hq2. apply Install_keeps; [|done]. split; [done|]. unfold binary_path. tauto.
Qed.

(** [p] can be written: its directory can be made, and it is none itself. *)
Record writable (fs : fsys) (p : string) : Prop := {
  wr_above d : d ∈ parents (filepath_Dir p) -> d ∉ dom (files fs);
  wr_itself : (p ∉ dirs fs) /\ p ∉ parents (filepath_Dir p);
}.

(** A [Stat] that fails, and then nothing else: the file is written, and keeps
    nothing but its mode. *)
Lemma unseen_created p data mode fs e b f :
  fault (calls fs) (SysStat p) = Some (e, b) -> (forall n c, (calls fs < n)%nat -> fault n c = None) ->
  writable fs p -> files fs !! p = Some f ->
  exists fs1 fs2 fs3, Stat p fs = (inl (Failed e), fs1) /\ MkdirAll (filepath_Dir p) fs1 = (None, fs2) /\
    WriteFile p data mode fs2 = (None, fs3) /\ files fs3 !! p = Some (data, f.2).
Proof.
  intros Hs Hok [Hpar [Hd Hp]] Hf. eexists _, _, _. unfold Stat. rewrite Hs. split; [done|].
  assert (He : existsb (fun d => bool_decide (d ∈ dom (files fs))) (parents (filepath_Dir p)) = false).
  { apply not_true_iff_false. intros (d & Hdin & Hb)%existsb_exists. apply bool_decide_eq_true in Hb.
    eapply Hpar; [|exact Hb]. by apply list_elem_of_In. }
  unfold MkdirAll. cbn [calls tick files dirs]. rewrite Hok, He by lia. split; [done|].
  unfold WriteFile. cbn [calls files dirs]. rewrite Hok by lia.
  rewrite bool_decide_eq_false_2 by (rewrite elem_of_union, elem_of_list_to_set; tauto).
  rewrite bool_decide_eq_true_2.
  2: { apply elem_of_union_l, elem_of_list_to_set. unfold parents. cbn [dir_chain]. case_match; left. }
  split; [done|]. cbn. rewrite Hf. by rewrite lookup_insert_eq.
Qed.

(** The unit file that the operator edited is clobbered when [Stat] fails on it
    with any error, and the report says it was written newly. *)
Theorem unseen_unit_overwritten fs e b f :
  fault (calls fs) (SysStat SystemdUnitPath) = Some (e, b) ->
  (forall n c, (calls fs < n)%nat -> fault n c = None) ->
  writable fs SystemdUnitPath -> files fs !! SystemdUnitPath = Some f ->
  exists fs', writeUnit fs = ((SystemdUnitPath, true, None), fs') /\
    files fs' !! SystemdUnitPath = Some (unitFile, f.2).
Proof.
  intros Hs Hok Hw Hf.
  destruct (unseen_created _ unitFile 420 _ _ _ _ Hs Hok Hw Hf) as (fs1 & fs2 & fs3 & E1 & E2 & E3 & Hr).
  exists fs3. split; [|done]. unfold writeUnit, mbind, Sys_bind. by rewrite E1, E2, E3.
Qed.

(** So is any file for which there is an embedded default, the configuration
    included. *)
Theorem unseen_default_overwritten cfgPath p data fs e b f :
  let target := target_of cfgPath p in
  fault (calls fs) (SysStat target) = Some (e, b) ->
  (forall n c, (calls fs < n)%nat -> fault n c = None) ->
  writable fs target -> files fs !! target = Some f ->
  exists fs', materialize cfgPath p data fs = (inr [target], fs') /\ files fs' !! target = Some (data, f.2).
Proof.
  intros target Hs Hok Hw Hf.
  destruct (unseen_created _ data (file_mode target) _ _ _ _ Hs Hok Hw Hf) as (fs1 & fs2 & fs3 & E1 & E2 & E3 & Hr).
  exists fs3. split; [|done]. unfold materialize, mbind, Sys_bind. fold target. by rewrite E1, E2, E3.
Qed.

(** The binary is replaced as a whole: at the end, however the copy went, the
    installed binary is either what it was before, and then an error or the
    empty path is returned, or the running executable. *)
Theorem installBinary_is_atomic self fs r fs' :
  self <> Paths.Binary ->
  installBinary (inr self) fs = (r, fs') ->
  (files fs' !! Paths.Binary = files fs !! Paths.Binary /\ exists e, r = inl e) \/
  (exists data mode, fst <$> files fs !! self = Some data /\
     files fs' !! Paths.Binary = Some (data, mode) /\ r = inr Paths.Binary).
Proof.
  intros Hself. unfold installBinary. rewrite (proj2 (String.eqb_neq _ _)) by done.
  unfold mbind at 1, Sys_bind. pose proof (ReadFile_files self fs) as E1.
  assert (Hd : forall data fs1, ReadFile self fs = (inr data, fs1) -> fst <$> files fs !! self = Some data).
  { intros data fs1. unfold ReadFile. destruct (fault _ _) as [[]|]; [done|].
    destruct (files fs !! self); [|done]. by intros [= <- _]. }
  destruct (ReadFile self fs) as [[e|data] fs1]; cbn [snd] in E1; [intros [= <- <-]; left; by rewrite E1; eauto|].
  specialize (Hd data fs1 eq_refl). unfold mbind at 1, Sys_bind.
  pose proof (MkdirAll_files (filepath_Dir Paths.Binary) fs1) as E2.
  destruct (MkdirAll _ fs1) as [[e|] fs2]; cbn [snd] in E2; [intros [= <- <-]; left; by rewrite E2, E1; eauto|].
  unfold mbind at 1, Sys_bind.
  pose proof (WriteFile_other (Paths.Binary +:+ ".new") data 493 fs2 Paths.Binary ltac:(done)) as E3.
  assert (Hw : forall fs3, WriteFile (Paths.Binary +:+ ".new") data 493 fs2 = (None, fs3) ->
            exists mode, files fs3 !! (Paths.Binary +:+ ".new") = Some (data, mode)).
  { intros fs3. unfold WriteFile. destruct (fault _ _) as [[e [n|]]|]; [done..|].
    case_bool_decide; [done|]. case_bool_decide; [|done]. intros [= <-]. cbn. eexists. apply lookup_insert_eq. }
  destruct (WriteFile _ _ _ fs2) as [[e|] fs3]; cbn [snd] in E3;
    [intros [= <- <-]; left; rewrite E3, E2, E1; eauto|].
  destruct (Hw fs3 eq_refl) as (mode & Hmode). unfold mbind, Sys_bind.
  unfold Rename. destruct (fault _ _) as [[e b]|].
  - unfold Remove. intros Hr. left. destruct (fault _ _) as [[e2 b2]|]; injection Hr as <- <-; cbn.
    + rewrite E3, E2, E1. eauto.
    + rewrite lookup_delete_ne by done. rewrite E3, E2, E1. eauto.
  - rewrite Hmode. case_bool_decide.
    + unfold Remove. intros Hr. left. destruct (fault _ _) as [[e2 b2]|]; injection Hr as <- <-; cbn.
      * rewrite E3, E2, E1. eauto.
      * rewrite lookup_delete_ne by done. rewrite E3, E2, E1. eauto.
    + intros [= <- <-]. right. exists data, mode. split; [done|]. split; [|done]. cbn. apply lookup_insert_eq.
Qed.

(** ** Everything is provisioned *)

Section Provision.
Context (Hok : forall n c, fault n c = None) (cfgPath : string).

Definition targets : list string := map (fun x => target_of (cfg_path cfgPath) x.1) skel.

(** The directories that have to exist, with those above them. *)
Definition needed_dirs : list string :=
  flat_map parents base_dirs ++ flat_map (fun t => parents (filepath_Dir t)) targets.

(** Nothing on the host is in the way: no needed directory is a file or a
    target, and no target is a directory. *)
Record host_ok (fs : fsys) : Prop := {
  ho_dirs d : d ∈ needed_dirs -> files fs !! d = None /\ d ∉ targets;
  ho_targets t : t ∈ targets -> t ∉ dirs fs;
}.

(** [fs1] is [fs0] with more of what is needed. *)
Record grown (fs0 fs1 : fsys) : Prop := {
  gr_dirs d : d ∈ dirs fs1 -> d ∈ dirs fs0 \/ d ∈ needed_dirs;
  gr_files q : q ∉ targets -> files fs1 !! q = files fs0 !! q;
  gr_more d : d ∈ dirs fs0 -> d ∈ dirs fs1;
}.

Lemma grown_refl fs : grown fs fs.
Proof. split; auto. Qed.

Lemma grown_tick fs0 fs1 : grown fs0 fs1 -> grown fs0 (tick fs1).
Proof. intros [H1 H2 H3]. by split. Qed.

Lemma grown_trans fs0 fs1 fs2 : grown fs0 fs1 -> grown fs1 fs2 -> grown fs0 fs2.
Proof.
  intros [H1 H2 H3] [K1 K2 K3]. split.
  - intros d Hd. destruct (K1 d Hd); auto.
  - intros q Hq. by rewrite K2, H2.
  - auto.
Qed.

Lemma host_ok_grown fs0 fs1 : host_ok fs0 -> grown fs0 fs1 -> host_ok fs1.
Proof.
  intros [H1 H2] [K1 K2 K3]. split.
  - intros d Hd. destruct (H1 d Hd) as [Hf Ht]. by rewrite K2.
  - intros t Ht Hd. destruct (K1 t Hd) as [|Hn]; [by eapply H2|]. by apply (H1 t Hn).
Qed.

Lemma parents_self p : p ∈ parents p.
Proof. unfold parents. cbn [dir_chain]. destruct (_ =?s p); left. Qed.

Lemma MkdirAll_ok fs p :
  host_ok fs -> (forall d, d ∈ parents p -> d ∈ needed_dirs) ->
  exists fs', MkdirAll p fs = (None, fs') /\ grown fs fs' /\ p ∈ dirs fs' /\ files fs' = files fs.
Proof.
  intros [Hd _] Hp. unfold MkdirAll. rewrite Hok.
  destruct (existsb _ (parents p)) eqn:E.
  - exfalso. apply existsb_exists in E as (d & Hin & Hb). apply bool_decide_eq_true in Hb.
    apply elem_of_dom in Hb as [f Hf]. destruct (Hd d (Hp d (proj2 (list_elem_of_In _ _) Hin))) as [Hn _].
    congruence.
  - eexists. split; [reflexivity|]. split; [|split; [|done]]; cbn.
    + split; cbn; [|done|set_solver]. intros d [Hin|]%elem_of_union; [|by left].
      right. apply Hp. by apply elem_of_list_to_set in Hin.
    + apply elem_of_union_l, elem_of_list_to_set, parents_self.
Qed.

Lemma WriteFile_ok fs t data mode :
  host_ok fs -> t ∈ targets -> filepath_Dir t ∈ dirs fs -> files fs !! t = None ->
  exists fs', WriteFile t data mode fs = (None, fs') /\ grown fs fs' /\
    files fs' = <[t := (data, mode)]> (files fs).
Proof.
  intros [_ Ht] Hin Hdir Hf. unfold WriteFile. rewrite Hok.
  rewrite bool_decide_eq_false_2 by by apply Ht. rewrite bool_decide_eq_true_2 by done.
  eexists. split; [reflexivity|]. rewrite Hf. split; [|done]. split; cbn; [auto| |done].
  intros q Hq. rewrite lookup_insert_ne; [done|]. by intros ->.
Qed.

(** One embedded file: created unless it is there. *)
Lemma materialize_ok fs p data :
  host_ok fs -> (p, data) ∈ skel ->
  let t := target_of (cfg_path cfgPath) p in
  exists fs', materialize (cfg_path cfgPath) p data fs =
      (inr (match files fs !! t with Some _ => [] | None => [t] end), fs') /\
    grown fs fs' /\
    files fs' = match files fs !! t with
                | Some _ => files fs
                | None => <[t := (data, file_mode t)]> (files fs) end.
Proof.
  intros Hh Hin t.
  assert (Ht : t ∈ targets) by (apply list_elem_of_fmap; by exists (p, data)).
  unfold materialize. fold t. unfold mbind at 1, Sys_bind. unfold Stat. rewrite Hok.
  rewrite bool_decide_eq_false_2 by by apply (ho_targets _ Hh).
  destruct (files fs !! t) as [f|] eqn:Ef.
  { eexists. split; [reflexivity|]. split; [apply grown_tick, grown_refl|done]. }
  unfold mbind at 1, Sys_bind.
  destruct (MkdirAll_ok (tick fs) (filepath_Dir t)) as (fs1 & -> & Hg1 & Hdir & Ef1).
  - eapply host_ok_grown; [exact Hh|apply grown_tick, grown_refl].
  - intros d Hd. apply elem_of_app. right. apply list_elem_of_In, in_flat_map. exists t.
    split; by apply list_elem_of_In.
  - unfold mbind, Sys_bind.
    assert (Hg : grown fs fs1) by (eapply grown_trans; [apply grown_tick, grown_refl|exact Hg1]).
    destruct (WriteFile_ok fs1 t data (file_mode t)) as (fs2 & -> & Hg2 & Ef2); [|done|done| |].
    + by eapply host_ok_grown.
    + by rewrite Ef1.
    + eexists. split; [reflexivity|]. split; [by eapply grown_trans|]. by rewrite Ef2, Ef1.
Qed.

Definition missing (fs : fsys) (l : list (string * string)) : list (string * string) :=
  List.filter (fun x => match files fs !! target_of (cfg_path cfgPath) x.1 with Some _ => false | None => true end) l.

Lemma walk_skel_ok l fs created :
  host_ok fs -> (forall x, x ∈ l -> x ∈ skel) ->
  NoDup (map (fun x => target_of (cfg_path cfgPath) x.1) l) ->
  exists fs', walk_skel (cfg_path cfgPath) l created fs =
      ((created ++ map (fun x => target_of (cfg_path cfgPath) x.1) (missing fs l), None), fs') /\
    grown fs fs' /\
    (forall p data, (p, data) ∈ l -> files fs' !! target_of (cfg_path cfgPath) p =
       match files fs !! target_of (cfg_path cfgPath) p with
       | Some f => Some f
       | None => Some (data, file_mode (target_of (cfg_path cfgPath) p)) end) /\
    (forall q, q ∉ map (fun x => target_of (cfg_path cfgPath) x.1) l -> files fs' !! q = files fs !! q).
Proof.
  revert fs created. induction l as [|[p data] l IH]; intros fs created Hh Hl Hnd.
  - cbn. rewrite app_nil_r. exists fs. split; [done|]. split; [apply grown_refl|].
    split; [by intros ?? ?%elem_of_nil|done].
  - cbn [map] in Hnd. apply NoDup_cons in Hnd as [Hni Hnd]. cbn [fst] in Hni.
    set (t := target_of (cfg_path cfgPath) p) in *.
    destruct (materialize_ok fs p data Hh (Hl _ ltac:(left))) as (fs1 & Hm & Hg1 & Ef1). fold t in Hm, Ef1.
    cbn [walk_skel]. unfold mbind, Sys_bind. rewrite Hm.
    destruct (IH fs1 (created ++ match files fs !! t with Some _ => [] | None => [t] end))
      as (fs2 & Hw & Hg2 & Hin & Hout); [by eapply host_ok_grown|intros x Hx; apply Hl; by right|done|].
    assert (Hsame : forall q, q <> t -> files fs1 !! q = files fs !! q).
    { intros q Hq. rewrite Ef1. destruct (files fs !! t); [done|]. by rewrite lookup_insert_ne. }
    assert (Hmiss : missing fs1 l = missing fs l).
    { unfold missing. apply filter_ext_in. intros x Hx. rewrite Hsame; [done|]. intros E. apply Hni.
      rewrite <- E. apply list_elem_of_In. by apply (in_map (fun x => target_of (cfg_path cfgPath) x.1)). }
    exists fs2. rewrite Hw. split; [|split; [by eapply grown_trans|split]].
    + rewrite Hmiss. unfold missing at 2. cbn [List.filter fst]. fold t. fold (missing fs l).
      destruct (files fs !! t); cbn [map fst]; [by rewrite app_nil_r|]. fold t. by rewrite <- app_assoc.
    + intros p' d' [E|Hpd]%elem_of_cons.
      * injection E as -> ->. fold t. rewrite Hout by done. rewrite Ef1.
        destruct (files fs !! t) eqn:E; [done|]. by rewrite lookup_insert_eq.
      * rewrite (Hin _ _ Hpd). rewrite Hsame; [done|]. intros E. apply Hni. rewrite <- E.
        apply list_elem_of_fmap. by exists (p', d').
    + intros q Hq. cbn [map] in Hq. apply not_elem_of_cons in Hq as [Hq1 Hq2]. rewrite Hout by done.
      by apply Hsame.
Qed.

Lemma mkdirs_ok ds fs :
  host_ok fs -> (forall d, d ∈ ds -> d ∈ base_dirs) ->
  exists fs', mkdirs ds fs = (None, fs') /\ grown fs fs' /\ files fs' = files fs /\
    forall d, d ∈ ds -> d ∈ dirs fs'.
Proof.
  revert fs. induction ds as [|d ds IH]; intros fs Hh Hds.
  - exists fs. split; [done|]. split; [apply grown_refl|]. split; [done|]. by intros ? ?%elem_of_nil.
  - cbn [mkdirs]. unfold mbind, Sys_bind.
    destruct (MkdirAll_ok fs d Hh) as (fs1 & -> & Hg1 & Hin & Ef1).
    { intros x Hx. apply elem_of_app. left. apply list_elem_of_In, in_flat_map. exists d.
      split; apply list_elem_of_In; [apply Hds; left|done]. }
    destruct (IH fs1) as (fs2 & -> & Hg2 & Ef2 & Hall); [by eapply host_ok_grown|intros; apply Hds; by right|].
    exists fs2. split; [done|]. split; [by eapply grown_trans|]. split; [by rewrite Ef2|].
    intros x [->|Hx]%elem_of_cons; [|by apply Hall]. by apply (gr_more _ _ Hg2).
Qed.

Lemma Ensure_ok fs :
  host_ok fs -> NoDup targets ->
  exists fs', Ensure cfgPath fs =
      ((map (fun x => target_of (cfg_path cfgPath) x.1) (missing fs skel), None), fs') /\
    grown fs fs' /\ (forall d, d ∈ base_dirs -> d ∈ dirs fs') /\
    (forall p data, (p, data) ∈ skel -> files fs' !! target_of (cfg_path cfgPath) p =
       match files fs !! target_of (cfg_path cfgPath) p with
       | Some f => Some f
       | None => Some (data, file_mode (target_of (cfg_path cfgPath) p)) end) /\
    (forall q, q ∉ targets -> files fs' !! q = files fs !! q).
Proof.
  intros Hh Hnd. unfold Ensure. unfold mbind, Sys_bind.
  destruct (mkdirs_ok base_dirs fs Hh ltac:(auto)) as (fs1 & -> & Hg1 & Ef1 & Hd1).
  destruct (walk_skel_ok skel fs1 []) as (fs2 & Hw & Hg2 & Hin & Hout); [by eapply host_ok_grown|auto|done|].
  exists fs2. rewrite Hw. split; [|split; [by eapply grown_trans|split; [|split]]].
  - unfold missing. by rewrite Ef1.
  - intros d Hd. by apply (gr_more _ _ Hg2), Hd1.
  - intros p data Hpd. rewrite (Hin p data Hpd). by rewrite Ef1.
  - intros q Hq. rewrite Hout by done. by rewrite Ef1.
Qed.

(** On a host where no call fails and nothing is in the way, [Ensure] creates
    exactly what is missing: it reports the missing targets in walk order,
    afterwards all base directories exist and every target holds either what
    the operator had there or the embedded default with its mode, no other file
    has changed, and a second run creates nothing and changes no file. *)
Theorem Ensure_provisions fs :
  host_ok fs -> NoDup targets ->
  exists fs', Ensure cfgPath fs =
      ((List.filter (fun t => match files fs !! t with Some _ => false | None => true end) targets, None), fs') /\
    (forall d, d ∈ base_dirs -> d ∈ dirs fs') /\
    (forall p data, (p, data) ∈ skel -> files fs' !! target_of (cfg_path cfgPath) p =
       match files fs !! target_of (cfg_path cfgPath) p with
       | Some f => Some f
       | None => Some (data, file_mode (target_of (cfg_path cfgPath) p)) end) /\
    (forall q, q ∉ targets -> files fs' !! q = files fs !! q) /\
    exists fs'', Ensure cfgPath fs' = (([], None), fs'') /\ files fs'' = files fs'.
Proof.
  intros Hh Hnd. destruct (Ensure_ok fs Hh Hnd) as (fs1 & He & Hg & Hd & Hin & Hout).
  exists fs1. rewrite He. split; [|split; [done|split; [done|split; [done|]]]].
  - f_equal. f_equal. unfold missing, targets. clear. induction skel as [|x l IH]; [done|].
    cbn [List.filter map]. destruct (files fs !! _); cbn [map]; by rewrite IH.
  - destruct (Ensure_ok fs1 (host_ok_grown _ _ Hh Hg) Hnd) as (fs2 & He2 & Hg2 & _ & Hin2 & Hout2).
    assert (Hall : forall p data, (p, data) ∈ skel -> exists f, files fs1 !! target_of (cfg_path cfgPath) p = Some f).
    { intros p data Hpd. rewrite (Hin p data Hpd). destruct (files fs !! _); eauto. }
    exists fs2. rewrite He2. split.
    + f_equal. f_equal. unfold missing.
      assert (Hnil : forall l, (forall x, x ∈ l -> x ∈ skel) -> List.filter (fun x => match files fs1 !!
        target_of (cfg_path cfgPath) x.1 with Some _ => false | None => true end) l = []).
      { induction l as [|[p data] l IH]; intros Hl; [done|]. cbn [List.filter fst].
        destruct (Hall p data (Hl _ ltac:(left))) as [f ->]. apply IH. intros; apply Hl. by right. }
      by rewrite Hnil.
    + apply map_eq. intros q. destruct (decide (q ∈ targets)) as [Hq|Hq]; [|by apply Hout2].
      apply list_elem_of_fmap in Hq as ([p data] & -> & Hpd). cbn [fst].
      rewrite (Hin2 p data Hpd). destruct (Hall p data Hpd) as [f ->]. done.
Qed.

End Provision.
End Bootstrap.

(** ** Examples and witnesses *)

Module BootstrapExamples.

(** The files embedded in the binary, in walk order. *)
Definition skel0 : list (string * string) :=
  [("skel/etc/logrotate.d/smoker", "rotate"); ("skel/etc/smoker/config.yaml", "listen: {}");
   ("skel/var/www/smoker/blocked.html", "<b>"); ("skel/var/www/smoker/captcha.html", "<c>");
   ("skel/var/www/smoker/challenge.html", "<h>")].

Definition root_fs (m : gmap string (string * Z)) : fsys := {| files := m; dirs := {["/"]}; calls := 0 |}.
Definition old_host : fsys := root_fs {["/var/www/smoker/captcha.html" := ("mine", 420)]}.

#[local] Instance no_faults : Faults := fun _ _ => None.

Lemma old_host_ok : host_ok skel0 "" old_host.
Proof.
  assert (Hb : forallb (fun d => negb (bool_decide (d ∈ dom (files old_host))) &&
    negb (bool_decide (d ∈ targets skel0 ""))) (needed_dirs skel0 "") = true) by (vm_compute; reflexivity).
  rewrite forallb_forall in Hb. split.
  - intros d Hd. apply list_elem_of_In, Hb in Hd. apply andb_true_iff in Hd as [H1 H2].
    apply negb_true_iff, bool_decide_eq_false in H1, H2. split; [by apply not_elem_of_dom|done].
  - intros t Ht Hd. change (t ∈ ({["/"]} : gset string)) in Hd. apply elem_of_singleton in Hd as ->. revert Ht. vm_compute. intros Hin.
    repeat (apply elem_of_cons in Hin as [Hin|Hin]; [discriminate|]). by apply elem_of_nil in Hin.
Qed.

Lemma targets_NoDup : NoDup (targets skel0 "").
Proof. apply (bool_decide_eq_true_1 (NoDup (targets skel0 ""))). vm_compute. reflexivity. Qed.

Lemma Ensure_provisions_witness :
  exists created fs', Ensure skel0 "" old_host = ((created, None), fs') /\
    created = ["/etc/logrotate.d/smoker"; "/etc/smoker/config.yaml"; "/var/www/smoker/blocked.html";
               "/var/www/smoker/challenge.html"] /\
    exists fs'', Ensure skel0 "" fs' = (([], None), fs'') /\ files fs'' = files fs'.
Proof.
  destruct (Ensure_provisions skel0 (fun _ _ => eq_refl) "" old_host old_host_ok targets_NoDup)
    as (fs' & E & _ & _ & _ & H2).
  eexists _, fs'. split; [exact E|]. split; [vm_compute; reflexivity|exact H2].
Defined.

Definition unit0 : string := "[Unit]".
Definition full_host : fsys :=
  root_fs {["/usr/local/bin/smoker" := ("new", 493); "/sbin/smoker" := ("old", 493);
            "/etc/systemd/system/smoker.service" := ("[Unit] # mine", 420)]}.

(** A bad day: the default pages cannot be looked at, nor the temporary copy of
    the binary renamed. *)
Definition bad_day : Faults := fun _ c =>
  match c with
  | SysStat p => if p =?s "/var/www/smoker/captcha.html" then Some ("input/output error", None) else None
  | SysRename _ _ => Some ("read-only file system", None)
  | _ => None
  end.

Lemma Install_overwrites_nothing_witness :
  files (@Install bad_day skel0 unit0 "" (inr "/usr/local/bin/smoker") full_host).2 !! SystemdUnitPath
    = Some ("[Unit] # mine", 420).
Proof.
  apply (@Install_overwrites_nothing bad_day skel0 unit0 "" (inr "/usr/local/bin/smoker") full_host
    SystemdUnitPath ("[Unit] # mine", 420));
    [intros n; reflexivity|reflexivity|discriminate|discriminate].
Defined.

(** One look at the operator's files fails: the first page, and the unit. *)
Definition one_look (p : string) : Faults := fun n c =>
  match c with SysStat q => if p =?s q then Some ("input/output error", None) else None | _ => None end.

Example unseen_files_are_lost :
  let old := root_fs {["/var/www/smoker/captcha.html" := ("mine", 384);
                       "/etc/systemd/system/smoker.service" := ("[Unit] # mine", 420)]} in
  files (@Ensure (one_look "/var/www/smoker/captcha.html") skel0 "" old).2 !! "/var/www/smoker/captcha.html"
    = Some ("<c>", 384) /\
  files (@Install (one_look SystemdUnitPath) skel0 unit0 "" (inr Paths.Binary) old).2 !! SystemdUnitPath
    = Some ("[Unit]", 420).
Proof. vm_compute. split; reflexivity. Qed.

Lemma unseen_unit_overwritten_witness :
  exists fs', @writeUnit (fun n _ => if Nat.eqb n 0 then Some ("input/output error", None) else None) unit0 full_host
      = ((SystemdUnitPath, true, None), fs') /\
    files fs' !! SystemdUnitPath = Some ("[Unit]", 420).
Proof.
  apply (@unseen_unit_overwritten (fun n _ => if Nat.eqb n 0 then Some ("input/output error", None) else None)
    unit0 full_host "input/output error" None ("[Unit] # mine", 420)).
  - reflexivity.
  - intros [|n] c Hn; [inversion Hn|reflexivity].
  - split.
    + intros d Hd. apply (bool_decide_eq_false_1 (d ∈ dom (files full_host))).
      assert (Hall : forallb (fun d => negb (bool_decide (d ∈ dom (files full_host))))
        (parents (filepath_Dir SystemdUnitPath)) = true) by (vm_compute; reflexivity).
      rewrite forallb_forall in Hall. apply negb_true_iff, Hall. by apply list_elem_of_In.
    + split; [apply (bool_decide_eq_false_1 (SystemdUnitPath ∈ dirs full_host))|
              apply (bool_decide_eq_false_1 (SystemdUnitPath ∈ parents (filepath_Dir SystemdUnitPath)))];
        vm_compute; reflexivity.
  - reflexivity.
Defined.

Lemma installBinary_is_atomic_witness :
  exists r fs', installBinary (inr "/usr/local/bin/smoker") full_host = (r, fs') /\
    (files fs' !! Paths.Binary = Some ("old", 493) \/ exists mode, files fs' !! Paths.Binary = Some ("new", mode)).
Proof.
  destruct (installBinary (inr "/usr/local/bin/smoker") full_host) as [r fs'] eqn:E.
  exists r, fs'. split; [reflexivity|].
  destruct (installBinary_is_atomic "/usr/local/bin/smoker" full_host r fs' ltac:(discriminate) E)
    as [[H _]|(data & mode & Hd & H & _)].
  - left. rewrite H. reflexivity.
  - right. exists mode. rewrite H. injection Hd as <-. reflexivity.
Defined.

(** The disk is full when the default configuration is written: the empty file
    it leaves behind counts as the operator's, and is never completed. *)
Definition disk_full : Faults := fun _ c =>
  match c with SysWriteFile p => if p =?s Paths.ConfigFile then Some ("no space left", Some 0%nat) else None | _ => None end.

Example partial_default_stays :
  let fs1 := (@Ensure disk_full skel0 "" (root_fs ∅)).2 in
  (NeedsInit Paths.ConfigFile fs1).1 = false /\
  files (Ensure skel0 "" fs1).2 !! Paths.ConfigFile = Some ("", 416).
Proof. vm_compute. split; reflexivity. Qed.

End BootstrapExamples.
