(* ===== verification/Logging.v ===== *)
(** * Log files ([internal/logging/logging.go])

    The five log streams over files that can be renamed under them: opening,
    writing, and reopening on SIGHUP after a rotation.  A stream is shared by
    its [slog] handler and the map of [Loggers]; it is one entry of [files].
    The order in which [Reopen] and [Close] range over that map is an
    argument. *)

From S2P Require Export Bootstrap.

(** ** Descriptors

    The files by name, their lines, and the open descriptors.  [os.OpenFile]
    with [O_CREATE|O_WRONLY|O_APPEND] may fail for a reason outside the
    model. *)
Record os_state := {
  names : gmap string nat;
  lines : gmap nat (list string);
  fds : gmap nat nat;
  next : nat;
}.

Class OpenFaults := open_fault : nat -> string -> option string.

(** [reopenFile]: the descriptor and the path *)
Record reopenFile := { rf_f : nat; rf_path : string }.

(** [Loggers]; a stream's [slog.Logger] writes JSON lines to the file of its
    name. *)
Record Loggers := { l_dir : string; l_files : gmap string reopenFile }.

Section Logging.
Context `{OpenFaults}.

(** [os.OpenFile]: descriptors and files are numbered by [next]. *)
Definition OpenFile (path : string) (os : os_state) : (string + nat) * os_state :=
  match open_fault (next os) path with
  | Some e => (inl e, {| names := names os; lines := lines os; fds := fds os; next := S (next os) |})
  | None =>
      let ino := match names os !! path with Some ino => ino | None => next os end in
      (inr (next os),
       {| names := <[path := ino]> (names os);
          lines := match lines os !! ino with Some _ => lines os | None => <[ino := []]> (lines os) end;
          fds := <[next os := ino]> (fds os); next := S (next os) |})
  end.

(** [Write] and [Close] of an [os.File]: errors on a closed file *)
Definition fd_Write (fd : nat) (line : string) (os : os_state) : bool * os_state :=
  match fds os !! fd with
  | None => (false, os)
  | Some ino =>
      (true, {| names := names os; lines := <[ino := default [] (lines os !! ino) ++ [line]]> (lines os);
                fds := fds os; next := next os |})
  end.

Definition fd_Close (fd : nat) (os : os_state) : option string * os_state :=
  match fds os !! fd with
  | None => (Some "file already closed", os)
  | Some _ => (None, {| names := names os; lines := lines os; fds := delete fd (fds os); next := next os |})
  end.

Definition newReopenFile (path : string) (os : os_state) : (string + reopenFile) * os_state :=
  match OpenFile path os with
  | (inl e, os) => (inl e, os)
  | (inr fd, os) => (inr {| rf_f := fd; rf_path := path |}, os)
  end.

(** [reopen] of the stream [name] *)
Definition reopen (name : string) (l : Loggers) (os : os_state) : option string * Loggers * os_state :=
  match l_files l !! name with
  | None => (None, l, os)
  | Some rf =>
      match OpenFile (rf_path rf) os with
      | (inl e, os) => (Some e, l, os)
      | (inr fd, os) =>
          (None, {| l_dir := l_dir l; l_files := <[name := {| rf_f := fd; rf_path := rf_path rf |}]> (l_files l) |},
           (fd_Close (rf_f rf) os).2)
      end
  end.

Definition log_names : list string :=
  [Paths.AccessLog; Paths.BlockedLog; Paths.BackendLog; Paths.ReputationLog; Paths.ServiceLog].

(** [filepath.Join] *)
Definition log_path (dir name : string) : string := Clean (dir +:+ "/" +:+ name).

(** The calls of [mk] in [Open], up to the first error. *)
Fixpoint open_streams (ns : list string) (l : Loggers) (os : os_state) : (string + Loggers) * os_state :=
  match ns with
  | [] => (inr l, os)
  | name :: ns =>
      match newReopenFile (log_path (l_dir l) name) os with
      | (inl e, os) => (inl e, os)
      | (inr rf, os) => open_streams ns {| l_dir := l_dir l; l_files := <[name := rf]> (l_files l) |} os
      end
  end.

Definition Open (dir : string) (os : os_state) : (string + Loggers) * os_state :=
  let dir := if dir =?s "" then Paths.LogDir else dir in
  open_streams log_names {| l_dir := dir; l_files := ∅ |} os.

(** [Reopen], with the order of the map's keys *)
Fixpoint Reopen (order : list string) (l : Loggers) (os : os_state) : option string * Loggers * os_state :=
  match order with
  | [] => (None, l, os)
  | name :: order =>
      match reopen name l os with
      | (Some e, l, os) => (Some e, l, os)
      | (None, l, os) => Reopen order l os
      end
  end.

(** [Close], with the first error *)
Fixpoint Close (order : list string) (l : Loggers) (os : os_state) : option string * os_state :=
  match order with
  | [] => (None, os)
  | name :: order =>
      match l_files l !! name with
      | None => Close order l os
      | Some rf =>
          let '(err, os) := fd_Close (rf_f rf) os in
          let '(err', os) := Close order l os in
          (match err with Some e => Some e | None => err' end, os)
      end
  end.

(** A line written to a stream. *)
Definition log_line (l : Loggers) (name line : string) (os : os_state) : bool * os_state :=
  match l_files l !! name with
  | None => (false, os)
  | Some rf => fd_Write (rf_f rf) line os
  end.

(** What logrotate does: rename, or remove. *)
Definition rotate (path path' : string) (os : os_state) : os_state :=
  match names os !! path with
  | None => os
  | Some ino => {| names := <[path' := ino]> (delete path (names os)); lines := lines os; fds := fds os; next := next os |}
  end.

(** ** Every stream is open

    Descriptors are fresh, every stream has an open descriptor of its own, and
    every descriptor a file with contents. *)
Record streams_ok (l : Loggers) (os : os_state) : Prop := {
  so_fresh fd ino : fds os !! fd = Some ino -> (fd < next os)%nat;
  so_open name rf : l_files l !! name = Some rf -> is_Some (fds os !! rf_f rf);
  so_own n1 n2 rf1 rf2 : l_files l !! n1 = Some rf1 -> l_files l !! n2 = Some rf2 ->
    rf_f rf1 = rf_f rf2 -> n1 = n2;
}.

Lemma OpenFile_ok path os fd os' :
  OpenFile path os = (inr fd, os') ->
  fd = next os /\ next os' = S (next os) /\
  exists ino, names os' !! path = Some ino /\ fds os' = <[fd := ino]> (fds os).
Proof.
  unfold OpenFile. destruct (open_fault _ _); [done|]. intros [= <- <-]. cbn.
  split; [done|]. split; [done|]. eexists. split; [apply lookup_insert_eq|done].
Qed.

Lemma OpenFile_failed path os e os' :
  OpenFile path os = (inl e, os') -> fds os' = fds os /\ (next os <= next os')%nat /\ names os' = names os.
Proof. unfold OpenFile. destruct (open_fault _ _); [|done]. intros [= <- <-]. cbn. split_and!; [done|lia|done]. Qed.

Lemma open_stream_ok l os name path fd os1 :
  streams_ok l os -> OpenFile path os = (inr fd, os1) ->
  streams_ok {| l_dir := l_dir l; l_files := <[name := {| rf_f := fd; rf_path := path |}]> (l_files l) |} os1.
Proof.
  intros [H1 H2 H3] (-> & En & ino & _ & Ef)%OpenFile_ok. split; cbn [l_files].
  - intros fd i. rewrite Ef, En. intros [[<- _]|[_ Hi]]%lookup_insert_Some; [lia|]. apply H1 in Hi. lia.
  - intros n rf [[_ <-]|[_ Hr]]%lookup_insert_Some; rewrite Ef; cbn [rf_f]; [rewrite lookup_insert_eq; eauto|].
    destruct (H2 n rf Hr) as [i Hi]. rewrite lookup_insert_ne; [eauto|]. apply H1 in Hi. lia.
  - intros n1 n2 rf1 rf2 [[<- <-]|[Hn1 Hr1]]%lookup_insert_Some [[<- <-]|[Hn2 Hr2]]%lookup_insert_Some; cbn [rf_f].
    + done.
    + intros E. destruct (H2 n2 rf2 Hr2) as [i Hi]. rewrite <- E in Hi. apply H1 in Hi. lia.
    + intros E. destruct (H2 n1 rf1 Hr1) as [i Hi]. rewrite E in Hi. apply H1 in Hi. lia.
    + by apply H3.
Qed.

Lemma reopen_ok l os name err l' os' :
  streams_ok l os -> reopen name l os = (err, l', os') -> streams_ok l' os'.
Proof.
  intros Hok. unfold reopen. destruct (l_files l !! name) as [rf|] eqn:E; [|by intros [= <- <- <-]].
  destruct (OpenFile (rf_path rf) os) as [[e|fd] os1] eqn:Eo.
  - intros [= <- <- <-]. destruct (OpenFile_failed _ _ _ _ Eo) as (Ef & Hn & _). destruct Hok as [H1 H2 H3].
    split; [|by rewrite Ef|done]. intros fd i. rewrite Ef. intros Hi%H1. lia.
  - intros [= <- <- <-]. pose proof (open_stream_ok l os name (rf_path rf) fd os1 Hok Eo) as [K1 K2 K3].
    destruct (OpenFile_ok _ _ _ _ Eo) as (Efd & _). unfold fd_Close.
    destruct (fds os1 !! rf_f rf) as [ino|] eqn:Ei; cbn [snd]; [|by split].
    split; cbn [fds next]; [|  |done].
    + intros fd' i [_ Hi]%lookup_delete_Some. by eapply K1.
    + intros n r Hr. destruct (K2 n r Hr) as [i Hi]. rewrite lookup_delete_ne; [eauto|].
      cbn [l_files] in Hr. apply lookup_insert_Some in Hr as [[<- <-]|[Hne Hr]]; cbn [rf_f].
      * intros Ex. destruct Hok as [H1 H2 _]. destruct (H2 name rf E) as [j Hj]. rewrite Ex in Hj.
        apply H1 in Hj. lia.
      * intros Ex. destruct Hok as [_ _ H3]. by pose proof (H3 name n rf r E Hr Ex).
Qed.

Lemma Reopen_ok order l os err l' os' :
  streams_ok l os -> Reopen order l os = (err, l', os') -> streams_ok l' os'.
Proof.
  revert l os. induction order as [|name order IH]; intros l os Hok; cbn [Reopen]; [by intros [= <- <- <-]|].
  destruct (reopen name l os) as [[[e|] l1] os1] eqn:E; intros Hr.
  - injection Hr as <- <- <-. by eapply reopen_ok.
  - eapply IH; [|exact Hr]. by eapply reopen_ok.
Qed.

Lemma reopen_names l os name err l' os' :
  reopen name l os = (err, l', os') -> dom (l_files l') = dom (l_files l).
Proof.
  unfold reopen. destruct (l_files l !! name) as [rf|] eqn:E; [|by intros [= <- <- <-]].
  destruct (OpenFile _ _) as [[e|fd] os1]; intros [= <- <- <-]; [done|]. cbn. rewrite dom_insert_L.
  apply elem_of_dom_2 in E. set_solver.
Qed.

Lemma Reopen_names order l os err l' os' :
  Reopen order l os = (err, l', os') -> dom (l_files l') = dom (l_files l).
Proof.
  revert l os. induction order as [|name order IH]; intros l os; cbn [Reopen]; [by intros [= <- <- <-]|].
  destruct (reopen name l os) as [[[e|] l1] os1] eqn:E; intros Hr.
  - injection Hr as <- <- <-. by eapply reopen_names.
  - rewrite (IH _ _ Hr). by eapply reopen_names.
Qed.

Lemma open_streams_ok ns l os l' os' :
  streams_ok l os -> open_streams ns l os = (inr l', os') ->
  streams_ok l' os' /\ dom (l_files l') = list_to_set ns ∪ dom (l_files l).
Proof.
  revert l os. induction ns as [|n ns IH]; intros l os Hok; cbn [open_streams].
  - intros [= <- <-]. split; [done|]. set_solver.
  - unfold newReopenFile. destruct (OpenFile _ os) as [[e|fd] os1] eqn:E; [done|]. intros Hr.
    destruct (IH _ _ (open_stream_ok _ _ n _ _ _ Hok E) Hr) as [? Hd]. split; [done|].
    rewrite Hd. cbn [l_files]. rewrite list_to_set_cons, dom_insert_L. set_solver.
Qed.

(** What happens to the streams of a running smoker: lines are written,
    logrotate renames files, and SIGHUP reopens them. *)
Inductive log_op :=
| WriteLine (name line : string)
| Rotate (path path' : string)
| Sighup (order : list string).

Definition run_op (x : Loggers * os_state) (o : log_op) : Loggers * os_state :=
  match o with
  | WriteLine name line => (x.1, (log_line x.1 name line x.2).2)
  | Rotate path path' => (x.1, rotate path path' x.2)
  | Sighup order => ((Reopen order x.1 x.2).1.2, (Reopen order x.1 x.2).2)
  end.

Lemma log_line_ok l os name line : streams_ok l os -> streams_ok l (log_line l name line os).2.
Proof.
  intros [H1 H2 H3]. unfold log_line, fd_Write. destruct (l_files l !! name); [|by split].
  destruct (fds os !! _); by split.
Qed.

Lemma run_op_ok x o :
  streams_ok x.1 x.2 ->
  streams_ok (run_op x o).1 (run_op x o).2 /\ dom (l_files (run_op x o).1) = dom (l_files x.1).
Proof.
  intros Hok. destruct o as [name line|p q|order]; cbn [run_op fst snd].
  - split; [by apply log_line_ok|done].
  - split; [|done]. destruct Hok as [H1 H2 H3]. unfold rotate. destruct (names x.2 !! p); by split.
  - destruct (Reopen order x.1 x.2) as [[err l'] os'] eqn:E. cbn [fst snd]. split.
    + by eapply Reopen_ok.
    + by eapply Reopen_names.
Qed.

Lemma run_ops_ok ops x :
  streams_ok x.1 x.2 ->
  streams_ok (fold_left run_op ops x).1 (fold_left run_op ops x).2 /\
  dom (l_files (fold_left run_op ops x).1) = dom (l_files x.1).
Proof.
  revert x. induction ops as [|o ops IH]; intros x Hok; [done|]. cbn [fold_left].
  destruct (run_op_ok x o Hok) as [Hok' <-]. by apply IH.
Qed.

Lemma no_streams_ok dir os :
  (forall fd ino, fds os !! fd = Some ino -> (fd < next os)%nat) ->
  streams_ok {| l_dir := dir; l_files := ∅ |} os.
Proof.
  split; cbn [l_files]; [done|by intros ?? ?%lookup_empty_Some|by intros ???? ?%lookup_empty_Some].
Qed.

(** No log line is refused: once the log files are open, through any sequence
    of writes, rotations and reopenings, also reopenings that fail half-way,
    every one of the five streams writes to an open file. *)
Theorem streams_stay_open dir os0 l os1 ops name line :
  (forall fd ino, fds os0 !! fd = Some ino -> (fd < next os0)%nat) ->
  Open dir os0 = (inr l, os1) -> name ∈ log_names ->
  let x := fold_left run_op ops (l, os1) in
  (log_line x.1 name line x.2).1 = true.
Proof.
  intros Hf Ho Hn x. unfold Open in Ho.
  destruct (open_streams_ok _ _ _ _ _ (no_streams_ok _ _ Hf) Ho) as [H1 Hd].
  destruct (run_ops_ok ops (l, os1) H1) as [Hx Hdx]. fold x in Hx, Hdx. cbn [fst] in Hdx.
  rewrite Hd in Hdx. cbn [l_files] in Hdx. rewrite dom_empty_L, union_empty_r_L in Hdx.
  destruct Hx as [_ Hopen _]. unfold log_line, fd_Write.
  assert (Hin : name ∈ dom (l_files x.1)) by (rewrite Hdx; by apply elem_of_list_to_set).
  apply elem_of_dom in Hin as [rf Hrf]. rewrite Hrf. by destruct (Hopen name rf Hrf) as [ino ->].
Qed.

(** ** Reopening takes effect *)

(** The stream writes to the file now at its path. *)
Definition current (l : Loggers) (os : os_state) (name : string) : Prop :=
  exists rf ino, l_files l !! name = Some rf /\ fds os !! rf_f rf = Some ino /\ names os !! rf_path rf = Some ino.

Lemma OpenFile_names path os r os' p ino :
  OpenFile path os = (r, os') -> names os !! p = Some ino -> names os' !! p = Some ino.
Proof.
  unfold OpenFile. destruct (open_fault _ _); intros [= <- <-]; [done|]. cbn. intros Hp.
  destruct (decide (p = path)) as [->|]; [|by rewrite lookup_insert_ne].
  by rewrite lookup_insert_eq, Hp.
Qed.

Lemma reopen_current l os name l' os' n :
  streams_ok l os -> reopen name l os = (None, l', os') -> n ∈ dom (l_files l) ->
  n = name \/ current l os n -> current l' os' n.
Proof.
  intros Hok. unfold reopen. destruct (l_files l !! name) as [rf|] eqn:E.
  2: { intros [= <- <-] Hn [->|Hc]; [|done]. apply elem_of_dom in Hn as [? ?]. congruence. }
  destruct (OpenFile (rf_path rf) os) as [[e|fd] os1] eqn:Eo; [done|]. intros [= <- <-] _ Hc.
  destruct (OpenFile_ok _ _ _ _ Eo) as (-> & _ & ino & Hi & Ef).
  pose proof Hok as [H1 H2 H3]. destruct (H2 name rf E) as [i0 Hi0].
  assert (Hlt : (rf_f rf < next os)%nat) by by eapply H1.
  assert (Hold : fds os1 !! rf_f rf = Some i0) by (rewrite Ef, lookup_insert_ne by lia; done).
  unfold fd_Close. rewrite Hold. cbn [snd]. unfold current. cbn [l_files fds names].
  destruct (decide (n = name)) as [->|Hne].
  - eexists _, ino. split; [apply lookup_insert_eq|]. cbn [rf_f rf_path]. split; [|done].
    rewrite lookup_delete_ne by lia. by rewrite Ef, lookup_insert_eq.
  - destruct Hc as [->|(r & i & Hr & Hfi & Hni)]; [done|]. exists r, i.
    split; [by rewrite lookup_insert_ne|]. split; [|by eapply OpenFile_names].
    rewrite lookup_delete_ne; [|intros Ex; by pose proof (H3 name n rf r E Hr Ex)].
    apply H1 in Hfi as Hl. rewrite Ef, lookup_insert_ne by lia. done.
Qed.

(** A SIGHUP that succeeds moves every stream to the file that is now at its
    path, in whatever order the map yields them: what is written from then on
    is found there, also if the old file had been renamed. *)
Theorem Reopen_follows_rotation order l os l' os' name :
  streams_ok l os -> Reopen order l os = (None, l', os') ->
  name ∈ order -> name ∈ dom (l_files l) ->
  exists ino, names os' !! rf_path (default {| rf_f := 0; rf_path := "" |} (l_files l' !! name)) = Some ino /\
    forall line, (log_line l' name line os').1 = true /\
      lines (log_line l' name line os').2 = <[ino := default [] (lines os' !! ino) ++ [line]]> (lines os').
Proof.
  intros Hok Hr Hin Hd.
  assert (Hc : current l' os' name).
  { assert (Hgen : forall order l os, streams_ok l os -> Reopen order l os = (None, l', os') ->
      name ∈ dom (l_files l) -> name ∈ order \/ current l os name -> current l' os' name).
    { clear. induction order as [|n order IH]; intros l os Hok Hr Hd Hin; cbn [Reopen] in Hr.
      - injection Hr as <- <-. destruct Hin as [Hin|]; [by apply elem_of_nil in Hin|done].
      - destruct (reopen n l os) as [[[e|] l1] os1] eqn:E; [done|].
        eapply (IH l1 os1); [by eapply reopen_ok|done|by rewrite (reopen_names _ _ _ _ _ _ E)|].
        destruct Hin as [Hin|Hc]; [apply elem_of_cons in Hin as [->|Hin]; [right|by left]|right];
          (eapply reopen_current; [exact Hok|exact E|done|]); auto. }
    eapply Hgen; eauto. }
  destruct Hc as (rf & ino & Hrf & Hfd & Hnm). exists ino. rewrite Hrf. split; [exact Hnm|].
  intros line. unfold log_line. rewrite Hrf. unfold fd_Write. by rewrite Hfd.
Qed.

End Logging.

(** ** Examples and witnesses *)

Module LoggingExamples.

(** Opening fails once, in the middle of a reopening. *)
#[local] Instance one_fault : OpenFaults := fun n _ => if (n =? 7)%nat then Some "too many open files" else None.

Definition os0 : os_state := {| names := ∅; lines := ∅; fds := ∅; next := 0 |}.

Lemma os0_fresh fd ino : fds os0 !! fd = Some ino -> (fd < next os0)%nat.
Proof. unfold os0. cbn [fds]. by intros ?%lookup_empty_Some. Qed.

Definition night : list log_op :=
  [WriteLine "access.log" "a"; Rotate "/var/log/smoker/access.log" "/var/log/smoker/access.log.1"; Sighup log_names;
   WriteLine "access.log" "b"; WriteLine "smoker.log" "c"].

Lemma opens : match (Open "" os0).1 with inr _ => true | inl _ => false end = true.
Proof. vm_compute. reflexivity. Qed.

Lemma streams_stay_open_witness :
  exists l os1, Open "" os0 = (inr l, os1) /\
    let x := fold_left run_op night (l, os1) in (log_line x.1 "backend.log" "d" x.2).1 = true.
Proof.
  pose proof opens as B. destruct (Open "" os0) as [[e|l] os] eqn:Eo; [discriminate B|].
  exists l, os. split; [reflexivity|].
  apply (streams_stay_open "" os0 l os night "backend.log" "d" os0_fresh Eo).
  unfold log_names. right. right. left.
Defined.

Example rotated_lines :
  match Open "" os0 with
  | (inr l, os1) =>
      let x := fold_left run_op night (l, os1) in
      (lines x.2 !! 0%nat, lines x.2 !! 5%nat, (Reopen log_names l os1).1.1) =
        (Some ["a"], Some ["b"], Some "too many open files")
  | _ => False
  end.
Proof. vm_compute. reflexivity. Qed.

Definition l1 : Loggers := match (Open "" os0).1 with inr l => l | inl _ => {| l_dir := ""; l_files := ∅ |} end.
Definition os1 : os_state := rotate "/var/log/smoker/access.log" "/old" (Open "" os0).2.

Lemma l1_ok : streams_ok l1 os1.
Proof.
  pose proof opens as B. unfold l1, os1. destruct (Open "" os0) as [[e|l] os] eqn:Eo; [discriminate B|]. cbn [fst snd].
  pose proof (open_streams_ok log_names {| l_dir := Paths.LogDir; l_files := ∅ |} os0 l os
    (no_streams_ok _ _ os0_fresh) Eo) as [Hok _].
  exact (proj1 (run_op_ok (l, os) (Rotate "/var/log/smoker/access.log" "/old") Hok)).
Qed.

Lemma Reopen_follows_rotation_witness :
  exists l' os' ino, Reopen ["access.log"] l1 os1 = (None, l', os') /\
    names os' !! rf_path (default {| rf_f := 0; rf_path := "" |} (l_files l' !! "access.log")) = Some ino.
Proof.
  assert (En : (Reopen ["access.log"] l1 os1).1.1 = None) by (vm_compute; reflexivity).
  destruct (Reopen ["access.log"] l1 os1) as [[err l'] os'] eqn:E. cbn [fst] in En. subst err.
  destruct (Reopen_follows_rotation ["access.log"] l1 os1 l' os' "access.log" l1_ok E) as (ino & Hi & _).
  - left.
  - apply elem_of_dom. eexists. reflexivity.
  - exists l', os', ino. split; [reflexivity|exact Hi].
Defined.

End LoggingExamples.
