(* ===== verification/Firewall.v ===== *)
(** * The redirect layer ([internal/firewall])

    The nftables controller over an interface to [google/nftables] ([NftConn]),
    whose documented behaviour is the law: commands are queued, and [Flush]
    applies them as one transaction, all or none.  The kernel ([apply_cmd],
    [NftKernel]) is written out as far as the code uses it: tables by family and
    name, chains with their type, hook, priority and policy, where a rule may
    stand, and what a rule does to a packet.  The table is an IPv4 one. *)

From S2P Require Export Prelude.
From Stdlib Require Import Bool.

(** ** Options *)

Record Options := {
  TableName : string;
  ChainName : string;
  PublicHTTP : Z;
  PublicHTTPS : Z;
  InternalHTTP : Z;
  InternalHTTPS : Z;
  RedirectHTTPSUDP : bool;
}.

Definition DefaultOptions : Options := {|
  TableName := "smoker"; ChainName := "prerouting";
  PublicHTTP := 80; PublicHTTPS := 443; InternalHTTP := 18080; InternalHTTPS := 18443;
  RedirectHTTPSUDP := false |}.

(** ** Rules

    The expressions of [nftables/expr] that the code builds, over registers;
    every one of them uses register 1. *)
Inductive expr :=
| MetaL4Proto (reg : Z)
| CmpEq (reg : Z) (data : list Z)
| PayloadTransport (reg offset len : Z)
| FibDaddrIifType (reg : Z)
| Immediate (reg : Z) (data : list Z)
| Redir (regMin regMax : Z).

Definition IPPROTO_TCP : Z := 6.
Definition IPPROTO_UDP : Z := 17.
(** [RTN_LOCAL] *)
Definition rtnLocal : Z := 2.

Definition uint16 (z : Z) : Z := z mod 2 ^ 16.
Definition uint8 (z : Z) : Z := z mod 2 ^ 8.

(** [binary.BigEndian.PutUint16] *)
Definition be16 (z : Z) : list Z := [z / 2 ^ 8; z mod 2 ^ 8].
(** [binary.LittleEndian.PutUint32] *)
Definition le32 (z : Z) : list Z :=
  [z mod 2 ^ 8; z / 2 ^ 8 mod 2 ^ 8; z / 2 ^ 16 mod 2 ^ 8; z / 2 ^ 24].

(** The byte order of the machine: [binary.NativeEndian]. *)
Class NativeEndian := little_endian : bool.

Definition native32 `{NativeEndian} (z : Z) : list Z :=
  if little_endian then le32 z else rev (le32 z).

(** The rule [addRedirect] appends *)
Definition redirect_rule `{NativeEndian} (proto pubPort internalPort : Z) : list expr :=
  let portBE := be16 (uint16 pubPort) in
  let toBE := be16 (uint16 internalPort) in
  let localType := native32 rtnLocal in
  [MetaL4Proto 1; CmpEq 1 [uint8 proto];
   PayloadTransport 1 2 2; CmpEq 1 portBE;
   FibDaddrIifType 1; CmpEq 1 localType;
   Immediate 1 toBE; Redir 1 1].

(** ** What a rule does to a packet

    The first packet of a connection that arrives at an interface: its address
    family, the protocol, the bytes of the transport header, and the address
    type of the destination at the incoming interface. *)
Record packet := { pk_family : Z; pk_proto : Z; pk_header : list Z; pk_daddr_type : Z }.

Inductive verdict := Next | RedirectTo (port : Z) | Drop.

Definition be_value (bs : list Z) : Z := fold_left (fun acc b => acc * 2 ^ 8 + b) bs 0.

Fixpoint eval_rule `{NativeEndian} (es : list expr) (regs : gmap Z (list Z)) (p : packet) : verdict :=
  match es with
  | [] => Next
  | MetaL4Proto r :: es => eval_rule es (<[r := [pk_proto p]]> regs) p
  | CmpEq r data :: es => if bool_decide (regs !! r = Some data) then eval_rule es regs p else Next
  | PayloadTransport r off n :: es =>
      eval_rule es (<[r := take (Z.to_nat n) (drop (Z.to_nat off) (pk_header p))]> regs) p
  | FibDaddrIifType r :: es => eval_rule es (<[r := native32 (pk_daddr_type p)]> regs) p
  | Immediate r data :: es => eval_rule es (<[r := data]> regs) p
  | Redir r _ :: _ => match regs !! r with Some bs => RedirectTo (be_value bs) | None => Next end
  end.

(** The rules of a chain: the first redirect counts, else the packet is left
    to the policy. *)
Fixpoint eval_chain `{NativeEndian} (rules : list (list expr)) (p : packet) : verdict :=
  match rules with
  | [] => Next
  | r :: rules => match eval_rule r ∅ p with Next => eval_chain rules p | v => v end
  end.

(** The destination port of a transport header. *)
Definition dport (p : packet) : option Z :=
  match pk_header p with _ :: _ :: a :: b :: _ => Some (a * 2 ^ 8 + b) | _ => None end.

Definition packet_ok (p : packet) : Prop :=
  Forall (fun b => 0 <= b < 2 ^ 8) (pk_header p) /\ (4 <= length (pk_header p))%nat /\
  0 <= pk_proto p < 2 ^ 8 /\ 0 <= pk_daddr_type p < 2 ^ 32.

(** ** Tables and chains

    [nftables.Table] and [nftables.Chain], with the values of
    [linux/netfilter.h] that the library's constants stand for. *)

(** [nftables.TableFamily...]: [NFPROTO_INET], [NFPROTO_IPV4], [NFPROTO_IPV6] *)
Definition TableFamilyINet : Z := 1.
Definition TableFamilyIPv4 : Z := 2.
Definition TableFamilyIPv6 : Z := 10.

Definition ChainTypeNAT : string := "nat".

(** [NF_INET_PRE_ROUTING] and its siblings *)
Definition ChainHookPrerouting : Z := 0.
Definition ChainHookInput : Z := 1.
Definition ChainHookForward : Z := 2.
Definition ChainHookOutput : Z := 3.
Definition ChainHookPostrouting : Z := 4.

(** [NF_IP_PRI_CONNTRACK], [NF_IP_PRI_NAT_DST] *)
Definition ChainPriorityConntrack : Z := -200.
Definition ChainPriorityNATDest : Z := -100.

(** [NF_DROP], [NF_ACCEPT] *)
Definition ChainPolicyDrop : Z := 0.
Definition ChainPolicyAccept : Z := 1.

Record Table := { tb_Family : Z; tb_Name : string }.

Record Chain := {
  ch_Name : string;
  ch_Table : Table;
  ch_Type : string;
  ch_Hooknum : Z;
  ch_Priority : Z;
  ch_Policy : Z;
}.

#[export] Instance Table_eq_dec : EqDecision Table.
Proof. solve_decision. Defined.

(** ** The kernel's ruleset *)

(** A chain in the kernel; one that is attached to no hook has the type [""]. *)
Record base_chain := {
  bc_Type : string;
  bc_Hooknum : Z;
  bc_Priority : Z;
  bc_Policy : Z;
  bc_rules : list (list expr);
}.

Definition with_rules (b : base_chain) (rules : list (list expr)) : base_chain := {|
  bc_Type := bc_Type b; bc_Hooknum := bc_Hooknum b; bc_Priority := bc_Priority b;
  bc_Policy := bc_Policy b; bc_rules := rules |}.

(** The chains of each table; a table is known by its family and its name. *)
Abbreviation ruleset := (gmap (Z * string) (gmap string base_chain)) (only parsing).

Definition table_key (t : Table) : Z * string := (tb_Family t, tb_Name t).

(** Queued commands *)
Inductive nft_cmd :=
| AddTable (table : Table)
| AddChain (chain : Chain)
| FlushChain (chain : Chain)
| AddRule (table : Table) (chain : Chain) (exprs : list expr)
| DelTable (table : Table).

(** The chain a command asks for. *)
Definition new_chain (c : Chain) (rules : list (list expr)) : base_chain := {|
  bc_Type := ch_Type c; bc_Hooknum := ch_Hooknum c; bc_Priority := ch_Priority c;
  bc_Policy := ch_Policy c; bc_rules := rules |}.

(** A nat chain has hooks of its own, and comes after connection tracking. *)
Definition chain_allowed (c : Chain) : bool :=
  negb (String.eqb (ch_Type c) ChainTypeNAT) ||
  (existsb (Z.eqb (ch_Hooknum c)) [ChainHookPrerouting; ChainHookInput; ChainHookOutput; ChainHookPostrouting] &&
   (ChainPriorityConntrack <? ch_Priority c)).

Definition same_place (b : base_chain) (c : Chain) : bool :=
  (String.eqb (bc_Type b) (ch_Type c)) && (bc_Hooknum b =? ch_Hooknum c) && (bc_Priority b =? ch_Priority c).

(** Where an expression may stand: a redirect in the nat chains for what comes
    in and what is sent, the address type at the incoming interface where there
    is one. *)
Definition expr_allowed (b : base_chain) (e : expr) : bool :=
  match e with
  | Redir _ _ => (String.eqb (bc_Type b) ChainTypeNAT) &&
      existsb (Z.eqb (bc_Hooknum b)) [ChainHookPrerouting; ChainHookOutput]
  | FibDaddrIifType _ => existsb (Z.eqb (bc_Hooknum b)) [ChainHookPrerouting; ChainHookInput; ChainHookForward]
  | _ => true
  end.

(** What a command does; [None]: the kernel refuses it.  A table that is there
    is left as it is, a chain that is there keeps its rules if it is attached
    in the same place, and is a conflict if not. *)
Definition apply_cmd (rs : ruleset) (c : nft_cmd) : option ruleset :=
  match c with
  | AddTable t => Some (match rs !! table_key t with Some _ => rs | None => <[table_key t := ∅]> rs end)
  | AddChain ch =>
      let t := table_key (ch_Table ch) in
      chains ← rs !! t;
      match chains !! ch_Name ch with
      | Some b => if same_place b ch then Some (<[t := <[ch_Name ch := new_chain ch (bc_rules b)]> chains]> rs) else None
      | None => if chain_allowed ch then Some (<[t := <[ch_Name ch := new_chain ch []]> chains]> rs) else None
      end
  | FlushChain ch =>
      let t := table_key (ch_Table ch) in
      chains ← rs !! t; b ← chains !! ch_Name ch;
      Some (<[t := <[ch_Name ch := with_rules b []]> chains]> rs)
  | AddRule tb ch es =>
      let t := table_key tb in
      chains ← rs !! t; b ← chains !! ch_Name ch;
      if forallb (expr_allowed b) es
      then Some (<[t := <[ch_Name ch := with_rules b (bc_rules b ++ [es])]> chains]> rs) else None
  | DelTable t => _ ← rs !! table_key t; Some (delete (table_key t) rs)
  end.

Fixpoint apply_cmds (rs : ruleset) (cs : list nft_cmd) : option ruleset :=
  match cs with [] => Some rs | c :: cs => rs ← apply_cmd rs c; apply_cmds rs cs end.

(** *** What a chain does to a connection

    [chain_verdict family b p]: what the chain [b] of a table of that family
    does to [p]. *)
Class NftKernel := chain_verdict : Z -> base_chain -> packet -> verdict.

(** The families whose packets a table sees *)
Definition sees (family : Z) (p : packet) : bool :=
  (family =? pk_family p) ||
  ((family =? TableFamilyINet) && ((pk_family p =? TableFamilyIPv4) || (pk_family p =? TableFamilyIPv6))).

(** Of the chains, the one at the prerouting hook meets a packet that arrives,
    before it is routed, if it is of the table's family; what its rules leave
    is up to its policy. *)
Class NftKernelLaws `{NativeEndian} `{NftKernel} : Prop :=
  chain_verdict_arrival family b p : chain_verdict family b p =
    if sees family p && (bc_Hooknum b =? ChainHookPrerouting)
    then match eval_chain (bc_rules b) p with
         | Next => if bc_Policy b =? ChainPolicyAccept then Next else Drop
         | v => v
         end
    else Next.

(** ** The connection: [*nftables.Conn] *)
Class NftConn (C : Type) := {
  conn_queue : C -> nft_cmd -> C;
  conn_Flush : C -> option string * C;
}.

(** [Flush] sends what is queued as one batch, which the kernel applies as a
    whole or not at all, and empties the queue.  A batch the kernel refuses is
    an error, but there may be others. *)
Class NftConnLaws (C : Type) `{NftConn C} := {
  conn_pending : C -> list nft_cmd;
  conn_kernel : C -> ruleset;
  conn_queue_pending c cmd : conn_pending (conn_queue c cmd) = conn_pending c ++ [cmd];
  conn_queue_kernel c cmd : conn_kernel (conn_queue c cmd) = conn_kernel c;
  conn_Flush_pending c : conn_pending (conn_Flush c).2 = [];
  conn_Flush_ok c : (conn_Flush c).1 = None ->
    apply_cmds (conn_kernel c) (conn_pending c) = Some (conn_kernel (conn_Flush c).2);
  conn_Flush_error c e : (conn_Flush c).1 = Some e -> conn_kernel (conn_Flush c).2 = conn_kernel c;
}.

(** ** The controller *)

Section Controller.
Context `{NativeEndian} {C : Type} `{NftConn C}.

(** [nftController] *)
Record nftController := {
  opts : Options;
  conn : C;
  table : option Table;
  chain : option Chain;
  active : bool;
}.

(** [New], on what [nftables.New] gives *)
Definition New (o : Options) (newConn : string + C) : string + nftController :=
  match newConn with
  | inl e => inl e
  | inr c => inr {| opts := o; conn := c; table := None; chain := None; active := false |}
  end.

(** The table and the chain that [EnableRedirect] asks for *)
Definition nat_table (o : Options) : Table := {| tb_Family := TableFamilyIPv4; tb_Name := TableName o |}.

Definition prerouting_chain (o : Options) (t : Table) : Chain := {|
  ch_Name := ChainName o;
  ch_Table := t;
  ch_Type := ChainTypeNAT;
  ch_Hooknum := ChainHookPrerouting;
  ch_Priority := ChainPriorityNATDest;
  ch_Policy := ChainPolicyAccept |}.

Definition addRedirect (t : Table) (ch : Chain) (proto pubPort internalPort : Z) (k : C) : C :=
  conn_queue k (AddRule t ch (redirect_rule proto pubPort internalPort)).

Definition EnableRedirect (c : nftController) : option string * nftController :=
  let o := opts c in
  let t := nat_table o in
  let k := conn_queue (conn c) (AddTable t) in
  let ch := prerouting_chain o t in
  let k := conn_queue k (AddChain ch) in
  let k := conn_queue k (FlushChain ch) in
  let k := addRedirect t ch IPPROTO_TCP (PublicHTTP o) (InternalHTTP o) k in
  let k := addRedirect t ch IPPROTO_TCP (PublicHTTPS o) (InternalHTTPS o) k in
  let k := if RedirectHTTPSUDP o then addRedirect t ch IPPROTO_UDP (PublicHTTPS o) (InternalHTTPS o) k else k in
  let '(err, k) := conn_Flush k in
  (err, {| opts := o; conn := k; table := Some t; chain := Some ch;
           active := match err with None => true | Some _ => active c end |}).

Definition DisableRedirect (c : nftController) : option string * nftController :=
  let t := match table c with
           | Some t => t
           | None => {| tb_Family := TableFamilyIPv4; tb_Name := TableName (opts c) |}
           end in
  let k := conn_queue (conn c) (DelTable t) in
  let '(err, k) := conn_Flush k in
  match err with
  | Some e => (Some e, {| opts := opts c; conn := k; table := Some t; chain := chain c; active := active c |})
  | None => (None, {| opts := opts c; conn := k; table := None; chain := None; active := false |})
  end.

Definition Active (c : nftController) : bool := active c.
Definition Close (c : nftController) : option string := None.

End Controller.

Arguments nftController : clear implicits.

(** ** The controller of other platforms *)

Record stubController := { stub_opts : Options; stub_active : bool }.

Definition stub_New (o : Options) : stubController := {| stub_opts := o; stub_active := false |}.
Definition stub_EnableRedirect (c : stubController) : option string * stubController :=
  (None, {| stub_opts := stub_opts c; stub_active := true |}).
Definition stub_DisableRedirect (c : stubController) : option string * stubController :=
  (None, {| stub_opts := stub_opts c; stub_active := false |}).
Definition stub_Active (c : stubController) : bool := stub_active c.
Definition stub_Close (c : stubController) : option string := None.

(** ** What a redirect rule catches *)

Lemma be16_inj a b v : 0 <= v < 2 ^ 16 -> 0 <= b < 2 ^ 8 ->
  [a; b] = be16 v <-> a * 2 ^ 8 + b = v.
Proof.
  intros Hv Hb. unfold be16. pose proof (Z.div_mod v (2 ^ 8) ltac:(lia)).
  pose proof (Z.mod_pos_bound v (2 ^ 8) ltac:(lia)). split; [intros [= -> ->]; lia|].
  intros <-. assert (E1 : (a * 2 ^ 8 + b) / 2 ^ 8 = a) by (rewrite Z.div_add_l, Z.div_small by lia; lia).
  assert (E2 : (a * 2 ^ 8 + b) mod 2 ^ 8 = b) by (rewrite Z.add_comm, Z.mod_add by lia; apply Z.mod_small; lia).
  by rewrite E1, E2.
Qed.

Lemma be_value_be16 v : 0 <= v < 2 ^ 16 -> be_value (be16 v) = v.
Proof. intros Hv. unfold be_value, be16. cbn [fold_left]. pose proof (Z.div_mod v (2 ^ 8) ltac:(lia)). lia. Qed.

Lemma le32_inj u v : 0 <= u < 2 ^ 32 -> 0 <= v < 2 ^ 32 -> le32 u = le32 v -> u = v.
Proof.
  intros Hu Hv. unfold le32. intros [= E1 E2 E3 E4].
  change (Z.pow_pos 2 8) with (2 ^ 8) in *. change (Z.pow_pos 2 16) with (2 ^ 16) in *.
  change (Z.pow_pos 2 24) with (2 ^ 24) in *.
  assert (Hdec : forall z, 0 <= z -> z = z mod 2 ^ 8 + 2 ^ 8 * (z / 2 ^ 8 mod 2 ^ 8) +
    2 ^ 16 * (z / 2 ^ 16 mod 2 ^ 8) + 2 ^ 24 * (z / 2 ^ 24)).
  { intros z Hz. pose proof (Z.div_mod z (2 ^ 8) ltac:(lia)).
    pose proof (Z.div_mod (z / 2 ^ 8) (2 ^ 8) ltac:(lia)) as H1.
    rewrite Z.div_div in H1 by lia. change (2 ^ 8 * 2 ^ 8) with (2 ^ 16) in H1.
    pose proof (Z.div_mod (z / 2 ^ 16) (2 ^ 8) ltac:(lia)) as H2.
    rewrite Z.div_div in H2 by lia. change (2 ^ 16 * 2 ^ 8) with (2 ^ 24) in H2. lia. }
  rewrite (Hdec u), (Hdec v) by lia. by rewrite E1, E2, E3, E4.
Qed.

Lemma native32_inj `{NativeEndian} u v :
  0 <= u < 2 ^ 32 -> 0 <= v < 2 ^ 32 -> native32 u = native32 v <-> u = v.
Proof.
  intros Hu Hv. split; [|by intros ->]. unfold native32. destruct little_endian; [by apply le32_inj|].
  intros E. apply (f_equal (@rev Z)) in E. rewrite !rev_involutive in E. by apply le32_inj.
Qed.

Section Rules.
Context `{NativeEndian}.

(** The packets a redirect rule matches. *)
Definition caught (proto pub : Z) (p : packet) : Prop :=
  pk_proto p = proto /\ dport p = Some (uint16 pub) /\ pk_daddr_type p = rtnLocal.

#[export] Instance caught_dec proto pub p : Decision (caught proto pub p).
Proof. unfold caught. apply _. Defined.

Lemma uint16_range z : 0 <= uint16 z < 2 ^ 16.
Proof. unfold uint16. apply Z.mod_pos_bound. lia. Qed.

Lemma eval_redirect_rule proto pub internal p :
  packet_ok p -> 0 <= proto < 2 ^ 8 ->
  eval_rule (redirect_rule proto pub internal) ∅ p =
    if decide (caught proto pub p) then RedirectTo (uint16 internal) else Next.
Proof.
  intros (Hb & Hlen & Hp & Hd) Hproto. destruct p as [fam pp hdr ty]. cbn [pk_proto pk_header pk_daddr_type] in *.
  destruct hdr as [|h0 [|h1 [|a [|b hdr]]]]; [cbn in Hlen; lia..|].
  assert (Hbb : 0 <= b < 2 ^ 8) by (do 3 apply Forall_inv_tail in Hb; by apply Forall_inv in Hb).
  unfold redirect_rule, caught, dport. cbn [eval_rule pk_proto pk_header pk_daddr_type].
  rewrite !lookup_insert_eq. change (take (Z.to_nat 2) (drop (Z.to_nat 2) (h0 :: h1 :: a :: b :: hdr))) with [a; b].
  unfold uint8. rewrite (Z.mod_small proto) by done.
  pose proof (uint16_range pub). pose proof (uint16_range internal).
  rewrite be_value_be16 by done.
  assert (E1 : Some [pp] = Some [proto] <-> pp = proto) by (split; [by intros [= ->]|by intros ->]).
  assert (E2 : Some [a; b] = Some (be16 (uint16 pub)) <-> Some (a * 2 ^ 8 + b) = Some (uint16 pub)).
  { pose proof (be16_inj a b (uint16 pub) ltac:(done) Hbb) as E.
    split.
    - intros Hx. assert (E' : [a; b] = be16 (uint16 pub)) by congruence. f_equal. by apply E.
    - intros Hx. assert (E' : a * 2 ^ 8 + b = uint16 pub) by congruence. f_equal. by apply E. }
  assert (E3 : Some (native32 ty) = Some (native32 rtnLocal) <-> ty = rtnLocal).
  { rewrite <- (native32_inj ty rtnLocal) by (unfold rtnLocal; lia). split; [by intros [= ->]|by intros ->]. }
  rewrite (bool_decide_ext _ _ E1), (bool_decide_ext _ _ E2), (bool_decide_ext _ _ E3).
  destruct (decide _) as [(Hc1 & Hc2 & Hc3)|Hn].
  - by rewrite !bool_decide_eq_true_2 by done.
  - destruct (bool_decide (pp = proto)) eqn:B1; [|done]. apply bool_decide_eq_true in B1.
    destruct (bool_decide (Some (a * _ + b) = _)) eqn:B2; [|done]. apply bool_decide_eq_true in B2.
    destruct (bool_decide (ty = rtnLocal)) eqn:B3; [|done]. apply bool_decide_eq_true in B3.
    exfalso. by apply Hn.
Qed.

(** The rules [EnableRedirect] installs *)
Definition redirect_rules (o : Options) : list (list expr) :=
  [redirect_rule IPPROTO_TCP (PublicHTTP o) (InternalHTTP o);
   redirect_rule IPPROTO_TCP (PublicHTTPS o) (InternalHTTPS o)] ++
  (if RedirectHTTPSUDP o then [redirect_rule IPPROTO_UDP (PublicHTTPS o) (InternalHTTPS o)] else []).

(** What the rules of [o] do to a packet that they see *)
Definition rules_redirect (o : Options) (p : packet) : verdict :=
  if decide (caught IPPROTO_TCP (PublicHTTP o) p) then RedirectTo (uint16 (InternalHTTP o))
  else if decide (caught IPPROTO_TCP (PublicHTTPS o) p) then RedirectTo (uint16 (InternalHTTPS o))
  else if RedirectHTTPSUDP o && bool_decide (caught IPPROTO_UDP (PublicHTTPS o) p)
       then RedirectTo (uint16 (InternalHTTPS o))
  else Next.

(** The promise: IPv4 to a public port of a local address goes to the internal
    port, everything else goes on as it is. *)
Definition redirected (o : Options) (p : packet) : verdict :=
  if pk_family p =? TableFamilyIPv4 then rules_redirect o p else Next.

Lemma eval_redirect_rules o p : packet_ok p -> eval_chain (redirect_rules o) p = rules_redirect o p.
Proof.
  intros Hp. unfold redirect_rules, rules_redirect. cbn [app eval_chain].
  rewrite !eval_redirect_rule by (done || (unfold IPPROTO_TCP; lia)).
  destruct (decide (caught IPPROTO_TCP (PublicHTTP o) p)); [done|].
  destruct (decide (caught IPPROTO_TCP (PublicHTTPS o) p)); [done|].
  destruct (RedirectHTTPSUDP o); [|done]. cbn [eval_chain andb].
  rewrite eval_redirect_rule by (done || (unfold IPPROTO_UDP; lia)).
  case_bool_decide; destruct (decide _); done.
Qed.

(** The chain of smoker, as the kernel is to have it *)
Definition expected_chain (o : Options) : base_chain :=
  new_chain (prerouting_chain o (nat_table o)) (redirect_rules o).

Lemma expected_chain_redirects `{!NftKernel, !NftKernelLaws} o p :
  packet_ok p -> chain_verdict TableFamilyIPv4 (expected_chain o) p = redirected o p.
Proof.
  intros Hp. rewrite chain_verdict_arrival. cbn [expected_chain new_chain bc_rules bc_Hooknum bc_Policy].
  rewrite eval_redirect_rules by done. unfold redirected, sees. change (bc_Hooknum _ =? _) with true.
  change (TableFamilyIPv4 =? TableFamilyINet) with false. rewrite (Z.eqb_sym TableFamilyIPv4), orb_false_r, andb_true_r.
  destruct (pk_family p =? TableFamilyIPv4); [|done]. by destruct (rules_redirect o p).
Qed.

End Rules.

(** ** The batch of [EnableRedirect] *)

Section Batch.
Context `{NativeEndian}.
Implicit Types rs : ruleset.

(** A chain in the kernel *)
Definition chain_at rs (t : Z * string) (name : string) : option base_chain :=
  chains ← rs !! t; chains !! name.

(** smoker's *)
Definition smoker_chain rs (o : Options) : option base_chain :=
  chain_at rs (TableFamilyIPv4, TableName o) (ChainName o).

(** Nothing is in the way: a chain of that name, if there is one, is attached
    where smoker's is to be. *)
Definition compatible rs (o : Options) : Prop :=
  forall b, smoker_chain rs o = Some b -> same_place b (prerouting_chain o (nat_table o)) = true.

(** [rs'] is [rs] with the chain [b] in the table [t]. *)
Definition has_chain rs rs' (t : Z * string) (name : string) (b : base_chain) : Prop :=
  chain_at rs' t name = Some b /\ forall t', t' <> t -> rs' !! t' = rs !! t'.

Lemma put_chain rs t name chains b : has_chain rs (<[t := <[name := b]> chains]> rs) t name b.
Proof.
  split; [|intros t' Ht; by rewrite lookup_insert_ne].
  unfold chain_at. rewrite lookup_insert_eq. cbn. by rewrite lookup_insert_eq.
Qed.

Lemma has_chain_trans rs rs1 rs2 t name b b' :
  has_chain rs rs1 t name b -> has_chain rs1 rs2 t name b' -> has_chain rs rs2 t name b'.
Proof. intros [_ E1] [Hb E2]. split; [done|]. intros t' Ht. by rewrite E2, E1. Qed.

Lemma chain_at_spec rs t name b :
  chain_at rs t name = Some b -> exists chains, rs !! t = Some chains /\ chains !! name = Some b.
Proof. unfold chain_at. destruct (rs !! t) as [chains|]; [|done]. by exists chains. Qed.

Lemma apply_cmds_app rs xs ys : apply_cmds rs (xs ++ ys) = (rs' ← apply_cmds rs xs; apply_cmds rs' ys).
Proof.
  revert rs. induction xs as [|x xs IH]; intros rs; [done|]. cbn. destruct (apply_cmd rs x); [|done]. apply IH.
Qed.

Lemma flush_chain rs ch b :
  chain_at rs (table_key (ch_Table ch)) (ch_Name ch) = Some b ->
  exists rs', apply_cmd rs (FlushChain ch) = Some rs' /\
    has_chain rs rs' (table_key (ch_Table ch)) (ch_Name ch) (with_rules b []).
Proof.
  intros (chains & Ht & Hn)%chain_at_spec. cbn [apply_cmd]. rewrite Ht. cbn [mbind option_bind]. rewrite Hn.
  eexists. split; [done|]. apply put_chain.
Qed.

Lemma add_rules rs tb ch b es :
  chain_at rs (table_key tb) (ch_Name ch) = Some b -> Forall (fun e => forallb (expr_allowed b) e = true) es ->
  exists rs', apply_cmds rs (map (AddRule tb ch) es) = Some rs' /\
    has_chain rs rs' (table_key tb) (ch_Name ch) (with_rules b (bc_rules b ++ es)).
Proof.
  revert rs b. induction es as [|e es IH]; intros rs b Hb Hes.
  - exists rs. split; [done|]. split; [|done]. rewrite app_nil_r, Hb. by destruct b.
  - apply Forall_cons in Hes as [He Hes]. destruct (chain_at_spec _ _ _ _ Hb) as (chains & Ht & Hn).
    cbn [map apply_cmds apply_cmd]. rewrite Ht. cbn [mbind option_bind]. rewrite Hn. cbn [mbind option_bind].
    rewrite He. cbn [mbind option_bind].
    pose proof (put_chain rs (table_key tb) (ch_Name ch) chains (with_rules b (bc_rules b ++ [e]))) as Hp.
    destruct (IH _ (with_rules b (bc_rules b ++ [e])) (proj1 Hp)) as (rs' & Ha & Hr); [exact Hes|].
    exists rs'. split; [exact Ha|]. eapply has_chain_trans; [exact Hp|].
    cbn [with_rules bc_rules bc_Type bc_Hooknum bc_Priority bc_Policy] in Hr. by rewrite <- app_assoc in Hr.
Qed.

Definition enable_cmds (o : Options) : list nft_cmd :=
  let t := nat_table o in
  let ch := prerouting_chain o t in
  [AddTable t; AddChain ch; FlushChain ch] ++ map (AddRule t ch) (redirect_rules o).

Lemma add_table rs o :
  exists rs' chains, apply_cmd rs (AddTable (nat_table o)) = Some rs' /\
    rs' !! table_key (nat_table o) = Some chains /\ smoker_chain rs' o = smoker_chain rs o /\
    forall t, t <> table_key (nat_table o) -> rs' !! t = rs !! t.
Proof.
  cbn [apply_cmd]. unfold smoker_chain, chain_at. change (TableFamilyIPv4, TableName o) with (table_key (nat_table o)).
  destruct (rs !! table_key (nat_table o)) as [chains|] eqn:E.
  - exists rs, chains. by rewrite E.
  - eexists _, ∅. split; [done|]. rewrite lookup_insert_eq. split; [done|]. split; [by cbn; rewrite lookup_empty|].
    intros t Ht. by rewrite lookup_insert_ne.
Qed.

Lemma add_chain rs o chains :
  rs !! table_key (nat_table o) = Some chains ->
  match apply_cmd rs (AddChain (prerouting_chain o (nat_table o))) with
  | Some rs' => exists rules, has_chain rs rs' (table_key (nat_table o)) (ChainName o)
      (new_chain (prerouting_chain o (nat_table o)) rules)
  | None => ~ compatible rs o
  end.
Proof.
  intros Ht. cbn [apply_cmd prerouting_chain ch_Table ch_Name]. rewrite Ht. cbn [mbind option_bind].
  destruct (chains !! ChainName o) as [b|] eqn:E.
  - destruct (same_place b _) eqn:Ep; [eexists; apply put_chain|].
    intros Hc. specialize (Hc b). unfold prerouting_chain in Ep. unfold prerouting_chain in Hc. rewrite Hc in Ep; [done|].
    unfold smoker_chain, chain_at. change (TableFamilyIPv4, TableName o) with (table_key (nat_table o)). by rewrite Ht.
  - eexists. apply put_chain.
Qed.

(** The kernel accepts the batch where nothing is in the way, and then the chain
    is attached as it is to be, with the redirect rules alone, and the other
    tables are as they were. *)
Lemma apply_enable rs o :
  match apply_cmds rs (enable_cmds o) with
  | Some rs' => has_chain rs rs' (TableFamilyIPv4, TableName o) (ChainName o) (expected_chain o)
  | None => ~ compatible rs o
  end.
Proof.
  unfold enable_cmds. rewrite apply_cmds_app. cbn [apply_cmds].
  destruct (add_table rs o) as (rs1 & chains & -> & Ht & Hs & Ho). cbn [mbind option_bind].
  pose proof (add_chain rs1 o chains Ht) as Hc.
  destruct (apply_cmd rs1 _) as [rs2|].
  2: { cbn [mbind option_bind]. intros Hx. apply Hc. intros b Hb. apply Hx. by rewrite <- Hs. }
  destruct Hc as (rules & Hc). cbn [mbind option_bind].
  destruct (flush_chain rs2 (prerouting_chain o (nat_table o)) _ (proj1 Hc)) as (rs3 & -> & Hf). cbn [mbind option_bind].
  destruct (add_rules rs3 (nat_table o) (prerouting_chain o (nat_table o)) _ (redirect_rules o) (proj1 Hf))
    as (rs4 & -> & Hr).
  { unfold redirect_rules. apply Forall_app. split; [by repeat constructor|].
    destruct (RedirectHTTPSUDP o); by repeat constructor. }
  assert (Hall : has_chain rs1 rs4 (TableFamilyIPv4, TableName o) (ChainName o) (expected_chain o)).
  { eapply has_chain_trans; [exact Hc|]. eapply has_chain_trans; [exact Hf|]. exact Hr. }
  destruct Hall as [Hb Hoth]. split; [done|]. intros t Hne. rewrite Hoth by done. by apply Ho.
Qed.

End Batch.

(** ** The controller keeps its promise *)

Section ControllerFacts.
Context `{NativeEndian} {C : Type} `{NftConnLaws C} `{!NftKernel, !NftKernelLaws}.
Implicit Types c : nftController C.

Definition kernel c : ruleset := conn_kernel (conn c).

(** Nothing is queued between the operations, and an active controller's chain
    is in the kernel with its rules and nothing else. *)
Record ctl_ok c : Prop := {
  ctl_pending : conn_pending (conn c) = [];
  ctl_active : active c = true -> smoker_chain (kernel c) (opts c) = Some (expected_chain (opts c));
  ctl_table t : table c = Some t -> t = nat_table (opts c);
}.

(** The kernel redirects as the options say: smoker's chain is attached to the
    prerouting hook as a nat chain, and of the connections that arrive it
    redirects exactly IPv4 to the public ports of a local address. *)
Definition installed (o : Options) rs : Prop :=
  exists b, smoker_chain rs o = Some b /\
    bc_Type b = ChainTypeNAT /\ bc_Hooknum b = ChainHookPrerouting /\ bc_Priority b = ChainPriorityNATDest /\
    forall p, packet_ok p -> chain_verdict TableFamilyIPv4 b p = redirected o p.

Lemma expected_installed o rs : smoker_chain rs o = Some (expected_chain o) -> installed o rs.
Proof.
  intros E. exists (expected_chain o). split; [exact E|]. split; [done|]. split; [done|]. split; [done|].
  intros p. apply expected_chain_redirects.
Qed.

Lemma installed_table o rs : installed o rs -> rs !! (TableFamilyIPv4, TableName o) <> None.
Proof. intros (b & (chains & Ht & _)%chain_at_spec & _). by rewrite Ht. Qed.

Lemma EnableRedirect_queue c k :
  (let o := opts c in
   let t := nat_table o in
   let k := conn_queue (conn c) (AddTable t) in
   let ch := prerouting_chain o t in
   let k := conn_queue k (AddChain ch) in
   let k := conn_queue k (FlushChain ch) in
   let k := addRedirect t ch IPPROTO_TCP (PublicHTTP o) (InternalHTTP o) k in
   let k := addRedirect t ch IPPROTO_TCP (PublicHTTPS o) (InternalHTTPS o) k in
   if RedirectHTTPSUDP o then addRedirect t ch IPPROTO_UDP (PublicHTTPS o) (InternalHTTPS o) k else k) = k ->
  conn_pending k = conn_pending (conn c) ++ enable_cmds (opts c) /\ conn_kernel k = kernel c.
Proof.
  intros <-. unfold addRedirect, enable_cmds, redirect_rules, kernel.
  destruct (RedirectHTTPSUDP (opts c)); rewrite !conn_queue_pending, !conn_queue_kernel, <- !app_assoc; done.
Qed.

(** Netlink itself is in order: only a batch that the kernel refuses fails. *)
Definition netlink_reliable : Prop :=
  forall k e, (conn_Flush k).1 = Some e -> apply_cmds (conn_kernel k) (conn_pending k) = None.

(** Enabling the redirect succeeds only if the batch is applied, and then smoker's
    chain redirects as the options say, however often it is enabled and
    whatever rules an earlier process left there, and no other table is
    touched; if it fails, the kernel is as before, and so is what [Active]
    reports, and either netlink failed or another chain is in the way. *)
Theorem EnableRedirect_installs c :
  ctl_ok c ->
  let r := EnableRedirect c in
  ctl_ok r.2 /\ opts r.2 = opts c /\
  match r.1 with
  | None =>
      active r.2 = true /\
      (forall t, t <> (TableFamilyIPv4, TableName (opts c)) -> kernel r.2 !! t = kernel c !! t) /\
      installed (opts c) (kernel r.2)
  | Some _ => kernel r.2 = kernel c /\ active r.2 = active c /\ (netlink_reliable -> ~ compatible (kernel c) (opts c))
  end.
Proof.
  intros [Hp Ha Ht] r. unfold r, EnableRedirect.
  set (k := if RedirectHTTPSUDP (opts c) then _ else _).
  destruct (EnableRedirect_queue c k eq_refl) as [Hq Hk]. rewrite Hp, app_nil_l in Hq.
  pose proof (conn_Flush_pending k) as Hfp. pose proof (conn_Flush_ok k) as Hfo.
  pose proof (conn_Flush_error k) as Hfe. pose proof (apply_enable (kernel c) (opts c)) as Happ.
  assert (Hrel : netlink_reliable -> forall e, (conn_Flush k).1 = Some e -> ~ compatible (kernel c) (opts c)).
  { intros Hn e He. specialize (Hn k e He). rewrite Hq, Hk in Hn. by rewrite Hn in Happ. }
  destruct (conn_Flush k) as [[e|] k']; cbn [fst snd] in *.
  - specialize (Hfe e eq_refl).
    assert (Ek : conn_kernel k' = kernel c) by (by rewrite Hfe).
    split; [|split; [done|split; [exact Ek|split; [done|by intros Hn; eapply Hrel]]]].
    split; cbn; [done| |by intros t [= <-]]. unfold kernel. cbn. rewrite Ek. exact Ha.
  - specialize (Hfo eq_refl). rewrite Hq, Hk in Hfo. rewrite Hfo in Happ. destruct Happ as [Hch Ho].
    split; [|split; [done|split; [done|split]]].
    + split; cbn; [done|by intros _|by intros t [= <-]].
    + exact Ho.
    + by apply expected_installed.
Qed.

(** Disabling removes the whole table, or fails and changes nothing; it fails
    when the table is not there, and otherwise only if netlink does. *)
Theorem DisableRedirect_removes c :
  ctl_ok c ->
  let r := DisableRedirect c in
  let t := (TableFamilyIPv4, TableName (opts c)) in
  ctl_ok r.2 /\ opts r.2 = opts c /\
  match r.1 with
  | None => active r.2 = false /\ kernel r.2 = delete t (kernel c) /\ is_Some (kernel c !! t)
  | Some _ => kernel r.2 = kernel c /\ active r.2 = active c /\ (netlink_reliable -> kernel c !! t = None)
  end.
Proof.
  intros [Hp Ha Ht] r t. unfold r, DisableRedirect.
  change {| tb_Family := TableFamilyIPv4; tb_Name := TableName (opts c) |} with (nat_table (opts c)).
  assert (Et : match table c with Some t => t | None => nat_table (opts c) end = nat_table (opts c)).
  { destruct (table c) eqn:E; [by apply Ht|done]. }
  rewrite Et. set (k := conn_queue (conn c) (DelTable (nat_table (opts c)))).
  assert (Hq : conn_pending k = [DelTable (nat_table (opts c))]).
  { unfold k. by rewrite conn_queue_pending, Hp. }
  assert (Hk : conn_kernel k = kernel c) by (unfold k; apply conn_queue_kernel).
  pose proof (conn_Flush_pending k) as Hfp. pose proof (conn_Flush_ok k) as Hfo.
  pose proof (conn_Flush_error k) as Hfe.
  assert (Hrel : netlink_reliable -> forall e, (conn_Flush k).1 = Some e -> kernel c !! t = None).
  { intros Hn e He. specialize (Hn k e He). rewrite Hq, Hk in Hn. cbn [apply_cmds apply_cmd] in Hn.
    change (table_key (nat_table (opts c))) with t in Hn. by destruct (kernel c !! t). }
  destruct (conn_Flush k) as [[e|] k']; cbn [fst snd] in *.
  - specialize (Hfe e eq_refl).
    split; [|split; [done|split; [unfold kernel; cbn; by rewrite Hfe|split; [done|by intros Hn; eapply Hrel]]]].
    split; cbn; [done| |by intros t' [= <-]]. unfold kernel. cbn. intros Hact. rewrite Hfe, Hk. by apply Ha.
  - specialize (Hfo eq_refl). rewrite Hq, Hk in Hfo. cbn [apply_cmds apply_cmd] in Hfo.
    change (table_key (nat_table (opts c))) with t in Hfo.
    destruct (kernel c !! t) as [chains|] eqn:E; [|done]. cbn in Hfo. injection Hfo as Hfo.
    split; [by split|]. split; [done|]. split; [done|]. split; [|by eexists].
    unfold kernel. cbn. by rewrite <- Hfo.
Qed.

(** The operations of the interface, in any order. *)
Inductive firewall_op := OpEnable | OpDisable.

Definition run_op c (o : firewall_op) : nftController C :=
  match o with OpEnable => (EnableRedirect c).2 | OpDisable => (DisableRedirect c).2 end.

Lemma run_op_keeps c op : ctl_ok c -> ctl_ok (run_op c op) /\ opts (run_op c op) = opts c.
Proof.
  intros Hc. destruct op; cbn [run_op].
  - by destruct (EnableRedirect_installs c Hc) as (? & ? & _).
  - by destruct (DisableRedirect_removes c Hc) as (? & ? & _).
Qed.

Lemma run_ops_keep ops c : ctl_ok c -> ctl_ok (fold_left run_op ops c) /\ opts (fold_left run_op ops c) = opts c.
Proof.
  revert c. induction ops as [|op ops IH]; intros c Hc; [done|]. cbn [fold_left].
  destruct (run_op_keeps c op Hc) as [Hc' Ho]. destruct (IH _ Hc') as [? ->]. by rewrite Ho.
Qed.

(** (C38) [Active] can be trusted: after any sequence of operations, failed ones
    included, on a new controller, if it reports the redirect as active then
    smoker's nat chain is attached to the kernel's prerouting hook, and of the
    connections that arrive there it redirects exactly the IPv4 ones to a
    public port of a local address, to the internal port.  (The table is an
    IPv4 one: what arrives over IPv6 passes by smoker, see [ipv6_passes].)  And
    enabling makes it active whatever is in the kernel, unless netlink itself
    fails or another chain of that name is attached elsewhere. *)
Theorem active_means_redirecting o k c0 ops :
  New o (inr k) = inr c0 -> conn_pending k = [] ->
  let c := fold_left run_op ops c0 in
  (Active c = true -> installed o (kernel c)) /\
  (netlink_reliable -> compatible (kernel c) o -> Active (run_op c OpEnable) = true).
Proof.
  intros [= <-] Hk c.
  destruct (run_ops_keep ops {| opts := o; conn := k; table := None; chain := None; active := false |})
    as [Hc Ho]; [by split|]. fold c in Hc, Ho. cbn [opts] in Ho.
  split.
  - intros Hact. apply expected_installed. rewrite <- Ho. by apply ctl_active.
  - intros Hn Hcomp. destruct (EnableRedirect_installs c Hc) as (_ & _ & Hr). cbn [run_op]. unfold Active.
    destruct (EnableRedirect c).1; [|by destruct Hr]. rewrite Ho in Hr. by destruct Hr as (_ & _ & []).
Qed.

End ControllerFacts.

(** Traffic in transit, and traffic for any other port, is not hijacked. *)
Lemma transit_passes o p : pk_daddr_type p <> rtnLocal -> redirected o p = Next.
Proof.
  intros Hne. unfold redirected, rules_redirect, caught. destruct (_ =? _); [|done].
  repeat (destruct (decide _) as [(? & ? & ?)|?]; [done|]).
  rewrite bool_decide_eq_false_2 by tauto. by rewrite andb_false_r.
Qed.

(** IPv6 passes by smoker, whatever it is for. *)
Lemma ipv6_passes o p : pk_family p = TableFamilyIPv6 -> redirected o p = Next.
Proof. intros E. unfold redirected. by rewrite E. Qed.

(** ** Examples and witnesses *)

Module FirewallExamples.

#[local] Instance le : NativeEndian := true.

(** A kernel with a queue, which takes every batch that applies. *)
Record kconn := { k_pending : list nft_cmd; k_rules : ruleset }.

#[local] Instance kconn_ops : NftConn kconn := {
  conn_queue c cmd := {| k_pending := k_pending c ++ [cmd]; k_rules := k_rules c |};
  conn_Flush c :=
    match apply_cmds (k_rules c) (k_pending c) with
    | Some rs => (None, {| k_pending := []; k_rules := rs |})
    | None => (Some "refused", {| k_pending := []; k_rules := k_rules c |})
    end;
}.

#[local] Program Instance kconn_laws : NftConnLaws kconn := {
  conn_pending := k_pending;
  conn_kernel := k_rules;
}.
Next Obligation. done. Qed.
Next Obligation. done. Qed.
Next Obligation. intros c. cbn. by destruct (apply_cmds _ _). Qed.
Next Obligation. intros c. cbn. by destruct (apply_cmds _ _). Qed.
Next Obligation. intros c e. cbn. by destruct (apply_cmds _ _). Qed.

Lemma kconn_reliable : netlink_reliable (C := kconn).
Proof. intros k e. cbn. by destruct (apply_cmds _ _). Qed.

#[local] Instance reader : NftKernel := fun family b p =>
  if sees family p && (bc_Hooknum b =? ChainHookPrerouting)
  then match eval_chain (bc_rules b) p with
       | Next => if bc_Policy b =? ChainPolicyAccept then Next else Drop
       | v => v
       end
  else Next.
#[local] Instance reader_laws : NftKernelLaws. Proof. by intros family b p. Qed.

Definition k0 : kconn := {|
  k_pending := []; k_rules := {[(TableFamilyIPv4, "smoker") := ∅]} |}.
Definition ctl0 : nftController kconn :=
  {| opts := DefaultOptions; conn := k0; table := None; chain := None; active := false |}.

Lemma ctl0_ok : ctl_ok ctl0.
Proof. by split. Qed.

(** A SYN from outside for port 443 of this host, one in transit, and one over
    IPv6. *)
Definition syn (family ty : Z) : packet :=
  {| pk_family := family; pk_proto := 6; pk_header := [200; 10; 1; 187]; pk_daddr_type := ty |}.

Example local_caught : redirected DefaultOptions (syn 2 2) = RedirectTo 18443. Proof. vm_compute. reflexivity. Qed.
Example transit_left : redirected DefaultOptions (syn 2 1) = Next. Proof. vm_compute. reflexivity. Qed.
Example ipv6_left : redirected DefaultOptions (syn 10 2) = Next. Proof. vm_compute. reflexivity. Qed.

Lemma syn_ok : packet_ok (syn 2 2).
Proof. split; [repeat constructor; lia|]. cbn. split; [lia|]. split; lia. Qed.

(** A filter chain of the same name is in the way; the same rules in an IPv4
    chain at another hook are refused, and in an IPv6 table they do nothing for
    IPv4. *)
Definition occupied : kconn := {| k_pending := [];
  k_rules := {[(TableFamilyIPv4, "smoker") :=
    {["prerouting" := {| bc_Type := "filter"; bc_Hooknum := 0; bc_Priority := 0; bc_Policy := 1; bc_rules := [] |}]}]} |}.

Example conflict_refused :
  (EnableRedirect {| opts := DefaultOptions; conn := occupied; table := None; chain := None; active := false |}).1
    = Some "refused".
Proof. vm_compute. reflexivity. Qed.

Example other_hook_refused :
  forallb (expr_allowed {| bc_Type := "nat"; bc_Hooknum := ChainHookPostrouting; bc_Priority := 100;
    bc_Policy := 1; bc_rules := [] |}) (redirect_rule 6 443 18443) = false.
Proof. reflexivity. Qed.

Example other_family_does_nothing :
  chain_verdict TableFamilyIPv6 (expected_chain DefaultOptions) (syn 2 2) = Next.
Proof. vm_compute. reflexivity. Qed.

Lemma EnableRedirect_installs_witness :
  exists b, smoker_chain (kernel (EnableRedirect ctl0).2) DefaultOptions = Some b /\
    chain_verdict TableFamilyIPv4 b (syn 2 2) = RedirectTo 18443.
Proof.
  destruct (EnableRedirect_installs ctl0 ctl0_ok) as (_ & _ & Hr).
  assert (E : (EnableRedirect ctl0).1 = None) by (vm_compute; reflexivity).
  rewrite E in Hr. destruct Hr as (_ & _ & b & Hc & _ & _ & _ & Hv). exists b. split; [exact Hc|].
  rewrite Hv; [vm_compute; reflexivity|apply syn_ok].
Defined.

Lemma DisableRedirect_removes_witness :
  (DisableRedirect ctl0).1 = None /\ kernel (DisableRedirect ctl0).2 !! (TableFamilyIPv4, "smoker") = None.
Proof.
  assert (E : (DisableRedirect ctl0).1 = None) by (vm_compute; reflexivity). split; [exact E|].
  destruct (DisableRedirect_removes ctl0 ctl0_ok) as (_ & _ & Hr). rewrite E in Hr.
  destruct Hr as (_ & -> & _). apply lookup_delete_eq.
Defined.

(** The redirect as another program left it: the chain in its place, with a rule
    for a port of its own. *)
Definition left_behind : kconn := {| k_pending := [];
  k_rules := {[(TableFamilyIPv4, "smoker") :=
    {["prerouting" := with_rules (expected_chain DefaultOptions) [redirect_rule 6 443 9999]]}]} |}.

Lemma active_means_redirecting_witness :
  let ctl := {| opts := DefaultOptions; conn := left_behind; table := None; chain := None; active := false |} in
  let c := fold_left run_op [OpEnable; OpDisable] ctl in
  let c' := run_op c OpEnable in
  Active c = false /\ Active c' = true /\
  exists b, smoker_chain (kernel c') DefaultOptions = Some b /\ bc_Hooknum b = 0 /\
    chain_verdict TableFamilyIPv4 b (syn 2 2) = RedirectTo 18443.
Proof.
  intros ctl c c'. split; [vm_compute; reflexivity|].
  assert (Hcomp : compatible (kernel c) DefaultOptions).
  { intros b. assert (E : smoker_chain (kernel c) DefaultOptions = None) by (vm_compute; reflexivity).
    rewrite E. discriminate. }
  assert (Ha : Active c' = true).
  { destruct (active_means_redirecting DefaultOptions left_behind ctl [OpEnable; OpDisable])
      as [_ Hen]; [reflexivity|reflexivity|exact (Hen kconn_reliable Hcomp)]. }
  split; [exact Ha|].
  destruct (active_means_redirecting DefaultOptions left_behind ctl [OpEnable; OpDisable; OpEnable])
    as [Hi _]; [reflexivity|reflexivity|].
  destruct (Hi Ha) as (b & Hc & _ & Hh & _ & Hv). exists b. split; [exact Hc|]. split; [exact Hh|].
  rewrite Hv; [vm_compute; reflexivity|apply syn_ok].
Defined.

End FirewallExamples.
