(* ===== verification/Main.v ===== *)
(** * The process ([cmd/smoker])

    How the parts are wired together: the secret, the ports, the start and the
    end of the firewall redirect, template loading and the git-sync loops, the
    hot reload of templates, signals, and the order of the start-up. *)

From S2P Require Export GoCrypto Git Firewall Logging RespCache Store Protect Challenge Watch.

(** ** The secret ([resolveSecret]) *)

Definition placeholder : string := "CHANGE-ME-to-a-long-random-string".

Inductive secret_log := RandFailed (e : string) | NotPersisted | SecretGenerated.

Section Secret.
Context `{Unicode} `{Faults}.

Definition secret_path : string := log_path Paths.LogDir ".secret".

Definition acceptable (configured : string) : bool :=
  negb (configured =?s "") && negb (configured =?s placeholder) && (16 <=? len configured).

(** [resolveSecret]; [rand] is what [rand.Read] does to a buffer of 32 bytes:
    its error and the buffer afterwards. *)
Definition resolveSecret (rand : option string * string) (configured : string) :
    Sys (string * list secret_log) :=
  if acceptable configured then mret (configured, [])
  else
    b ← ReadFile secret_path;
    let persisted :=
      match b with
      | inr b => let s := TrimSpace b in if 32 <=? len s then Some s else None
      | inl _ => None
      end in
    match persisted with
    | Some s => mret (s, [])
    | None =>
        let randLog := match rand.1 with Some e => [RandFailed e] | None => [] end in
        let s := hex_EncodeToString rand.2 in
        w ← WriteFile secret_path s 384;
        mret (s, randLog ++ match w with Some _ => [NotPersisted] | None => [] end ++ [SecretGenerated])
    end.

(** The secret is never guessable from the source: an acceptable configured
    value is used as it is; otherwise it is the persisted one, which has at
    least 32 bytes, or 64 hex digits of fresh random bytes. *)
Lemma resolveSecret_cases rand configured fs :
  (resolveSecret rand configured fs).1.1 =
    if acceptable configured then configured
    else match (ReadFile secret_path fs).1 with
         | inr b => if 32 <=? len (TrimSpace b) then TrimSpace b else hex_EncodeToString rand.2
         | inl _ => hex_EncodeToString rand.2
         end.
Proof.
  unfold resolveSecret. destruct (acceptable configured); [done|]. unfold mbind, Sys_bind.
  destruct (ReadFile secret_path fs) as [[e|b] fs1]; cbn [fst].
  - by destruct (WriteFile _ _ _ fs1) as [[]].
  - destruct (32 <=? len (TrimSpace b)); [done|]. by destruct (WriteFile _ _ _ fs1) as [[]].
Qed.

End Secret.

(** *** Hex digits *)

Lemma hex_char_plain n : 0 <= n < 16 -> is_ascii (hex_char n) = true /\ is_space (hex_char n) = false.
Proof.
  intros Hn. assert (Hall : forallb (fun k => is_ascii (hex_char (Z.of_nat k)) && negb (is_space (hex_char (Z.of_nat k))))
    (List.seq 0 16) = true) by (vm_compute; reflexivity).
  rewrite forallb_forall in Hall. specialize (Hall (Z.to_nat n)). rewrite Z2Nat.id in Hall by lia.
  destruct (andb_true_iff (is_ascii (hex_char n)) (negb (is_space (hex_char n)))) as [Hd _].
  destruct Hd as [? Hs]; [apply Hall; apply in_seq; lia|]. split; [done|]. by apply negb_true_iff.
Qed.

Definition plain (c : byte) : bool := is_ascii c && negb (is_space c).

Lemma byte_Z_range c : 0 <= byte_Z c < 256.
Proof. unfold byte_Z, byte_N. pose proof (Ascii.N_ascii_bounded c). lia. Qed.

Lemma str_forallb_list p l : str_forallb p (String.string_of_list_ascii l) = forallb p l.
Proof. induction l as [|c l IH]; [done|]. cbn. by rewrite IH. Qed.

Lemma str_length_list l : String.length (String.string_of_list_ascii l) = length l.
Proof. induction l as [|c l IH]; [done|]. cbn. by rewrite IH. Qed.

Lemma hex_plain s : str_forallb plain (hex_EncodeToString s) = true.
Proof.
  unfold hex_EncodeToString. rewrite str_forallb_list. apply forallb_forall. intros c Hc.
  apply in_flat_map in Hc as (b & Hb & Hc). apply list_elem_of_In, list_elem_of_fmap in Hb as (x & -> & _).
  pose proof (byte_Z_range x). unfold plain.
  destruct Hc as [<-|[<-|[]]]; destruct (hex_char_plain (byte_Z x / 16)), (hex_char_plain (byte_Z x mod 16));
    try (split; [apply Z.div_pos; lia|apply Z.div_lt_upper_bound; lia]); try (apply Z.mod_pos_bound; lia);
    apply andb_true_iff; split; try done; by apply negb_true_iff.
Qed.

Lemma hex_length s : len (hex_EncodeToString s) = 2 * len s.
Proof.
  unfold hex_EncodeToString, len. rewrite str_length_list. unfold string_bytes.
  assert (E : forall l : list Z, length (flat_map (fun b => [hex_char (b / 16); hex_char (b mod 16)]) l) = (2 * length l)%nat).
  { induction l as [|b l IH]; [done|]. cbn [flat_map length app]. rewrite IH. lia. }
  rewrite E, length_fmap.
  assert (El : length (String.list_ascii_of_string s) = String.length s).
  { induction s as [|c s IH]; [done|]. cbn. by rewrite IH. }
  rewrite El. lia.
Qed.

Lemma TrimSpace_plain `{Unicode} s : str_forallb plain s = true -> TrimSpace s = s.
Proof.
  intros Hs.
  assert (Ha : isASCII s = true /\ str_forallb (fun c => negb (is_space c)) s = true).
  { unfold isASCII, plain in *. induction s as [|c s IH]; [done|]. cbn in Hs |- *.
    apply andb_true_iff in Hs as [Hc Hs]. apply andb_true_iff in Hc as [-> ->]. by apply IH in Hs as [-> ->]. }
  destruct Ha as [Ha Hn]. unfold TrimSpace. rewrite Ha.
  assert (Hl : trim_left is_space s = s).
  { destruct s as [|c s]; [done|]. cbn in Hn |- *. apply andb_true_iff in Hn as [Hc _].
    apply negb_true_iff in Hc. by rewrite Hc. }
  rewrite Hl. clear Hl Ha Hs. induction s as [|c s IH]; [done|]. cbn in Hn |- *.
  apply andb_true_iff in Hn as [Hc Hn]. rewrite IH by done. apply negb_true_iff in Hc. rewrite Hc. by destruct s.
Qed.

Section SecretFacts.
Context `{Unicode} `{Faults}.

(** The secret has at least 16 bytes and is not the placeholder that ships with
    the repository, unless the operator has put that into the secret file
    himself: an unset, short or unchanged setting is replaced by the persisted
    secret or by 64 hex digits of random bytes, also when nothing can be
    persisted. *)
Theorem secret_is_strong rand configured fs :
  len rand.2 = 32 ->
  (forall b, (ReadFile secret_path fs).1 = inr b -> TrimSpace b <> placeholder) ->
  let s := (resolveSecret rand configured fs).1.1 in
  16 <= len s /\ s <> placeholder /\ (s = configured \/ 32 <= len s).
Proof.
  intros Hr Hb s. unfold s. rewrite resolveSecret_cases. pose proof (hex_length rand.2) as Hh. rewrite Hr in Hh.
  assert (Hhp : hex_EncodeToString rand.2 <> placeholder).
  { intros E. rewrite E in Hh. discriminate Hh. }
  destruct (acceptable configured) eqn:Ea.
  - unfold acceptable in Ea. bool_to_prop. split_and!; [lia|done|by left].
  - destruct (ReadFile secret_path fs) as [[e|b] fs1]; cbn [fst] in *; [split_and!; [lia|done|right; lia]|].
    destruct (32 <=? len (TrimSpace b)) eqn:El; bool_to_prop; [|split_and!; [lia|done|right; lia]].
    split_and!; [lia|by apply Hb|right; lia].
Qed.

(** A generated secret survives restarts: once it has been written, every later
    start with an unusable setting resolves to the same secret, whatever the
    random source then yields, and the file is readable by its owner only. *)
Theorem secret_survives_restart rand rand' configured configured' fs :
  (forall n c, fault n c = None) ->
  acceptable configured = false -> acceptable configured' = false -> len rand.2 = 32 ->
  files fs !! secret_path = None -> secret_path ∉ dirs fs -> filepath_Dir secret_path ∈ dirs fs ->
  let r := resolveSecret rand configured fs in
  files r.2 !! secret_path = Some (r.1.1, 384) /\
  (resolveSecret rand' configured' r.2).1.1 = r.1.1.
Proof.
  intros Hok Ha Ha' Hr Hf Hd Hdir r.
  assert (E : files r.2 !! secret_path = Some (hex_EncodeToString rand.2, 384) /\ r.1.1 = hex_EncodeToString rand.2).
  { unfold r. split.
    - unfold resolveSecret. rewrite Ha. unfold mbind, Sys_bind, ReadFile. rewrite Hok, Hf.
      unfold WriteFile. rewrite Hok. cbn [dirs tick]. rewrite bool_decide_eq_false_2 by done.
      rewrite bool_decide_eq_true_2 by done. cbn. rewrite Hf. by rewrite lookup_insert_eq.
    - rewrite resolveSecret_cases, Ha. unfold ReadFile. by rewrite Hok, Hf. }
  destruct E as [E1 E2]. rewrite E2. split; [exact E1|].
  rewrite resolveSecret_cases, Ha'. unfold ReadFile. rewrite Hok. cbn [fst]. rewrite E1. cbn [fst].
  rewrite TrimSpace_plain by apply hex_plain. rewrite (proj2 (Z.leb_le 32 _)); [done|].
  rewrite hex_length. lia.
Qed.

End SecretFacts.

(** ** Ports ([http3.go]) *)

(** The port of [net.SplitHostPort]: what follows the last colon *)
Definition SplitHostPort_port (addr : string) : option string :=
  _ ← SplitHostPort addr; i ← LastIndexByte addr ":"; Some (str_drop (S i) addr).

Definition portOf (addr : string) (fallback : Z) : Z :=
  match SplitHostPort_port addr with
  | None => fallback
  | Some p => match Atoi p with None => fallback | Some n => n end
  end.

(** The settings of [newHTTP3] that smoker chooses; the QUIC limits are
    constants of the server. *)
Record http3_config := { h3_Addr : string; h3_Port : Z; h3_Allow0RTT : bool }.

Definition newHTTP3 (addr : string) (advertisePort : Z) : http3_config :=
  {| h3_Addr := addr; h3_Port := advertisePort; h3_Allow0RTT := false |}.

(** The optional HTTP/3 listener of [run] *)
Definition http3_listener (cfg : Config.Config) : option http3_config :=
  let l := Listen cfg in
  if ln_HTTP3 l && negb (ln_HTTPS l =?s "") then
    let advertise := portOf (ln_HTTPS l) 443 in
    let advertise :=
      if fw_Enabled (Config.Firewall cfg) && negb (fw_PublicHTTPSPort (Config.Firewall cfg) =? 0)
      then fw_PublicHTTPSPort (Config.Firewall cfg) else advertise in
    Some (newHTTP3 (ln_HTTPS l) advertise)
  else None.

(** A byte with no meaning in a host and port. *)
Definition hostport_plain (c : byte) : bool := negb (c =?c ":") && negb (c =?c "[") && negb (c =?c "]").

Lemma hostport_plain_other c x :
  x = ":"%char \/ x = "["%char \/ x = "]"%char -> hostport_plain c = true -> negb (c =?c x) = true.
Proof. unfold hostport_plain. rewrite !andb_true_iff. intros [->|[->| ->]]; tauto. Qed.

Lemma digit_hostport_plain c : is_digit c = true -> hostport_plain c = true.
Proof.
  intros Hc. unfold hostport_plain.
  destruct (c =?c ":") eqn:E1; [apply Ascii.eqb_eq in E1 as ->; discriminate|].
  destruct (c =?c "[") eqn:E2; [apply Ascii.eqb_eq in E2 as ->; discriminate|].
  destruct (c =?c "]") eqn:E3; [apply Ascii.eqb_eq in E3 as ->; discriminate|]. done.
Qed.

Lemma plain_exists s x :
  x = ":"%char \/ x = "["%char \/ x = "]"%char -> str_forallb hostport_plain s = true ->
  str_existsb (fun c => c =?c x) s = false.
Proof.
  intros Hx Hs. unfold str_existsb. apply negb_false_iff. eapply str_forallb_impl; [|exact Hs].
  intros c. by apply hostport_plain_other.
Qed.

Lemma SplitHostPort_plain host port :
  str_forallb hostport_plain host = true -> str_forallb hostport_plain port = true ->
  SplitHostPort (host +:+ String ":" port) = Some host /\
  LastIndexByte (host +:+ String ":" port) ":" = Some (String.length host).
Proof.
  intros Hh Hp.
  assert (Hl : LastIndexByte (host +:+ String ":" port) ":" = Some (String.length host)).
  { apply LastIndexByte_app. eapply str_forallb_impl; [|exact Hp]. intros c. apply hostport_plain_other. by left. }
  split; [|done]. unfold SplitHostPort. rewrite Hl.
  assert (Hno : forall x, x = "["%char \/ x = "]"%char ->
    str_existsb (fun c => c =?c x) (host +:+ String ":" port) = false).
  { intros x Hx. unfold str_existsb. apply negb_false_iff. rewrite str_forallb_app. apply andb_true_iff. split.
    - eapply str_forallb_impl; [|exact Hh]. intros c. apply hostport_plain_other. tauto.
    - cbn. apply andb_true_iff. split; [by destruct Hx as [->| ->]|].
      eapply str_forallb_impl; [|exact Hp]. intros c. apply hostport_plain_other. tauto. }
  rewrite str_take_app, plain_exists, !Hno by auto. cbn [orb].
  destruct host as [|c s]; [done|]. rewrite str_app_cons.
  destruct c as [[] [] [] [] [] [] [] []]; done.
Qed.

(** A listen address that names a host and a port yields that port. *)
Theorem portOf_reads_port host n fallback :
  str_forallb hostport_plain host = true -> 0 <= n <= max_int64 ->
  portOf (host +:+ String ":" (Itoa n)) fallback = n.
Proof.
  intros Hh Hn.
  assert (Hp : str_forallb hostport_plain (Itoa n) = true).
  { eapply str_forallb_impl; [exact digit_hostport_plain|]. apply Itoa_nonneg_digits. lia. }
  destruct (SplitHostPort_plain host (Itoa n) Hh Hp) as [Hs Hl].
  unfold portOf, SplitHostPort_port. rewrite Hs. cbn [mbind option_bind]. rewrite Hl. cbn [mbind option_bind].
  assert (E : str_drop (S (String.length host)) (host +:+ String ":" (Itoa n)) = Itoa n).
  { clear. induction host as [|c s IH]; [apply str_drop_0|]. rewrite str_app_cons. cbn [String.length str_drop]. exact IH. }
  rewrite E. unfold Atoi. by rewrite ParseInt_Itoa.
Qed.

(** ** The firewall's life *)

Inductive fw_log :=
| FwInitFailed (e : string) | FwEnableFailed (e : string) | FwEnabled
| FwDisableFailed (e : string) | FwRemoved | FwLeft.

Definition firewall_options (cfg : Config.Config) : Firewall.Options :=
  let f := Config.Firewall cfg in
  let d := Firewall.DefaultOptions in
  {| TableName := TableName d; ChainName := ChainName d;
     PublicHTTP := fw_PublicHTTPPort f; PublicHTTPS := fw_PublicHTTPSPort f;
     InternalHTTP := fw_InternalHTTPPort f; InternalHTTPS := fw_InternalHTTPSPort f;
     RedirectHTTPSUDP := ln_HTTP3 (Listen cfg) |}.

Section FirewallLife.
Context `{NativeEndian} {C : Type} `{NftConn C}.

(** The firewall part of [run]: the controller, which is nil without
    firewall or when it cannot be created *)
Definition start_firewall (cfg : Config.Config) (noFirewall : bool) (newConn : string + C) :
    option (nftController C) * list fw_log :=
  if fw_Enabled (Config.Firewall cfg) && negb noFirewall then
    match Firewall.New (firewall_options cfg) newConn with
    | inl e => (None, [FwInitFailed e])
    | inr fw =>
        match EnableRedirect fw with
        | (Some e, fw) => (Some fw, [FwEnableFailed e])
        | (None, fw) => (Some fw, [FwEnabled])
        end
    end
  else (None, []).

(** The firewall part of [shutdown]; the servers are drained before *)
Definition shutdown (cfg : Config.Config) (fw : option (nftController C)) :
    option (nftController C) * list fw_log :=
  match fw with
  | None => (None, [])
  | Some fw =>
      if fw_FailOpen (Config.Firewall cfg) then
        match DisableRedirect fw with
        | (Some e, fw) => (Some fw, [FwDisableFailed e])
        | (None, fw) => (Some fw, [FwRemoved])
        end
      else (Some fw, [FwLeft])
  end.

Context `{!NftConnLaws C} `{!NftKernel, !NftKernelLaws}.

(** smoker's table: [table ip smoker] *)
Definition smoker_table : Z * string := (TableFamilyIPv4, "smoker").

(** The state in which smoker leaves the firewall: configured to fail open, it
    either removes its redirect, and the rest of the ruleset is as it was
    before the start, or logs an error, which after a redirect that was enabled
    only netlink itself can cause; configured to fail closed, it leaves in
    place whatever is there, and if the redirect was enabled, the kernel goes
    on redirecting public IPv4 traffic to the closed ports. *)
Theorem shutdown_end_state cfg noFirewall k fw fw' log log' :
  conn_pending k = [] ->
  start_firewall cfg noFirewall (inr k) = (Some fw, log) -> shutdown cfg (Some fw) = (Some fw', log') ->
  (if fw_FailOpen (Config.Firewall cfg)
   then (log' = [FwRemoved] /\ kernel fw' !! smoker_table = None /\
         forall t, t <> smoker_table -> kernel fw' !! t = conn_kernel k !! t) \/
        (exists e, log' = [FwDisableFailed e]) /\ (log = [FwEnabled] -> ~ netlink_reliable (C := C))
   else kernel fw' = kernel fw /\
        (log = [FwEnabled] -> installed (firewall_options cfg) (kernel fw'))).
Proof.
  intros Hk Hs He. unfold start_firewall in Hs.
  destruct (fw_Enabled (Config.Firewall cfg) && negb noFirewall); [|done]. cbn [Firewall.New] in Hs.
  set (o := firewall_options cfg) in *.
  set (fw0 := {| opts := o; conn := k; table := None; chain := None; active := false |} : nftController C) in *.
  assert (H0ok : ctl_ok fw0) by by split.
  destruct (EnableRedirect_installs fw0 H0ok) as (Hok & Ho & Hr).
  destruct (EnableRedirect fw0) as [[e|] fw1] eqn:E; cbn [fst snd] in Hok, Ho, Hr; injection Hs as <- <-.
  - destruct Hr as [Hkr _]. unfold shutdown in He. destruct (fw_FailOpen (Config.Firewall cfg)).
    + destruct (DisableRedirect_removes fw1 Hok) as (_ & _ & Hd).
      destruct (DisableRedirect fw1) as [[e'|] fw2]; cbn [fst snd] in Hd; injection He as <- <-;
        [right; split; [eauto|done]|left].
      destruct Hd as (_ & Hd & _). rewrite Ho in Hd. rewrite Hd. split; [done|].
      split; [apply lookup_delete_eq|]. intros t Ht. rewrite lookup_delete_ne by done. by rewrite Hkr.
    + injection He as <- <-. split; [done|]. done.
  - destruct Hr as (_ & Hoth & Hrules). unfold shutdown in He. destruct (fw_FailOpen (Config.Firewall cfg)).
    + destruct (DisableRedirect_removes fw1 Hok) as (_ & _ & Hd).
      destruct (DisableRedirect fw1) as [[e'|] fw2]; cbn [fst snd] in Hd; injection He as <- <-.
      * right. split; [eauto|]. intros _ Hn. destruct Hd as (_ & _ & Hd). specialize (Hd Hn).
        rewrite Ho in Hd. by apply (installed_table _ _ Hrules).
      * left. destruct Hd as (_ & Hd & _). rewrite Ho in Hd. rewrite Hd. split; [done|].
        split; [apply lookup_delete_eq|]. intros t Ht. rewrite lookup_delete_ne by done. by apply Hoth.
    + injection He as <- <-. split; [done|]. intros _. exact Hrules.
Qed.

End FirewallLife.

(** ** Templates and access lists *)

Inductive sync_log :=
| SyncWarning (label e : string) | TemplatesLoaded (loaded skipped : Z) | TemplateError (e : Loader.load_error)
| ReloadFailed (label : string) (e : Config.load_error) | ListReloaded (label : string) (entries : nat) | ListWarning (w : string).

Section Wiring.
Context `{Unicode} `{Regexp} (template_Unmarshal : string -> string + Template).
Context (config_Unmarshal : string -> Config.Config -> string + Config.Config).
Context {E : Type}.

(** [loadTemplates]; the engine's evaluator has type [E] *)
Definition loadTemplates (e : engine (S := E)) (dir : string) (root : option fsnode) : engine (S := E) * list sync_log :=
  let res := LoadDir template_Unmarshal dir root in
  (Engine.Reload e (Signatures res),
   TemplatesLoaded (Loaded res) (Skipped res) :: map TemplateError (Loader.Errors res)).

(** The host: what [git] works on, and the world that the loaders read. *)
Context {S : Type} `{Host S} (world_of : S -> world).

(** The sync function of the template loop *)
Definition syncTemplates (s : S) (mgr : Config.Manager) (e : engine (S := E)) :
    S * engine (S := E) * list sync_log :=
  let t := Templates (Config.Get mgr) in
  let '(err, s) := SyncRepo s (tp_Dir t) (tp_GitURL t) (tp_GitBranch t) in
  let '(e, log) := loadTemplates e (tp_Dir t) (tree (world_of s) (tp_Dir t)) in
  (s, e, match err with Some x => [SyncWarning "template" x] | None => [] end ++ log).

(** [label] of [syncAccessList] *)
Definition list_of (cfg : Config.Config) (label : string) : AccessList :=
  if label =?s "blocklist" then Blocklist cfg
  else if label =?s "trusted_proxies" then TrustedProxies cfg
  else Whitelist cfg.

Definition syncAccessList (s : S) (mgr : Config.Manager) (label : string) :
    S * Config.Manager * list sync_log :=
  let al := list_of (Config.Get mgr) label in
  let '(err, s) := SyncRepo s (al_Dir al) (al_GitURL al) (al_GitBranch al) in
  let warn := match err with Some x => [SyncWarning label x] | None => [] end in
  match Config.Reload config_Unmarshal (world_of s) mgr with
  | (Some e, mgr, _) => (s, mgr, warn ++ [ReloadFailed label e])
  | (None, mgr, _) =>
      let nc := Config.Get mgr in
      (s, mgr, warn ++ ListReloaded label (length (al_IPs (list_of nc label))) ::
               map ListWarning (AccessListWarnings nc))
  end.

(** [syncLoop]: the receptions of its [select] are ticks, and [stop] at the
    end; [sync] runs at once and on every tick. *)
Inductive tick := Tick | Stop.

Fixpoint sync_ticks {A} (sync : A -> A) (ticks : list tick) (a : A) : A :=
  match ticks with
  | [] | Stop :: _ => a
  | Tick :: ticks => sync_ticks sync ticks (sync a)
  end.

Definition syncLoop {A} (interval : duration) (sync : A -> A) (ticks : list tick) (a : A) : A :=
  if interval <=? 0 then a else sync_ticks sync ticks (sync a).

(** The loops [startSyncLoops] starts: their labels and intervals *)
Definition startSyncLoops (cfg : Config.Config) : list (string * duration) :=
  [("templates", tp_SyncInterval (Templates cfg)); ("whitelist", al_SyncInterval (Whitelist cfg));
   ("blocklist", al_SyncInterval (Blocklist cfg))] ++
  (if al_GitURL (TrustedProxies cfg) =?s "" then []
   else [("trusted_proxies", al_SyncInterval (TrustedProxies cfg))]).

(** The engine has exactly the templates on disk. *)
Definition fresh (mgr : Config.Manager) (x : S * engine (S := E)) : Prop :=
  sigs x.2 = Signatures (LoadDir template_Unmarshal (tp_Dir (Templates (current mgr)))
               (tree (world_of x.1) (tp_Dir (Templates (current mgr))))).

Definition template_sync (mgr : Config.Manager) (x : S * engine (S := E)) : S * engine (S := E) :=
  let '(s, e, _) := syncTemplates x.1 mgr x.2 in (s, e).

Lemma template_sync_fresh mgr x : fresh mgr (template_sync mgr x).
Proof. unfold template_sync, syncTemplates, Config.Get. by destruct (SyncRepo _ _ _ _) as [err s']. Qed.

(** A failing remote does not disarm smoker: through any ticks of the template
    loop, whether [git] succeeds or not, the engine has exactly the templates
    that were on disk after the last sync. *)
Theorem template_loop_follows_the_disk interval mgr ticks x :
  0 < interval -> fresh mgr (syncLoop interval (template_sync mgr) ticks x).
Proof.
  intros Hi. unfold syncLoop. rewrite (proj2 (Z.leb_gt interval 0)) by done.
  assert (Hf : fresh mgr (template_sync mgr x)) by apply template_sync_fresh.
  revert Hf. generalize (template_sync mgr x) as y.
  induction ticks as [|[] ticks IH]; intros y Hy; cbn [sync_ticks]; [done| |done].
  apply IH, template_sync_fresh.
Qed.

(** A sync of an access list, whether [git] succeeds or not, swaps in the
    configuration that the disk then holds; if that is invalid, the one in force
    is kept, and the failure is logged. *)
Theorem list_sync_follows_the_disk s mgr label :
  let l := syncAccessList s mgr label in
  match Load config_Unmarshal (world_of l.1.1) (mg_path mgr) with
  | inr cfg => current l.1.2 = cfg
  | inl err => l.1.2 = mgr /\ ReloadFailed label err ∈ l.2
  end.
Proof.
  unfold syncAccessList. destruct (SyncRepo _ _ _ _) as [err s']. unfold Config.Reload.
  destruct (Load config_Unmarshal (world_of s') (mg_path mgr)) as [x|cfg] eqn:El; cbn; rewrite El; [|done].
  split; [done|]. apply elem_of_app. right. left.
Qed.

(** *** Hot reload of templates *)

(** The callback of [WatchTemplates]: [loadTemplates] on the disk of that
    time. *)
Definition reload_templates (dir : string) (disk : time -> option fsnode) (t : time)
    (e : engine (S := E)) : engine (S := E) :=
  (loadTemplates e dir (disk t)).1.

(** Templates take effect without a restart: once a change of a template file
    has been seen and the goroutine is idle again, the engine's rules are those
    of the directory, if it has not changed since. *)
Theorem templates_follow_the_disk dir disk hasOnError stat t0 e0 ms c te ev d :
  steps (fun t => templates_select (reload_templates dir disk) hasOnError (stat t) t) (start t0 e0) ms c ->
  running c = Some {| timerC := None |} ->
  (te, Received ev) ∈ ms -> isTemplateEvent ev = true ->
  (forall t, te <= t -> disk t = d) ->
  sigs (shared c) = Signatures (LoadDir template_Unmarshal dir d).
Proof.
  intros Hs Hr Hin Ha Hd.
  destruct (no_change_is_lost _ _ _ _ _ _ _ _ _ _ Hs Hr Hin Ha) as [(_ & tr & s & Htr & Es)|(x & Hx & _)];
    [|done].
  rewrite Es. unfold reload_templates, loadTemplates. cbn.
  by rewrite Hd by (unfold debounce in Htr; lia).
Qed.

End Wiring.

(** ** Start-up and signals ([run]) *)

Inductive start_error :=
| StartBootstrap (e : oserr) | StartConfig (e : Config.load_error) | StartLogDir (e : oserr)
| StartLogging (e : string) | StartReputation | StartSession | StartCache | StartProtection.

Section Run.
Context `{Unicode} `{Regexp} (template_Unmarshal : string -> string + Template).
Context `{BoltDB} `{EntryJSON} `{LRU Session.record} `{LRU RespCache.Entry} `{Float64} `{LRU bucket}.
Context {L : Type}.

(** What [run] builds before it starts the servers *)
Record parts := {
  pt_config : Config.Manager;
  pt_logs : L;
  pt_rep : Reputation.Manager;
  pt_tracker : Session.tracker;
  pt_engine : engine (S := Session.tracker);
  pt_secret : string;
  pt_challenge : Challenge.Manager;
  pt_cache : RespCache.Cache;
  pt_guard : Protect.Guard;
}.

Definition reputation_config (cfg : Config.Config) : Reputation.Config :=
  let r := Config.Reputation cfg in
  {| BlockThreshold := rp_BlockThreshold r; Window := rp_Window r; GreylistTTL := rp_GreylistTTL r;
     BlockTTL := rp_BlockTTL r; CleanTTL := rp_CleanTTL r |}.

(** The start of [run], on what the operating system gives: whether the
    configuration file is missing and what [Ensure] then returns, the loaded
    configuration, the log directory, the log files, the database, the clock,
    the secret, and the files below a directory. *)
Definition startup (needsInit : bool) (ensured : option oserr) (loaded : Config.load_error + Config.Manager)
    (mkdirLogs : option oserr) (opened : string + L) (db : bolt_t) (now : time)
    (secretOf : string -> string) (dir : string -> option fsnode) (asset : string -> string -> option string) :
    start_error + parts :=
  match (if needsInit then ensured else None) with Some e => inl (StartBootstrap e) | None =>
  match loaded with inl e => inl (StartConfig e) | inr mgr =>
  let cfg := Config.Get mgr in
  match mkdirLogs with Some e => inl (StartLogDir e) | None =>
  match opened with inl e => inl (StartLogging e) | inr logs =>
  match Reputation.Open db (reputation_config cfg) now with None => inl StartReputation | Some rep =>
  match Session.New (ss_MaxEntries (Config.Session cfg)) (ss_TTL (Config.Session cfg)) with
  | None => inl StartSession | Some tracker =>
  let engine := (loadTemplates template_Unmarshal (NewEngine (Some tracker)) (tp_Dir (Templates cfg))
                   (dir (tp_Dir (Templates cfg)))).1 in
  let ch := Config.Challenge cfg in
  let secret := secretOf (chal_Secret ch) in
  let chMgr := Challenge.New (asset (chal_AssetsDir ch)) secret (chal_TTL ch) (chal_POWBits ch) true in
  match RespCache.New (ca_MaxEntries (CacheC cfg)) with None => inl StartCache | Some cache =>
  match Protect.New (pr_MaxTrackedIPs (Protection cfg)) with None => inl StartProtection | Some guard =>
  inr {| pt_config := mgr; pt_logs := logs; pt_rep := rep; pt_tracker := tracker; pt_engine := engine;
         pt_secret := secret; pt_challenge := chMgr; pt_cache := cache; pt_guard := guard |}
  end end end end end end end end.

Context `{!LRULaws Session.record} `{!LRULaws RespCache.Entry} `{!LRULaws bucket}.

Lemma clamp_New {V} `{LRULaws V} n d : 0 < d -> is_Some (lru_new (if n <=? 0 then d else n)).
Proof.
  intros Hd. destruct (n <=? 0) eqn:E; bool_to_prop;
    [destruct (lru_new_ok d) as (c & -> & _)|destruct (lru_new_ok n) as (c & -> & _)]; eauto; lia.
Qed.

(** Smoker starts exactly if the first-run provisioning, the configuration, the
    log directory, the log files and the reputation database succeed: no value
    of a size in the configuration can stop it.  It then runs with that
    configuration: the reputation manager on its thresholds, the templates of
    its directory loaded, the cookies and the challenge tokens signed with the
    same resolved secret, and a tracker that holds sessions. *)
Theorem startup_succeeds needsInit ensured loaded mkdirLogs opened db now secretOf dir asset :
  let r := startup needsInit ensured loaded mkdirLogs opened db now secretOf dir asset in
  (is_Some (match r with inr p => Some p | inl _ => None end) <->
     (needsInit = true -> ensured = None) /\ mkdirLogs = None /\ (exists logs, opened = inr logs) /\
     exists mgr, loaded = inr mgr /\ is_Some (Reputation.Open db (reputation_config (current mgr)) now)) /\
  forall p, r = inr p ->
    loaded = inr (pt_config p) /\
    Reputation.Open db (reputation_config (current (pt_config p))) now = Some (pt_rep p) /\
    sigs (pt_engine p) = Signatures (LoadDir template_Unmarshal (tp_Dir (Templates (current (pt_config p))))
                           (dir (tp_Dir (Templates (current (pt_config p)))))) /\
    pt_secret p = secretOf (chal_Secret (Config.Challenge (current (pt_config p)))) /\
    Challenge.secret (pt_challenge p) = pt_secret p /\
    (0 <= ss_TTL (Config.Session (current (pt_config p))) -> clocked_ok (Clocked (pt_tracker p) now)).
Proof.
  intros r. unfold r, startup, Config.Get.
  destruct (if needsInit then ensured else None) as [e|] eqn:E1.
  { split; [|done]. split; [by intros [? ?]|]. intros (Hi & _). destruct needsInit; [|done]. by rewrite Hi in E1. }
  assert (Hi : needsInit = true -> ensured = None) by (by destruct needsInit).
  destruct loaded as [e|mgr]; [split; [|done]; split; [by intros [? ?]|by intros (_ & _ & _ & ? & ? & _)]|].
  destruct mkdirLogs; [split; [|done]; split; [by intros [? ?]|by intros (_ & ? & _)]|].
  destruct opened as [e|logs]; [split; [|done]; split; [by intros [? ?]|by intros (_ & _ & (? & ?) & _)]|].
  destruct (Reputation.Open db (reputation_config (current mgr)) now) as [rep|] eqn:Er.
  2: { split; [|done]. split; [by intros [? ?]|]. intros (_ & _ & _ & m & [= <-] & [? Ho]). by rewrite Er in Ho. }
  unfold Session.New, RespCache.New, Protect.New.
  destruct (clamp_New (V := Session.record) (ss_MaxEntries (Config.Session (current mgr))) 100000 ltac:(lia)) as [c1 E2].
  destruct (clamp_New (V := RespCache.Entry) (ca_MaxEntries (CacheC (current mgr))) 1024 ltac:(lia)) as [c2 E3].
  destruct (clamp_New (V := bucket) (pr_MaxTrackedIPs (Protection (current mgr))) 65536 ltac:(lia)) as [c3 E4].
  rewrite E2. cbn [mbind option_bind]. rewrite E3, E4. split.
  - split; [|eauto]. intros _. split_and!; [done|done|eauto|]. exists mgr. split; [done|]. rewrite Er. eauto.
  - intros p [= <-]. cbn. split_and!; try done. intros Httl. split; [|done]. cbn.
    destruct (_ <=? 0) eqn:Ez in E2; bool_to_prop; [destruct (lru_new_ok (V := Session.record) 100000) as (c & Hc & _ & Hcap)|
      destruct (lru_new_ok (V := Session.record) (ss_MaxEntries (Config.Session (current mgr)))) as (c & Hc & _ & Hcap)]; try lia;
      rewrite E2 in Hc; injection Hc as ->; rewrite Hcap; lia.
Qed.

End Run.

(** *** Signals *)

Inductive signal := SIGHUP | SIGTERM | SIGINT.

(** The signal loop of [run]: the log files, and the signal that ended it.  A
    SIGHUP comes with the order in which [Reopen] meets the files. *)
Fixpoint signal_loop `{OpenFaults} (l : list (signal * list string)) (x : Loggers * os_state) :
    option signal * (Loggers * os_state) :=
  match l with
  | [] => (None, x)
  | (SIGHUP, order) :: l =>
      let r := Reopen order x.1 x.2 in signal_loop l (r.1.2, r.2)
  | (s, _) :: _ => (Some s, x)
  end.

(** A reload signal never ends the process, also when reopening fails, and it
    leaves the log streams open; the first other signal ends it. *)
Theorem only_termination_signals_end `{OpenFaults} l x :
  streams_ok x.1 x.2 ->
  let r := signal_loop l x in
  streams_ok r.2.1 r.2.2 /\
  r.1 = fst <$> head (List.filter (fun s => match s.1 with SIGHUP => false | _ => true end) l).
Proof.
  revert x. induction l as [|[[] order] l IH]; intros x Hok; [done| |done..].
  cbn [signal_loop List.filter fst]. apply IH. cbn [fst snd].
  destruct (Reopen order x.1 x.2) as [[err l'] os'] eqn:E. by eapply Reopen_ok.
Qed.

(** ** Examples and witnesses *)

Module MainExamples.

#[local] Existing Instance ascii_only.
#[local] Existing Instance PathRegexp.regexp.
#[local] Instance no_faults : Faults := fun _ _ => None.

Definition log_fs : fsys :=
  {| files := ∅; dirs := list_to_set (parents Paths.LogDir); calls := 0 |}.
Definition random32 : string := "0123456789abcdefghijklmnopqrstuv".

Lemma secret_is_strong_witness :
  16 <= len (resolveSecret (None, random32) placeholder log_fs).1.1.
Proof.
  apply (secret_is_strong (None, random32) placeholder log_fs); [reflexivity|].
  intros b. unfold ReadFile. cbn. discriminate.
Defined.

Lemma secret_survives_restart_witness :
  let r := resolveSecret (None, random32) "" log_fs in
  (resolveSecret (Some "no entropy", "") placeholder r.2).1.1 = r.1.1.
Proof.
  intros r. apply (secret_survives_restart (None, random32) (Some "no entropy", "") "" placeholder log_fs);
    try reflexivity.
  - apply (bool_decide_eq_false_1 (secret_path ∈ dirs log_fs)). vm_compute. reflexivity.
Defined.

Lemma portOf_reads_port_witness : portOf "0.0.0.0:18443" 443 = 18443.
Proof. apply (portOf_reads_port "0.0.0.0" 18443 443); [reflexivity|unfold max_int64; lia]. Defined.

Import FirewallExamples.
#[local] Existing Instance FirewallExamples.le.
#[local] Existing Instance FirewallExamples.kconn_ops.
#[local] Existing Instance FirewallExamples.kconn_laws.
#[local] Existing Instance FirewallExamples.reader.
#[local] Existing Instance FirewallExamples.reader_laws.

Definition cfg0 : Config.Config := Default.

Example default_firewall : firewall_options cfg0 = Firewall.DefaultOptions /\ http3_listener cfg0 = None.
Proof. split; reflexivity. Qed.

Lemma shutdown_end_state_witness :
  exists fw fw' log', start_firewall cfg0 false (inr k0) = (Some fw, [FwEnabled]) /\
    shutdown cfg0 (Some fw) = (Some fw', log') /\
    log' = [FwRemoved] /\ kernel fw' !! smoker_table = None.
Proof.
  destruct (start_firewall cfg0 false (inr k0)) as [fw log] eqn:E.
  assert (Hl : log = [FwEnabled]) by (change log with (fw, log).2; rewrite <- E; vm_compute; reflexivity).
  destruct fw as [fw|]; [|subst log; discriminate]. subst log.
  destruct (shutdown cfg0 (Some fw)) as [fw2 log'] eqn:E2. 
  destruct fw2 as [fw'|].
  - exists fw, fw', log'. split; [reflexivity|]. split; [exact E2|].
    assert (Hp : conn_pending k0 = []) by reflexivity.
    destruct (shutdown_end_state cfg0 false k0 fw fw' [FwEnabled] log' Hp E E2) as [(Hl & Hk & _)|[_ He]];
      [split; [exact Hl|exact Hk]|destruct (He eq_refl kconn_reliable)].
  - exfalso. unfold shutdown in E2. cbn in E2. by destruct (DisableRedirect fw) as [[]].
Defined.

(** A directory of templates that is edited once. *)
Definition tmpl_yaml (s : string) : string + Template := inl "bad template".
Definition disk (t : time) : option fsnode :=
  Some (Dir "templates" (Some [File "x.yaml" (Some (if t <? 5 then "old" else "new"))])).
Definition eng0 : engine (S := unit) := NewEngine (Some tt).

Definition edited : list (time * message) :=
  [(10, WatchExamples.on "/t/x.yaml" WatchExamples.write_op); (400000010, Fired)].

Lemma edited_run :
  exists c, steps (fun t => templates_select (reload_templates tmpl_yaml "/t" disk) true (fun _ => None) t)
      (start 0 eng0) edited c /\ running c = Some {| timerC := None |}.
Proof.
  eexists. split.
  - eapply steps_cons; [|eapply steps_cons; [|apply steps_refl]].
    + eapply step_select; [reflexivity|vm_compute; discriminate|exact I].
    + eapply step_select; [reflexivity|vm_compute; discriminate|]. exists 400000010. split; [reflexivity|].
      vm_compute. discriminate.
  - reflexivity.
Qed.

Lemma templates_follow_the_disk_witness :
  exists c, steps (fun t => templates_select (reload_templates tmpl_yaml "/t" disk) true (fun _ => None) t)
      (start 0 eng0) edited c /\
    sigs (shared c) = Signatures (LoadDir tmpl_yaml "/t"
      (Some (Dir "templates" (Some [File "x.yaml" (Some "new")])))).
Proof.
  destruct edited_run as (c & Hs & Hr). exists c. split; [exact Hs|].
  apply (templates_follow_the_disk tmpl_yaml "/t" disk true (fun _ _ => None) 0 eng0 edited c 10
    {| ev_Name := "/t/x.yaml"; ev_Op := WatchExamples.write_op |} _ Hs Hr); [left|reflexivity|].
  intros t Ht. unfold disk. by rewrite (proj2 (Z.ltb_ge t 5)) by lia.
Defined.

#[local] Existing Instance Recorder.recorder.

Lemma template_loop_follows_the_disk_witness :
  let mgr := {| mg_path := "/etc/smoker/config.yaml"; current := Default; listeners := 0 |} in
  let w : Recorder.host -> world := fun _ => {| file _ := None; tree _ := disk 10 |} in
  fresh tmpl_yaml w mgr (syncLoop Hour (template_sync tmpl_yaml w mgr) [Tick; Tick; Stop; Tick]
    ({| Recorder.ran := []; Recorder.bad := [git_init] |}, eng0)).
Proof. intros mgr w. apply (template_loop_follows_the_disk tmpl_yaml w Hour mgr). vm_compute. reflexivity. Defined.

#[local] Existing Instance LoggingExamples.one_fault.

Lemma only_termination_signals_end_witness :
  (signal_loop [(SIGHUP, log_names); (SIGTERM, []); (SIGHUP, [])] (LoggingExamples.l1, LoggingExamples.os1)).1 =
    Some SIGTERM.
Proof.
  apply (only_termination_signals_end [(SIGHUP, log_names); (SIGTERM, []); (SIGHUP, [])]
    (LoggingExamples.l1, LoggingExamples.os1)). exact LoggingExamples.l1_ok.
Defined.

#[local] Existing Instance ListLru.list_lru.
#[local] Existing Instance ListLru.list_lru_laws.
#[local] Existing Instance Rationals.rationals.
#[local] Existing Instance ReputationExamples.MemBolt.
#[local] Existing Instance ReputationExamples.BitsJSON.

Definition empty_db : @bolt_t ReputationExamples.MemBolt := None.

Definition first_start : start_error + parts (L := unit) :=
  startup tmpl_yaml true None (inr {| mg_path := "/etc/smoker/config.yaml"; current := Default; listeners := 0 |})
    None (inr tt) empty_db 0 (fun _ => random32) (fun _ => disk 0) (fun _ _ => None).

Lemma startup_succeeds_witness :
  exists p, first_start = inr p /\ Challenge.secret (pt_challenge p) = random32 /\
    clocked_ok (Clocked (pt_tracker p) 0).
Proof.
  destruct (startup_succeeds tmpl_yaml true None
    (inr {| mg_path := "/etc/smoker/config.yaml"; current := Default; listeners := 0 |})
    None (inr tt) empty_db 0 (fun _ => random32) (fun _ => disk 0) (fun _ _ => None)) as [_ Hp].
  destruct first_start as [e|p] eqn:E; [discriminate|].
  destruct (Hp p E) as (Hm & _ & _ & Hs & Hc & Hk). exists p. split; [reflexivity|].
  split; [rewrite Hc, Hs; reflexivity|]. apply Hk. injection Hm as <-. vm_compute. discriminate.
Defined.

End MainExamples.
