(* ===== verification/System.v ===== *)
(** * The running system ([cmd/smoker/main.go], [proxy.New])

    What [run] puts together, and its life: requests, and the reloads that
    happen between them.  The templates are replaced in the engine, the
    configuration in its manager; the request pipeline reads both at the start
    of a request.  The reputation manager is the one on the database, the
    tracker the one of [internal/session]. *)

From S2P Require Export Main ProxySpec.

Section System.
Context `{Unicode} `{Regexp} `{MapIter} `{Float64}.
Context `{LRU Session.record} `{LRU RespCache.Entry} `{LRU Protect.bucket} `{BoltDB} `{EntryJSON}.
Context (zstd : list (string * RespCache.read_err) -> list (string * RespCache.read_err)).
Context (template_Unmarshal : string -> string + Template).
Context (config_Unmarshal : string -> Config.Config -> string + Config.Config).
Context {L : Type}.

#[local] Abbreviation server := (Proxy.server (R := Reputation.Manager) (T := clocked)).

(** The collaborators behind [*proxy.Proxy], as shared with the reloads *)
Record system := {
  sy_config : Config.Manager;
  sy_rules : list CompiledSignature;
  sy_challenge : Challenge.Manager;
  sy_secret : string;
  sy_server : server;
}.

(** [proxy.New] on the [Deps] that [run] gives it.  The engine's session
    evaluator is the tracker of the proxy. *)
Definition New (pt : parts (L := L)) (now : time) : system := {|
  sy_config := pt_config pt;
  sy_rules := sigs (pt_engine pt);
  sy_challenge := pt_challenge pt;
  sy_secret := pt_secret pt;
  sy_server := {| sv_rep := pt_rep pt; sv_tracker := Clocked (pt_tracker pt) now;
                  sv_cache := Some (pt_cache pt); sv_guard := Some (pt_guard pt) |};
|}.

(** What a request sees: [p.cfg.Get()] and the signatures of the engine. *)
Definition handler (s : system) : Forward.Proxy := {|
  p_cfg := Config.Get (sy_config s);
  p_sigs := sy_rules s;
  p_challenge := sy_challenge s;
  p_secret := sy_secret s;
|}.

Definition with_server (s : system) (sv : server) : system := {|
  sy_config := sy_config s; sy_rules := sy_rules s; sy_challenge := sy_challenge s;
  sy_secret := sy_secret s; sy_server := sv |}.

Definition with_config (s : system) (m : Config.Manager) : system := {|
  sy_config := m; sy_rules := sy_rules s; sy_challenge := sy_challenge s;
  sy_secret := sy_secret s; sy_server := sy_server s |}.

(** [loadTemplates(engine, dir, logs)] *)
Definition load_rules (w : world) (s : system) : system :=
  let dir := tp_Dir (Templates (Config.Get (sy_config s))) in
  let e := {| sigs := sy_rules s; session := Some (sv_tracker (sy_server s)) |} in
  {| sy_config := sy_config s;
     sy_rules := sigs (loadTemplates template_Unmarshal e dir (tree w dir)).1;
     sy_challenge := sy_challenge s; sy_secret := sy_secret s; sy_server := sy_server s |}.

(** The callbacks of [cfgMgr.Watch], [cfgMgr.WatchAccessLists] and
    [detect.WatchTemplates], on what the disk holds at that time *)
Definition config_changed (w : world) (s : system) : system :=
  match Config.Reload config_Unmarshal w (sy_config s) with
  | (Some _, m, _) => with_config s m
  | (None, m, _) => load_rules w (with_config s m)
  end.

Definition lists_changed (w : world) (s : system) : system :=
  with_config s (Config.Reload config_Unmarshal w (sy_config s)).1.2.

Inductive event :=
| Request_ (e : env) (r : Request)
| ConfigChanged (w : world)
| ListsChanged (w : world)
| TemplatesChanged (w : world).

(** A request, the handler in force, and what became of it *)
Record answered := { an_handler : Forward.Proxy; an_request : Request; an_served : served }.

Definition step (s : system) (ev : event) : list answered * system :=
  match ev with
  | Request_ e r =>
      let '(d, sv) := serve zstd e (handler s) (sy_server s) r in
      ([{| an_handler := handler s; an_request := r; an_served := d |}], with_server s sv)
  | ConfigChanged w => ([], config_changed w s)
  | ListsChanged w => ([], lists_changed w s)
  | TemplatesChanged w => ([], load_rules w s)
  end.

Fixpoint run (s : system) (l : list event) : list answered * system :=
  match l with
  | [] => ([], s)
  | ev :: l => let '(a, s) := step s ev in let '(b, s) := run s l in (a ++ b, s)
  end.

(** The clock readings of the requests *)
Definition times (l : list event) : list time :=
  omap (fun ev => match ev with Request_ e _ => Some (e_now e) | _ => None end) l.

(** The process comes up at [now] on the database [d], with whatever the rest of
    the host holds. *)
Definition starts (d : bolt_t) (now : time) (pt : parts (L := L)) : Prop :=
  exists needsInit ensured loaded mkdirLogs opened secretOf dir asset,
    startup template_Unmarshal needsInit ensured loaded mkdirLogs opened d now secretOf dir asset = inr pt.

(** ** Lemmas *)

#[local] Abbreviation store s := (sv_rep (sy_server s)).

Lemma load_rules_server w s : sy_server (load_rules w s) = sy_server s.
Proof. done. Qed.

(** Reloads leave the server alone. *)
Lemma step_server s ev :
  match ev with
  | Request_ e r => sy_server (step s ev).2 = (serve zstd e (handler s) (sy_server s) r).2
  | _ => step s ev = ([], (step s ev).2) /\ sy_server (step s ev).2 = sy_server s
  end.
Proof.
  destruct ev as [e r|w|w|w]; cbn; try done.
  - by destruct (serve _ _ _ _ _).
  - unfold config_changed. by destruct (Config.Reload _ _ _) as [[[]]].
Qed.

Lemma run_app s l1 l2 : run s (l1 ++ l2) =
  let '(a, s1) := run s l1 in let '(b, s2) := run s1 l2 in (a ++ b, s2).
Proof.
  revert s. induction l1 as [|ev l1 IH]; intros s; cbn [app run]; [by destruct (run s l2)|].
  destruct (step s ev) as [a s1]. rewrite IH. destruct (run s1 l1) as [b s2].
  destruct (run s2 l2) as [c s3]. by rewrite app_assoc.
Qed.

Lemma startup_rep d now pt : starts d now pt ->
  Reputation.Open d (reputation_config (Config.Get (pt_config pt))) now = Some (pt_rep pt).
Proof.
  intros (i & en & ld & mk & op & sec & dir & asset & E). unfold startup, Config.Get in *.
  repeat case_match; by simplify_eq.
Qed.

Lemma startup_secret d now pt : starts d now pt -> Challenge.secret (pt_challenge pt) = pt_secret pt.
Proof.
  intros (i & en & ld & mk & op & sec & dir & asset & E). unfold startup in *.
  repeat case_match; by simplify_eq.
Qed.

Lemma step_answers s ev : (step s ev).1 = [] \/ exists e r,
  (step s ev).1 = [{| an_handler := handler s; an_request := r;
                      an_served := (serve zstd e (handler s) (sy_server s) r).1 |}].
Proof. destruct ev as [e r|w|w|w]; [right; exists e, r|by left..]. cbn. by destruct (serve _ _ _ _ _). Qed.

(** A client that is banned is refused, unless it is whitelisted. *)
Definition refused (q : string) (a : answered) : Prop :=
  client (an_handler a) (an_request a) = q -> Config.Whitelisted (p_cfg (an_handler a)) q = false ->
  sd_out (an_served a) = [] /\ status (sd_writer (an_served a)) = Some StatusForbidden.

Lemma run_banned q u l : forall s,
  blocks_until u (entries (store s) !! q) -> Forall (fun t => t <= u) (times l) ->
  Forall (refused q) (run s l).1 /\ blocks_until u (entries (store (run s l).2) !! q).
Proof.
  induction l as [|ev l IH]; intros s Hb Ht; [by split|].
  assert (Hs : Forall (refused q) (step s ev).1 /\ blocks_until u (entries (store (step s ev).2) !! q) /\
               Forall (fun t => t <= u) (times l)).
  { pose proof (step_server s ev) as Hs. destruct ev as [e r|w|w|w].
    2-4: destruct Hs as [-> ->]; by cbn.
    cbn in Ht. apply Forall_cons in Ht as [Hle Ht]. rewrite Hs. cbn [step].
    pose proof (serve_banned zstd e (handler s) (sy_server s) r q u Hb Hle) as Hd.
    destruct (serve _ _ _ _ _) as [d sv]. destruct Hd as [Hb' Hd]. cbn [fst snd].
    split_and!; [|exact Hb'|exact Ht]. apply Forall_singleton. exact Hd. }
  destruct Hs as (Ha & Hb' & Ht'). cbn [run]. destruct (step s ev) as [a s1].
  specialize (IH s1 Hb' Ht'). destruct (run s1 l) as [b s2]. destruct IH. split; [|done].
  by apply Forall_app.
Qed.

(** *** The store and its database *)

Context `{!BoltDBLaws} `{!EntryJSONLaws}.

(** The store agrees with its database at [now], under the thresholds [c]. *)
Definition sound (c : Reputation.Config) (now : time) (m : Reputation.Manager) : Prop :=
  agrees m now /\ entries_ok m /\ cfg m = c.

(** Times that a database entry can hold, with every term added *)
Definition storable (c : Reputation.Config) (t : time) : Prop := rop_ok c (OpLookup "" t).

Lemma rop_sound c m o now :
  bolt_available -> storable c (rop_time o) -> now <= rop_time o ->
  sound c now m -> sound c (rop_time o) (rop_apply m o).
Proof.
  intros Hup Ht Hle (Ha & He & <-). destruct (rop_agrees m o now Hup Ht Hle Ha He) as [Ha' He'].
  split_and!; [done..|]. apply rop_cfg.
Qed.

Lemma Open_sound d c now m :
  bolt_available -> stored_ok d -> Reputation.Open d c now = Some m -> sound c now m.
Proof.
  intros Hup Hst Ho. destruct (Open_spec d c now Hup) as (m' & Ho' & Hc & _ & Ha & Hd).
  rewrite Ho in Ho'. injection Ho' as <-. split_and!; [done| |done].
  intros ip e E. rewrite Hd in E. destruct (_ !! ip) as [v|] eqn:Ev; [|done]. cbn in E.
  destruct (json_Unmarshal v) as [e'|] eqn:Eu; [|done]. cbn in E. case_match; simplify_eq.
  by eapply Hst.
Qed.

Lemma serve_sound c now e p (sv : server) r :
  bolt_available -> storable c (e_now e) -> now <= e_now e ->
  sound c now (sv_rep sv) -> sound c (e_now e) (sv_rep (serve zstd e p sv r).2).
Proof.
  intros Hup Ht Hle (Ha & Hs). apply (agrees_mono _ _ _ Hle) in Ha.
  pose proof (fun m o E => rop_sound c m o (e_now e) Hup
    (eq_ind_r (storable c) Ht E) (eq_ind_r (Z.le (e_now e)) (Z.le_refl _) E)) as Hr.
  apply (serve_rep zstd e p (client p r) (sound c (e_now e))); [..|done|by split].
  - intros m. apply (Hr m (OpLookup _ _) eq_refl).
  - intros m reason. apply (Hr m (OpViolation _ _ _) eq_refl).
  - intros m reason. apply (Hr m (OpClean _ _ _) eq_refl).
  - intros m reason. apply (Hr m (OpBlock _ _ _) eq_refl).
Qed.

Lemma run_sound c l : forall s now t,
  bolt_available -> Forall (storable c) (times l) -> StronglySorted Z.le (now :: times l ++ [t]) ->
  sound c now (store s) -> sound c t (store (run s l).2).
Proof.
  induction l as [|ev l IH]; intros s now t Hup Hok Hs Hm.
  - cbn. inversion_clear Hs as [|? ? _ HF]. inversion_clear HF as [|? ? Hle _].
    destruct Hm as [Ha ?]. split; [by apply (agrees_mono _ now)|done].
  - cbn [run]. pose proof (step_server s ev) as Hstep. destruct (step s ev) as [a s1]. cbn [snd] in Hstep.
    specialize (IH s1). destruct (run s1 l) as [b s2]. cbn [snd] in *.
    destruct ev as [e r|w|w|w].
    2-4: destruct Hstep as [_ E]; rewrite E in IH; by apply (IH now).
    cbn in Hok, Hs. apply Forall_cons in Hok as [Ht Hok]. inversion_clear Hs as [|? ? Hs' HF].
    inversion_clear HF as [|? ? Hle _]. apply (IH (e_now e)); [done..|]. rewrite Hstep.
    by apply (serve_sound c now).
Qed.

(** The thresholds are those of the start: a reload does not change them. *)
Lemma run_cfg l : forall s, cfg (store (run s l).2) = cfg (store s).
Proof.
  induction l as [|ev l IH]; intros s; [done|]. cbn [run].
  pose proof (step_server s ev) as Hstep. destruct (step s ev) as [a s1]. cbn [snd] in Hstep.
  specialize (IH s1). destruct (run s1 l) as [b s2]. cbn [snd] in *. rewrite IH.
  destruct ev as [e r|w|w|w]; [|by destruct Hstep as [_ ->]..]. rewrite Hstep.
  apply (serve_rep zstd e (handler s) (client (handler s) r) (fun m => cfg m = cfg (store s)));
    [intros m ?..|done|done].
  - by etrans; [apply (rop_cfg m (OpLookup _ _))|].
  - intros E. by etrans; [apply (rop_cfg m (OpViolation _ _ _))|].
  - intros E. by etrans; [apply (rop_cfg m (OpClean _ _ _))|].
  - intros E. by etrans; [apply (rop_cfg m (OpBlock _ _ _))|].
Qed.

(** A ban that has not run out is loaded from the database. *)
Lemma ban_reloaded m now d' c' m' q u :
  bolt_available -> agrees m now -> db m = d' -> now <= u ->
  blocks_until u (entries m !! q) -> Reputation.Open d' c' now = Some m' ->
  blocks_until u (entries m' !! q).
Proof.
  intros Hup (b & Hb & Ha) <- Hle Hq Ho. destruct (Open_spec (db m) c' now Hup) as (x & Ho' & _ & _ & _ & Hd).
  rewrite Ho in Ho'. injection Ho' as <-. rewrite Hd, Hb. cbn [default from_option id].
  by rewrite Ha, (blocks_until_fresh u).
Qed.

(** ** Theorems *)

(** (C4) A ban survives the process.  Smoker starts on a database and serves
    requests, with any reloads of configuration, lists and templates between
    them; at some point the store bans a client, and requests go on; the process
    stops, whenever and however, and starts again on the database as it was
    then, with any configuration; until the term of the ban, counted from the
    ban by the configuration of the first start, every request of the client's
    is answered 403 and the backend does not see it -- before the stop and
    after it, through all further reloads -- unless the configuration in force
    at that request whitelists the client.  (The clock of the requests does not
    run backwards, and its years have four digits.) *)
Theorem ban_survives_restart d t0 pt before rep q reason tb after t1 pt' later :
  bolt_available -> stored_ok d ->
  starts d t0 pt ->
  let c := reputation_config (Config.Get (pt_config pt)) in
  Forall (storable c) (times (before ++ after)) ->
  StronglySorted Z.le (t0 :: times (before ++ after) ++ [t1]) ->
  let s := (run (New pt t0) before).2 in
  store s = (Reputation.Block rep q reason tb).2 ->
  starts (db (store (run s after).2)) t1 pt' ->
  Forall (fun t => t <= tb + BlockTTL c) (times after ++ t1 :: times later) ->
  Forall (refused q) ((run s after).1 ++ (run (New pt' t1) later).1).
Proof.
  intros Hup Hst Hs1 c Hok Hsort s Hban Hs2 Hterm.
  pose proof (Open_sound d c t0 (pt_rep pt) Hup Hst (startup_rep d t0 pt Hs1)) as Hm.
  assert (Hall : sound c t1 (store (run s after).2)).
  { pose proof (run_sound c (before ++ after) (New pt t0) t0 t1 Hup Hok Hsort Hm) as Hr.
    rewrite run_app in Hr. unfold s. destruct (run (New pt t0) before) as [a s1].
    cbn [snd]. by destruct (run s1 after). }
  assert (Hc : cfg rep = c).
  { rewrite <- (rop_cfg rep (OpBlock q reason tb)). cbn [rop_apply]. rewrite <- Hban. unfold s. rewrite run_cfg.
    by destruct Hm as (_ & _ & Hc). }
  apply Forall_app in Hterm as [Ht2 [Ht1 Ht3]%Forall_cons].
  assert (Hb : blocks_until (tb + BlockTTL c) (entries (store s) !! q)).
  { rewrite Hban, <- Hc. exact (st_Block_bans rep q reason tb). }
  destruct (run_banned q (tb + BlockTTL c) after s Hb Ht2) as [Hr1 Hb1].
  apply Forall_app. split; [done|].
  destruct (run_banned q (tb + BlockTTL c) later (New pt' t1)) as [Hr2 _]; [|done..].
  destruct Hall as (Ha & _). cbn [New sy_server sv_rep].
  by eapply ban_reloaded; [..|apply (startup_rep _ _ _ Hs2)].
Qed.

(** *** Every request *)

(** What no reload replaces, and what a reload may put in place *)
Definition healthy (pt : parts (L := L)) (s : system) : Prop :=
  well_formed (Config.Get (sy_config s)) /\ sy_secret s = pt_secret pt /\ sy_challenge s = pt_challenge pt.

Lemma Reload_healthy w m :
  well_formed (Config.Get m) -> well_formed (Config.Get (Config.Reload config_Unmarshal w m).1.2).
Proof.
  intros Hm. unfold Config.Reload. destruct (Load config_Unmarshal w (mg_path m)) as [e|c] eqn:E; [done|].
  by eapply Load_well_formed.
Qed.

Lemma step_healthy pt s ev : healthy pt s -> healthy pt (step s ev).2.
Proof.
  intros (Hc & Hs & Hch). destruct ev as [e r|w|w|w]; cbn [step snd]; [|..|by split_and!].
  - destruct (serve _ _ _ _ _). by split_and!.
  - pose proof (Reload_healthy w (sy_config s) Hc) as Hc'. unfold config_changed.
    destruct (Config.Reload _ _ _) as [[[]]]; by split_and!.
  - pose proof (Reload_healthy w (sy_config s) Hc) as Hc'. by split_and!.
Qed.

(** (C7) Every request of a life of the system, whatever the disk holds at each reload,
    is served under a well-formed configuration; the cookies and the challenge
    tokens are signed with the secret resolved at the start; and the backend
    gets the request at most once, at the backend of the listener it came in by,
    with the client's address and nothing else in the forwarding headers. *)
Theorem every_request_is_accounted d t0 w path pt evs :
  starts d t0 pt -> NewManager config_Unmarshal w path = inr (pt_config pt) ->
  Forall (fun a => let p := an_handler a in let r := an_request a in
    well_formed (p_cfg p) /\ p_secret p = pt_secret pt /\ Challenge.secret (p_challenge p) = pt_secret pt /\
    (client p r <> "" ->
       sd_out (an_served a) = [] \/ exists o, sd_out (an_served a) = [o] /\ told p r (client p r) o))
    (run (New pt t0) evs).1.
Proof.
  intros Hs Hn. assert (Hh0 : healthy pt (New pt t0)).
  { split_and!; try done. unfold NewManager in Hn. destruct (Load config_Unmarshal w path) as [e|c] eqn:E; [done|].
    injection Hn as Hn. cbn. rewrite <- Hn. by eapply Load_well_formed. }
  apply startup_secret in Hs. revert Hh0. generalize (New pt t0) as s. clear Hn.
  induction evs as [|ev evs IH]; intros s Hh; [done|]. cbn [run].
  pose proof (step_healthy pt s ev Hh) as Hh'. pose proof (step_answers s ev) as Ha.
  destruct (step s ev) as [a s1]. cbn [fst snd] in Ha, Hh'. specialize (IH s1 Hh'). destruct (run s1 evs) as [b s2].
  apply Forall_app. split; [|done]. cbn [fst snd] in *. destruct Ha as [->|(e & r & ->)]; [done|].
  apply Forall_singleton. cbn [an_handler an_request an_served handler p_cfg p_secret p_challenge].
  destruct Hh as (Hc & Hk & Hch). rewrite Hk, Hch. split_and!; [done..|]. intros Hip.
  destruct (serve_sends zstd e (handler s) (sy_server s) r) as [?|(r' & Hr & ->)]; [by left|right].
  eexists. split; [done|]. apply out_of_told; [apply (wf_backend _ Hc)|done..].
Qed.

End System.
