(* ===== verification/SystemExamples.v ===== *)
(** * Witnesses: two lives of a small shop

    The whole system on concrete inputs: a start on an empty database, a request
    that a rule bans, a reload, a stop, and a second start on the database that
    was left. *)

From S2P Require Import ProxyExamples System.

#[local] Existing Instance ascii_only.
#[local] Existing Instance PathRegexp.regexp.
#[local] Existing Instance ListLru.list_lru.
#[local] Existing Instance ListLru.list_lru_laws.
#[local] Existing Instance Rationals.rationals.
#[local] Existing Instance ReputationExamples.MemBolt.
#[local] Existing Instance ReputationExamples.MemBoltLaws.
#[local] Existing Instance ReputationExamples.BitsJSON.
#[local] Existing Instance ReputationExamples.BitsJSONLaws.
#[local] Existing Instance ProxyExamples.listed.

(** One rule: [/shell.php] is banned. *)
Definition shell_rule : Template := {|
  t_ID := "shell"; t_Info := {| info_Severity := "high"; info_Tags := []; info_CVEID := [] |};
  t_HTTP := [{| http_Method := "GET"; http_Path := ["{{BaseURL}}/shell.php"]; http_Raw := [];
                http_MatchersCondition := "or"; http_Matchers := []; http_SessionMatchers := None;
                http_Action := ""; http_ActionResponseCode := 0 |}];
  t_SessionMatchers := None; t_Action := "ban"; t_ActionResponseCode := 0; t_SourcePath := "" |}.

Definition template_yaml (s : string) : string + Template :=
  if s =?s "shell" then inr shell_rule else inl "bad template".
Definition config_yaml (s : string) (c : Config.Config) : string + Config.Config :=
  if s =?s "" then inr c else inl "bad configuration".

Definition tree0 (dir : string) : option fsnode := Some (Dir dir (Some [File "x.yaml" (Some "shell")])).
Definition disk0 : world := {| file _ := Some ""; tree := tree0 |}.
Definition broken : world := {| file _ := Some "oops"; tree _ := None |}.
Definition manager0 : Config.Manager := {| mg_path := "/etc/smoker/config.yaml"; current := Config.Default; listeners := 0 |}.

Definition boot (d : @bolt_t ReputationExamples.MemBolt) (now : time) : start_error + parts (L := unit) :=
  startup template_yaml false None (Config.NewManager config_yaml disk0 "/etc/smoker/config.yaml") None (inr tt) d now
    (fun _ => "0123456789abcdef") (fun _ => tree0 "/etc/smoker/templates") (fun _ _ => None).

Definition up {A B : Type} (x : A + B) : match x return Type with inl _ => unit | inr _ => B end :=
  match x with inl _ => tt | inr b => b end.

Lemma up_eq {A B : Type} (x : A + B) :
  match x as y return (match y return Type with inl _ => unit | inr _ => B end -> Prop) with
  | inl _ => fun _ => True
  | inr _ => fun u => x = inr u
  end (up x).
Proof. by destruct x. Qed.

Definition first_life : parts (L := unit) := up (boot None ProxyExamples.t0).

Definition at_ (dt : duration) : env := {|
  e_now := ProxyExamples.t0 + dt; e_randReq := Some "reqid123"; e_randSID := Some "0123456789abcdef"; e_randSID' := None;
  e_backend := fun _ => page |}.

Definition attack : list event := [Request_ (at_ Second) (ProxyExamples.get "192.0.2.1" "/shell.php")].
Definition again : list event := [ConfigChanged broken; Request_ (at_ Minute) (ProxyExamples.get "192.0.2.1" "/")].

Example attack_is_banned :
  map (fun a => status (sd_writer (an_served a)))
    (System.run same template_yaml config_yaml (New first_life ProxyExamples.t0) (attack ++ again)).1 =
  [Some 403; Some 403].
Proof. vm_compute. reflexivity. Qed.

(** No database file yet *)
Definition no_db : @bolt_t ReputationExamples.MemBolt := None.

#[local] Abbreviation attacked := (System.run same template_yaml config_yaml (New first_life ProxyExamples.t0) attack).2.
#[local] Abbreviation left_behind :=
  (db (sv_rep (sy_server (System.run same template_yaml config_yaml attacked again).2))).
Definition later : list event := [Request_ (at_ (2 * Hour)) (ProxyExamples.get "192.0.2.1" "/")].

Lemma boots d now pt : boot d now = inr pt -> starts (L := unit) template_yaml d now pt.
Proof. intros E. repeat eexists. exact E. Qed.

Definition is_up {A B} (x : A + B) : bool := match x with inl _ => false | inr _ => true end.

Lemma ban_survives_restart_witness :
  exists second_life, starts (L := unit) template_yaml left_behind (ProxyExamples.t0 + Hour) second_life /\
    Forall (refused "192.0.2.1")
      ((System.run same template_yaml config_yaml attacked again).1 ++
       (System.run same template_yaml config_yaml (New second_life (ProxyExamples.t0 + Hour)) later).1).
Proof.
  assert (Hst : stored_ok no_db).
  { intros ip v e E. exfalso. assert (E' : (∅ : gmap string string) !! ip = Some v) by exact E.
    by rewrite lookup_empty in E'. }
  assert (Hs1 : starts (L := unit) template_yaml no_db ProxyExamples.t0 first_life)
    by (apply boots; apply (up_eq (boot no_db ProxyExamples.t0))).
  assert (Hban : sv_rep (sy_server attacked) =
    (Reputation.Block (Reputation.Lookup (pt_rep first_life) "192.0.2.1" (ProxyExamples.t0 + Second)).2
       "192.0.2.1" "detect:shell" (ProxyExamples.t0 + Second)).2) by (vm_compute; reflexivity).
  assert (Hup : is_up (boot left_behind (ProxyExamples.t0 + Hour)) = true) by (vm_compute; reflexivity).
  destruct (boot left_behind (ProxyExamples.t0 + Hour)) as [e|pt] eqn:E; [discriminate|].
  apply boots in E. exists pt. split; [exact E|].
  apply (ban_survives_restart same template_yaml config_yaml no_db ProxyExamples.t0 first_life attack
    (Reputation.Lookup (pt_rep first_life) "192.0.2.1" (ProxyExamples.t0 + Second)).2
    "192.0.2.1" "detect:shell" (ProxyExamples.t0 + Second) again (ProxyExamples.t0 + Hour) pt later
    ReputationExamples.mem_available Hst Hs1).
  - repeat constructor; vm_compute; discriminate.
  - repeat constructor; vm_compute; discriminate.
  - exact Hban.
  - exact E.
  - repeat constructor; vm_compute; discriminate.
Defined.

Lemma every_request_is_accounted_witness :
  Forall (fun a => well_formed (p_cfg (an_handler a)) /\ p_secret (an_handler a) = "0123456789abcdef")
    (System.run same template_yaml config_yaml (New first_life ProxyExamples.t0) (attack ++ again)).1.
Proof.
  assert (Hs : starts (L := unit) template_yaml no_db ProxyExamples.t0 first_life)
    by (apply boots; apply (up_eq (boot no_db ProxyExamples.t0))).
  assert (Hn : NewManager config_yaml disk0 "/etc/smoker/config.yaml" = inr (pt_config first_life))
    by (vm_compute; reflexivity).
  pose proof (every_request_is_accounted same template_yaml config_yaml no_db ProxyExamples.t0 disk0
    "/etc/smoker/config.yaml" first_life (attack ++ again) Hs Hn) as Hf.
  eapply Forall_impl; [exact Hf|]. intros a (Hw & Hk & _). split; [exact Hw|]. rewrite Hk. reflexivity.
Defined.
