(* ===== verification/Live.v ===== *)
(** * Reloads among goroutines, and the requests after them
    ([internal/config/config.go], [cmd/smoker/main.go])

    [Manager.Reload] reads the files and then stores the new configuration, with
    no lock around the two: the goroutine of [WatchAccessLists], that of [Watch]
    and the three sync loops reload at their own times, and a reload that read
    an older disk can store last.  [live_step] runs the sections of all of them in
    any order.  Whether an edit of a list file is lost depends on how long a load
    takes: not if that is at most [debounce], the time the goroutine of the lists
    lets an edit settle. *)

From S2P Require Export System.

Section Live.
Context `{Unicode} (yaml_Unmarshal : string -> Config.Config -> string + Config.Config).
Implicit Types (m : Config.Manager) (w : world).

(** ** The sections of a reload *)

(** A goroutine outside [Reload], or between [Load] (at time [at_]) and [Store] *)
Inductive reloader :=
| Idle
| Loaded (at_ : time) (c : Config.Config).

Definition reload_section (w : world) (now : time) (m : Config.Manager) (g : reloader) : Config.Manager * reloader :=
  match g with
  | Idle =>
      match Load yaml_Unmarshal w (mg_path m) with
      | inl _ => (m, Idle)
      | inr c => (m, Loaded now c)
      end
  | Loaded _ c => ({| mg_path := mg_path m; current := c; listeners := listeners m |}, Idle)
  end.

(** [Reload] alone is its sections. *)
Lemma Reload_sections w now m :
  let '(m1, g) := reload_section w now m Idle in
  (Config.Reload yaml_Unmarshal w m).1.2 = match g with Idle => m1 | _ => (reload_section w now m1 g).1 end.
Proof. unfold reload_section, Config.Reload. by destruct (Load yaml_Unmarshal w (mg_path m)). Qed.

(** ** The goroutines *)

(** The goroutine of [WatchAccessLists]: in its [select] with its locals, in
    [Reload], or returned *)
Inductive lists_goroutine :=
| Waiting (l : loop)
| Reloading (g : reloader)
| Returned.

Record live_state := {
  lv_clock : time;
  lv_manager : Config.Manager;
  lv_lists : lists_goroutine;
  lv_others : list reloader;
}.

Inductive turn :=
| Message (msg : message)
| Stores
| Other (i : nat).

Context (hasOnReload hasOnError : bool) (disk : time -> world) (D : duration).

(** A load takes at most [D]: it is followed by its [Store] in that time. *)
Definition in_time (now : time) (g : reloader) : Prop :=
  match g with Idle => True | Loaded at_ _ => now <= at_ + D end.

Definition punctual (now : time) (ls : lists_goroutine) (others : list reloader) : Prop :=
  match ls with Reloading g => in_time now g | _ => True end /\ Forall (in_time now) others.

Definition lists_turn (now : time) (m : Config.Manager) (l : loop) (msg : message) : lists_goroutine :=
  match msg with
  | Fired =>
      match (reload_section (disk now) now m Idle).2 with
      | Idle => Waiting {| timerC := None |}
      | g => Reloading g
      end
  | _ => match (lists_select yaml_Unmarshal hasOnReload hasOnError disk now msg l m).1.1 with
         | Some l => Waiting l
         | None => Returned
         end
  end.

Inductive live_step : live_state -> time * turn -> live_state -> Prop :=
| live_message t m l others now msg :
    t <= now -> punctual now (Waiting l) others -> Watch.ready now msg l ->
    live_step {| lv_clock := t; lv_manager := m; lv_lists := Waiting l; lv_others := others |} (now, Message msg)
      {| lv_clock := now; lv_manager := m; lv_lists := lists_turn now m l msg; lv_others := others |}
| live_stores t m g others now :
    t <= now -> punctual now (Reloading g) others ->
    live_step {| lv_clock := t; lv_manager := m; lv_lists := Reloading g; lv_others := others |} (now, Stores)
      {| lv_clock := now; lv_manager := (reload_section (disk now) now m g).1;
         lv_lists := Waiting {| timerC := None |}; lv_others := others |}
| live_other t m ls others now i g :
    t <= now -> punctual now ls others -> others !! i = Some g ->
    live_step {| lv_clock := t; lv_manager := m; lv_lists := ls; lv_others := others |} (now, Other i)
      {| lv_clock := now; lv_manager := (reload_section (disk now) now m g).1; lv_lists := ls;
         lv_others := <[i := (reload_section (disk now) now m g).2]> others |}.

Inductive live_steps : live_state -> list (time * turn) -> live_state -> Prop :=
| live_refl s : live_steps s [] s
| live_cons s1 x s2 xs s3 : live_step s1 x s2 -> live_steps s2 xs s3 -> live_steps s1 (x :: xs) s3.

Definition live_start (t : time) (m : Config.Manager) (k : nat) : live_state :=
  {| lv_clock := t; lv_manager := m; lv_lists := Waiting {| timerC := None |}; lv_others := replicate k Idle |}.

(** With the others idle the goroutine of the lists is the one of [Watch.v]: one
    step of it is one turn, or two when it reloads. *)
Lemma lists_alone t m l now msg others :
  t <= now -> Watch.ready now msg l -> 0 <= D -> Forall (in_time now) others ->
  exists xs, live_steps {| lv_clock := t; lv_manager := m; lv_lists := Waiting l; lv_others := others |} xs
    {| lv_clock := now;
       lv_manager := (lists_select yaml_Unmarshal hasOnReload hasOnError disk now msg l m).1.2;
       lv_lists := match (lists_select yaml_Unmarshal hasOnReload hasOnError disk now msg l m).1.1 with
                   | Some l => Waiting l | None => Returned end;
       lv_others := others |}.
Proof.
  intros Ht Hr HD Ho. pose proof (live_message t m l others now msg Ht (conj I Ho) Hr) as Hs.
  destruct msg; try (eexists; eapply live_cons; [exact Hs|]; apply live_refl).
  cbn [lists_turn lists_select] in *. unfold Config.Reload, reload_section in *.
  destruct (Load yaml_Unmarshal (disk now) (mg_path m)) as [e|c] eqn:E; cbn [fst snd] in *.
  - eexists. eapply live_cons; [exact Hs|]. apply live_refl.
  - eexists. eapply live_cons; [exact Hs|]. eapply live_cons; [|apply live_refl].
    apply (live_stores now m (Loaded now c) others now); [lia|split; [cbn; lia|done]].
Qed.

(** ** An edit that sticks *)

Section Edit.
Context (path : string) (te : time) (w1 : world) (cfg : Config.Config).
Context (Hdisk : forall t, te <= t -> disk t = w1) (Hload : Load yaml_Unmarshal w1 path = inr cfg).
Context (HD : D <= debounce).

(** A configuration that was loaded since the edit is the edited one. *)
Definition fresh_load (g : reloader) : Prop :=
  match g with Loaded at_ c => te <= at_ -> c = cfg | Idle => True end.

(** What holds once the edit has been received: the timer is set for after it
    has settled, the reload has begun since, or the edit is in force for good. *)
Definition received_ok (s : live_state) : Prop :=
  te <= lv_clock s /\
  match lv_lists s with
  | Waiting {| timerC := Some d |} => te + debounce <= d
  | Waiting {| timerC := None |} => te + debounce <= lv_clock s /\ current (lv_manager s) = cfg
  | Reloading g => te + debounce <= lv_clock s /\ g = Loaded (match g with Loaded a _ => a | _ => 0 end) cfg
  | Returned => True
  end.

Record live_ok (seen : Prop) (s : live_state) : Prop := {
  lo_path : mg_path (lv_manager s) = path;
  lo_others : Forall fresh_load (lv_others s);
  lo_seen : seen -> received_ok s;
}.

Lemma section_path w now m g : mg_path (reload_section w now m g).1 = mg_path m.
Proof. unfold reload_section. destruct g; [|done]. by destruct (Load yaml_Unmarshal w (mg_path m)). Qed.

(** A section leaves only fresh loads. *)
Lemma section_fresh now m g : mg_path m = path -> fresh_load (reload_section (disk now) now m g).2.
Proof.
  intros Hp. destruct g; [|done]. unfold reload_section.
  destruct (Load yaml_Unmarshal (disk now) (mg_path m)) as [e|c] eqn:E; [done|]. intros Hle. rewrite Hdisk, Hp, Hload in E by done. by injection E.
Qed.

(** A store in time after the edit has settled is of the edited configuration. *)
Lemma section_current now m g :
  te + debounce <= now -> fresh_load g -> in_time now g -> current m = cfg ->
  current (reload_section (disk now) now m g).1 = cfg.
Proof.
  intros Hn Hf Ht Hm. unfold reload_section. destruct g as [|a c]; cbn [in_time fresh_load fst current] in *; [|apply Hf; lia].
  by destruct (Load yaml_Unmarshal (disk now) (mg_path m)).
Qed.

Lemma live_step_ok seen s x s' :
  live_ok seen s -> live_step s x s' ->
  live_ok (seen \/ exists ev, x = (te, Message (Received ev)) /\ isListEvent ev = true) s'.
Proof.
  intros [Hp Ho Hs] Hst. destruct Hst as [t m l others now msg Ht _ Hr|t m g others now Ht _|t m ls others now i g Ht [_ Hin] Ei];
    cbn [lv_manager lv_others lv_clock lv_lists] in *.
  - split; cbn [lv_manager lv_others]; [done|done|]. intros Hseen. unfold received_ok in *. cbn [lv_clock lv_lists lv_manager] in *.
    assert (Hle : te <= now).
    { destruct Hseen as [Hseen|(ev & [= -> _] & _)]; [|lia]. destruct (Hs Hseen). lia. }
    split; [done|]. destruct msg as [|ev| | |err|]; cbn [lists_turn lists_select fst]; try done.
    + destruct (isListEvent ev) eqn:Ev; [cbn; lia|].
      destruct Hseen as [Hseen|(ev' & [= _ <-] & ?)]; [|congruence]. destruct (Hs Hseen) as [_ Hl].
      destruct l as [[d|]]; [done|]. destruct Hl. split; [lia|done].
    + destruct Hseen as [Hseen|(ev' & [=] & _)]. destruct (Hs Hseen) as [_ Hl].
      destruct Hr as (d & Ed & Hd). destruct l as [[d'|]]; [|done]. injection Ed as ->.
      unfold reload_section. rewrite Hdisk, Hp, Hload by done. cbn. split; [lia|done].
    + destruct Hseen as [Hseen|(ev' & [=] & _)]. destruct (Hs Hseen) as [_ Hl].
      destruct l as [[d|]]; [done|]. destruct Hl. split; [lia|done].
  - split; cbn [lv_manager lv_others]; [by rewrite section_path|done|].
    intros [Hseen|(ev & [=] & _)]. destruct (Hs Hseen) as (Hc & Hd & Eg). unfold received_ok in *. cbn in *.
    split; [lia|]. split; [lia|]. rewrite Eg. done.
  - split; cbn [lv_manager lv_others]; [by rewrite section_path|by apply Forall_insert; [|apply section_fresh]|].
    intros [Hseen|(ev & [=] & _)]. destruct (Hs Hseen) as (Hc & Hd). unfold received_ok in *. cbn in *.
    split; [lia|]. destruct ls as [[[d|]]|g'|]; try done.
    + destruct Hd. split; [lia|]. apply section_current; [lia| | |done].
      * by apply (proj1 (Forall_lookup _ _) Ho i).
      * by apply (proj1 (Forall_lookup _ _) Hin i).
    + destruct Hd. split; [lia|done].
Qed.

Lemma live_steps_ok s xs s' : live_steps s xs s' -> forall seen, live_ok seen s ->
  live_ok (seen \/ exists ev, (te, Message (Received ev)) ∈ xs /\ isListEvent ev = true) s'.
Proof.
  induction 1 as [s|s1 x s2 xs s3 Hst _ IH]; intros seen Hok.
  - destruct Hok as [? ? Hs]. split; [done|done|]. intros [?|(ev & Hin & _)]; [by apply Hs|]. by apply elem_of_nil in Hin.
  - destruct (IH _ (live_step_ok _ _ _ _ Hok Hst)) as [? ? Hs]. split; [done|done|].
    intros [Hseen|(ev & [<-|Hin]%elem_of_cons & Hev)]; apply Hs; eauto.
Qed.

End Edit.

Lemma live_steps_app s1 xs s2 ys s3 : live_steps s1 xs s2 -> live_steps s2 ys s3 -> live_steps s1 (xs ++ ys) s3.
Proof. induction 1; cbn; [done|]. intros. econstructor; eauto. Qed.

(** *** Progress *)

Definition on_time (s : live_state) : Prop := punctual (lv_clock s) (lv_lists s) (lv_others s).

Lemma section_in_time w now m g : 0 <= D -> in_time now (reload_section w now m g).2.
Proof. intros. unfold reload_section. destruct g; [|done]. destruct (Load yaml_Unmarshal w (mg_path m)); [done|]. cbn. lia. Qed.

Lemma live_step_on_time s x s' : 0 <= D -> live_step s x s' -> on_time s'.
Proof.
  intros HD Hst. destruct Hst as [t m l others now msg Ht [_ Ho] Hr|t m g others now Ht [_ Ho]|t m ls others now i g Ht [Hl Ho] Ei];
    unfold on_time; cbn [lv_clock lv_lists lv_others]; (split; [|done || (apply Forall_insert; [done|by apply section_in_time])]); try done.
  destruct msg; cbn [lists_turn]; try done.
  pose proof (section_in_time (disk now) now m Idle HD). by destruct (reload_section (disk now) now m Idle).2.
Qed.

Lemma live_steps_on_time s xs s' : 0 <= D -> live_steps s xs s' -> on_time s -> on_time s'.
Proof. induction 2; [done|]. intros _. eauto using live_step_on_time. Qed.

Lemma start_on_time t m k : on_time (live_start t m k).
Proof. split; [done|]. cbn. by apply Forall_replicate. Qed.

(** The turns that need no message from outside *)
Definition own_turn (x : time * turn) : Prop := match x.2 with Message msg => msg = Fired | _ => True end.

Lemma catch_up t ls rest : forall m k,
  punctual t ls (replicate k Idle ++ rest) ->
  exists ys m', Forall own_turn ys /\
    live_steps {| lv_clock := t; lv_manager := m; lv_lists := ls; lv_others := replicate k Idle ++ rest |} ys
      {| lv_clock := t; lv_manager := m'; lv_lists := ls; lv_others := replicate (k + length rest) Idle |}.
Proof.
  induction rest as [|g rest IH]; intros m k Hp.
  - exists [], m. split; [done|]. rewrite app_nil_r, Nat.add_0_r. apply live_refl.
  - assert (Hp' : punctual t ls (replicate (S k) Idle ++ rest)).
    { destruct Hp as [Hl [_ [_ Hr]%Forall_cons]%Forall_app]. split; [done|]. apply Forall_app. split; [by apply Forall_replicate|done]. }
    replace (k + length (g :: rest))%nat with (S k + length rest)%nat by (cbn; lia).
    destruct g as [|a c].
    + destruct (IH m (S k) Hp') as (ys & m' & Hy & Hs). exists ys, m'. split; [done|].
      rewrite replicate_S_end, <- app_assoc in Hs. exact Hs.
    + destruct (IH (reload_section (disk t) t m (Loaded a c)).1 (S k) Hp') as (ys & m' & Hy & Hs).
      exists ((t, Other k) :: ys), m'. split; [by constructor|].
      eapply live_cons; [apply (live_other t m ls _ t k (Loaded a c)); [lia|done|]|].
      * by rewrite list_lookup_middle by by rewrite length_replicate.
      * rewrite replicate_S_end, <- app_assoc in Hs. cbn [app] in Hs.
        assert (Ei : <[k := Idle]> (replicate k Idle ++ Loaded a c :: rest) = replicate k Idle ++ Idle :: rest).
        { pose proof (insert_app_r (replicate k Idle) (Loaded a c :: rest) 0 Idle) as E.
          by rewrite length_replicate, Nat.add_0_r in E. }
        cbn [reload_section snd]. rewrite Ei. exact Hs.
Qed.

(** The goroutine of the lists is idle again without any further message. *)
Lemma idle_again s : 0 <= D -> on_time s -> lv_lists s <> Returned ->
  exists ys s', Forall own_turn ys /\ live_steps s ys s' /\ lv_lists s' = Waiting {| timerC := None |}.
Proof.
  intros HD Hon Hr. destruct s as [t m [[[d|]]|g|] others]; cbn [lv_lists] in *; [| | |done].
  - destruct (catch_up t (Waiting {| timerC := Some d |}) others m 0 Hon) as (ys & m' & Hy & Hs). cbn [replicate app] in Hs.
    set (now := Z.max t d). set (o := replicate _ _) in Hs.
    assert (Ho : forall n, Forall (in_time n) o) by (intros; by apply Forall_replicate).
    pose proof (live_message t m' {| timerC := Some d |} o now Fired ltac:(lia) (conj I (Ho now))
      ltac:(exists d; split; [done|lia])) as Hf.
    destruct (lists_turn now m' {| timerC := Some d |} Fired) as [l|g|] eqn:E.
    + exists (ys ++ [(now, Message Fired)]). eexists. split; [apply Forall_app; split; [done|by constructor]|].
      split; [eapply live_steps_app; [exact Hs|]; eapply live_cons; [exact Hf|apply live_refl]|].
      cbn [lv_lists]. cbn [lists_turn] in E. destruct (reload_section _ _ _ _).2; [by injection E as <-|done].
    + exists (ys ++ [(now, Message Fired); (now, Stores)]). eexists.
      split; [apply Forall_app; split; [done|by repeat constructor]|].
      split; [eapply live_steps_app; [exact Hs|]; eapply live_cons; [exact Hf|];
        eapply live_cons; [apply (live_stores now m' g o now)|apply live_refl]|done]; [lia|split; [|done]].
      apply (live_step_on_time _ _ _ HD) in Hf as [Hg _]. exact Hg.
    + cbn [lists_turn] in E. by destruct (reload_section _ _ _ _).2.
  - exists []. eexists. split; [done|]. split; [apply live_refl|done].
  - exists [(t, Stores)]. eexists. split; [by repeat constructor|].
    split; [eapply live_cons; [apply (live_stores t m g others t); [lia|exact Hon]|apply live_refl]|done].
Qed.

(** The edit of a list file is in force once the goroutine of the lists is idle
    again, and stays so, if no load takes longer than [debounce]. *)
Lemma edit_in_force t0 m k xs s te ev w1 cfg :
  D <= debounce ->
  live_steps (live_start t0 m k) xs s -> (te, Message (Received ev)) ∈ xs -> isListEvent ev = true ->
  (forall t, te <= t -> disk t = w1) -> Load yaml_Unmarshal w1 (mg_path m) = inr cfg ->
  lv_lists s = Waiting {| timerC := None |} -> current (lv_manager s) = cfg.
Proof.
  intros HD Hst Hin Hev Hdisk Hload Hl.
  assert (Hok : live_ok (mg_path m) te cfg False (live_start t0 m k)).
  { split; [done| |done]. cbn. apply Forall_replicate. exact I. }
  destruct (live_steps_ok (mg_path m) te w1 cfg Hdisk Hload HD _ _ _ Hst _ Hok) as [_ _ Hs].
  destruct Hs as [_ Hs]; [right; by exists ev|]. rewrite Hl in Hs. by destruct Hs.
Qed.

(** *** An edit that is lost *)

(** The disk before and after an edit at [te] *)
Definition edited (w0 w1 : world) (te : time) (t : time) : world := if t <? te then w0 else w1.

Lemma live_snoc s1 xs s2 x s3 : live_steps s1 xs s2 -> live_step s2 x s3 -> live_steps s1 (xs ++ [x]) s3.
Proof. intros Hs Hx. eapply live_steps_app; [exact Hs|]. eapply live_cons; [exact Hx|apply live_refl]. Qed.

End Live.

Section Lost.
Context `{Unicode} (yaml_Unmarshal : string -> Config.Config -> string + Config.Config).
Context (hasOnReload hasOnError : bool) (D : duration).

(** (C34) A slow reload undoes an edit.  If a load may take longer than [debounce], a
    reload of another goroutine -- a sync loop, say -- that read the disk just
    before the edit of a list file can store after the goroutine of the lists
    has: all are idle, the edit was noticed, the disk holds it, and the
    configuration in force is the one from before it. *)
Theorem overlapping_reload_loses_edit t0 m k w0 w1 te ev cfg0 cfg1 :
  debounce < D -> t0 < te -> isListEvent ev = true ->
  Load yaml_Unmarshal w0 (mg_path m) = inr cfg0 -> Load yaml_Unmarshal w1 (mg_path m) = inr cfg1 ->
  exists xs s, live_steps yaml_Unmarshal hasOnReload hasOnError (edited w0 w1 te) D (live_start t0 m (S k)) xs s /\
    (te, Message (Received ev)) ∈ xs /\
    lv_lists s = Waiting {| timerC := None |} /\ lv_others s = replicate (S k) Idle /\
    current (lv_manager s) = cfg0.
Proof.
  intros HD Ht Hev H0' H1'.
  assert (Hold : edited w0 w1 te (te - 1) = w0) by (unfold edited; by rewrite (proj2 (Z.ltb_lt _ _)) by lia).
  assert (Hnew : edited w0 w1 te (te + debounce) = w1)
    by (unfold edited, debounce; by rewrite (proj2 (Z.ltb_ge _ _)) by lia).
  set (o := Loaded (te - 1) cfg0 :: replicate k Idle).
  assert (Ho : forall now, now <= te + debounce -> Forall (in_time D now) o).
  { intros now Hn. constructor; [cbn; lia|]. by apply Forall_replicate. }
  assert (Hin : in_time D (te + debounce) (Loaded (te + debounce) cfg1)) by (cbn; unfold debounce in HD; lia).
  pose proof (live_other yaml_Unmarshal hasOnReload hasOnError (edited w0 w1 te) D t0 m (Waiting {| timerC := None |})
    (replicate (S k) Idle) (te - 1) 0 Idle ltac:(lia)) as S1.
  pose proof (live_message yaml_Unmarshal hasOnReload hasOnError (edited w0 w1 te) D (te - 1) m {| timerC := None |} o te
    (Received ev) ltac:(lia) (conj I (Ho te ltac:(unfold debounce; lia))) I) as S2.
  pose proof (live_message yaml_Unmarshal hasOnReload hasOnError (edited w0 w1 te) D te m (arm te) o (te + debounce)
    Fired ltac:(unfold debounce; lia) (conj I (Ho (te + debounce) (Z.le_refl _))) ltac:(exists (te + debounce); split; [done|lia])) as S3.
  pose proof (live_stores yaml_Unmarshal hasOnReload hasOnError (edited w0 w1 te) D (te + debounce) m (Loaded (te + debounce) cfg1)
    o (te + debounce) (Z.le_refl _) (conj Hin (Ho (te + debounce) (Z.le_refl _)))) as S4.
  pose proof (live_other yaml_Unmarshal hasOnReload hasOnError (edited w0 w1 te) D (te + debounce)
    (reload_section yaml_Unmarshal (edited w0 w1 te (te + debounce)) (te + debounce) m (Loaded (te + debounce) cfg1)).1
    (Waiting {| timerC := None |}) o (te + debounce) 0 (Loaded (te - 1) cfg0) (Z.le_refl _) (conj I (Ho (te + debounce) (Z.le_refl _))) eq_refl) as S5.
  cbn [lists_turn lists_select fst] in S2, S3. rewrite Hev in S2.
  unfold reload_section in S1, S3. rewrite Hold, H0' in S1. rewrite Hnew, H1' in S3. cbn [fst snd] in S1, S3.
  specialize (S1 ltac:(split; [done|by apply Forall_replicate]) eq_refl).
  do 2 eexists. split.
  - eapply live_cons; [exact S1|]. eapply live_cons; [exact S2|]. eapply live_cons; [exact S3|].
    eapply live_cons; [exact S4|]. eapply live_cons; [exact S5|]. apply live_refl.
  - split; [right; left|]. done.
Qed.

End Lost.

(** ** An edit and the requests after it *)

Section Refusal.
Context `{Unicode} `{Regexp} `{MapIter} `{Float64} `{LRU RespCache.Entry} `{LRU Protect.bucket}.
Context {R T : Type} `{Store R} `{Tracker T} `{SessionEvaluator T}.
Context (zstd : list (string * RespCache.read_err) -> list (string * RespCache.read_err)).
Context (yaml_Unmarshal : string -> Config.Config -> string + Config.Config).
Context (hasOnReload hasOnError : bool) (disk : time -> world) (D : duration).

(** What the files under the directory of the blocklist say is in the compiled
    list. *)
Lemma Load_blocklist w path cfg n f data line q client_ a :
  Load yaml_Unmarshal w path = inr cfg ->
  tree w (al_Dir (Blocklist cfg)) = Some n -> al_Dir (Blocklist cfg) <> "" ->
  (f, Some data) ∈ walk_files (al_Dir (Blocklist cfg)) n -> EqualFold (Ext f) ".ips" = true ->
  line ∈ readListFile data -> entry_net line = Some q -> ParseAddr client_ = Some a -> in_block q (Unmap a) ->
  Config.Blocklisted cfg client_ = true.
Proof.
  unfold Load. destruct (file w path) as [y|]; [|done]. destruct (yaml_Unmarshal y Default) as [e|c0]; [done|].
  destruct (validate c0); [done|]. intros [= <-] Ht Hd Hf He Hl Hq Ha Hb.
  unfold Config.Blocklisted. unfold compileAccessLists in *. 
  destruct (parsePrefixes "whitelist" _) as [wl ws1] eqn:E1. destruct (parsePrefixes "blocklist" _) as [bl ws2] eqn:E2.
  destruct (parsePrefixes "trusted_proxies" _) as [tp ws3] eqn:E3. cbn in *.
  change bl with (bl, ws2).1. rewrite <- E2. apply matchAny_spec. exists a, line, q. split_and!; try done.
  apply elem_of_app. right. unfold readListDir. rewrite (proj2 (String.eqb_neq _ _)) by done. rewrite Ht.
  apply list_elem_of_In, in_flat_map. exists (f, Some data). rewrite <- !list_elem_of_In. split; [done|]. cbn. by rewrite He.
Qed.

(** (C33) A client that is added to a list file on the host is refused without a
    restart.  Once the event of an edit under the directory of the blocklist
    has been received, the goroutine of the lists gets back to its [select] with
    nothing more from outside; and whenever it is there with no timer set, a
    request of a client in the block of a line of a list file on the disk gets a
    403 and does not reach the backend -- whatever other goroutines reload the
    configuration, if no load takes longer than [debounce]. *)
Theorem edited_blocklist_refuses t0 m k xs s te ev w1 cfg n f data line q ip a :
  0 <= D <= debounce ->
  live_steps yaml_Unmarshal hasOnReload hasOnError disk D (live_start t0 m k) xs s ->
  (te, Message (Received ev)) ∈ xs -> isListEvent ev = true ->
  (forall t, te <= t -> disk t = w1) -> Load yaml_Unmarshal w1 (mg_path m) = inr cfg ->
  tree w1 (al_Dir (Blocklist cfg)) = Some n -> al_Dir (Blocklist cfg) <> "" ->
  (f, Some data) ∈ walk_files (al_Dir (Blocklist cfg)) n -> EqualFold (Ext f) ".ips" = true ->
  line ∈ readListFile data -> entry_net line = Some q -> ParseAddr ip = Some a -> in_block q (Unmap a) ->
  Config.Whitelisted cfg ip = false ->
  (lv_lists s <> Returned -> exists ys s', Forall own_turn ys /\
     live_steps yaml_Unmarshal hasOnReload hasOnError disk D s ys s' /\ lv_lists s' = Waiting {| timerC := None |}) /\
  (forall ys s', live_steps yaml_Unmarshal hasOnReload hasOnError disk D s ys s' ->
     lv_lists s' = Waiting {| timerC := None |} ->
     forall e p (sv : server (R := R) (T := T)) r, p_cfg p = Config.Get (lv_manager s') -> client p r = ip ->
       let '(d, _) := serve zstd e p sv r in
       sd_result d = Ret tt /\ sd_out d = [] /\ status (sd_writer d) = Some StatusForbidden).
Proof.
  intros [HD0 HD] Hs Hin Hev Hdisk Hload Ht Hdir Hf Hext Hline Hq Ha Hb Hw. split.
  - intros Hr. apply idle_again; [done| |done]. eapply live_steps_on_time; [done|exact Hs|apply start_on_time].
  - intros ys s' Hs' Hl e p sv r Hp Hc.
    assert (Hcur : current (lv_manager s') = cfg).
    { eapply (edit_in_force yaml_Unmarshal hasOnReload hasOnError disk D t0 m k (xs ++ ys));
        [done|by eapply live_steps_app|apply elem_of_app; by left|done..]. }
    pose proof (refused_lemma zstd e p sv r) as Href. rewrite Hc in Href.
    replace (p_cfg p) with cfg in Href by (rewrite Hp; symmetry; exact Hcur).
    specialize (Href Hw (or_introl (Load_blocklist _ _ _ _ _ _ _ _ _ _ Hload Ht Hdir Hf Hext Hline Hq Ha Hb))).
    destruct (serve zstd e p sv r) as [d sv']. tauto.
Qed.

End Refusal.
