(* ===== verification/LiveExamples.v ===== *)
(** * Witnesses: an edit of the blocklist while others reload

    The steps of [Live.v] executed on a small disk: an edit that sticks although
    a sync loop stores an older configuration in between, and one that a slow
    sync loop undoes. *)

From S2P Require Import ProxyExamples Live Visit.

#[local] Existing Instance ascii_only.
#[local] Existing Instance PathRegexp.regexp.
#[local] Existing Instance ListLru.list_lru.
#[local] Existing Instance ListLru.list_lru_laws.
#[local] Existing Instance Rationals.rationals.
#[local] Existing Instance ReputationExamples.MemBolt.
#[local] Existing Instance ReputationExamples.BitsJSON.
#[local] Existing Instance ProxyExamples.listed.

(** ** Execution *)

Section Execution.
Context `{Unicode} (yaml_Unmarshal : string -> Config.Config -> string + Config.Config).
Context (hasOnReload hasOnError : bool) (disk : time -> world) (D : duration).

Definition in_timeb (now : time) (g : reloader) : bool :=
  match g with Idle => true | Loaded at_ _ => now <=? at_ + D end.

Definition punctualb (now : time) (ls : lists_goroutine) (others : list reloader) : bool :=
  match ls with Reloading g => in_timeb now g | _ => true end && forallb (in_timeb now) others.

Definition readyb (now : time) (msg : message) (l : loop) : bool :=
  match msg with Fired => match timerC l with Some d => d <=? now | None => false end | _ => true end.

Definition live_exec (s : live_state) (x : time * turn) : option live_state :=
  let '(now, tn) := x in
  if negb ((lv_clock s <=? now) && punctualb now (lv_lists s) (lv_others s)) then None else
  match tn, lv_lists s with
  | Message msg, Waiting l =>
      if readyb now msg l
      then Some {| lv_clock := now; lv_manager := lv_manager s;
                   lv_lists := lists_turn yaml_Unmarshal hasOnReload hasOnError disk now (lv_manager s) l msg;
                   lv_others := lv_others s |}
      else None
  | Stores, Reloading g =>
      Some {| lv_clock := now; lv_manager := (reload_section yaml_Unmarshal (disk now) now (lv_manager s) g).1;
              lv_lists := Waiting {| timerC := None |}; lv_others := lv_others s |}
  | Other i, ls =>
      match lv_others s !! i with
      | Some g =>
          Some {| lv_clock := now; lv_manager := (reload_section yaml_Unmarshal (disk now) now (lv_manager s) g).1;
                  lv_lists := ls;
                  lv_others := <[i := (reload_section yaml_Unmarshal (disk now) now (lv_manager s) g).2]> (lv_others s) |}
      | None => None
      end
  | _, _ => None
  end.

Fixpoint live_run (s : live_state) (xs : list (time * turn)) : option live_state :=
  match xs with [] => Some s | x :: xs => s' ← live_exec s x; live_run s' xs end.

Lemma in_timeb_ok now g : in_timeb now g = true -> in_time D now g.
Proof. destruct g; [done|]. cbn. lia. Qed.

Lemma punctualb_ok now ls others : punctualb now ls others = true -> punctual D now ls others.
Proof.
  intros [Hl Ho]%andb_true_iff. split; [destruct ls; [done|by apply in_timeb_ok|done]|].
  apply Forall_forall. intros g Hg%list_elem_of_In. apply in_timeb_ok. rewrite forallb_forall in Ho. by apply Ho.
Qed.

Lemma live_exec_step s x s' : live_exec s x = Some s' -> live_step yaml_Unmarshal hasOnReload hasOnError disk D s x s'.
Proof.
  destruct s as [t m ls others], x as [now tn]. unfold live_exec. cbn [lv_clock lv_manager lv_lists lv_others].
  destruct (t <=? now) eqn:Et; [|done]. destruct (punctualb now ls others) eqn:Ep; [|done]. apply punctualb_ok in Ep.
  apply Z.leb_le in Et. cbn [andb negb]. destruct tn as [msg| |i].
  - destruct ls as [l| |]; try done. destruct (readyb now msg l) eqn:Er; [|done]. intros [= <-]. apply live_message; try done.
    destruct msg; try done. cbn in *. destruct (timerC l) as [d|]; [|done]. exists d. split; [done|lia].
  - destruct ls as [|g|]; try done. intros [= <-]. by apply live_stores.
  - destruct (others !! i) as [g|] eqn:Ei; [|by destruct ls].
    pose proof (live_other yaml_Unmarshal hasOnReload hasOnError disk D t m ls others now i g Et Ep Ei) as Hs.
    intros E. destruct ls; injection E as <-; exact Hs.
Qed.

Lemma live_run_steps xs : forall s s', live_run s xs = Some s' -> live_steps yaml_Unmarshal hasOnReload hasOnError disk D s xs s'.
Proof.
  induction xs as [|x xs IH]; intros s s' E; cbn in E; [injection E as <-; apply live_refl|].
  destruct (live_exec s x) as [s1|] eqn:E1; [|done]. eapply live_cons; [by apply live_exec_step|by apply IH].
Qed.

End Execution.

(** ** The disk *)

Definition blocklist_file : string := "203.0.113.0/24 # scanners".

Definition disk0 : world := {| file _ := Some ""; tree _ := None |}.
Definition disk1 : world := {|
  file _ := Some "";
  tree d := if d =?s "/etc/smoker/blocklist" then Some (Dir "blocklist" (Some [File "bad.ips" (Some blocklist_file)])) else None |}.

Definition yaml (s : string) (c : Config.Config) : string + Config.Config := inr c.

Definition manager0 : Config.Manager := {| mg_path := "/etc/smoker/config.yaml"; current := Config.Default; listeners := 0 |}.

Definition edit : Event := {| ev_Name := "/etc/smoker/blocklist/bad.ips"; ev_Op := WatchExamples.write_op |}.

(** A sync loop loads just before the edit, and stores in time. *)
Definition turns0 : list (time * turn) :=
  [(99, Other 0); (100, Message (Received edit)); (200, Other 0);
   (100 + debounce, Message Fired); (200 + debounce, Stores)].

Definition is_idle (s : live_state) : bool :=
  match lv_lists s with Waiting {| timerC := None |} => true | _ => false end.

Lemma is_idle_ok s : is_idle s = true -> lv_lists s = Waiting {| timerC := None |}.
Proof. unfold is_idle. by destruct (lv_lists s) as [[[]]| |]. Qed.

Lemma edited_blocklist_refuses_witness :
  exists s, live_steps yaml true true (edited disk0 disk1 100) debounce (live_start 0 manager0 1) turns0 s /\
    let d := (serve same ProxyExamples.e0 (shop (Config.Get (lv_manager s))) sv0 (ProxyExamples.get "203.0.113.7" "/")).1 in
    sd_out d = [] /\ status (sd_writer d) = Some 403.
Proof.
  assert (Hr : is_idle <$> live_run yaml true true (edited disk0 disk1 100) debounce (live_start 0 manager0 1) turns0 = Some true)
    by (vm_compute; reflexivity).
  destruct (live_run yaml true true (edited disk0 disk1 100) debounce (live_start 0 manager0 1) turns0) as [s|] eqn:E;
    [|discriminate Hr].
  injection Hr as Hr. apply live_run_steps in E. exists s. split; [exact E|].
  destruct (Load yaml disk1 "/etc/smoker/config.yaml") as [err|cfg] eqn:El; [discriminate El|].
  assert (Hcfg : Config.Whitelisted cfg "203.0.113.7" = false /\
      tree disk1 (al_Dir (Blocklist cfg)) = Some (Dir "blocklist" (Some [File "bad.ips" (Some blocklist_file)])) /\
      al_Dir (Blocklist cfg) = "/etc/smoker/blocklist").
  { assert (Ec : cfg = match Load yaml disk1 "/etc/smoker/config.yaml" with inr c => c | inl _ => Config.Default end)
      by (rewrite El; reflexivity).
    rewrite Ec. vm_compute. split_and!; reflexivity. }
  destruct Hcfg as (Hw & Ht & Hd).
  destruct (entry_net "203.0.113.0/24") as [q|] eqn:Eq; [|discriminate Eq].
  destruct (ParseAddr "203.0.113.7") as [a|] eqn:Ea; [|discriminate Ea].
  assert (Hb : in_block q (Unmap a)).
  { vm_compute in Eq, Ea. injection Eq as <-. injection Ea as <-. vm_compute. split_and!; try reflexivity; discriminate. }
  destruct (edited_blocklist_refuses same yaml true true (edited disk0 disk1 100) debounce 0 manager0 1 turns0 s 100 edit disk1 cfg
    (Dir "blocklist" (Some [File "bad.ips" (Some blocklist_file)])) "/etc/smoker/blocklist/bad.ips" blocklist_file
    "203.0.113.0/24" q "203.0.113.7" a) as [_ Href].
  - split; [vm_compute; discriminate|apply Z.le_refl].
  - exact E.
  - right. left.
  - reflexivity.
  - intros t Hle. unfold edited. apply Z.ltb_ge in Hle. rewrite Hle. reflexivity.
  - exact El.
  - exact Ht.
  - rewrite Hd. discriminate.
  - rewrite Hd. vm_compute. left.
  - reflexivity.
  - vm_compute. left.
  - exact Eq.
  - exact Ea.
  - exact Hb.
  - exact Hw.
  - specialize (Href [] s (live_refl _ _ _ _ _ s) (is_idle_ok s Hr) ProxyExamples.e0 (shop (Config.Get (lv_manager s))) sv0
      (ProxyExamples.get "203.0.113.7" "/") eq_refl).
    assert (Hc : client (shop (Config.Get (lv_manager s))) (ProxyExamples.get "203.0.113.7" "/") = "203.0.113.7").
    { assert (Hm : current (lv_manager s) = cfg).
      { eapply (edit_in_force yaml true true (edited disk0 disk1 100) debounce 0 manager0 1 turns0 s 100 edit disk1 cfg);
          [apply Z.le_refl|exact E|right; left|reflexivity| |exact El|exact (is_idle_ok s Hr)].
        intros t Hle. unfold edited. apply Z.ltb_ge in Hle. rewrite Hle. reflexivity. }
      unfold Config.Get. rewrite Hm.
      assert (Ec : cfg = match Load yaml disk1 "/etc/smoker/config.yaml" with inr c => c | inl _ => Config.Default end)
        by (rewrite El; reflexivity).
      rewrite Ec. vm_compute. reflexivity. }
    specialize (Href Hc). destruct (serve _ _ _ _ _) as [d sv']. cbn. destruct Href as (_ & Ho & Hst). split; [exact Ho|exact Hst].
Defined.

Lemma overlapping_reload_loses_edit_witness :
  exists cfg0 cfg1 s, Config.Blocklisted cfg0 "203.0.113.7" = false /\ Config.Blocklisted cfg1 "203.0.113.7" = true /\
    Load yaml disk1 "/etc/smoker/config.yaml" = inr cfg1 /\
    lv_lists s = Waiting {| timerC := None |} /\ current (lv_manager s) = cfg0.
Proof.
  destruct (Load yaml disk0 "/etc/smoker/config.yaml") as [err|cfg0] eqn:E0; [discriminate E0|].
  destruct (Load yaml disk1 "/etc/smoker/config.yaml") as [err|cfg1] eqn:E1; [discriminate E1|].
  destruct (overlapping_reload_loses_edit yaml true true Second 0 manager0 0 disk0 disk1 100 edit cfg0 cfg1)
    as (xs & s & _ & _ & Hl & _ & Hc).
  - reflexivity.
  - reflexivity.
  - reflexivity.
  - exact E0.
  - exact E1.
  - exists cfg0, cfg1, s.
    assert (Ec0 : cfg0 = match Load yaml disk0 "/etc/smoker/config.yaml" with inr c => c | inl _ => Config.Default end)
      by (rewrite E0; reflexivity).
    assert (Ec1 : cfg1 = match Load yaml disk1 "/etc/smoker/config.yaml" with inr c => c | inl _ => Config.Default end)
      by (rewrite E1; reflexivity).
    split_and!; [rewrite Ec0; vm_compute; reflexivity|rewrite Ec1; vm_compute; reflexivity|reflexivity|exact Hl|exact Hc].
Defined.

(** ** One request by itself *)

Lemma request_is_a_visit_witness :
  exists delivered f, leads rules (session_key p0 (ProxyExamples.get "192.0.2.1" "/"))
      (opened (ct_tracker (sv_tracker sv0))) (visit_moves ProxyExamples.e0 (ProxyExamples.get "192.0.2.1" "/") delivered) f /\
    fl_delivered f = (if delivered then 1 else 0)%nat /\ delivered = true.
Proof.
  assert (Ha : acquitted ProxyExamples.e0 p0 sv0 (ProxyExamples.get "192.0.2.1" "/")) by acquitted.
  pose proof (request_is_a_visit same ProxyExamples.e0 p0 sv0 (ProxyExamples.get "192.0.2.1" "/")) as Hv.
  specialize (Hv Ha). assert (Hc : cached ProxyExamples.e0 p0 sv0 (ProxyExamples.get "192.0.2.1" "/") = None)
    by (vm_compute; reflexivity).
  specialize (Hv Hc).
  assert (Hr : sd_result (serve same ProxyExamples.e0 p0 sv0 (ProxyExamples.get "192.0.2.1" "/")).1 = Ret tt)
    by (vm_compute; reflexivity).
  destruct (serve same ProxyExamples.e0 p0 sv0 (ProxyExamples.get "192.0.2.1" "/")) as [d sv'].
  destruct Hv as (delivered & f & Hl & _ & _ & Hd & Hn). exists delivered, f. split; [exact Hl|]. split; [exact Hn|].
  apply Hd. exact Hr.
Defined.
