(* ===== verification/Process.v ===== *)
(** * The process ([cmd/smoker/main.go])

    From the command line to the exit: what [main] chooses to do, what [run]
    sets up besides the request pipeline of [System] -- certificates, listeners,
    the redirect --, what happens to it while it runs, and what it leaves
    behind.  A process that is killed has no shutdown: its life just ends. *)

From S2P Require Export Tls.
From S2P Require Export System.

(** ** The command line *)

Record flags := { fl_config : string; fl_noFirewall : bool; fl_version : bool; fl_init : bool }.

(** What a process has printed, and its exit code *)
Record exited := { ex_stdout : list string; ex_stderr : list string; ex_code : Z }.

Definition succeeded (out : list string) : exited := {| ex_stdout := out; ex_stderr := []; ex_code := 0 |}.
Definition failed (out : list string) (e : string) : exited :=
  {| ex_stdout := out; ex_stderr := ["smoker: " +:+ e]; ex_code := 1 |}.

Definition oserr_text (e : oserr) : string :=
  match e with NotExist => "file does not exist" | FileSys.Failed e => e end.

(** [doInit], on what [bootstrap.Install] returns: the lines and the error *)
Definition doInit (cfgPath : string) (installed : Report * option oserr) : list string * option string :=
  match installed with
  | (_, Some e) => ([], Some ("init: " +:+ oserr_text e))
  | (r, None) =>
      ((if bool_decide (r_Files r = []) then []
        else ("smoker: created " +:+ Itoa (Z.of_nat (length (r_Files r))) +:+ " data file(s):")
             :: map (fun f => "   " +:+ f) (r_Files r)) ++
       (if r_Binary r =?s "" then [] else ["smoker: installed binary -> " +:+ r_Binary r]) ++
       [if r_UnitWritten r then "smoker: installed systemd unit -> " +:+ r_Unit r
        else "smoker: systemd unit already present -> " +:+ r_Unit r] ++
       [""; "Next steps:"; "  1) edit " +:+ cfgPath +:+ " and set challenge.secret";
        "  2) systemctl daemon-reload"; "  3) systemctl enable --now smoker"], None)
  end.

(** [main]: [install] and [run] are called only where the flags ask for it. *)
Definition main (version : string) (fl : flags) (install : string -> Report * option oserr)
    (run : string -> bool -> option string) : exited :=
  if fl_version fl then succeeded ["smoker " +:+ version]
  else if fl_init fl then
    match doInit (fl_config fl) (install (fl_config fl)) with
    | (out, Some e) => failed out e
    | (out, None) => succeeded out
    end
  else
    match run (fl_config fl) (fl_noFirewall fl) with
    | Some e => failed [] e
    | None => succeeded []
    end.

(** ** The listeners *)

(** [httpSrv] and [httpsSrv]; the handler of the latter may be wrapped. *)
Record http_server := { srv_Addr : string; srv_TLS : bool; srv_AltSvc : option http3_config }.

Definition servers (cfg : Config.Config) : list http_server :=
  [{| srv_Addr := ln_HTTP (Listen cfg); srv_TLS := false; srv_AltSvc := None |};
   {| srv_Addr := ln_HTTPS (Listen cfg); srv_TLS := true; srv_AltSvc := http3_listener cfg |}].

(** [altSvcHandler]: [SetQUICHeaders] is that of the HTTP/3 server. *)
Definition altSvcHandler {W R A} (SetQUICHeaders : W -> W) (next : W -> R -> A) (w : W) (r : R) : A :=
  next (SetQUICHeaders w) r.

(** The end of a server's goroutine: a log line unless it was shut down. *)
Inductive listen_error := ErrServerClosed | ListenFailed (e : string).

Definition server_ended (name : string) (err : option listen_error) : list (string * string) :=
  match err with
  | Some (ListenFailed e) => [(name +:+ " server", e)]
  | _ => []
  end.

(** ** The process *)

Section Process.
Context `{Unicode} `{Regexp} `{MapIter} `{Float64}.
Context `{LRU Session.record} `{LRU RespCache.Entry} `{LRU Protect.bucket} `{BoltDB} `{EntryJSON}.
Context (zstd : list (string * RespCache.read_err) -> list (string * RespCache.read_err)).
Context (template_Unmarshal : string -> string + Template).
Context (config_Unmarshal : string -> Config.Config -> string + Config.Config).
Context `{OpenFaults} `{NativeEndian} {C : Type} `{NftConn C}.
Context {Certificate ClientHelloInfo : Type}.
(** [GetCertificate] of an autocert manager *)
Context (autocert_GetCertificate : autocert -> ClientHelloInfo -> string + Certificate).

(** What the certificate store reads from disk *)
Record cert_disk := {
  cd_Glob : string -> list string;
  cd_ReadFile : string -> option string;
  cd_LoadX509KeyPair : string -> string -> string + Certificate;
}.

Record process := {
  pr_boot : Config.Config;
  pr_sys : system;
  pr_certs : CertStore Certificate ClientHelloInfo;
  pr_fw : option (nftController C);
  pr_logs : Loggers * os_state;
  pr_errors : list (string * string);
}.

Definition load_certs (d : cert_disk) (cfg : Config.Config) (s : CertStore Certificate ClientHelloInfo) :
    CertStore Certificate ClientHelloInfo :=
  (Tls.Reload (cd_Glob d) (cd_ReadFile d) (cd_LoadX509KeyPair d)
     (tls_NginxSitesGlob (TLS cfg)) (tls_ApacheSitesGlob (TLS cfg)) s).1.1.

(** [run] after the start-up of the parts: [cfg] is read once and kept. *)
Definition boot (pt : parts (L := Loggers)) (now : time) (os : os_state) (d : cert_disk)
    (noFirewall : bool) (newConn : string + C) : process * list fw_log :=
  let cfg := Config.Get (pt_config pt) in
  let t := TLS cfg in
  let certs := load_certs d cfg NewCertStore in
  let certs := if tls_AutocertEnabled t
               then SetAutocert (autocert_GetCertificate
                 (NewAutocert (tls_AutocertCacheDir t) (tls_AutocertEmail t) (tls_AutocertDomains t))) certs
               else certs in
  let '(fw, log) := start_firewall cfg noFirewall newConn in
  ({| pr_boot := cfg; pr_sys := New pt now; pr_certs := certs; pr_fw := fw;
      pr_logs := (pt_logs pt, os); pr_errors := [] |}, log).

(** What happens to a running process.  A SIGHUP comes with the order in which
    [Reopen] meets the log files. *)
Inductive happening :=
| Life (ev : event) (d : cert_disk)
| ServerEnded (name : string) (err : option listen_error)
| Signal (s : signal) (order : list string).

Definition with_sys (p : process) (s : system) (certs : CertStore Certificate ClientHelloInfo) : process := {|
  pr_boot := pr_boot p; pr_sys := s; pr_certs := certs; pr_fw := pr_fw p; pr_logs := pr_logs p;
  pr_errors := pr_errors p |}.

(** The events of the request pipeline.  The callback of [cfgMgr.Watch], which
    runs after a successful reload only, also reloads the certificates. *)
Definition pipeline_event (p : process) (ev : event) (d : cert_disk) : list answered * process :=
  let '(a, s) := System.step zstd template_Unmarshal config_Unmarshal (pr_sys p) ev in
  let certs :=
    match ev with
    | ConfigChanged w =>
        match Config.Reload config_Unmarshal w (sy_config (pr_sys p)) with
        | (Some _, _, _) => pr_certs p
        | (None, m, _) => load_certs d (Config.Get m) (pr_certs p)
        end
    | _ => pr_certs p
    end in
  (a, with_sys p s certs).

Definition with_logs (p : process) (x : Loggers * os_state) : process := {|
  pr_boot := pr_boot p; pr_sys := pr_sys p; pr_certs := pr_certs p; pr_fw := pr_fw p; pr_logs := x;
  pr_errors := pr_errors p |}.

Definition log_errors (p : process) (l : list (string * string)) : process := {|
  pr_boot := pr_boot p; pr_sys := pr_sys p; pr_certs := pr_certs p; pr_fw := pr_fw p; pr_logs := pr_logs p;
  pr_errors := pr_errors p ++ l |}.

Definition with_fw (p : process) (fw : option (nftController C)) : process := {|
  pr_boot := pr_boot p; pr_sys := pr_sys p; pr_certs := pr_certs p; pr_fw := fw; pr_logs := pr_logs p;
  pr_errors := pr_errors p |}.

(** The process until the first signal that ends it, and what its shutdown
    logs about the redirect; [None] if the process is not shut down: it is
    still running, or was killed. *)
Fixpoint live (p : process) (l : list happening) : list answered * process * option (list fw_log) :=
  match l with
  | [] => ([], p, None)
  | Life ev d :: l =>
      let '(a, p) := pipeline_event p ev d in
      let '(b, p, o) := live p l in (a ++ b, p, o)
  | ServerEnded name err :: l => live (log_errors p (server_ended name err)) l
  | Signal SIGHUP order :: l =>
      let r := Reopen order (pr_logs p).1 (pr_logs p).2 in live (with_logs p (r.1.2, r.2)) l
  | Signal _ _ :: _ =>
      let '(fw, log) := shutdown (pr_boot p) (pr_fw p) in ([], with_fw p fw, Some log)
  end.

Definition ends (h : happening) : bool :=
  match h with Signal SIGHUP _ => false | Signal _ _ => true | _ => false end.

(** The events of the pipeline before the end *)
Fixpoint events (l : list happening) : list event :=
  match l with
  | [] => []
  | h :: l => if ends h then [] else match h with Life ev _ => ev :: events l | _ => events l end
  end.

(** ** Lemmas *)

(** The pipeline of the process is that of [System]. *)
Lemma live_system l : forall p, let '(a, p', _) := live p l in
  (a, pr_sys p') = System.run zstd template_Unmarshal config_Unmarshal (pr_sys p) (events l).
Proof.
  induction l as [|[ev d|name err|[] order] l IH]; intros p; try done.
  - cbn [live events ends]. unfold pipeline_event. cbn [System.run].
    destruct (System.step _ _ _ (pr_sys p) ev) as [a s] eqn:E.
    match goal with |- context [with_sys p s ?c] => specialize (IH (with_sys p s c)) end.
    destruct (live _ l) as [[b p'] o]. cbn [with_sys pr_sys] in IH. by destruct (System.run _ _ _ s (events l)); simplify_eq.
  - apply (IH (log_errors p _)).
  - cbn [live events ends]. cbv zeta.
    apply (IH (with_logs p ((Reopen order (pr_logs p).1 (pr_logs p).2).1.2, (Reopen order (pr_logs p).1 (pr_logs p).2).2))).
  - cbn. by destruct (shutdown _ _).
  - cbn. by destruct (shutdown _ _).
Qed.

(** What only the end of the process changes, and what nothing changes *)
Lemma live_frame l : forall p, let '(_, p', o) := live p l in
  pr_boot p' = pr_boot p /\
  (o = None <-> existsb ends l = false) /\
  match o with
  | None => pr_fw p' = pr_fw p
  | Some log => shutdown (pr_boot p) (pr_fw p) = (pr_fw p', log)
  end /\
  (streams_ok (pr_logs p).1 (pr_logs p).2 -> streams_ok (pr_logs p').1 (pr_logs p').2).
Proof.
  induction l as [|[ev d|name err|[] order] l IH]; intros p; try done.
  - cbn [live existsb ends orb]. destruct (pipeline_event p ev d) as [a q] eqn:E.
    assert (Eq : pr_boot q = pr_boot p /\ pr_fw q = pr_fw p /\ pr_logs q = pr_logs p).
    { unfold pipeline_event in E. destruct (System.step _ _ _ _ _). by injection E as _ <-. }
    destruct Eq as (Eb & Ef & El). specialize (IH q). destruct (live q l) as [[b p'] o].
    by rewrite Eb, Ef, El in IH.
  - apply (IH (log_errors p _)).
  - cbn [live existsb ends orb]. cbv zeta.
    set (r := Reopen order (pr_logs p).1 (pr_logs p).2). specialize (IH (with_logs p (r.1.2, r.2))).
    destruct (live _ l) as [[b p'] o]. destruct IH as (? & ? & ? & Hl). split_and!; [done..|].
    intros Hok. apply Hl. cbn. subst r. destruct (Reopen order _ _) as [[err l'] os'] eqn:E. by eapply Reopen_ok.
  - cbn. by destruct (shutdown _ _).
  - cbn. by destruct (shutdown _ _).
Qed.

(** ** What a change of the configuration reaches *)

Lemma step_rest (s : system) ev :
  sy_secret (System.step zstd template_Unmarshal config_Unmarshal s ev).2 = sy_secret s /\
  sy_challenge (System.step zstd template_Unmarshal config_Unmarshal s ev).2 = sy_challenge s.
Proof.
  destruct ev as [e r|w|w|w]; cbn; try done.
  - by destruct (serve _ _ _ _ _).
  - unfold config_changed. by destruct (Config.Reload _ _ _) as [[[]]].
Qed.

Lemma run_rest l : forall s : system,
  sy_secret (System.run zstd template_Unmarshal config_Unmarshal s l).2 = sy_secret s /\
  sy_challenge (System.run zstd template_Unmarshal config_Unmarshal s l).2 = sy_challenge s.
Proof.
  induction l as [|ev l IH]; intros s; [done|]. cbn [System.run].
  pose proof (step_rest s ev) as [E1 E2]. destruct (System.step _ _ _ s ev) as [a s1]. cbn [snd] in *.
  specialize (IH s1). destruct (System.run _ _ _ s1 l) as [b s2]. by rewrite <- E1, <- E2.
Qed.

(** Editing the configuration does not reach everything.  A valid configuration
    that replaces the old one while the process runs decides about the requests
    from then on, its templates are the rules, and its virtual hosts the
    certificates; one that cannot be loaded changes none of these.  But whatever
    is edited and however often, the thresholds and terms of the reputation
    manager, the secret, the challenge with its difficulty and time, the
    redirect and what becomes of it at the end are those of the start. *)
Theorem reload_scope pt now os d0 noFirewall newConn l w d :
  let cfg := Config.Get (pt_config pt) in
  let p0 := (boot pt now os d0 noFirewall newConn).1 in
  let p := (live p0 l).1.2 in
  let p' := (pipeline_event p (ConfigChanged w) d).2 in
  match Load config_Unmarshal w (mg_path (sy_config (pr_sys p))) with
  | inr c =>
      p_cfg (handler (pr_sys p')) = c /\
      p_sigs (handler (pr_sys p')) =
        Signatures (LoadDir template_Unmarshal (tp_Dir (Templates c)) (tree w (tp_Dir (Templates c)))) /\
      byName (pr_certs p') = byName (load_certs d c NewCertStore)
  | inl _ => handler (pr_sys p') = handler (pr_sys p) /\ pr_certs p' = pr_certs p
  end /\
  Reputation.cfg (sv_rep (sy_server (pr_sys p'))) = Reputation.cfg (pt_rep pt) /\
  p_challenge (handler (pr_sys p')) = pt_challenge pt /\ p_secret (handler (pr_sys p')) = pt_secret pt /\
  pr_boot p' = cfg /\ (existsb ends l = false -> pr_fw p' = (start_firewall cfg noFirewall newConn).1).
Proof.
  intros cfg p0 p p'.
  assert (Hp0 : pr_sys p0 = New pt now /\ pr_boot p0 = cfg /\ pr_fw p0 = (start_firewall cfg noFirewall newConn).1).
  { unfold p0, boot. fold cfg. by destruct (start_firewall _ _ _). }
  destruct Hp0 as (Es & Eb & Ef).
  pose proof (live_system l p0) as Hs. pose proof (live_frame l p0) as Hf. unfold p in *. clearbody p0.
  destruct (live p0 l) as [[a q] o]. cbn [fst snd] in *.
  destruct Hf as (Hb & Ho & Hfw & _). rewrite Es in Hs.
  assert (Eq : pr_sys q = (System.run zstd template_Unmarshal config_Unmarshal (New pt now) (events l)).2) by (by rewrite <- Hs).
  pose proof (run_rest (events l) (New pt now)) as [Hse Hch].
  pose proof (run_cfg zstd template_Unmarshal config_Unmarshal (events l) (New pt now)) as Hcfg.
  rewrite <- Eq in Hse, Hch, Hcfg.
  assert (Hfw' : existsb ends l = false -> pr_fw q = (start_firewall cfg noFirewall newConn).1).
  { intros E. apply Ho in E. rewrite E in Hfw. congruence. }
  unfold p', pipeline_event. cbn [System.step]. unfold config_changed, Config.Reload, load_rules.
  destruct (Load config_Unmarshal w _) as [e|c]; cbn; (split; [|by rewrite ?Hcfg, ?Hse, ?Hch, ?Hb, ?Eb]).
  - done.
  - split_and!; try done. unfold load_certs, Tls.Reload. by destruct (fold_left _ _ _).
Qed.

(** ** The end *)

Context `{!NftConnLaws C} `{!NftKernel, !NftKernelLaws}.

(** The kernel redirects the public IPv4 traffic as the configuration says. *)
Definition redirecting (cfg : Config.Config) (fw : nftController C) : Prop :=
  installed (firewall_options cfg) (kernel fw).

Lemma start_firewall_redirects cfg noFirewall k fw :
  conn_pending k = [] -> start_firewall cfg noFirewall (inr k) = (Some fw, [FwEnabled]) -> redirecting cfg fw.
Proof.
  intros Hk Hs. unfold start_firewall in Hs.
  destruct (fw_Enabled (Config.Firewall cfg) && negb noFirewall); [|done]. cbn [Firewall.New] in Hs.
  match type of Hs with context [EnableRedirect ?c] => set (fw0 := c) in * end.
  destruct (EnableRedirect_installs fw0 ltac:(by split)) as (_ & _ & Hr).
  destruct (EnableRedirect fw0) as [[e|] fw1]; cbn [fst snd] in Hr; injection Hs as <-; [done|].
  destruct Hr as (_ & _ & Hrules). exact Hrules.
Qed.

(** (C39) The end is as configured at the start.  The process ends itself exactly on
    the first SIGTERM or SIGINT -- no reload signal and no failing listener ends
    it --, and the log streams are open until then.  If the redirect was
    enabled, then at that end, with [firewall.fail_open] in the configuration
    the process was started with, the redirect is gone and the rest of the
    ruleset is as before the start, or an error was logged because netlink
    failed; without it, the kernel goes on redirecting.  In a process that has not ended itself, and
    also after it was killed, the kernel redirects, whatever the configuration
    says.  (Redirecting is as in [installed]: IPv4 only.) *)
Theorem the_end_is_as_configured pt now os d noFirewall k p log l :
  boot pt now os d noFirewall (inr k) = (p, log) -> conn_pending k = [] -> streams_ok (pt_logs pt) os ->
  let cfg := Config.Get (pt_config pt) in
  let '(_, p', o) := live p l in
  streams_ok (pr_logs p').1 (pr_logs p').2 /\
  (is_Some o <-> existsb ends l = true) /\
  (log = [FwEnabled] -> exists fw', pr_fw p' = Some fw' /\
     match o with
     | None => redirecting cfg fw'
     | Some log' =>
         if fw_FailOpen (Config.Firewall cfg)
         then (log' = [FwRemoved] /\ kernel fw' !! smoker_table = None /\
               forall t, t <> smoker_table -> kernel fw' !! t = conn_kernel k !! t) \/
              ((exists e, log' = [FwDisableFailed e]) /\ ~ netlink_reliable (C := C))
         else log' = [FwLeft] /\ redirecting cfg fw'
     end).
Proof.
  intros Hb Hk Hst cfg. unfold boot in Hb. fold cfg in Hb.
  destruct (start_firewall cfg noFirewall (inr k)) as [fw flog] eqn:Ef. injection Hb as <- <-.
  match goal with |- context [live ?x l] => pose proof (live_frame l x) as Hf; destruct (live x l) as [[a p'] o] end.
  cbn [pr_boot pr_fw pr_logs fst snd] in Hf. destruct Hf as (_ & Ho & Hfw & Hok).
  split; [by apply Hok|]. split.
  { destruct o as [x|].
    - split; [|by eauto]. intros _. destruct (existsb ends l); [done|]. specialize (proj2 Ho eq_refl). done.
    - rewrite (proj1 Ho eq_refl). split; [by intros [? ?]|done]. }
  intros ->. destruct fw as [fw|].
  2: { unfold start_firewall in Ef. repeat case_match; simplify_eq. }
  pose proof (start_firewall_redirects cfg noFirewall k fw Hk Ef) as Hr.
  destruct o as [log'|]; [|by eauto].
  pose proof Hfw as Hfw0. unfold shutdown in Hfw.
  destruct (fw_FailOpen (Config.Firewall cfg)) eqn:Eo.
  - assert (exists fw', pr_fw p' = Some fw') as [fw' E']
      by (destruct (DisableRedirect fw) as [[] ?]; simplify_eq; eauto).
    exists fw'. split; [done|]. rewrite E' in Hfw0.
    pose proof (shutdown_end_state cfg noFirewall k fw fw' _ _ Hk Ef Hfw0) as He. rewrite Eo in He.
    destruct He as [He|[He Hn]]; [by left|right; split; [exact He|by apply Hn]].
  - injection Hfw as <- <-. by exists fw.
Qed.

End Process.
