(* ===== verification/ProcessExamples.v ===== *)
(** * Witnesses: the shop's process

    The shop of [SystemExamples] with log files and a redirect: it serves, its
    configuration is edited, a listener fails, the logs are rotated, and it is
    stopped, or killed. *)

From S2P Require Import Process ProxyExamples SystemExamples.

#[local] Existing Instance ascii_only.
#[local] Existing Instance PathRegexp.regexp.
#[local] Existing Instance ListLru.list_lru.
#[local] Existing Instance ListLru.list_lru_laws.
#[local] Existing Instance Rationals.rationals.
#[local] Existing Instance ReputationExamples.MemBolt.
#[local] Existing Instance ReputationExamples.BitsJSON.
#[local] Existing Instance ProxyExamples.listed.
#[local] Existing Instance FirewallExamples.le.
#[local] Existing Instance FirewallExamples.kconn_ops.
#[local] Existing Instance FirewallExamples.kconn_laws.
#[local] Existing Instance FirewallExamples.reader.
#[local] Existing Instance FirewallExamples.reader_laws.
#[local] Existing Instance LoggingExamples.one_fault.

Definition shop_parts : parts (L := Loggers) :=
  up (startup template_yaml false None (Config.NewManager config_yaml disk0 "/etc/smoker/config.yaml") None
        (inr LoggingExamples.l1) None ProxyExamples.t0
        (fun _ => "0123456789abcdef") (fun _ => tree0 "/etc/smoker/templates") (fun _ _ => None)).

Definition no_certs : cert_disk (Certificate := string) := {|
  cd_Glob _ := []; cd_ReadFile _ := None; cd_LoadX509KeyPair _ _ := inl "none" |}.

Definition acme (m : autocert) (hello : string) : string + string := inl "no account".

#[local] Abbreviation booted :=
  (Process.boot acme shop_parts ProxyExamples.t0 LoggingExamples.os1 no_certs false (inr FirewallExamples.k0)).
#[local] Abbreviation lives := (live same template_yaml config_yaml booted.1).

(** A busy evening, and its end *)
Definition evening : list (happening (Certificate := string)) :=
  [Life (Request_ (at_ Second) (ProxyExamples.get "192.0.2.1" "/shell.php")) no_certs;
   ServerEnded "http3" (Some (ListenFailed "address in use"));
   Signal SIGHUP log_names; Life (ConfigChanged broken) no_certs].

Lemma booted_enabled : booted.2 = [FwEnabled].
Proof. vm_compute. reflexivity. Qed.

Lemma the_end_is_as_configured_witness :
  (exists fw', pr_fw (lives evening).1.2 = Some fw' /\ redirecting (Config.Get (pt_config shop_parts)) fw') /\
  (exists fw', pr_fw (lives (evening ++ [Signal SIGTERM []])).1.2 = Some fw' /\
     (lives (evening ++ [Signal SIGTERM []])).2 = Some [FwRemoved] /\ kernel fw' !! smoker_table = None).
Proof.
  pose proof booted_enabled as Hl.
  assert (Hfo : fw_FailOpen (Config.Firewall (Config.Get (pt_config shop_parts))) = true) by (vm_compute; reflexivity).
  split.
  - pose proof (the_end_is_as_configured same template_yaml config_yaml acme shop_parts ProxyExamples.t0
      LoggingExamples.os1 no_certs false FirewallExamples.k0 booted.1 booted.2 evening
      (surjective_pairing _) eq_refl LoggingExamples.l1_ok) as He.
    cbv zeta in He. destruct (lives evening) as [[a p'] o]. destruct He as (_ & [Ho _] & Hr).
    destruct (Hr Hl) as (fw' & E & Hr'). exists fw'. split; [exact E|].
    destruct o as [x|]; [|exact Hr']. discriminate (Ho (ex_intro _ x eq_refl)).
  - pose proof (the_end_is_as_configured same template_yaml config_yaml acme shop_parts ProxyExamples.t0
      LoggingExamples.os1 no_certs false FirewallExamples.k0 booted.1 booted.2 (evening ++ [Signal SIGTERM []])
      (surjective_pairing _) eq_refl LoggingExamples.l1_ok) as He.
    cbv zeta in He. destruct (lives (evening ++ [Signal SIGTERM []])) as [[a p'] o].
    destruct He as (_ & [_ Ho] & Hr). destruct (Ho eq_refl) as [x ->].
    destruct (Hr Hl) as (fw' & E & Hr'). exists fw'. split; [exact E|]. rewrite Hfo in Hr'.
    destruct Hr' as [(-> & Hk & _)|[_ Hn]]; [split; [reflexivity|exact Hk]|].
    destruct (Hn FirewallExamples.kconn_reliable).
Defined.

(** After the evening, a configuration that loads and one that does not *)
Lemma reload_scope_witness :
  let p := (lives evening).1.2 in
  p_secret (handler (pr_sys (pipeline_event same template_yaml config_yaml p (ConfigChanged disk0) no_certs).2)) =
    "0123456789abcdef" /\
  handler (pr_sys (pipeline_event same template_yaml config_yaml p (ConfigChanged broken) no_certs).2) =
    handler (pr_sys p) /\
  pr_fw (pipeline_event same template_yaml config_yaml p (ConfigChanged broken) no_certs).2 =
    (start_firewall (Config.Get (pt_config shop_parts)) false (inr FirewallExamples.k0)).1.
Proof.
  intros p.
  pose proof (reload_scope same template_yaml config_yaml acme shop_parts ProxyExamples.t0 LoggingExamples.os1
    no_certs false (inr FirewallExamples.k0) evening disk0 no_certs) as (_ & _ & _ & Hs & _).
  pose proof (reload_scope same template_yaml config_yaml acme shop_parts ProxyExamples.t0 LoggingExamples.os1
    no_certs false (inr FirewallExamples.k0) evening broken no_certs) as (Hb & _ & _ & _ & _ & Hf).
  cbv zeta in Hs, Hb, Hf. fold p in Hs, Hb, Hf.
  assert (El : match Load config_yaml broken (mg_path (sy_config (pr_sys p))) with inl _ => true | inr _ => false end = true)
    by (vm_compute; reflexivity).
  destruct (Load config_yaml broken (mg_path (sy_config (pr_sys p)))) as [e|c]; [|discriminate].
  split; [|split].
  - etransitivity; [exact Hs|]. vm_compute. reflexivity.
  - exact (proj1 Hb).
  - exact (Hf eq_refl).
Defined.

(** What the command line does *)
Example version_wins :
  main "1.2" {| fl_config := ""; fl_noFirewall := false; fl_version := true; fl_init := true |}
    (fun _ => ({| r_Files := []; r_Binary := ""; r_Unit := ""; r_UnitWritten := false |}, Some (FileSys.Failed "no")))
    (fun _ _ => Some "no") = succeeded ["smoker 1.2"].
Proof. reflexivity. Qed.
